(** * Sunflower lanyard firmware: a shallow embedding and its properties

    The development follows the MicroPython sources module by module:
    [touch_cal.py] (calibration table), [ui.py] (generic toolkit),
    [xpt2046.py] (touch digitizer), [mic_level.py] (ambient classifier),
    [ili9486.py] (display driver) and [main.py] (application controller).

    Python integers are unbounded, so they are [Z]; [//] is floor division,
    which is [Z.div]. Python floats are IEEE 754 binary64 numbers, so they
    are primitive floats, with the same rounding after every operation.
    Peripheral traffic is recorded as an explicit trace of bus events that
    every driver operation threads through. *)

From Stdlib Require Import PrimFloat.
From Stdlib Require Import String Ascii DecimalString.
From Stdlib Require Import ZArith List Bool Lia.
From Stdlib Require Import Sorting.Permutation Sorting.Sorted.
Import ListNotations.

(* A decimal float literal denotes the nearest binary64 number, as in
   Python. *)
Set Warnings "-inexact-float".

Local Open Scope Z_scope.

(* ===================================================================== *)
(** ** Python runtime conventions shared by all modules *)
(* ===================================================================== *)

Module Py.

(** The exceptions the modelled code paths can raise. *)
Inductive exn : Type :=
| AttributeError (obj attr : string)
| IndexError (what : string)
| TypeError (what : string).

(** A call either returns a value or raises. *)
Inductive result (A : Type) : Type :=
| Ok (a : A)
| Raise (e : exn).
Arguments Ok {A} a.
Arguments Raise {A} e.

Definition bind {A B} (r : result A) (k : A -> result B) : result B :=
  match r with
  | Ok a => k a
  | Raise e => Raise e
  end.

Definition is_ok {A} (r : result A) : bool :=
  match r with Ok _ => true | Raise _ => false end.

(** [seq[i]] with Python's index rules: a negative index counts from the
    end, anything outside [-len, len) raises [IndexError]. *)
Definition index {A} (l : list A) (i : Z) : option A :=
  let n := Z.of_nat (List.length l) in
  if (0 <=? i) && (i <? n) then nth_error l (Z.to_nat i)
  else if (- n <=? i) && (i <? 0) then nth_error l (Z.to_nat (n + i))
  else None.

(** [len(s)] as a Python integer. *)
Definition len {A} (l : list A) : Z := Z.of_nat (List.length l).

(** Builtin [min] and [max] on two integers. *)
Definition min (a b : Z) : Z := if b <? a then b else a.
Definition max (a b : Z) : Z := if a <? b then b else a.

End Py.

(* ===================================================================== *)
(** ** touch_cal.py *)
(* ===================================================================== *)

Module TouchCal.

(** The [CAL] dictionary: a fixed set of keys, read only. *)
Record Cal : Type := mkCal {
  RAW_X_LEFT : Z;
  RAW_X_RIGHT : Z;
  RAW_Y_TOP : Z;
  RAW_Y_BOT : Z;
  H : Z;
  W : Z;
  SWAP_XY : bool;
  FLIP_X : bool;
  FLIP_Y : bool;
  P_MAX : Z;
  SAMPLES : Z
}.

Definition CAL : Cal := {|
  RAW_X_LEFT := 332;
  RAW_X_RIGHT := 1616;
  RAW_Y_TOP := 284;
  RAW_Y_BOT := 1576;
  H := 320;
  W := 480;
  SWAP_XY := true;
  FLIP_X := true;
  FLIP_Y := false;
  P_MAX := 250;
  SAMPLES := 15
|}.

End TouchCal.

(* ===================================================================== *)
(** ** ui.py *)
(* ===================================================================== *)

Module Ui.

Definition clamp (v lo hi : Z) : Z :=
  if v <? lo then lo else if v >? hi then hi else v.

Definition map_range (v in_a in_b out_a out_b : Z) : Z :=
  if in_a =? in_b then out_a
  else out_a + (v - in_a) * (out_b - out_a) / (in_b - in_a).

(** [Button]: the rectangle, the label and the press latch. The action
    is a value of type [A], whatever the application dispatches on. *)
Record Button (A : Type) : Type := mkButton {
  x : Z;
  y : Z;
  w : Z;
  h : Z;
  label : string;
  on_press : A;
  _pressed : bool
}.
Arguments mkButton {A}.
Arguments x {A}.
Arguments y {A}.
Arguments w {A}.
Arguments h {A}.
Arguments label {A}.
Arguments on_press {A}.
Arguments _pressed {A}.

(** [Button.__init__] *)
Definition new {A} (x y w h : Z) (label : string) (on_press : A) : Button A :=
  mkButton x y w h label on_press false.

(** [Button.contains]: the chained comparisons [a <= p < b] are
    [a <= p and p < b]. *)
Definition contains {A} (b : Button A) (px py : Z) : bool :=
  ((x b <=? px) && (px <? x b + w b)) && ((y b <=? py) && (py <? y b + h b)).

End Ui.

(* ===================================================================== *)
(** ** machine / time: the peripheral boundary *)
(* ===================================================================== *)

Module Hw.

(** What the program does to the outside, in program order. *)
Inductive event : Type :=
| PinSet (pin v : Z)                 (* Pin(pin).value(v) *)
| SpiWrite (data : list Z)           (* spi.write(data) *)
| SpiWriteRead (tx rx : list Z)      (* spi.write_readinto(tx, rx) *)
| SleepUs (us : Z)                   (* time.sleep_us(us) *)
| SleepMs (ms : Z)                   (* time.sleep_ms(ms) *)
| PrintLine (line : string).         (* print(...) *)

(** The outside as the program sees it: the trace written so far
    (oldest event first), what the bus slave answers to the k-th
    [write_readinto] (three bytes), how many such exchanges happened,
    and the level of every input pin. *)
Record World : Type := mkWorld {
  trace : list event;
  miso : nat -> Z * Z * Z;
  xfers : nat;
  pin_in : Z -> Z
}.

Definition emit (e : event) (w : World) : World :=
  mkWorld (trace w ++ [e]) (miso w) (xfers w) (pin_in w).

(** The world after some more output-only events. *)
Definition extend (evs : list event) (w : World) : World :=
  mkWorld (trace w ++ evs) (miso w) (xfers w) (pin_in w).

(** [spi.write_readinto(tx, rx)] with three-byte buffers: the slave's
    next answer lands in [rx]. *)
Definition write_readinto (tx : Z * Z * Z) (w : World) : (Z * Z * Z) * World :=
  let rx := miso w (xfers w) in
  let '(t0, t1, t2) := tx in
  let '(r0, r1, r2) := rx in
  (rx, mkWorld (trace w ++ [SpiWriteRead [t0; t1; t2] [r0; r1; r2]])
               (miso w) (S (xfers w)) (pin_in w)).

(** The first byte of every [write_readinto] of a trace: the commands
    sent to the touch controller. *)
Fixpoint xfer_cmds (t : list event) : list Z :=
  match t with
  | [] => []
  | SpiWriteRead (c :: _) _ :: t' => c :: xfer_cmds t'
  | _ :: t' => xfer_cmds t'
  end.

(** The bytes a trace put on the bus with [spi.write], concatenated. *)
Fixpoint written_bytes (t : list event) : list Z :=
  match t with
  | [] => []
  | SpiWrite d :: t' => d ++ written_bytes t'
  | _ :: t' => written_bytes t'
  end.

(** [time.ticks_ms()] wraps around; [time.ticks_diff] is the signed
    distance on that ring (MicroPython: period 2^30). *)
Definition TICKS_PERIOD : Z := 2 ^ 30.
Definition TICKS_HALF : Z := 2 ^ 29.

Definition ticks_of (t_ms : Z) : Z := t_ms mod TICKS_PERIOD.

Definition ticks_diff (a b : Z) : Z :=
  (a - b + TICKS_HALF) mod TICKS_PERIOD - TICKS_HALF.

End Hw.

(* ===================================================================== *)
(** ** Python list helpers: [list.sort()] on integers *)
(* ===================================================================== *)

Module PyList.

Fixpoint insert (v : Z) (l : list Z) : list Z :=
  match l with
  | [] => [v]
  | h :: t => if v <=? h then v :: l else h :: insert v t
  end.

(** [l.sort()] for a list of integers: ascending order. *)
Fixpoint sort (l : list Z) : list Z :=
  match l with
  | [] => []
  | h :: t => insert h (sort t)
  end.

(** Largest and smallest element (0 for the empty list, never used). *)
Definition maximum (l : list Z) : Z :=
  match l with
  | [] => 0
  | h :: t => fold_left Z.max t h
  end.

Definition minimum (l : list Z) : Z :=
  match l with
  | [] => 0
  | h :: t => fold_left Z.min t h
  end.

(** How many elements satisfy a test. *)
Definition count (f : Z -> bool) (l : list Z) : Z :=
  Z.of_nat (List.length (filter f l)).

End PyList.

(* ===================================================================== *)
(** ** xpt2046.py *)
(* ===================================================================== *)

Module Xpt2046.

Definition CMD_X : Z := 0xD0.
Definition CMD_Y : Z := 0x90.

(** The driver object: its chip-select pin, the optional interrupt pin
    and the two scratch buffers. The SPI bus is the world's. *)
Record XPT2046 : Type := mkXPT2046 {
  cs : Z;
  irq : option Z;
  _tx : Z * Z * Z;
  _rx : Z * Z * Z
}.

(** [__init__]: chip-select idles high. *)
Definition new (cs_pin : Z) (irq_pin : option Z) (w : Hw.World)
  : XPT2046 * Hw.World :=
  (mkXPT2046 cs_pin irq_pin (0, 0, 0) (0, 0, 0), Hw.emit (Hw.PinSet cs_pin 1) w).

(** What [getattr] finds on an XPT2046 object: the class attributes and
    methods, then the instance attributes set by [__init__]. *)
Inductive attr : Type :=
| attr_CMD_X | attr_CMD_Y | attr___init__ | attr_touched | attr__read12
| attr_get_raw | attr_spi | attr_cs | attr_irq | attr__tx | attr__rx.

Definition getattr (name : string) : option attr :=
  if String.eqb name "CMD_X" then Some attr_CMD_X
  else if String.eqb name "CMD_Y" then Some attr_CMD_Y
  else if String.eqb name "__init__" then Some attr___init__
  else if String.eqb name "touched" then Some attr_touched
  else if String.eqb name "_read12" then Some attr__read12
  else if String.eqb name "get_raw" then Some attr_get_raw
  else if String.eqb name "spi" then Some attr_spi
  else if String.eqb name "cs" then Some attr_cs
  else if String.eqb name "irq" then Some attr_irq
  else if String.eqb name "_tx" then Some attr__tx
  else if String.eqb name "_rx" then Some attr__rx
  else None.

Definition touched (self : XPT2046) (w : Hw.World) : bool :=
  match irq self with
  | None => true
  | Some p => Hw.pin_in w p =? 0
  end.

(** The 12-bit value carried by a received frame. *)
Definition frame_value (rx : Z * Z * Z) : Z :=
  let '(_, r1, r2) := rx in
  Z.shiftr (Z.lor (Z.shiftl r1 8) r2) 4.

Definition _read12 (self : XPT2046) (cmd : Z) (w : Hw.World)
  : Z * XPT2046 * Hw.World :=
  let tx := (cmd, 0, 0) in
  let w1 := Hw.emit (Hw.PinSet (cs self) 0) w in
  let '(rx, w2) := Hw.write_readinto tx w1 in
  let w3 := Hw.emit (Hw.PinSet (cs self) 1) w2 in
  (frame_value rx, mkXPT2046 (cs self) (irq self) tx rx, w3).

(** The sampling loop of [get_raw]: [n] rounds of read Y, read X,
    append both, sleep. *)
Fixpoint sample_loop (n : nat) (delay_us : Z) (self : XPT2046)
    (xs ys : list Z) (w : Hw.World)
  : list Z * list Z * XPT2046 * Hw.World :=
  match n with
  | O => (xs, ys, self, w)
  | S n' =>
      let '(y, self1, w1) := _read12 self CMD_Y w in
      let '(x, self2, w2) := _read12 self1 CMD_X w1 in
      let w3 := Hw.emit (Hw.SleepUs delay_us) w2 in
      sample_loop n' delay_us self2 (xs ++ [x]) (ys ++ [y]) w3
  end.

(** [get_raw(samples, delay_us)]: [None] when an interrupt pin is
    configured and reads not-touched; otherwise the filtered sample.
    Indexing an empty sample list raises. *)
Definition get_raw (self : XPT2046) (samples delay_us : Z) (w : Hw.World)
  : Py.result (option (Z * Z * Z)) * XPT2046 * Hw.World :=
  if (match irq self with Some _ => true | None => false end)
       && negb (touched self w)
  then (Py.Ok None, self, w)
  else
    let '(xs, ys, self', w') :=
      sample_loop (Z.to_nat samples) delay_us self [] [] w in
    let xs := PyList.sort xs in
    let ys := PyList.sort ys in
    let r :=
      match Py.index xs (Py.len xs / 2), Py.index ys (Py.len ys / 2),
            Py.index xs (-1), Py.index xs 0,
            Py.index ys (-1), Py.index ys 0 with
      | Some x, Some y, Some xhi, Some xlo, Some yhi, Some ylo =>
          Py.Ok (Some (x, y, (xhi - xlo) + (yhi - ylo)))
      | _, _, _, _, _, _ => Py.Raise (Py.IndexError "list index out of range")
      end in
    (r, self', w').

End Xpt2046.

(* ===================================================================== *)
(** ** mic_level.py *)
(* ===================================================================== *)

Module MicLevel.

(** The float attributes are binary64 numbers. [_read_rms] ends in a
    square root of ADC readings; its result is an input of [update] here,
    as is the value [time.ticks_ms()] returns. *)
Record MicLevel : Type := mkMicLevel {
  adc_pin : Z;
  sample_count : Z;
  sample_us : Z;
  ema_alpha : float;
  quiet_threshold : float;
  hysteresis : float;
  quiet_hold_ms : Z;
  _ema_rms : float;
  _quiet : bool;
  _quiet_start : option Z
}.

(** [__init__] *)
Definition new (adc_pin sample_count sample_us : Z)
    (ema_alpha quiet_threshold hysteresis : float) (quiet_hold_ms : Z) : MicLevel :=
  mkMicLevel adc_pin sample_count sample_us ema_alpha quiet_threshold
             hysteresis quiet_hold_ms 0%float false None.

(** The dictionary [update] returns. *)
Record Info : Type := mkInfo {
  raw_rms : float;
  rms : float;
  quiet : bool
}.

(** The smoothing line of [update]: two products, a difference and a sum,
    each rounded to the nearest binary64 number. *)
Definition smooth (self : MicLevel) (raw : float) : float :=
  (ema_alpha self * raw + (1.0 - ema_alpha self) * _ema_rms self)%float.

(** [<] and [>] compare floats; both are false when an operand is not a
    number. *)
Definition update (self : MicLevel) (raw : float) (now : Z) : Info * MicLevel :=
  let ema := smooth self raw in
  let enter_quiet_at := quiet_threshold self in
  let exit_quiet_at := (quiet_threshold self + hysteresis self)%float in
  let '(q, qs) :=
    if negb (_quiet self) then
      if (ema <? enter_quiet_at)%float then
        match _quiet_start self with
        | None => (_quiet self, Some now)
        | Some t0 =>
            if Hw.ticks_diff now t0 >=? quiet_hold_ms self
            then (true, _quiet_start self)
            else (_quiet self, _quiet_start self)
        end
      else (_quiet self, None)
    else
      if (exit_quiet_at <? ema)%float then (false, None)
      else (_quiet self, _quiet_start self) in
  (mkInfo raw ema q,
   mkMicLevel (adc_pin self) (sample_count self) (sample_us self)
              (ema_alpha self) (quiet_threshold self) (hysteresis self)
              (quiet_hold_ms self) ema q qs).

End MicLevel.

(* ===================================================================== *)
(** ** Vocabulary for the ambient classifier's properties *)
(* ===================================================================== *)

Module MicSpec.

(** The classifier exactly as main.py constructs it, in an arbitrary
    run-time state (smoothed RMS, classification, candidate timer). *)
Definition mic_in (ema : float) (quiet : bool) (start : option Z)
  : MicLevel.MicLevel :=
  MicLevel.mkMicLevel 26 180 200 0.15%float 0.4%float 0.003%float 1500 ema quiet start.






End MicSpec.

(* ===================================================================== *)
(** ** framebuf (MicroPython built-in), as ili9486.py uses it *)
(* ===================================================================== *)

(** [framebuf.FrameBuffer(buf, width, height, framebuf.RGB565)]: pixel
    (x, y) is the 16-bit word number x + y * width of the byte array, low
    byte first. The module is part of MicroPython, not of the sources; its
    8 x 8 glyph table is a parameter here ([font] gives the eight column
    bytes of a character code, bit r of a column being row r). Colours
    are machine integers. *)
Module Framebuf.

Record FrameBuffer : Type := mkFrameBuffer {
  buf : list Z;
  width : Z;
  height : Z
}.

(** [buf[i] = v], inside the array. *)
Fixpoint store (l : list Z) (i : nat) (v : Z) : list Z :=
  match l, i with
  | [], _ => []
  | _ :: rest, O => v :: rest
  | a :: rest, S i' => a :: store rest i' v
  end.

(** The word of pixel (x, y) is set to the low 16 bits of the colour. *)
Definition setpixel (fb : FrameBuffer) (x y col : Z) : FrameBuffer :=
  let i := Z.to_nat (x + y * width fb) in
  mkFrameBuffer
    (store (store (buf fb) (2 * i) (Z.land col 0xFF))
           (2 * i + 1) (Z.land (Z.shiftr col 8) 0xFF))
    (width fb) (height fb).

(** [fb.pixel(x, y, col)]: nothing outside the buffer. *)
Definition pixel (fb : FrameBuffer) (x y col : Z) : FrameBuffer :=
  if (0 <=? x) && (x <? width fb) && (0 <=? y) && (y <? height fb)
  then setpixel fb x y col
  else fb.

(** [fb.fill(col)]: every pixel of the buffer. *)
Definition fill (fb : FrameBuffer) (col : Z) : FrameBuffer :=
  let n := Z.to_nat (width fb * height fb) in
  mkFrameBuffer
    (firstn (List.length (buf fb))
            (List.concat (repeat [Z.land col 0xFF; Z.land (Z.shiftr col 8) 0xFF] n))
     ++ skipn (2 * n) (buf fb))
    (width fb) (height fb).

(** One column of a glyph, from row [y] down: a set bit paints. *)
Fixpoint column (fb : FrameBuffer) (x y bits : Z) (rows : nat) (col : Z)
  : FrameBuffer :=
  match rows with
  | O => fb
  | S rows' =>
      column (if Z.odd bits then pixel fb x y col else fb)
             x (y + 1) (Z.shiftr bits 1) rows' col
  end.

Fixpoint columns (fb : FrameBuffer) (x y : Z) (cols : list Z) (col : Z)
  : FrameBuffer :=
  match cols with
  | [] => fb
  | bits :: rest => columns (column fb x y bits 8 col) (x + 1) y rest col
  end.

(** Characters outside 32..127 are drawn as character 127. *)
Definition glyph_code (c : ascii) : Z :=
  let n := Z.of_nat (nat_of_ascii c) in
  if (n <? 32) || (n >? 127) then 127 else n.

(** [fb.text(s, x, y, col)]: one 8 x 8 glyph per character, left to
    right. *)
Fixpoint text (font : Z -> list Z) (fb : FrameBuffer) (s : string) (x y col : Z)
  : FrameBuffer :=
  match s with
  | EmptyString => fb
  | String c s' =>
      text font (columns fb x y (firstn 8 (font (glyph_code c))) col) s' (x + 8) y col
  end.

End Framebuf.

(* ===================================================================== *)
(** ** ili9486.py *)
(* ===================================================================== *)

Module Ili9486.

(** Driver code runs against the world and may raise. *)
Definition M (A : Type) : Type := Hw.World -> Py.result A * Hw.World.

Definition ret {A} (a : A) : M A := fun w => (Py.Ok a, w).

Definition bind {A B} (c : M A) (k : A -> M B) : M B :=
  fun w =>
    match c w with
    | (Py.Ok a, w') => k a w'
    | (Py.Raise e, w') => (Py.Raise e, w')
    end.

Definition raise {A} (e : Py.exn) : M A := fun w => (Py.Raise e, w).

Notation "c1 ;; c2" := (bind c1 (fun _ => c2))
  (at level 61, right associativity).

Definition pin_value (pin v : Z) : M unit :=
  fun w => (Py.Ok tt, Hw.emit (Hw.PinSet pin v) w).

Definition spi_write (data : list Z) : M unit :=
  fun w => (Py.Ok tt, Hw.emit (Hw.SpiWrite data) w).

Definition sleep_ms (ms : Z) : M unit :=
  fun w => (Py.Ok tt, Hw.emit (Hw.SleepMs ms) w).

(** [for _ in range(n): body] *)
Fixpoint repeat_m (n : nat) (body : M unit) : M unit :=
  match n with
  | O => ret tt
  | S n' => body ;; repeat_m n' body
  end.

(** An element stored into a [bytearray]: MicroPython keeps the low
    eight bits. *)
Definition byte (v : Z) : Z := Z.land v 0xFF.

Record ILI9486 : Type := mkILI9486 {
  cs : Z;
  dc : Z;
  rst : Z;
  width : Z;
  height : Z;
  x_offset : Z;
  y_offset : Z;
  madctl : Z
}.

Definition reset (self : ILI9486) : M unit :=
  pin_value (rst self) 1 ;; sleep_ms 50 ;;
  pin_value (rst self) 0 ;; sleep_ms 50 ;;
  pin_value (rst self) 1 ;; sleep_ms 120.

Definition write_cmd (self : ILI9486) (cmd : Z) : M unit :=
  pin_value (cs self) 0 ;;
  pin_value (dc self) 0 ;;
  spi_write [byte (Z.land cmd 0xFF)] ;;
  pin_value (cs self) 1.

Definition write_data (self : ILI9486) (data : list Z) : M unit :=
  pin_value (cs self) 0 ;;
  pin_value (dc self) 1 ;;
  spi_write data ;;
  pin_value (cs self) 1.

Definition _set_window (self : ILI9486) (x0 y0 x1 y1 : Z) : M unit :=
  let x0 := x0 + x_offset self in
  let x1 := x1 + x_offset self in
  let y0 := y0 + y_offset self in
  let y1 := y1 + y_offset self in
  write_cmd self 0x2A ;;
  write_data self [byte (Z.shiftr x0 8); byte (Z.land x0 0xFF);
                   byte (Z.shiftr x1 8); byte (Z.land x1 0xFF)] ;;
  write_cmd self 0x2B ;;
  write_data self [byte (Z.shiftr y0 8); byte (Z.land y0 0xFF);
                   byte (Z.shiftr y1 8); byte (Z.land y1 0xFF)] ;;
  write_cmd self 0x2C.

Definition init_display (self : ILI9486) : M unit :=
  write_cmd self 0x01 ;; sleep_ms 150 ;;
  write_cmd self 0x11 ;; sleep_ms 120 ;;
  write_cmd self 0x3A ;; write_data self [0x55] ;;
  write_cmd self 0x36 ;; write_data self [byte (madctl self)] ;;
  write_cmd self 0x29 ;; sleep_ms 50.

(** [__init__]: the control lines take their idle levels, the BGR bit is
    folded into MADCTL, then the panel is reset and initialised. *)
Definition new (cs dc rst width height madctl : Z) (bgr : bool)
    (x_offset y_offset : Z) : M ILI9486 :=
  let madctl := if bgr then Z.lor madctl 0x08 else Z.land madctl (Z.lnot 0x08) in
  let self := mkILI9486 cs dc rst width height x_offset y_offset
                        (Z.land madctl 0xFF) in
  pin_value cs 1 ;; pin_value dc 0 ;; pin_value rst 1 ;;
  reset self ;; init_display self ;; ret self.

(** The part of [fill_rect] after the clip: address the window, then
    stream the colour in 1024-pixel chunks and a final partial chunk. *)
Definition fill_rect_stream (self : ILI9486) (x y w h color565 : Z) : M unit :=
  _set_window self x y (x + w - 1) (y + h - 1) ;;
  let hi := Z.land (Z.shiftr color565 8) 0xFF in
  let lo := Z.land color565 0xFF in
  let chunk_pixels := 1024 in
  let buf := List.concat (repeat [hi; lo] (Z.to_nat chunk_pixels)) in
  let total_pixels := w * h in
  let full_chunks := total_pixels / chunk_pixels in
  let remainder := total_pixels mod chunk_pixels in
  pin_value (cs self) 0 ;;
  pin_value (dc self) 1 ;;
  repeat_m (Z.to_nat full_chunks) (spi_write buf) ;;
  (if remainder =? 0 then ret tt
   else spi_write (firstn (Z.to_nat (remainder * 2)) buf)) ;;
  pin_value (cs self) 1.

Definition fill_rect (self : ILI9486) (x y w h color565 : Z) : M unit :=
  if (w <=? 0) || (h <=? 0) then ret tt
  else
    (* clip *)
    let '(w, x) := if x <? 0 then (w + x, 0) else (w, x) in
    let '(h, y) := if y <? 0 then (h + y, 0) else (h, y) in
    let w := if x + w >? width self then width self - x else w in
    let h := if y + h >? height self then height self - y else h in
    if (w <=? 0) || (h <=? 0) then ret tt
    else fill_rect_stream self x y w h color565.

Definition fill (self : ILI9486) (color565 : Z) : M unit :=
  fill_rect self 0 0 (width self) (height self) color565.

Definition draw_pixel (self : ILI9486) (x y color565 : Z) : M unit :=
  if negb (((0 <=? x) && (x <? width self)) && ((0 <=? y) && (y <? height self)))
  then ret tt
  else
    _set_window self x y x y ;;
    write_data self [byte (Z.land (Z.shiftr color565 8) 0xFF);
                     byte (Z.land color565 0xFF)].

(** The inner loop of [blit_buffer] over one chunk: swap each byte pair.
    [part[j + 1]] past the end of the chunk raises. *)
Fixpoint swap_pairs (part : list Z) : Py.result (list Z) :=
  match part with
  | [] => Py.Ok []
  | [_] => Py.Raise (Py.IndexError "index out of range")
  | a :: b :: rest => Py.bind (swap_pairs rest) (fun t => Py.Ok (b :: a :: t))
  end.

(** The outer loop: 2048-byte chunks, the last one possibly shorter.
    [fuel] bounds the number of chunks. *)
Fixpoint blit_chunks (fuel : nat) (mv : list Z) : M unit :=
  match fuel with
  | O => ret tt
  | S fuel' =>
      match mv with
      | [] => ret tt
      | _ =>
          match swap_pairs (firstn 2048 mv) with
          | Py.Raise e => raise e
          | Py.Ok tmp => spi_write tmp ;; blit_chunks fuel' (skipn 2048 mv)
          end
      end
  end.

Definition blit_buffer (self : ILI9486) (buf : list Z) (x y w h : Z)
    (source_little_endian : bool) : M unit :=
  if (w <=? 0) || (h <=? 0) then ret tt
  else if (x <? 0) || (y <? 0) || (x + w >? width self) || (y + h >? height self)
  then ret tt
  else
    _set_window self x y (x + w - 1) (y + h - 1) ;;
    pin_value (cs self) 0 ;;
    pin_value (dc self) 1 ;;
    if negb source_little_endian then
      spi_write buf ;; pin_value (cs self) 1
    else
      blit_chunks (S (List.length buf)) buf ;;
      pin_value (cs self) 1.

(** [range(n)] *)
Definition range (n : Z) : list Z := map Z.of_nat (seq 0 (Z.to_nat n)).

(** [for sy in range(scale): for sx in range(scale): outfb.pixel(...)] *)
Definition scale_pixel (outfb : Framebuf.FrameBuffer) (xx yy scale pix : Z)
  : Framebuf.FrameBuffer :=
  fold_left
    (fun fb sy =>
       fold_left
         (fun fb sx => Framebuf.pixel fb (xx * scale + sx) (yy * scale + sy) pix)
         (range scale) fb)
    (range scale) outfb.

(** [for yy in range(bh): for xx in range(bw): ...]: every pixel of the
    small buffer becomes a scale x scale block of the large one; without
    background colour, pixels of value 0 are skipped. *)
Definition upscale (buf : list Z) (bw bh : Z) (bg565 : option Z) (scale : Z)
    (outfb : Framebuf.FrameBuffer) : Framebuf.FrameBuffer :=
  fold_left
    (fun fb yy =>
       fold_left
         (fun fb xx =>
            let idx := (yy * bw + xx) * 2 in
            let lo := nth (Z.to_nat idx) buf 0 in
            let hi := nth (Z.to_nat (idx + 1)) buf 0 in
            let pix := Z.lor (Z.shiftl hi 8) lo in
            if (match bg565 with None => true | Some _ => false end) && (pix =? 0)
            then fb
            else scale_pixel fb xx yy scale pix)
         (range bw) fb)
    (range bh) outfb.

(** [text]: the string is rendered into a buffer of 8 * len(s) x 8
    pixels, enlarged when [scale] is above 1, and the buffer is blitted. *)
Definition text (font : Z -> list Z) (self : ILI9486) (s : string)
    (x y color565 : Z) (bg565 : option Z) (scale : Z) : M unit :=
  match s with
  | EmptyString => ret tt
  | String _ _ =>
      let bw := 8 * Z.of_nat (String.length s) in
      let bh := 8 in
      let buf := repeat 0 (Z.to_nat (bw * bh * 2)) in
      let bg := match bg565 with None => 0 | Some c => c end in
      let fb := Framebuf.fill (Framebuf.mkFrameBuffer buf bw bh) bg in
      let fb := Framebuf.text font fb s 0 0 color565 in
      if scale <=? 1 then blit_buffer self (Framebuf.buf fb) x y bw bh true
      else
        let w := bw * scale in
        let h := bh * scale in
        let out := repeat 0 (Z.to_nat (w * h * 2)) in
        let outfb := Framebuf.fill (Framebuf.mkFrameBuffer out w h) bg in
        let outfb := upscale (Framebuf.buf fb) bw bh bg565 scale outfb in
        blit_buffer self (Framebuf.buf outfb) x y w h true
  end.

End Ili9486.

(* ===================================================================== *)
(** ** Python string helpers *)
(* ===================================================================== *)

Module PyStr.

Definition space : ascii := " "%char.
Definition newline : ascii := "010"%char.

(** [len(s)] *)
Definition len (s : string) : Z := Z.of_nat (String.length s).

(** Truthiness of a string: non-empty. *)
Definition truthy (s : string) : bool :=
  match s with EmptyString => false | String _ _ => true end.

(** [s.split(sep)] for a one-character separator: always at least one
    piece. *)
Fixpoint split (sep : ascii) (s : string) : list string :=
  match s with
  | EmptyString => [EmptyString]
  | String c s' =>
      if Ascii.eqb c sep then EmptyString :: split sep s'
      else match split sep s' with
           | [] => [String c EmptyString]
           | piece :: rest => String c piece :: rest
           end
  end.

(** [c in s] for a character. *)
Fixpoint contains (c : ascii) (s : string) : bool :=
  match s with
  | EmptyString => false
  | String d s' => Ascii.eqb d c || contains c s'
  end.

(** The characters [str.strip()] removes: space, tab, line feed,
    vertical tab, form feed, carriage return. *)
Definition is_space (c : ascii) : bool :=
  let n := nat_of_ascii c in
  Nat.eqb n 32 || (Nat.leb 9 n && Nat.leb n 13).

Fixpoint lstrip (s : string) : string :=
  match s with
  | EmptyString => EmptyString
  | String c s' => if is_space c then lstrip s' else s
  end.

Fixpoint rstrip (s : string) : string :=
  match s with
  | EmptyString => EmptyString
  | String c s' =>
      match rstrip s' with
      | EmptyString => if is_space c then EmptyString else String c EmptyString
      | r => String c r
      end
  end.

(** [s.strip()] *)
Definition strip (s : string) : string := rstrip (lstrip s).

(** [str(n)] for an integer, as an f-string prints it. *)
Definition of_int (n : Z) : string := NilEmpty.string_of_int (Z.to_int n).

End PyStr.

(* ===================================================================== *)
(** ** main.py *)
(* ===================================================================== *)

Module Main.

(** *** Constants *)

Definition MIC_ADC_PIN : Z := 26.
Definition MIC_SAMPLE_COUNT : Z := 180.
Definition MIC_SAMPLE_US : Z := 200.
Definition MIC_EMA_ALPHA : float := 0.15%float.
Definition MIC_QUIET_THRESH : float := 0.4%float.
Definition MIC_HYSTERESIS : float := 0.003%float.
Definition MIC_QUIET_HOLD_MS : Z := 1500.
Definition MIC_POLL_MS : Z := 220.
Definition MIC_DRAW_THROTTLE : Z := 250.

Definition BLACK : Z := 0x0000.
Definition WHITE : Z := 0xFFFF.
Definition GREY : Z := 0x7BEF.
Definition DARK : Z := 0x39E7.
Definition YELL : Z := 0xFFE0.
Definition RED : Z := 0xF800.
Definition GREEN : Z := 0x07E0.
Definition BLUE : Z := 0x001F.
Definition CYAN : Z := 0x07FF.
Definition MAG : Z := 0xF81F.
Definition ORNG : Z := 0xFD20.

Definition W : Z := TouchCal.W TouchCal.CAL.
Definition H : Z := TouchCal.H TouchCal.CAL.

(** *** Touch mapping *)

Definition clamp (v lo hi : Z) : Z :=
  if v <? lo then lo else if v >? hi then hi else v.

Definition map_linear (raw raw_min raw_max out_min out_max : Z) : Z :=
  if raw_max =? raw_min then out_min
  else
    let v := (raw - raw_min) * (out_max - out_min) / (raw_max - raw_min) + out_min in
    clamp v (Py.min out_min out_max) (Py.max out_min out_max).

(** [raw_to_screen] reads the calibration table [c = CAL]; the table is
    a parameter here so that the mapping can be stated for any table. *)
Definition raw_to_screen_with (c : TouchCal.Cal) (rx ry : Z) : Z * Z :=
  let '(rx, ry) := if TouchCal.SWAP_XY c then (ry, rx) else (rx, ry) in
  let rx := if TouchCal.FLIP_X c then 3800 - rx else rx in
  let ry := if TouchCal.FLIP_Y c then 3800 - ry else ry in
  let x := map_linear rx (TouchCal.RAW_X_LEFT c) (TouchCal.RAW_X_RIGHT c)
                      0 (TouchCal.W c - 1) in
  let y := map_linear ry (TouchCal.RAW_Y_TOP c) (TouchCal.RAW_Y_BOT c)
                      0 (TouchCal.H c - 1) in
  (x, y).

Definition raw_to_screen (rx ry : Z) : Z * Z :=
  raw_to_screen_with TouchCal.CAL rx ry.

(** *** The application state *)

(** The display object as main.py sees it: the method calls it made on
    [lcd], in order. *)
Inductive lcd_call : Type :=
| LcdFill (color565 : Z)
| LcdFillRect (x y w h color565 : Z)
| LcdText (s : string) (x y color565 : Z) (bg565 : option Z) (scale : Z).

(** A communication card: icon, phrase, background, foreground. *)
Definition card : Type := (string * string * Z * Z)%type.

Inductive screen : Type :=
| SCREEN_MENU | SCREEN_GROUND | SCREEN_CONTACTS
| SCREEN_SETTINGS | SCREEN_COMM_MENU | SCREEN_COMM_CARD.

(** The module-level variables the modelled functions read or write,
    the calls received by [lcd] and the lines printed. *)
Record App : Type := mkApp {
  mic : option MicLevel.MicLevel;
  mic_quiet : bool;
  mic_rms : float;
  _last_mic_poll : Z;
  _last_badge_draw : Z;
  _last_badge_state : option bool;
  theme_index : Z;
  current_screen : screen;
  comm_cards : list card;
  comm_cat_name : string;
  comm_card_index : Z;
  was_down : bool;
  last_tap_ms : Z;
  lcd : list lcd_call;
  console : list string
}.

(** Module code runs against the application state and may raise. *)
Definition Run (A : Type) : Type := App -> Py.result A * App.

Definition ret {A} (a : A) : Run A := fun st => (Py.Ok a, st).

Definition bind {A B} (c : Run A) (k : A -> Run B) : Run B :=
  fun st =>
    match c st with
    | (Py.Ok a, st') => k a st'
    | (Py.Raise e, st') => (Py.Raise e, st')
    end.

Definition raise {A} (e : Py.exn) : Run A := fun st => (Py.Raise e, st).

Definition get : Run App := fun st => (Py.Ok st, st).

Definition put (st : App) : Run unit := fun _ => (Py.Ok tt, st).

Notation "x <- c1 ;; c2" := (bind c1 (fun x => c2))
  (at level 61, c1 at next level, right associativity).
Notation "c1 ;; c2" := (bind c1 (fun _ => c2))
  (at level 61, right associativity).

Definition lcd_do (c : lcd_call) : Run unit :=
  fun st =>
    (Py.Ok tt,
     mkApp (mic st) (mic_quiet st) (mic_rms st) (_last_mic_poll st)
           (_last_badge_draw st) (_last_badge_state st) (theme_index st)
           (current_screen st) (comm_cards st) (comm_cat_name st)
           (comm_card_index st) (was_down st) (last_tap_ms st)
           (lcd st ++ [c]) (console st)).

Definition print (line : string) : Run unit :=
  fun st =>
    (Py.Ok tt,
     mkApp (mic st) (mic_quiet st) (mic_rms st) (_last_mic_poll st)
           (_last_badge_draw st) (_last_badge_state st) (theme_index st)
           (current_screen st) (comm_cards st) (comm_cat_name st)
           (comm_card_index st) (was_down st) (last_tap_ms st)
           (lcd st) (console st ++ [line])).

Definition set_badge (draw : Z) (state : option bool) : Run unit :=
  fun st =>
    (Py.Ok tt,
     mkApp (mic st) (mic_quiet st) (mic_rms st) (_last_mic_poll st)
           draw state (theme_index st)
           (current_screen st) (comm_cards st) (comm_cat_name st)
           (comm_card_index st) (was_down st) (last_tap_ms st)
           (lcd st) (console st)).

Definition set_comm (cards : list card) (name : string) (idx : Z) : Run unit :=
  fun st =>
    (Py.Ok tt,
     mkApp (mic st) (mic_quiet st) (mic_rms st) (_last_mic_poll st)
           (_last_badge_draw st) (_last_badge_state st) (theme_index st)
           (current_screen st) cards name idx (was_down st) (last_tap_ms st)
           (lcd st) (console st)).

Definition set_current_screen (s : screen) : Run unit :=
  fun st =>
    (Py.Ok tt,
     mkApp (mic st) (mic_quiet st) (mic_rms st) (_last_mic_poll st)
           (_last_badge_draw st) (_last_badge_state st) (theme_index st)
           s (comm_cards st) (comm_cat_name st)
           (comm_card_index st) (was_down st) (last_tap_ms st)
           (lcd st) (console st)).

Definition set_mic (m : option MicLevel.MicLevel) (quiet : bool) (rms : float)
    (last_poll : Z) : Run unit :=
  fun st =>
    (Py.Ok tt,
     mkApp m quiet rms last_poll
           (_last_badge_draw st) (_last_badge_state st) (theme_index st)
           (current_screen st) (comm_cards st) (comm_cat_name st)
           (comm_card_index st) (was_down st) (last_tap_ms st)
           (lcd st) (console st)).

Definition set_touch (down : bool) (tap_ms : Z) : Run unit :=
  fun st =>
    (Py.Ok tt,
     mkApp (mic st) (mic_quiet st) (mic_rms st) (_last_mic_poll st)
           (_last_badge_draw st) (_last_badge_state st) (theme_index st)
           (current_screen st) (comm_cards st) (comm_cat_name st)
           (comm_card_index st) down tap_ms
           (lcd st) (console st)).

(** [seq[i]] or [IndexError]. *)
Definition index_or_raise {A} (l : list A) (i : Z) : Run A :=
  match Py.index l i with
  | Some a => ret a
  | None => raise (Py.IndexError "list index out of range")
  end.

Definition debug_dot (x y : Z) : Run unit :=
  lcd_do (LcdFillRect (x - 2) (y - 2) 5 5 RED).

(** *** Themes *)

Record Theme : Type := mkTheme {
  name : string;
  title_bg : Z;
  title_fg : Z;
  screen_bg : Z;
  box_bg : Z;
  box_border : Z;
  btn_bg : Z;
  btn_fg : Z;
  accent : Z
}.

Definition THEMES : list Theme := [
  mkTheme "DARK (HC)" 0xFFFF 0x0000 0xFFFF 0xFFFF 0x0000 0xE71C 0x0000 0x07E0;
  mkTheme "LIGHT (HC)" 0x0000 0xFFFF 0x0000 0x0000 0xFFFF 0x4208 0xFFFF 0xFFE0;
  mkTheme "YELLOW (ACCESS)" 0x001F 0xFFFF 0xFFFF 0xFFFF 0x0000 0xC618 0x0000 0x001F;
  mkTheme "GREEN (ACCESS)" 0x780F 0xFFFF 0xFFFF 0xFFFF 0x0000 0xC618 0x0000 0x780F;
  mkTheme "AMBER (DARK)" 0x0000 0xFFE0 0x0000 0x0000 0xFFE0 0x4208 0xFFE0 0xFFE0
].

Definition th : Run Theme :=
  st <- get ;; index_or_raise THEMES (theme_index st).

(** *** Drawing helpers *)

Definition draw_border (x y w h c : Z) : Run unit :=
  lcd_do (LcdFillRect x y w 1 c) ;;
  lcd_do (LcdFillRect x (y + h - 1) w 1 c) ;;
  lcd_do (LcdFillRect x y 1 h c) ;;
  lcd_do (LcdFillRect (x + w - 1) y 1 h c).

(** [state == _last_badge_state], a bool against a bool or [None]. *)
Definition same_state (state : bool) (last : option bool) : bool :=
  match last with
  | Some b => Bool.eqb state b
  | None => false
  end.

(** [draw_mic_badge(force)]; [now] is what [time.ticks_ms()] returns. *)
Definition draw_mic_badge (force : bool) (now : Z) : Run unit :=
  st <- get ;;
  match mic st with
  | None => ret tt
  | Some _ =>
      if negb force && (Hw.ticks_diff now (_last_badge_draw st) <? MIC_DRAW_THROTTLE)
      then ret tt
      else
        let state := mic_quiet st in
        if negb force && same_state state (_last_badge_state st)
        then set_badge now (_last_badge_state st)
        else
          t <- th ;;
          let bx := W - 132 in
          let by_ := 10 in
          let bw := 120 in
          let bh := 28 in
          let '(bg, fg, label) :=
            if state then (GREEN, BLACK, "QUIET OK"%string)
            else (MAG, WHITE, "LOUD"%string) in
          lcd_do (LcdFillRect bx by_ bw bh bg) ;;
          draw_border bx by_ bw bh (box_border t) ;;
          let scale := 2 in
          let tw := PyStr.len label * 8 * scale in
          let tx := bx + (bw - tw) / 2 in
          let ty := by_ + (bh - 16) / 2 in
          lcd_do (LcdText label tx ty fg (Some bg) scale) ;;
          set_badge now (Some state)
  end.

Definition draw_title_bar (title : string) (now : Z) : Run unit :=
  t <- th ;;
  lcd_do (LcdFillRect 0 0 W 48 (title_bg t)) ;;
  lcd_do (LcdText title 12 14 (title_fg t) (Some (title_bg t)) 2) ;;
  draw_mic_badge true now.

(** *** Word wrap *)

(** [if cur: lines.append(cur)] *)
Definition flush (lines : list string) (cur : string) : list string :=
  if PyStr.truthy cur then lines ++ [cur] else lines.

(** [len(cur) + (1 if cur else 0) + len(p) <= max_chars] *)
Definition fits (cur p : string) (max_chars : Z) : bool :=
  PyStr.len cur + (if PyStr.truthy cur then 1 else 0) + PyStr.len p <=? max_chars.

(** The accumulate-or-flush block that both branches of the loop body
    contain. *)
Definition place (max_chars : Z) (st : list string * string) (p : string)
  : list string * string :=
  let '(lines, cur) := st in
  if fits cur p max_chars
  then (lines, PyStr.strip (cur ++ " " ++ p)%string)
  else (flush lines cur, p).

(** [for i, p in enumerate(parts)]: a non-empty part is placed; after
    every part but the last the current line is flushed. *)
Fixpoint parts_loop (max_chars : Z) (parts : list string)
    (st : list string * string) : list string * string :=
  match parts with
  | [] => st
  | p :: rest =>
      let st1 := if PyStr.truthy p then place max_chars st p else st in
      let st2 :=
        match rest with
        | [] => st1
        | _ :: _ => (flush (fst st1) (snd st1), EmptyString)
        end in
      parts_loop max_chars rest st2
  end.

(** The body of [for w_ in words]. *)
Definition word_step (max_chars : Z) (st : list string * string) (w_ : string)
  : list string * string :=
  if PyStr.contains PyStr.newline w_
  then parts_loop max_chars (PyStr.split PyStr.newline w_) st
  else place max_chars st w_.

(** [lines] and [cur] when the loop over the words ends. *)
Definition wrap_state (s : string) (max_chars : Z) : list string * string :=
  fold_left (word_step max_chars) (PyStr.split PyStr.space s) ([], EmptyString).

Definition wrap_text (s : string) (max_chars : Z) : list string :=
  let '(lines, cur) := wrap_state s max_chars in
  flush lines cur.

(** *** Buttons *)

(** What a button's [on_press] is bound to once the module is loaded. *)
Inductive action : Type :=
| act_none | act_show_menu | act_show_comm_menu
| act_comm_prev | act_comm_next | act_speak.

(** A [Button] with the optional [bg] / [fg] attributes [make_btn] sets. *)
Record Btn : Type := mkBtn {
  button : Ui.Button action;
  bg : option Z;
  fg : option Z
}.

Definition make_btn (x y w h : Z) (label : string) (on_press : action)
    (bg fg : option Z) : Btn :=
  mkBtn (Ui.new x y w h label on_press) bg fg.

Definition draw_button (btn : Btn) (pressed : bool) : Run unit :=
  t <- th ;;
  let bg_default := btn_bg t in
  let fg_default := btn_fg t in
  let border := box_border t in
  let bg0 := match bg btn with Some c => c | None => bg_default end in
  let fg0 := match fg btn with Some c => c | None => fg_default end in
  let '(bg1, fg1) := if pressed then (fg0, bg0) else (bg0, fg0) in
  let b := button btn in
  lcd_do (LcdFillRect (Ui.x b) (Ui.y b) (Ui.w b) (Ui.h b) bg1) ;;
  draw_border (Ui.x b) (Ui.y b) (Ui.w b) (Ui.h b) border ;;
  let scale := 2 in
  let text_w := PyStr.len (Ui.label b) * 8 * scale in
  let tx := Ui.x b + (Ui.w b - text_w) / 2 in
  let ty := Ui.y b + (Ui.h b - 16) / 2 in
  lcd_do (LcdText (Ui.label b) tx ty fg1 (Some bg1) scale).

Definition NAV_H : Z := 80.
Definition NAV_Y : Z := H - (NAV_H + 20).
Definition NAV_X0 : Z := 20.
Definition NAV_GAP : Z := 12.
Definition NAV_W : Z := (W - 40 - 2 * NAV_GAP) / 3.

Definition draw_indicator (text : string) : Run unit :=
  t <- th ;;
  st <- get ;;
  let scale := 2 in
  let tw := PyStr.len text * 8 * scale in
  let reserve := match mic st with Some _ => 140 | None => 0 end in
  let x := W - reserve - tw - 12 in
  lcd_do (LcdText text x 14 (title_fg t) (Some (title_bg t)) scale).

(** *** Communication cards *)

Definition speak (text : string) : Run unit :=
  print ("SPEAK: " ++ text)%string.

Definition CAT_NEEDS : list card := [
  ("!", "I NEED HELP", RED, WHITE);
  ("~", "PLEASE WAIT", ORNG, BLACK);
  ("~", "I NEED SPACE", ORNG, BLACK);
  ("~", "I NEED A BREAK", YELL, BLACK);
  ("~", "WATER PLEASE", CYAN, BLACK);
  ("~", "HUNGRY", GREEN, BLACK);
  ("~", "TIRED", GREY, BLACK);
  ("!", "I NEED TO GO HOME", ORNG, BLACK)
]%string.

Definition CAT_SENSORY : list card := [
  ("!", "TOO LOUD", MAG, WHITE);
  ("!", "TOO MANY PEOPLE", MAG, WHITE);
  ("!", "TOO BRIGHT", MAG, WHITE);
  ("~", "I NEED QUIET", BLUE, WHITE);
  ("~", "I NEED DIM LIGHTS", BLUE, WHITE)
]%string.

Definition CAT_RESPONSES : list card := [
  ("?", "YES", GREEN, BLACK);
  ("?", "NO", RED, WHITE);
  ("~", "MAYBE", YELL, BLACK);
  ("~", "I DON'T KNOW", GREY, BLACK);
  ("~", "PLEASE TEXT ME", CYAN, BLACK);
  ("~", "I CAN'T SPEAK RIGHT NOW", CYAN, BLACK)
]%string.

Definition CAT_FEELINGS : list card := [
  ("*", "I FEEL OVERWHELMED", ORNG, BLACK);
  ("*", "I FEEL SICK", RED, WHITE);
  ("*", "I FEEL ANXIOUS", ORNG, BLACK);
  ("*", "I AM OKAY", GREEN, BLACK)
]%string.

Definition FAV_CARDS : list card := [
  ("!", "PLEASE WAIT", ORNG, BLACK);
  ("!", "I NEED SPACE", ORNG, BLACK);
  ("!", "TOO LOUD", MAG, WHITE);
  ("!", "TOO MANY PEOPLE", MAG, WHITE);
  ("!", "I NEED TO GO HOME", ORNG, BLACK);
  ("~", "WATER PLEASE", CYAN, BLACK)
]%string.

Definition COMM_CATEGORIES : list (string * list card * Z * Z) := [
  ("FAVOURITES", FAV_CARDS, YELL, BLACK);
  ("NEEDS", CAT_NEEDS, GREEN, BLACK);
  ("SENSORY", CAT_SENSORY, MAG, WHITE);
  ("RESPONSES", CAT_RESPONSES, CYAN, BLACK);
  ("FEELINGS", CAT_FEELINGS, ORNG, BLACK)
]%string.

Definition btn_comm_prev : Btn :=
  make_btn (NAV_X0 + 0 * (NAV_W + NAV_GAP)) NAV_Y NAV_W NAV_H "PREV" act_comm_prev None None.
Definition btn_comm_cats : Btn :=
  make_btn (NAV_X0 + 1 * (NAV_W + NAV_GAP)) NAV_Y NAV_W NAV_H "CATS" act_show_comm_menu None None.
Definition btn_comm_next : Btn :=
  make_btn (NAV_X0 + 2 * (NAV_W + NAV_GAP)) NAV_Y NAV_W NAV_H "NEXT" act_comm_next None None.

Definition ACT_H : Z := 44.
Definition ACT_Y : Z := 48 + 8.
Definition ACT_X0 : Z := 20.
Definition ACT_GAP : Z := 12.
Definition ACT_W : Z := (W - 40 - ACT_GAP) / 2.

Definition btn_comm_speak : Btn :=
  make_btn ACT_X0 ACT_Y ACT_W ACT_H "SPEAK" act_speak (Some BLUE) (Some WHITE).
Definition btn_comm_menu : Btn :=
  make_btn (ACT_X0 + ACT_W + ACT_GAP) ACT_Y ACT_W ACT_H "MENU" act_show_menu None None.

(** [for line in lines]: centre each line, then move down. *)
Fixpoint draw_lines (lines : list string) (card_x card_w y line_h scale fg_ bg_ : Z)
  : Run unit :=
  match lines with
  | [] => ret tt
  | line :: rest =>
      let text_w := PyStr.len line * 8 * scale in
      let x := card_x + (card_w - text_w) / 2 in
      lcd_do (LcdText line x y fg_ (Some bg_) scale) ;;
      draw_lines rest card_x card_w (y + line_h) line_h scale fg_ bg_
  end.

Definition draw_comm_card (now : Z) : Run unit :=
  t <- th ;;
  lcd_do (LcdFill (screen_bg t)) ;;
  st0 <- get ;;
  draw_title_bar (comm_cat_name st0) now ;;
  draw_button btn_comm_speak false ;;
  draw_button btn_comm_menu false ;;
  let card_x := 16 in
  let card_y := ACT_Y + ACT_H + 10 in
  let card_w := W - 32 in
  let card_h := H - card_y - (NAV_H + 30) in
  st <- get ;;
  c <- index_or_raise (comm_cards st) (comm_card_index st) ;;
  let '(icon, phrase, bg_, fg_) := c in
  lcd_do (LcdFillRect card_x card_y card_w card_h bg_) ;;
  draw_border card_x card_y card_w card_h (box_border t) ;;
  let indicator :=
    (PyStr.of_int (comm_card_index st + 1) ++ "/"
       ++ PyStr.of_int (Py.len (comm_cards st)))%string in
  draw_indicator indicator ;;
  let icon_scale := 4 in
  let icon_w := PyStr.len icon * 8 * icon_scale in
  let ix := card_x + (card_w - icon_w) / 2 in
  let iy := card_y + 18 in
  lcd_do (LcdText icon ix iy fg_ (Some bg_) icon_scale) ;;
  let scale := 3 in
  let max_chars := (card_w - 20) / (8 * scale) in
  let '(scale, max_chars) :=
    if max_chars <? 6 then (2, (card_w - 20) / (8 * 2)) else (scale, max_chars) in
  let '(scale, max_chars) :=
    if max_chars <? 6 then (1, (card_w - 20) / (8 * 1)) else (scale, max_chars) in
  let lines := wrap_text phrase max_chars in
  let line_h := 8 * scale + 6 in
  let total_h := Py.len lines * line_h in
  let start_y := iy + 8 * icon_scale + 18 in
  let rem_h := (card_y + card_h) - start_y - 12 in
  let y := start_y + (rem_h - total_h) / 2 in
  draw_lines lines card_x card_w y line_h scale fg_ bg_ ;;
  draw_button btn_comm_prev false ;;
  draw_button btn_comm_cats false ;;
  draw_button btn_comm_next false.

Definition show_comm_card (now : Z) : Run unit :=
  set_current_screen SCREEN_COMM_CARD ;;
  draw_comm_card now.

Definition open_category (idx : Z) (now : Z) : Run unit :=
  cat <- index_or_raise COMM_CATEGORIES idx ;;
  let '(cat_name, cards, _, _) := cat in
  set_comm cards cat_name 0 ;;
  show_comm_card now.

Definition comm_prev (now : Z) : Run unit :=
  st <- get ;;
  if comm_card_index st >? 0 then
    set_comm (comm_cards st) (comm_cat_name st) (comm_card_index st - 1) ;;
    draw_comm_card now
  else ret tt.

Definition comm_next (now : Z) : Run unit :=
  st <- get ;;
  if comm_card_index st <? Py.len (comm_cards st) - 1 then
    set_comm (comm_cards st) (comm_cat_name st) (comm_card_index st + 1) ;;
    draw_comm_card now
  else ret tt.

(** *** Start-up state *)

(** The module-level assignments, before [show_menu()]. Constructing the
    classifier may fail, in which case [mic] is [None]. *)
Definition initial (mic_ok : bool) : App :=
  mkApp (if mic_ok
         then Some (MicLevel.new MIC_ADC_PIN MIC_SAMPLE_COUNT MIC_SAMPLE_US
                                 MIC_EMA_ALPHA MIC_QUIET_THRESH MIC_HYSTERESIS
                                 MIC_QUIET_HOLD_MS)
         else None)
        false 0%float 0 0 None 0 SCREEN_MENU FAV_CARDS "FAVOURITES" 0 false 0 [] [].

(** *** The polling loop *)

(** What the environment supplies to one [poll_mic_and_update_badge]:
    the three readings of [time.ticks_ms()] (in the poll, inside
    [mic.update()], in [draw_mic_badge]) and the RMS the classifier
    measures. *)
Record PollInput : Type := mkPollInput {
  poll_now : Z;
  update_raw : float;
  update_now : Z;
  badge_now : Z
}.

Definition poll_mic_and_update_badge (i : PollInput) : Run unit :=
  st <- get ;;
  match mic st with
  | None => ret tt
  | Some m =>
      if Hw.ticks_diff (poll_now i) (_last_mic_poll st) <? MIC_POLL_MS then ret tt
      else
        let '(info, m') := MicLevel.update m (update_raw i) (update_now i) in
        set_mic (Some m') (MicLevel.quiet info) (MicLevel.rms info) (poll_now i) ;;
        draw_mic_badge false (badge_now i)
  end.

Definition TP_CS : Z := 15.
Definition TP_IRQ : Z := 14.

(** [tp.read(samples=9, delay_us=120)]: the attribute is looked up on the
    XPT2046 object, then called. *)
Definition tp_read (tp : Xpt2046.XPT2046) (w : Hw.World)
  : Py.result (option (Z * Z * Z)) * Xpt2046.XPT2046 * Hw.World :=
  match Xpt2046.getattr "read" with
  | None => (Py.Raise (Py.AttributeError "XPT2046" "read"), tp, w)
  | Some Xpt2046.attr_get_raw => Xpt2046.get_raw tp 9 120 w
  | Some _ => (Py.Raise (Py.TypeError "unexpected keyword argument"), tp, w)
  end.

(** What the environment supplies to one iteration of [while True]. *)
Record LoopInput : Type := mkLoopInput {
  loop_now : Z;
  poll_in : PollInput;
  irq_level : Z
}.

(** The world with the touch interrupt line at the given level. *)
Definition with_irq (level : Z) (w : Hw.World) : Hw.World :=
  Hw.mkWorld (Hw.trace w) (Hw.miso w) (Hw.xfers w)
             (fun p => if p =? TP_IRQ then level else Hw.pin_in w p).

(** One iteration of the main loop. [press sx sy] stands for the scan of
    [screen_buttons()] with its feedback and action. *)
Definition loop_iteration (press : Z -> Z -> Run unit) (i : LoopInput)
    (st : App) (tp : Xpt2046.XPT2046) (w : Hw.World)
  : Py.result unit * App * Xpt2046.XPT2046 * Hw.World :=
  let now := loop_now i in
  let w := with_irq (irq_level i) w in
  match poll_mic_and_update_badge (poll_in i) st with
  | (Py.Raise e, st1) => (Py.Raise e, st1, tp, w)
  | (Py.Ok _, st1) =>
      let '(t, tp1, w1) :=
        if Xpt2046.touched tp w then tp_read tp w else (Py.Ok None, tp, w) in
      match t with
      | Py.Raise e => (Py.Raise e, st1, tp1, w1)
      | Py.Ok t =>
          let body : Run unit :=
            down <- match t with
                    | Some (rx, ry, p) =>
                        if p <=? TouchCal.P_MAX TouchCal.CAL then
                          let '(sx, sy) := raw_to_screen rx ry in
                          debug_dot sx sy ;; ret (Some (sx, sy))
                        else ret None
                    | None => ret None
                    end ;;
            st2 <- get ;;
            match down with
            | Some (sx, sy) =>
                (if negb (was_down st2)
                    && (Hw.ticks_diff now (last_tap_ms st2) >? 160)
                 then set_touch (was_down st2) now ;; press sx sy
                 else ret tt) ;;
                st3 <- get ;;
                set_touch true (last_tap_ms st3)
            | None => set_touch false (last_tap_ms st2)
            end in
          match body st1 with
          | (Py.Raise e, st4) => (Py.Raise e, st4, tp1, w1)
          | (Py.Ok _, st4) => (Py.Ok tt, st4, tp1, Hw.emit (Hw.SleepMs 12) w1)
          end
      end
  end.

(** [while True]: iterations follow one another until one raises; the
    list holds what the environment supplies to each. *)
Fixpoint main_loop (press : Z -> Z -> Run unit) (inputs : list LoopInput)
    (st : App) (tp : Xpt2046.XPT2046) (w : Hw.World)
  : Py.result unit * App * Xpt2046.XPT2046 * Hw.World :=
  match inputs with
  | [] => (Py.Ok tt, st, tp, w)
  | i :: rest =>
      match loop_iteration press i st tp w with
      | (Py.Ok _, st', tp', w') => main_loop press rest st' tp' w'
      | raised => raised
      end
  end.

End Main.

(* ===================================================================== *)
(** ** Word wrap as the specification words it *)
(* ===================================================================== *)

(** A second definition of the word wrap, written from its description
    and not from the code: the text is cut at its line breaks; the words
    of each piece (what stands between spaces) are laid out greedily; the
    lines of the pieces follow one another. *)
Module WrapRef.



(** The words of a piece of text: what stands between its spaces, the
    empty strings between adjacent spaces left out. *)
Definition words (piece : string) : list string :=
  filter PyStr.truthy (PyStr.split PyStr.space piece).








End WrapRef.

(* ===================================================================== *)
(** ** Vocabulary for the application controller's properties *)
(* ===================================================================== *)

Module AppSpec.

(** The calls that paint the badge: a 120 x 28 box at (348, 10) in green
    ("QUIET OK", black text) or magenta ("LOUD", white text), its
    one-pixel border, and the centred label at scale 2. *)
Definition badge_calls (quiet : bool) (border : Z) : list Main.lcd_call :=
  let bg := if quiet then Main.GREEN else Main.MAG in
  let fg := if quiet then Main.BLACK else Main.WHITE in
  [ Main.LcdFillRect 348 10 120 28 bg;
    Main.LcdFillRect 348 10 120 1 border;
    Main.LcdFillRect 348 37 120 1 border;
    Main.LcdFillRect 348 10 1 28 border;
    Main.LcdFillRect 467 10 1 28 border;
    if quiet then Main.LcdText "QUIET OK" 344 16 fg (Some bg) 2
    else Main.LcdText "LOUD" 376 16 fg (Some bg) 2 ].

(** The state is the one the application can be in while a card is
    shown: a theme is selected and the card index lies inside the active
    card list. *)
Definition card_in_bounds (st : Main.App) : Prop :=
  0 <= Main.comm_card_index st < Py.len (Main.comm_cards st).

(** An application state with the classifier enabled, as the badge code
    reads it: when the badge was last drawn or checked, the classification
    it showed, the current classification. *)
Definition badge_state (last_draw : Z) (last_state : option bool) (quiet : bool)
  : Main.App :=
  Main.mkApp (Some (MicSpec.mic_in 0 quiet None)) quiet 0 0
             last_draw last_state 0 Main.SCREEN_MENU
             Main.FAV_CARDS "FAVOURITES" 0 false 0 [] [].

(** A theme is selected. *)
Definition theme_ok (st : Main.App) : Prop :=
  exists t, Py.index Main.THEMES (Main.theme_index st) = Some t.

(** The navigation variables have the given values. *)
Definition at_nav (ti : Z) (cards : list Main.card) (name : string) (idx : Z)
    (st : Main.App) : Prop :=
  Main.theme_index st = ti
  /\ Main.comm_cards st = cards
  /\ Main.comm_cat_name st = name
  /\ Main.comm_card_index st = idx.

(** A computation that, from any state satisfying [P], returns normally
    in a state satisfying [P]. *)
Definition keeps (P : Main.App -> Prop) {A : Type} (c : Main.Run A) : Prop :=
  forall st, P st -> exists a st', c st = (Py.Ok a, st') /\ P st'.

(** The actions of the communication-card screens. *)
Inductive nav : Type :=
| NavPrev
| NavNext
| NavOpen (idx : Z).

Definition nav_step (a : nav) (now : Z) : Main.Run unit :=
  match a with
  | NavPrev => Main.comm_prev now
  | NavNext => Main.comm_next now
  | NavOpen idx => Main.open_category idx now
  end.

(** The category buttons carry the indices 0 to 4. *)
Definition nav_ok (step : nav * Z) : Prop :=
  match fst step with
  | NavOpen idx => 0 <= idx < 5
  | _ => True
  end.

Fixpoint nav_run (steps : list (nav * Z)) : Main.Run unit :=
  match steps with
  | [] => Main.ret tt
  | (a, now) :: rest => Main.bind (nav_step a now) (fun _ => nav_run rest)
  end.

End AppSpec.

(* ===================================================================== *)
(** ** Vocabulary for the display driver's properties *)
(* ===================================================================== *)

Module DisplaySpec.

(** A 16-bit value as two bytes, high byte first. *)
Definition be16 (v : Z) : list Z :=
  [Ili9486.byte (Z.shiftr v 8); Ili9486.byte (Z.land v 0xFF)].

(** The bytes that address the window (x0, y0)-(x1, y1): column range,
    row range, memory write, panel offsets applied. *)
Definition window_bytes (self : Ili9486.ILI9486) (x0 y0 x1 y1 : Z) : list Z :=
  [0x2A] ++ be16 (x0 + Ili9486.x_offset self) ++ be16 (x1 + Ili9486.x_offset self)
  ++ [0x2B] ++ be16 (y0 + Ili9486.y_offset self) ++ be16 (y1 + Ili9486.y_offset self)
  ++ [0x2C].

(** [n] pixels of one colour, each high byte first. *)
Definition pixel_bytes (color565 : Z) (n : nat) : list Z :=
  List.concat (repeat [Z.land (Z.shiftr color565 8) 0xFF; Z.land color565 0xFF] n).

(** The part of the requested rectangle that lies on the panel, one axis
    at a time: it starts at the request's origin or at 0, whichever is
    larger, and ends at the request's end or at the panel's, whichever is
    smaller. *)
Definition clip_origin (origin : Z) : Z := Z.max origin 0.
Definition clip_size (origin size limit : Z) : Z :=
  Z.min (origin + size) limit - Z.max origin 0.

(** The target rectangle lies on the panel and is not empty. *)
Definition on_panel (self : Ili9486.ILI9486) (x y w h : Z) : Prop :=
  0 < w /\ 0 < h /\ 0 <= x /\ 0 <= y
  /\ x + w <= Ili9486.width self /\ y + h <= Ili9486.height self.


(** A computation that succeeds and only appends the given events. *)
Definition emits (c : Ili9486.M unit) (evs : list Hw.event) : Prop :=
  forall w, c w = (Py.Ok tt, Hw.extend evs w).

(** The display as main.py constructs it (after initialisation). *)
Definition lcd : Ili9486.ILI9486 :=
  Ili9486.mkILI9486 17 20 21 480 320 0 0 0x48.

(** A world in which nothing has happened yet. *)
Definition idle_world : Hw.World :=
  Hw.mkWorld [] (fun _ => (0, 0, 0)) 0 (fun _ => 1).

End DisplaySpec.

(* ===================================================================== *)
(** ** Vocabulary for the touch digitizer's properties *)
(* ===================================================================== *)

Module TouchSpec.

(** The values the controller delivers when [n] Y-then-X pairs are read
    starting at bus exchange [start]: pair [k] uses exchanges
    [start + 2k] (Y) and [start + 2k + 1] (X); [off] selects the axis. *)
Fixpoint samples_from (m : nat -> Z * Z * Z) (start n off : nat) : list Z :=
  match n with
  | O => []
  | S n' =>
      Xpt2046.frame_value (m (start + off)%nat)
        :: samples_from m (start + 2)%nat n' off
  end.

Definition y_samples (w : Hw.World) (n : nat) : list Z :=
  samples_from (Hw.miso w) (Hw.xfers w) n 0.

Definition x_samples (w : Hw.World) (n : nat) : list Z :=
  samples_from (Hw.miso w) (Hw.xfers w) n 1.

(** [m] is a median of [l]: it occurs in [l], at least half of the
    elements are at most [m] and at least half are at least [m]. *)
Definition is_median (m : Z) (l : list Z) : Prop :=
  In m l
  /\ Py.len l <= 2 * PyList.count (fun a => a <=? m) l
  /\ Py.len l <= 2 * PyList.count (fun a => m <=? a) l.

(** A frame whose 12-bit value is [v] (for test fixtures). *)
Definition frame_of (v : Z) : Z * Z * Z :=
  (0, Z.shiftr (Z.shiftl v 4) 8, Z.land (Z.shiftl v 4) 255).

(** A controller that answers the given 12-bit values in order. *)
Definition feed (vals : list Z) : nat -> Z * Z * Z :=
  fun k => frame_of (nth k vals 0).

End TouchSpec.

(* ===================================================================== *)
(** ** ui.py: the touch mapper and the screens *)
(* ===================================================================== *)

Module TouchMapper.

(** [TouchMapper.raw_to_screen], reading the table [self.cal]. *)
Definition raw_to_screen (c : TouchCal.Cal) (rx ry : Z) : Z * Z :=
  let '(rx, ry) := if TouchCal.SWAP_XY c then (ry, rx) else (rx, ry) in
  let x := Ui.map_range rx (TouchCal.RAW_X_LEFT c) (TouchCal.RAW_X_RIGHT c)
                        0 (TouchCal.W c - 1) in
  let y := Ui.map_range ry (TouchCal.RAW_Y_TOP c) (TouchCal.RAW_Y_BOT c)
                        0 (TouchCal.H c - 1) in
  let x := if TouchCal.FLIP_X c then (TouchCal.W c - 1) - x else x in
  let y := if TouchCal.FLIP_Y c then (TouchCal.H c - 1) - y else y in
  let x := Ui.clamp x 0 (TouchCal.W c - 1) in
  let y := Ui.clamp y 0 (TouchCal.H c - 1) in
  (x, y).

End TouchMapper.

Module Screen.

(** A screen and its buttons. A button's [on_press] is [None] or a
    callback; a callback is identified with the value it returns. *)
Record Screen (A : Type) : Type := mkScreen {
  name : string;
  buttons : list (Ui.Button (option A))
}.
Arguments mkScreen {A}.
Arguments name {A}.
Arguments buttons {A}.

(** [Screen.__init__] *)
Definition new {A} (name : string) : Screen A := mkScreen name [].

Definition add_button {A} (self : Screen A) (btn : Ui.Button (option A)) : Screen A :=
  mkScreen (name self) (buttons self ++ [btn]).

(** [b._pressed = v] *)
Definition set_pressed {A} (b : Ui.Button A) (v : bool) : Ui.Button A :=
  Ui.mkButton (Ui.x b) (Ui.y b) (Ui.w b) (Ui.h b) (Ui.label b) (Ui.on_press b) v.

(** The loop of [handle_touch] while the finger is down: the first
    button that contains the point, is not latched and has a callback
    ends the loop with the callback's result; a button without callback
    is latched and passed over. *)
Fixpoint press_loop {A} (bs : list (Ui.Button (option A))) (x y : Z)
  : option A * list (Ui.Button (option A)) :=
  match bs with
  | [] => (None, [])
  | b :: rest =>
      if Ui.contains b x y && negb (Ui._pressed b) then
        match Ui.on_press b with
        | Some a => (Some a, set_pressed b true :: rest)
        | None =>
            let '(r, rest') := press_loop rest x y in
            (r, set_pressed b true :: rest')
        end
      else
        let '(r, rest') := press_loop rest x y in
        (r, b :: rest')
  end.

Definition handle_touch {A} (self : Screen A) (x y : Z) (pressed : bool)
  : option A * Screen A :=
  if negb pressed then
    (None, mkScreen (name self) (map (fun b => set_pressed b false) (buttons self)))
  else
    let '(r, bs) := press_loop (buttons self) x y in
    (r, mkScreen (name self) bs).

End Screen.

(* ===================================================================== *)
(** ** Vocabulary for the screens' properties *)
(* ===================================================================== *)

Module ScreenSpec.

(** The button a touch at (x, y) fires: the first one that contains the
    point, is not latched and has a callback. *)
Fixpoint fired {A} (bs : list (Ui.Button (option A))) (x y : Z) : option nat :=
  match bs with
  | [] => None
  | b :: rest =>
      if Ui.contains b x y && negb (Ui._pressed b) then
        match Ui.on_press b with
        | Some _ => Some O
        | None => option_map S (fired rest x y)
        end
      else option_map S (fired rest x y)
  end.

(** Button [i] of the screen is latched. *)
Definition latched {A} (s : Screen.Screen A) (i : nat) : Prop :=
  exists b, nth_error (Screen.buttons s) i = Some b /\ Ui._pressed b = true.

(** A finger kept down and moved over the points [pts]: the buttons
    fired, in order, and the screen afterwards. *)
Fixpoint hold {A} (s : Screen.Screen A) (pts : list (Z * Z))
  : list nat * Screen.Screen A :=
  match pts with
  | [] => ([], s)
  | (x, y) :: rest =>
      let s' := snd (Screen.handle_touch s x y true) in
      let '(l, s'') := hold s' rest in
      (match fired (Screen.buttons s) x y with
       | Some i => i :: l
       | None => l
       end, s'')
  end.

End ScreenSpec.

(* ===================================================================== *)
(** ** Vocabulary for the display bus *)
(* ===================================================================== *)

Module PanelSpec.

(** What the panel makes of a bus write: with chip-select low, a
    command when the D/C line is low and data when it is high; a write
    while chip-select is high is not addressed to the panel. *)
Inductive packet : Type :=
| Command (bytes : list Z)
| Data (bytes : list Z)
| Unselected (bytes : list Z).

(** The packets a trace delivers to a panel wired to the pins [cs] and
    [dc], the two lines being at the levels [sel] and [dcl] when the
    trace starts. *)
Fixpoint receive (cs dc : Z) (sel dcl : Z) (t : list Hw.event) : list packet :=
  match t with
  | [] => []
  | Hw.PinSet p v :: t' =>
      receive cs dc (if p =? cs then v else sel) (if p =? dc then v else dcl) t'
  | Hw.SpiWrite d :: t' =>
      (if sel =? 0 then if dcl =? 0 then Command d else Data d else Unselected d)
        :: receive cs dc sel dcl t'
  | _ :: t' => receive cs dc sel dcl t'
  end.

(** The level of pin [p] after a trace. *)
Fixpoint level_after (p : Z) (lvl : Z) (t : list Hw.event) : Z :=
  match t with
  | [] => lvl
  | Hw.PinSet q v :: t' => level_after p (if q =? p then v else lvl) t'
  | _ :: t' => level_after p lvl t'
  end.

(** The packets that address a window. *)
Definition window_packets (self : Ili9486.ILI9486) (x0 y0 x1 y1 : Z) : list packet :=
  [ Command [0x2A];
    Data (DisplaySpec.be16 (x0 + Ili9486.x_offset self)
          ++ DisplaySpec.be16 (x1 + Ili9486.x_offset self));
    Command [0x2B];
    Data (DisplaySpec.be16 (y0 + Ili9486.y_offset self)
          ++ DisplaySpec.be16 (y1 + Ili9486.y_offset self));
    Command [0x2C] ].

(** A buffer with every pair of bytes exchanged (a trailing single byte
    is dropped). *)
Fixpoint swapped (buf : list Z) : list Z :=
  match buf with
  | a :: b :: rest => b :: a :: swapped rest
  | _ => []
  end.

End PanelSpec.

(* ===================================================================== *)
(** ** Vocabulary for the digitizer's readings *)
(* ===================================================================== *)

Module SampleSpec.

(** Every frame the controller answers holds bytes in its two data
    positions. *)
Definition byte_frames (m : nat -> Z * Z * Z) : Prop :=
  forall k, 0 <= snd (fst (m k)) < 256 /\ 0 <= snd (m k) < 256.

(** All elements of a list are equal to [v]. *)
Definition all_equal (v : Z) (l : list Z) : Prop := Forall (fun a => a = v) l.

End SampleSpec.

(* ===================================================================== *)
(** ** Vocabulary for the word wrap *)
(* ===================================================================== *)

Module WrapSpec.

(** The string holds a single word: no space in it. *)
Definition single_word (s : string) : Prop :=
  PyStr.contains PyStr.space s = false.

(** A line as [wrap_text] may answer it for the budget [max_chars]:
    not empty, and within the budget unless it is a single word. *)
Definition well_formed (max_chars : Z) (line : string) : Prop :=
  line <> EmptyString
  /\ (PyStr.len line <= max_chars \/ single_word line).

End WrapSpec.

(* ===================================================================== *)
(** ** Vocabulary for what drawing leaves alone *)
(* ===================================================================== *)

Module FrameSpec.

(** Every module variable of the application state except the display
    and the badge bookkeeping. *)
Definition core (st : Main.App) :=
  (Main.mic st, Main.mic_quiet st, Main.mic_rms st, Main._last_mic_poll st,
   Main.theme_index st, Main.current_screen st, Main.comm_cards st,
   Main.comm_cat_name st, Main.comm_card_index st, Main.was_down st,
   Main.last_tap_ms st, Main.console st).

(** [st] differs from [st0] at most in the display and in the badge
    bookkeeping. *)
Definition drawn_from (st0 st : Main.App) : Prop := core st = core st0.

End FrameSpec.

(* ===================================================================== *)
(** ** Vocabulary for runs of the classifier and of the poll *)
(* ===================================================================== *)

Module PollSpec.

(** The module variables [mic_quiet] and [mic_rms] show what the
    classifier holds. *)
Definition published (st : Main.App) : Prop :=
  match Main.mic st with
  | Some m => Main.mic_quiet st = MicLevel._quiet m
              /\ Main.mic_rms st = MicLevel._ema_rms m
  | None => True
  end.

(** A series of polls, one after the other. *)
Fixpoint polls (inputs : list Main.PollInput) : Main.Run unit :=
  match inputs with
  | [] => Main.ret tt
  | i :: rest => Main.bind (Main.poll_mic_and_update_badge i) (fun _ => polls rest)
  end.

End PollSpec.

(* ===================================================================== *)
(** ** main.py: the menu, grounding, contacts and settings screens *)
(* ===================================================================== *)

Module Screens.

(** The exceptions of this part of the module: those of the code it
    calls, and a division by zero. *)
Inductive exn : Type :=
| Builtin (e : Py.exn)
| ZeroDivisionError (what : string).

Inductive result (A : Type) : Type :=
| Ok (a : A)
| Raise (e : exn).
Arguments Ok {A} a.
Arguments Raise {A} e.

(** What a button's [on_press] is bound to once the module is loaded. *)
Inductive callback : Type :=
| cb_show_menu
| cb_show_grounding
| cb_show_comm_menu
| cb_show_contacts
| cb_show_settings
| cb_grounding_prev
| cb_grounding_next
| cb_menu_prev
| cb_menu_next
| cb_comm_prev
| cb_comm_next
| cb_speak_card                (* lambda: speak(comm_cards[comm_card_index][1]) *)
| cb_apply_theme (idx : Z)     (* the [_go] of make_apply(idx) *)
| cb_open_category (idx : Z).  (* the [_open] of make_open(idx) *)

(** A [Button] with the optional [bg] / [fg] attributes. *)
Record Btn : Type := mkBtn {
  button : Ui.Button callback;
  bg : option Z;
  fg : option Z
}.

(** [Button(x, y, w, h, label, on_press)] *)
Definition Button (x y w h : Z) (label : string) (on_press : callback) : Btn :=
  mkBtn (Ui.new x y w h label on_press) None None.

Definition make_btn (x y w h : Z) (label : string) (on_press : callback)
    (bg fg : option Z) : Btn :=
  mkBtn (Ui.new x y w h label on_press) bg fg.

(** The module variables: those of [Main.App], the page counters, the
    button lists built at run time, and the sleeps of the press
    feedback. *)
Record Globals : Type := mkGlobals {
  app : Main.App;
  page_index : Z;
  menu_page : Z;
  menu_buttons : list Btn;
  settings_buttons : list Btn;
  comm_menu_buttons : list Btn;
  slept : list Z
}.

Definition Run (A : Type) : Type := Globals -> result A * Globals.

Definition ret {A} (a : A) : Run A := fun g => (Ok a, g).

Definition bind {A B} (c : Run A) (k : A -> Run B) : Run B :=
  fun g =>
    match c g with
    | (Ok a, g') => k a g'
    | (Raise e, g') => (Raise e, g')
    end.

Definition raise {A} (e : exn) : Run A := fun g => (Raise e, g).

Definition get : Run Globals := fun g => (Ok g, g).

Notation "x <- c1 ;; c2" := (bind c1 (fun x => c2))
  (at level 61, c1 at next level, right associativity).
Notation "c1 ;; c2" := (bind c1 (fun _ => c2))
  (at level 61, right associativity).

Definition with_app (g : Globals) (st : Main.App) : Globals :=
  mkGlobals st (page_index g) (menu_page g) (menu_buttons g)
            (settings_buttons g) (comm_menu_buttons g) (slept g).

(** Code of the first part of the module, run on the shared state. *)
Definition lift {A} (c : Main.Run A) : Run A :=
  fun g =>
    match c (app g) with
    | (Py.Ok a, st) => (Ok a, with_app g st)
    | (Py.Raise e, st) => (Raise (Builtin e), with_app g st)
    end.

Definition set_page_index (v : Z) : Run unit :=
  fun g => (Ok tt, mkGlobals (app g) v (menu_page g) (menu_buttons g)
                             (settings_buttons g) (comm_menu_buttons g) (slept g)).

Definition set_menu_page (v : Z) : Run unit :=
  fun g => (Ok tt, mkGlobals (app g) (page_index g) v (menu_buttons g)
                             (settings_buttons g) (comm_menu_buttons g) (slept g)).

Definition set_menu_buttons (v : list Btn) : Run unit :=
  fun g => (Ok tt, mkGlobals (app g) (page_index g) (menu_page g) v
                             (settings_buttons g) (comm_menu_buttons g) (slept g)).

Definition set_settings_buttons (v : list Btn) : Run unit :=
  fun g => (Ok tt, mkGlobals (app g) (page_index g) (menu_page g) (menu_buttons g)
                             v (comm_menu_buttons g) (slept g)).

Definition set_comm_menu_buttons (v : list Btn) : Run unit :=
  fun g => (Ok tt, mkGlobals (app g) (page_index g) (menu_page g) (menu_buttons g)
                             (settings_buttons g) v (slept g)).

(** [time.sleep_ms(ms)] *)
Definition sleep_ms (ms : Z) : Run unit :=
  fun g => (Ok tt, mkGlobals (app g) (page_index g) (menu_page g) (menu_buttons g)
                             (settings_buttons g) (comm_menu_buttons g)
                             (slept g ++ [ms])).

(** [theme_index = idx] *)
Definition set_theme_index (idx : Z) : Run unit :=
  lift (fun st =>
    (Py.Ok tt,
     Main.mkApp (Main.mic st) (Main.mic_quiet st) (Main.mic_rms st)
                (Main._last_mic_poll st) (Main._last_badge_draw st)
                (Main._last_badge_state st) idx
                (Main.current_screen st) (Main.comm_cards st) (Main.comm_cat_name st)
                (Main.comm_card_index st) (Main.was_down st) (Main.last_tap_ms st)
                (Main.lcd st) (Main.console st))).

Definition set_current_screen (s : Main.screen) : Run unit :=
  lift (Main.set_current_screen s).

(** [a // b] *)
Definition floordiv (a b : Z) : Run Z :=
  if b =? 0 then raise (ZeroDivisionError "divide by zero") else ret (a / b).

(** [seq[i]] or [IndexError]. *)
Definition index_or_raise {A} (l : list A) (i : Z) : Run A :=
  match Py.index l i with
  | Some a => ret a
  | None => raise (Builtin (Py.IndexError "list index out of range"))
  end.

(** [range(a, b)] *)
Definition range (a b : Z) : list Z :=
  map (fun k => a + Z.of_nat k) (seq 0 (Z.to_nat (b - a))).

(** [enumerate(l)] *)
Definition enumerate {A} (l : list A) : list (Z * A) :=
  combine (map Z.of_nat (seq 0 (List.length l))) l.

(** The drawing helpers of the first part. Drawing reads a button's
    rectangle, label and colours, never its callback. *)
Definition th : Run Main.Theme := lift Main.th.

Definition lcd_do (c : Main.lcd_call) : Run unit := lift (Main.lcd_do c).

Definition draw_border (x y w h c : Z) : Run unit := lift (Main.draw_border x y w h c).

Definition draw_title_bar (title : string) (now : Z) : Run unit :=
  lift (Main.draw_title_bar title now).

Definition draw_indicator (text : string) : Run unit := lift (Main.draw_indicator text).

Definition shape (b : Btn) : Main.Btn :=
  Main.mkBtn (Ui.mkButton (Ui.x (button b)) (Ui.y (button b)) (Ui.w (button b))
                          (Ui.h (button b)) (Ui.label (button b)) Main.act_none
                          (Ui._pressed (button b)))
             (bg b) (fg b).

Definition draw_button (b : Btn) (pressed : bool) : Run unit :=
  lift (Main.draw_button (shape b) pressed).

(** [for b in bs: draw_button(b)] *)
Fixpoint draw_buttons (bs : list Btn) : Run unit :=
  match bs with
  | [] => ret tt
  | b :: rest => draw_button b false ;; draw_buttons rest
  end.

(** *** Text boxes *)

(** [for line in lines] of [draw_text_box], with its [break]. *)
Fixpoint text_box_lines (lines : list string) (shown max_lines tx ty line_h : Z)
    (t : Main.Theme) (scale : Z) : Run unit :=
  match lines with
  | [] => ret tt
  | line :: rest =>
      if shown >=? max_lines then ret tt
      else
        let fg := if Main.box_bg t =? Main.BLACK then Main.WHITE else Main.BLACK in
        lcd_do (Main.LcdText line tx ty fg (Some (Main.box_bg t)) scale) ;;
        text_box_lines rest (shown + 1) max_lines tx (ty + line_h) line_h t scale
  end.

(** [for scale in (prefer_scale, 1)] of [draw_text_box], with its
    [return]. *)
Fixpoint text_box_scales (scales : list Z) (text : string) (x y w h : Z)
    (t : Main.Theme) : Run unit :=
  match scales with
  | [] => ret tt
  | scale :: rest =>
      max_chars <- floordiv (w - 16) (8 * scale) ;;
      let lines := Main.wrap_text text max_chars in
      let line_h := 8 * scale + 2 in
      max_lines <- floordiv (h - 16) line_h ;;
      if (Py.len lines <=? max_lines) || (scale =? 1) then
        text_box_lines lines 0 max_lines (x + 8) (y + 8) line_h t scale
      else text_box_scales rest text x y w h t
  end.

Definition draw_text_box (text : string) (x y w h prefer_scale : Z) : Run unit :=
  t <- th ;;
  lcd_do (Main.LcdFillRect x y w h (Main.box_bg t)) ;;
  draw_border x y w h (Main.box_border t) ;;
  text_box_scales [prefer_scale; 1] text x y w h t.

(** *** Grounding *)

Definition nl : string := String PyStr.newline EmptyString.

Definition GROUNDING_PAGES : list string := [
  String.concat nl
    [ "5-4-3-2-1 Senses"; ""; "Name:"; "5 things you can SEE";
      "4 things you can FEEL"; "3 things you can HEAR";
      "2 things you can SMELL"; "1 thing you can TASTE" ];
  String.concat nl
    [ "Box Breathing (4-4-4-4)"; ""; "Inhale 4"; "Hold   4"; "Exhale 4";
      "Hold   4"; ""; "Repeat 4 times." ];
  String.concat nl
    [ "Feet + Body Scan"; ""; "Press feet into floor.";
      "Notice pressure + texture."; "Relax jaw, drop shoulders.";
      "Unclench hands."; "Slow exhale." ]
]%string.

Definition nav_x (k : Z) : Z := Main.NAV_X0 + k * (Main.NAV_W + Main.NAV_GAP).

Definition btn_ground_prev : Btn :=
  Button (nav_x 0) Main.NAV_Y Main.NAV_W Main.NAV_H "PREV" cb_grounding_prev.
Definition btn_ground_menu : Btn :=
  Button (nav_x 1) Main.NAV_Y Main.NAV_W Main.NAV_H "MENU" cb_show_menu.
Definition btn_ground_next : Btn :=
  Button (nav_x 2) Main.NAV_Y Main.NAV_W Main.NAV_H "NEXT" cb_grounding_next.

Definition draw_grounding (now : Z) : Run unit :=
  t <- th ;;
  lcd_do (Main.LcdFill (Main.screen_bg t)) ;;
  draw_title_bar "GROUNDING" now ;;
  let box_x := 16 in
  let box_y := 60 in
  let box_w := Main.W - 32 in
  let box_h := Main.H - 60 - (Main.NAV_H + 30) in
  g <- get ;;
  let indicator :=
    (PyStr.of_int (page_index g + 1) ++ "/"
       ++ PyStr.of_int (Py.len GROUNDING_PAGES))%string in
  draw_indicator indicator ;;
  g <- get ;;
  page <- index_or_raise GROUNDING_PAGES (page_index g) ;;
  draw_text_box page box_x box_y box_w box_h 2 ;;
  draw_button btn_ground_prev false ;;
  draw_button btn_ground_menu false ;;
  draw_button btn_ground_next false.

Definition show_grounding (now : Z) : Run unit :=
  set_current_screen Main.SCREEN_GROUND ;;
  draw_grounding now.

Definition grounding_prev (now : Z) : Run unit :=
  g <- get ;;
  if page_index g >? 0 then
    set_page_index (page_index g - 1) ;;
    draw_grounding now
  else ret tt.

Definition grounding_next (now : Z) : Run unit :=
  g <- get ;;
  if page_index g <? Py.len GROUNDING_PAGES - 1 then
    set_page_index (page_index g + 1) ;;
    draw_grounding now
  else ret tt.

(** *** Contacts *)

Definition CONTACT_TEXT : string :=
  String.concat nl
    [ "CONTACT DETAILS"; ""; "Name: -------"; "Pronouns: She/Her";
      "Phone: -------"; ""; "Emergency Contact"; "Name: ------";
      "Relationship: -------"; "Phone: ----------"; ""; "Medical Notes";
      "- Please be patient."; "- Prefer text / yes-no questions.";
      "- Sensory overload: noise/crowds."; "- Needs space + quiet to regulate.";
      "" ]%string.

Definition btn_contacts_menu : Btn :=
  Button (nav_x 1) Main.NAV_Y Main.NAV_W Main.NAV_H "MENU" cb_show_menu.

Definition show_contacts (now : Z) : Run unit :=
  t <- th ;;
  set_current_screen Main.SCREEN_CONTACTS ;;
  lcd_do (Main.LcdFill (Main.screen_bg t)) ;;
  draw_title_bar "CONTACTS" now ;;
  let box_x := 16 in
  let box_y := 60 in
  let box_w := Main.W - 32 in
  let box_h := Main.H - 60 - (Main.NAV_H + 30) in
  draw_text_box CONTACT_TEXT box_x box_y box_w box_h 2 ;;
  draw_button btn_contacts_menu false.

(** *** Settings *)

Definition btn_settings_menu : Btn :=
  Button (nav_x 1) Main.NAV_Y Main.NAV_W Main.NAV_H "MENU" cb_show_menu.

(** [for i, theme_row in enumerate(THEMES)] of [show_settings]. *)
Fixpoint settings_loop (rows : list (Z * Main.Theme))
    (grid_x grid_y cols gapx gapy bw bh : Z) : Run unit :=
  match rows with
  | [] => ret tt
  | (i, theme_row) :: rest =>
      let name := Main.name theme_row in
      let title_bg := Main.title_bg theme_row in
      let title_fg := Main.title_fg theme_row in
      let c := i mod cols in
      let r := i / cols in
      let x := grid_x + c * (bw + gapx) in
      let y := grid_y + r * (bh + gapy) in
      let b := make_btn x y bw bh name (cb_apply_theme i) (Some title_bg) (Some title_fg) in
      g <- get ;;
      set_settings_buttons (settings_buttons g ++ [b]) ;;
      draw_button b false ;;
      settings_loop rest grid_x grid_y cols gapx gapy bw bh
  end.

Definition show_settings (now : Z) : Run unit :=
  t <- th ;;
  set_current_screen Main.SCREEN_SETTINGS ;;
  lcd_do (Main.LcdFill (Main.screen_bg t)) ;;
  draw_title_bar "SETTINGS" now ;;
  set_settings_buttons [] ;;
  let grid_x := 20 in
  let grid_y := 70 in
  let grid_w := Main.W - 40 in
  let grid_h := Main.H - 70 - (Main.NAV_H + 30) in
  let cols := 2 in
  let rows := (Py.len Main.THEMES + 1) / 2 in
  let gapx := 12 in
  let gapy := 12 in
  let bw := (grid_w - gapx) / 2 in
  bh <- floordiv (grid_h - (rows - 1) * gapy) rows ;;
  settings_loop (enumerate Main.THEMES) grid_x grid_y cols gapx gapy bw bh ;;
  draw_button btn_settings_menu false.

Definition apply_theme (idx : Z) (now : Z) : Run unit :=
  set_theme_index idx ;;
  show_settings now.

(** *** Communication menu *)

Definition btn_commmenu_menu : Btn :=
  Button (nav_x 1) Main.NAV_Y Main.NAV_W Main.NAV_H "MENU" cb_show_menu.

(** [for i, (name, cards, bg, fg) in enumerate(COMM_CATEGORIES)] *)
Fixpoint comm_menu_loop (rows : list (Z * (string * list Main.card * Z * Z)))
    (grid_x grid_y cols gapx gapy bw bh : Z) : Run unit :=
  match rows with
  | [] => ret tt
  | (i, (name, cards, bg, fg)) :: rest =>
      let c := i mod cols in
      let r := i / cols in
      let x := grid_x + c * (bw + gapx) in
      let y := grid_y + r * (bh + gapy) in
      let b := make_btn x y bw bh name (cb_open_category i) (Some bg) (Some fg) in
      g <- get ;;
      set_comm_menu_buttons (comm_menu_buttons g ++ [b]) ;;
      comm_menu_loop rest grid_x grid_y cols gapx gapy bw bh
  end.

Definition build_comm_menu_buttons : Run unit :=
  set_comm_menu_buttons [] ;;
  let cols := 2 in
  let rows := (Py.len Main.COMM_CATEGORIES + 1) / 2 in
  let grid_x := 20 in
  let grid_y := 70 in
  let grid_w := Main.W - 40 in
  let grid_h := Main.H - 70 - (Main.NAV_H + 30) in
  let gapx := 12 in
  let gapy := 12 in
  let bw := (grid_w - gapx) / 2 in
  bh <- floordiv (grid_h - (rows - 1) * gapy) rows ;;
  comm_menu_loop (enumerate Main.COMM_CATEGORIES) grid_x grid_y cols gapx gapy bw bh.

Definition show_comm_menu (now : Z) : Run unit :=
  t <- th ;;
  set_current_screen Main.SCREEN_COMM_MENU ;;
  lcd_do (Main.LcdFill (Main.screen_bg t)) ;;
  draw_title_bar "COMM CARDS" now ;;
  build_comm_menu_buttons ;;
  g <- get ;;
  draw_buttons (comm_menu_buttons g) ;;
  draw_button btn_commmenu_menu false.

(** *** Communication cards: the buttons with their callbacks *)

Definition btn_comm_prev : Btn :=
  Button (nav_x 0) Main.NAV_Y Main.NAV_W Main.NAV_H "PREV" cb_comm_prev.
Definition btn_comm_cats : Btn :=
  Button (nav_x 1) Main.NAV_Y Main.NAV_W Main.NAV_H "CATS" cb_show_comm_menu.
Definition btn_comm_next : Btn :=
  Button (nav_x 2) Main.NAV_Y Main.NAV_W Main.NAV_H "NEXT" cb_comm_next.
Definition btn_comm_speak : Btn :=
  make_btn Main.ACT_X0 Main.ACT_Y Main.ACT_W Main.ACT_H "SPEAK" cb_speak_card
           (Some Main.BLUE) (Some Main.WHITE).
Definition btn_comm_menu : Btn :=
  make_btn (Main.ACT_X0 + Main.ACT_W + Main.ACT_GAP) Main.ACT_Y Main.ACT_W Main.ACT_H
           "MENU" cb_show_menu None None.

(** *** The paged menu *)

Definition MENU_ALL_ITEMS : list (string * callback) := [
  ("GROUNDING TECHNIQUES", cb_show_grounding);
  ("COMMUNICATION CARDS", cb_show_comm_menu);
  ("CONTACT DETAILS", cb_show_contacts);
  ("SETTINGS", cb_show_settings)
]%string.

Definition MENU_ITEMS_PER_PAGE : Z := 2.

Definition btn_menu_prev : Btn :=
  Button (nav_x 0) Main.NAV_Y Main.NAV_W Main.NAV_H "PREV" cb_menu_prev.
Definition btn_menu_next : Btn :=
  Button (nav_x 2) Main.NAV_Y Main.NAV_W Main.NAV_H "NEXT" cb_menu_next.

Definition menu_total_pages : Z :=
  (Py.len MENU_ALL_ITEMS + MENU_ITEMS_PER_PAGE - 1) / MENU_ITEMS_PER_PAGE.

(** [for i in range(start, end)] of [build_menu_buttons]. *)
Fixpoint menu_items_loop (idxs : list Z) (X0 y BTN_W BTN_H GAP : Z) : Run unit :=
  match idxs with
  | [] => ret tt
  | i :: rest =>
      item <- index_or_raise MENU_ALL_ITEMS i ;;
      let '(label, fn) := item in
      g <- get ;;
      set_menu_buttons (menu_buttons g ++ [Button X0 y BTN_W BTN_H label fn]) ;;
      menu_items_loop rest X0 (y + BTN_H + GAP) BTN_W BTN_H GAP
  end.

Definition build_menu_buttons : Run unit :=
  let X0 := 20 in
  let TOP := 60 in
  let BOTTOM := Main.NAV_Y - 10 in
  let AREA_H := BOTTOM - TOP in
  let GAP := 14 in
  let BTN_W := Main.W - 2 * X0 in
  let BTN_H := (AREA_H - GAP) / 2 in
  let BTN_H := if BTN_H <? 40 then 40 else BTN_H in
  g <- get ;;
  let start := menu_page g * MENU_ITEMS_PER_PAGE in
  let end_ := Py.min (start + MENU_ITEMS_PER_PAGE) (Py.len MENU_ALL_ITEMS) in
  set_menu_buttons [] ;;
  menu_items_loop (range start end_) X0 TOP BTN_W BTN_H GAP.

Definition draw_menu (now : Z) : Run unit :=
  t <- th ;;
  lcd_do (Main.LcdFill (Main.screen_bg t)) ;;
  draw_title_bar "MENU" now ;;
  build_menu_buttons ;;
  g <- get ;;
  draw_buttons (menu_buttons g) ;;
  let pages := menu_total_pages in
  g <- get ;;
  let indicator :=
    (PyStr.of_int (menu_page g + 1) ++ "/" ++ PyStr.of_int pages)%string in
  draw_indicator indicator ;;
  if pages >? 1 then
    draw_button btn_menu_prev false ;;
    draw_button btn_menu_next false
  else ret tt.

Definition show_menu (now : Z) : Run unit :=
  set_current_screen Main.SCREEN_MENU ;;
  draw_menu now.

Definition menu_prev (now : Z) : Run unit :=
  g <- get ;;
  if menu_page g >? 0 then
    set_menu_page (menu_page g - 1) ;;
    draw_menu now
  else ret tt.

Definition menu_next (now : Z) : Run unit :=
  g <- get ;;
  if menu_page g <? menu_total_pages - 1 then
    set_menu_page (menu_page g + 1) ;;
    draw_menu now
  else ret tt.

(** *** The touch loop's button scan *)

Definition screen_buttons (g : Globals) : list Btn :=
  match Main.current_screen (app g) with
  | Main.SCREEN_MENU =>
      menu_buttons g
        ++ (if menu_total_pages >? 1 then [btn_menu_prev; btn_menu_next] else [])
  | Main.SCREEN_GROUND => [btn_ground_prev; btn_ground_menu; btn_ground_next]
  | Main.SCREEN_CONTACTS => [btn_contacts_menu]
  | Main.SCREEN_SETTINGS => settings_buttons g ++ [btn_settings_menu]
  | Main.SCREEN_COMM_MENU => comm_menu_buttons g ++ [btn_commmenu_menu]
  | Main.SCREEN_COMM_CARD =>
      [btn_comm_speak; btn_comm_menu; btn_comm_prev; btn_comm_cats; btn_comm_next]
  end.

(** [b.on_press()] *)
Definition run_callback (cb : callback) (now : Z) : Run unit :=
  match cb with
  | cb_show_menu => show_menu now
  | cb_show_grounding => show_grounding now
  | cb_show_comm_menu => show_comm_menu now
  | cb_show_contacts => show_contacts now
  | cb_show_settings => show_settings now
  | cb_grounding_prev => grounding_prev now
  | cb_grounding_next => grounding_next now
  | cb_menu_prev => menu_prev now
  | cb_menu_next => menu_next now
  | cb_comm_prev => lift (Main.comm_prev now)
  | cb_comm_next => lift (Main.comm_next now)
  | cb_speak_card =>
      g <- get ;;
      c <- index_or_raise (Main.comm_cards (app g)) (Main.comm_card_index (app g)) ;;
      let '(_, phrase, _, _) := c in
      lift (Main.speak phrase)
  | cb_apply_theme idx => apply_theme idx now
  | cb_open_category idx => lift (Main.open_category idx now)
  end.

(** [for b in screen_buttons(): if b.contains(sx, sy): ...; break]:
    the first button that contains the point is shown pressed for 70 ms,
    shown released, and its callback runs. *)
Definition press (sx sy now : Z) : Run unit :=
  g <- get ;;
  match find (fun b => Ui.contains (button b) sx sy) (screen_buttons g) with
  | Some b =>
      draw_button b true ;;
      sleep_ms 70 ;;
      draw_button b false ;;
      run_callback (Ui.on_press (button b)) now
  | None => ret tt
  end.

(** The module variables when the module has been loaded, before
    [show_menu()]. *)
Definition initial (mic_ok : bool) : Globals :=
  mkGlobals (Main.initial mic_ok) 0 0 [] [] [] [].

End Screens.

(* ===================================================================== *)
(** ** Vocabulary for the screens of the application *)
(* ===================================================================== *)

Module FlowSpec.

(** The module variables that decide what a tap does. *)
Record View : Type := mkView {
  theme_index : Z;
  current_screen : Main.screen;
  comm_cards : list Main.card;
  comm_cat_name : string;
  comm_card_index : Z;
  page_index : Z;
  menu_page : Z;
  menu_buttons : list Screens.Btn;
  settings_buttons : list Screens.Btn;
  comm_menu_buttons : list Screens.Btn
}.

Definition view (g : Screens.Globals) : View :=
  mkView (Main.theme_index (Screens.app g)) (Main.current_screen (Screens.app g))
         (Main.comm_cards (Screens.app g)) (Main.comm_cat_name (Screens.app g))
         (Main.comm_card_index (Screens.app g))
         (Screens.page_index g) (Screens.menu_page g) (Screens.menu_buttons g)
         (Screens.settings_buttons g) (Screens.comm_menu_buttons g).

(** The part of a view held in [Main.App]. *)
Definition app_view (st : Main.App) :=
  (Main.theme_index st, Main.current_screen st, Main.comm_cards st,
   Main.comm_cat_name st, Main.comm_card_index st).

(** The same part of a view. *)
Definition app_part (v : View) :=
  (theme_index v, current_screen v, comm_cards v, comm_cat_name v, comm_card_index v).

(** Views after an assignment to module variables. *)
Definition with_app (v : View) (av : Z * Main.screen * list Main.card * string * Z)
  : View :=
  let '(ti, cs, cc, cn, ci) := av in
  mkView ti cs cc cn ci (page_index v) (menu_page v) (menu_buttons v)
         (settings_buttons v) (comm_menu_buttons v).

Definition with_theme (v : View) (ti : Z) : View :=
  with_app v (ti, current_screen v, comm_cards v, comm_cat_name v, comm_card_index v).

Definition with_screen (v : View) (cs : Main.screen) : View :=
  with_app v (theme_index v, cs, comm_cards v, comm_cat_name v, comm_card_index v).

Definition with_card (v : View) (cc : list Main.card) (cn : string) (ci : Z) : View :=
  with_app v (theme_index v, current_screen v, cc, cn, ci).

Definition with_page_index (v : View) (p : Z) : View :=
  mkView (theme_index v) (current_screen v) (comm_cards v) (comm_cat_name v)
         (comm_card_index v) p (menu_page v) (menu_buttons v)
         (settings_buttons v) (comm_menu_buttons v).

Definition with_menu_page (v : View) (p : Z) : View :=
  mkView (theme_index v) (current_screen v) (comm_cards v) (comm_cat_name v)
         (comm_card_index v) (page_index v) p (menu_buttons v)
         (settings_buttons v) (comm_menu_buttons v).

Definition with_menu_buttons (v : View) (bs : list Screens.Btn) : View :=
  mkView (theme_index v) (current_screen v) (comm_cards v) (comm_cat_name v)
         (comm_card_index v) (page_index v) (menu_page v) bs
         (settings_buttons v) (comm_menu_buttons v).

Definition with_settings_buttons (v : View) (bs : list Screens.Btn) : View :=
  mkView (theme_index v) (current_screen v) (comm_cards v) (comm_cat_name v)
         (comm_card_index v) (page_index v) (menu_page v) (menu_buttons v)
         bs (comm_menu_buttons v).

Definition with_comm_menu_buttons (v : View) (bs : list Screens.Btn) : View :=
  mkView (theme_index v) (current_screen v) (comm_cards v) (comm_cat_name v)
         (comm_card_index v) (page_index v) (menu_page v) (menu_buttons v)
         (settings_buttons v) bs.

(** From a state satisfying [P] the computation returns normally, with
    a result and a state satisfying [Q]. *)
Definition triple {A} (P : Screens.Globals -> Prop) (c : Screens.Run A)
    (Q : A -> Screens.Globals -> Prop) : Prop :=
  forall g, P g -> exists a g', c g = (Screens.Ok a, g') /\ Q a g'.

(** The state has the view [v]. *)
Definition has (v : View) (g : Screens.Globals) : Prop := view g = v.

(** The button lists the three builders produce. *)
Definition menu_layout (page : Z) : list Screens.Btn :=
  Screens.menu_buttons
    (snd (Screens.build_menu_buttons
            (Screens.mkGlobals (Main.initial false) 0 page [] [] [] []))).

Definition settings_layout : list Screens.Btn :=
  Screens.settings_buttons
    (snd (Screens.show_settings 0 (Screens.initial false))).

Definition comm_menu_layout : list Screens.Btn :=
  Screens.comm_menu_buttons
    (snd (Screens.build_comm_menu_buttons (Screens.initial false))).

(** The consistent states: a theme is selected, the page counters and
    the card index are inside their lists, and each button list is empty
    or as its builder makes it (the menu's for the current page). *)
Definition consistent (v : View) : Prop :=
  0 <= theme_index v < Py.len Main.THEMES
  /\ 0 <= comm_card_index v < Py.len (comm_cards v)
  /\ 0 <= page_index v < Py.len Screens.GROUNDING_PAGES
  /\ 0 <= menu_page v < Screens.menu_total_pages
  /\ menu_buttons v = menu_layout (menu_page v)
  /\ (settings_buttons v = [] \/ settings_buttons v = settings_layout)
  /\ (comm_menu_buttons v = [] \/ comm_menu_buttons v = comm_menu_layout).

(** A callback that can be bound to a button: the theme and category
    buttons carry an index of their list. *)
Definition callback_ok (cb : Screens.callback) : Prop :=
  match cb with
  | Screens.cb_apply_theme idx => 0 <= idx < Py.len Main.THEMES
  | Screens.cb_open_category idx => 0 <= idx < Py.len Main.COMM_CATEGORIES
  | _ => True
  end.

(** A series of taps as the button scan of the main loop handles them:
    each is a run of the scan at a screen point and a tick count. *)
Fixpoint taps (l : list (Z * Z * Z)) : Screens.Run unit :=
  match l with
  | [] => Screens.ret tt
  | (sx, sy, now) :: rest =>
      Screens.bind (Screens.press sx sy now) (fun _ => taps rest)
  end.

(** The application after start-up ([show_menu()] at tick [now0]) and a
    series of taps. *)
Definition session (mic_ok : bool) (now0 : Z) (l : list (Z * Z * Z))
  : Screens.result unit * Screens.Globals :=
  Screens.bind (Screens.show_menu now0) (fun _ => taps l) (Screens.initial mic_ok).

(** The rectangle of a button is not empty and lies on the panel, below
    the title bar. *)
Definition on_screen (b : Screens.Btn) : bool :=
  let r := Screens.button b in
  (0 <=? Ui.x r) && (48 <=? Ui.y r) && (0 <? Ui.w r) && (0 <? Ui.h r)
  && (Ui.x r + Ui.w r <=? Main.W) && (Ui.y r + Ui.h r <=? Main.H).

(** Two rectangles have no point in common: one lies entirely to the
    left of, to the right of, above or below the other. *)
Definition apart (a b : Screens.Btn) : bool :=
  let r := Screens.button a in
  let s := Screens.button b in
  (Ui.x r + Ui.w r <=? Ui.x s) || (Ui.x s + Ui.w s <=? Ui.x r)
  || (Ui.y r + Ui.h r <=? Ui.y s) || (Ui.y s + Ui.h s <=? Ui.y r).

(** No two rectangles of a list have a point in common. *)
Fixpoint all_apart (bs : list Screens.Btn) : bool :=
  match bs with
  | [] => true
  | b :: rest => forallb (apart b) rest && all_apart rest
  end.

(** How many buttons of a list contain a point. *)
Definition hits (bs : list Screens.Btn) (px py : Z) : nat :=
  List.length (filter (fun b => Ui.contains (Screens.button b) px py) bs).

(** The state has the view [v] and the display has received the calls
    [L]. *)
Definition shows (v : View) (L : list Main.lcd_call) (g : Screens.Globals) : Prop :=
  view g = v /\ Main.lcd (Screens.app g) = L.

(** The lines of a text in a box of width [w] at a scale, and the number
    of lines a box of height [h] holds at that scale. *)
Definition box_lines (text : string) (w scale : Z) : list string :=
  Main.wrap_text text ((w - 16) / (8 * scale)).

Definition box_capacity (h scale : Z) : Z := (h - 16) / (8 * scale + 2).

(** The scale a text box is drawn at: the preferred one when the text
    fits at it, 1 otherwise. *)
Definition box_scale (text : string) (w h prefer_scale : Z) : Z :=
  if Py.len (box_lines text w prefer_scale) <=? box_capacity h prefer_scale
  then prefer_scale else 1.

(** The lines a text box shows: as many of the text's lines as the box
    holds. *)
Definition box_shown (text : string) (w h prefer_scale : Z) : list string :=
  let scale := box_scale text w h prefer_scale in
  firstn (Z.to_nat (box_capacity h scale)) (box_lines text w scale).

(** One text call per line, each [line_h] below the one before. *)
Fixpoint text_rows (lines : list string) (tx ty line_h fg bg scale : Z)
  : list Main.lcd_call :=
  match lines with
  | [] => []
  | line :: rest =>
      Main.LcdText line tx ty fg (Some bg) scale
        :: text_rows rest tx (ty + line_h) line_h fg bg scale
  end.

(** A drawing call stays inside the rectangle; a text of a single word
    may run over its right edge. *)
Definition inside_box (x y w h : Z) (c : Main.lcd_call) : Prop :=
  match c with
  | Main.LcdFill _ => False
  | Main.LcdFillRect rx ry rw rh _ =>
      x <= rx /\ rx + rw <= x + w /\ y <= ry /\ ry + rh <= y + h
  | Main.LcdText s tx ty _ _ scale =>
      x <= tx /\ y <= ty /\ ty + 8 * scale <= y + h
      /\ (tx + PyStr.len s * 8 * scale <= x + w
          \/ PyStr.contains PyStr.space s = false)
  end.

(** The callback of the NEXT button of the card screen, run [n] times. *)
Fixpoint nexts (n : nat) (now : Z) : Screens.Run unit :=
  match n with
  | O => Screens.ret tt
  | S n' =>
      Screens.bind (Screens.run_callback Screens.cb_comm_next now)
                   (fun _ => nexts n' now)
  end.

End FlowSpec.

(* ===================================================================== *)
(** ** Properties of ui.py *)
(* ===================================================================== *)

(** C10. For every button with position (x, y) and size (w, h) and every
    point (px, py), [contains] answers true exactly when
    x <= px < x + w and y <= py < y + h; a point on the right edge
    (px = x + w) or on the bottom edge (py = y + h) is outside. *)
Theorem button_contains_half_open :
  forall (A : Type) (b : Ui.Button A) (px py : Z),
    (Ui.contains b px py = true <->
       (Ui.x b <= px < Ui.x b + Ui.w b) /\ (Ui.y b <= py < Ui.y b + Ui.h b))
    /\ Ui.contains b (Ui.x b + Ui.w b) py = false
    /\ Ui.contains b px (Ui.y b + Ui.h b) = false.
Proof.
  intros A b px py. unfold Ui.contains.
  repeat split.
  - rewrite !andb_true_iff in H. lia.
  - rewrite !andb_true_iff in H. lia.
  - rewrite !andb_true_iff in H. lia.
  - rewrite !andb_true_iff in H. lia.
  - intros [[H1 H2] [H3 H4]].
    rewrite !andb_true_iff. lia.
  - replace (Ui.x b + Ui.w b <? Ui.x b + Ui.w b) with false
      by (symmetry; apply Z.ltb_irrefl).
    rewrite andb_false_r. reflexivity.
  - replace (Ui.y b + Ui.h b <? Ui.y b + Ui.h b) with false
      by (symmetry; apply Z.ltb_irrefl).
    rewrite !andb_false_r. reflexivity.
Qed.

(* ===================================================================== *)
(** ** Properties of xpt2046.py *)
(* ===================================================================== *)

Section SortFacts.

Lemma insert_perm (v : Z) (l : list Z) :
  Permutation (PyList.insert v l) (v :: l).
Proof.
  induction l as [|h t IH]; simpl.
  - apply Permutation_refl.
  - destruct (v <=? h).
    + apply Permutation_refl.
    + eapply perm_trans.
      * apply perm_skip. exact IH.
      * apply perm_swap.
Qed.

Lemma sort_perm (l : list Z) : Permutation (PyList.sort l) l.
Proof.
  induction l as [|h t IH]; simpl.
  - apply perm_nil.
  - eapply perm_trans.
    + apply insert_perm.
    + apply perm_skip. exact IH.
Qed.

Lemma insert_sorted (v : Z) (l : list Z) :
  StronglySorted Z.le l -> StronglySorted Z.le (PyList.insert v l).
Proof.
  induction l as [|h t IH]; simpl; intros Hs.
  - constructor; [constructor | constructor].
  - destruct (Z.leb_spec v h) as [Hle | Hgt].
    + constructor; [exact Hs |].
      inversion Hs as [| ? ? Ht Hall]; subst.
      constructor; [exact Hle |].
      eapply Forall_impl; [| exact Hall].
      intros a Ha. lia.
    + inversion Hs as [| ? ? Ht Hall]; subst.
      constructor; [apply IH; exact Ht |].
      apply Forall_forall. intros a Ha.
      apply (Permutation_in _ (insert_perm v t)) in Ha.
      destruct Ha as [Ha | Ha].
      * subst a. lia.
      * rewrite Forall_forall in Hall. apply Hall. exact Ha.
Qed.

Lemma sort_sorted (l : list Z) : StronglySorted Z.le (PyList.sort l).
Proof.
  induction l as [|h t IH]; simpl.
  - constructor.
  - apply insert_sorted. exact IH.
Qed.

Lemma sort_length (l : list Z) : List.length (PyList.sort l) = List.length l.
Proof. apply Permutation_length, sort_perm. Qed.

(** In a sorted list, positions order the values. *)
Lemma sorted_nth_le (l : list Z) :
  StronglySorted Z.le l ->
  forall i j a b, (i <= j)%nat ->
    nth_error l i = Some a -> nth_error l j = Some b -> a <= b.
Proof.
  induction 1 as [| h t Ht IH Hall]; intros i j a b Hij Hi Hj.
  - destruct i; discriminate.
  - destruct i as [|i], j as [|j]; simpl in *.
    + injection Hi as <-. injection Hj as <-. lia.
    + injection Hi as <-. rewrite Forall_forall in Hall.
      apply Hall. eapply nth_error_In. exact Hj.
    + lia.
    + eapply IH; [| exact Hi | exact Hj]. lia.
Qed.

Lemma count_perm (f : Z -> bool) (l l' : list Z) :
  Permutation l l' -> PyList.count f l = PyList.count f l'.
Proof.
  intros Hp. unfold PyList.count. f_equal.
  induction Hp; simpl.
  - reflexivity.
  - destruct (f x); simpl; congruence.
  - destruct (f x), (f y); reflexivity.
  - congruence.
Qed.

Lemma count_firstn_le (f : Z -> bool) (l : list Z) (k : nat) :
  PyList.count f (firstn k l) <= PyList.count f l.
Proof.
  unfold PyList.count. revert l.
  induction k as [|k IH]; intros [|h t]; simpl; try lia.
  specialize (IH t). destruct (f h); simpl; lia.
Qed.

Lemma count_skipn_le (f : Z -> bool) (l : list Z) (k : nat) :
  PyList.count f (skipn k l) <= PyList.count f l.
Proof.
  unfold PyList.count. revert l.
  induction k as [|k IH]; intros [|h t]; simpl; try lia.
  specialize (IH t). destruct (f h); simpl; lia.
Qed.

Lemma count_all (f : Z -> bool) (l : list Z) :
  Forall (fun a => f a = true) l -> PyList.count f l = Z.of_nat (List.length l).
Proof.
  unfold PyList.count. induction 1 as [| h t Hh Ht IH]; simpl.
  - reflexivity.
  - rewrite Hh. simpl. lia.
Qed.

End SortFacts.

Section MedianFacts.

Lemma sorted_prefix_le (s : list Z) :
  StronglySorted Z.le s ->
  forall k m, nth_error s k = Some m ->
    Forall (fun a => (a <=? m) = true) (firstn (S k) s).
Proof.
  induction 1 as [| h t Ht IH Hall]; intros k m Hk.
  - destruct k; discriminate.
  - destruct k as [|k]; simpl in Hk.
    + injection Hk as <-. simpl. constructor; [lia | constructor].
    + change (firstn (S (S k)) (h :: t)) with (h :: firstn (S k) t).
      constructor.
      * rewrite Forall_forall in Hall.
        apply Z.leb_le, Hall. eapply nth_error_In. exact Hk.
      * apply IH. exact Hk.
Qed.

Lemma sorted_suffix_ge (s : list Z) :
  StronglySorted Z.le s ->
  forall k m, nth_error s k = Some m ->
    Forall (fun a => (m <=? a) = true) (skipn k s).
Proof.
  induction 1 as [| h t Ht IH Hall]; intros k m Hk.
  - destruct k; discriminate.
  - destruct k as [|k]; simpl in Hk.
    + injection Hk as <-. simpl. constructor; [lia |].
      eapply Forall_impl; [| exact Hall]. intros a Ha. lia.
    + simpl. apply IH. exact Hk.
Qed.

(** The middle element of the sorted samples is a median of the samples. *)
Lemma sorted_middle_is_median (l : list Z) (m : Z) :
  nth_error (PyList.sort l) (List.length l / 2) = Some m ->
  TouchSpec.is_median m l.
Proof.
  intros Hm.
  pose proof (sort_perm l) as Hp.
  pose proof (sort_sorted l) as Hs.
  pose proof (sort_length l) as Hlen.
  set (k := (List.length l / 2)%nat) in *.
  assert (Hk : (k < List.length l)%nat).
  { rewrite <- Hlen. apply nth_error_Some. congruence. }
  assert (Hk2 : (2 * k <= List.length l < 2 * k + 2)%nat).
  { subst k. pose proof (Nat.div_mod_eq (List.length l) 2).
    pose proof (Nat.mod_upper_bound (List.length l) 2). lia. }
  unfold TouchSpec.is_median, Py.len. repeat split.
  - eapply Permutation_in; [exact Hp |]. eapply nth_error_In. exact Hm.
  - rewrite <- (count_perm _ _ _ Hp).
    pose proof (count_firstn_le (fun a => a <=? m) (PyList.sort l) (S k)) as Hc.
    rewrite (count_all (fun a => a <=? m) _ (sorted_prefix_le _ Hs _ _ Hm)) in Hc.
    rewrite length_firstn in Hc. lia.
  - rewrite <- (count_perm _ _ _ Hp).
    pose proof (count_skipn_le (fun a => m <=? a) (PyList.sort l) k) as Hc.
    rewrite (count_all (fun a => m <=? a) _ (sorted_suffix_ge _ Hs _ _ Hm)) in Hc.
    rewrite length_skipn in Hc. lia.
Qed.

Lemma fold_max_spec (t : list Z) :
  forall h, let m := fold_left Z.max t h in
    (m = h \/ In m t) /\ h <= m /\ Forall (fun a => a <= m) t.
Proof.
  induction t as [| a t IH]; intros h; simpl.
  - repeat split; [left; reflexivity | lia | constructor].
  - destruct (IH (Z.max h a)) as [Hin [Hle Hall]].
    repeat split.
    + destruct Hin as [Heq | Hin]; [| right; right; exact Hin].
      destruct (Z.max_spec h a) as [[_ Hmax] | [_ Hmax]].
      * right; left. rewrite Heq. symmetry. exact Hmax.
      * left. rewrite Heq. exact Hmax.
    + lia.
    + constructor; [lia | exact Hall].
Qed.

Lemma fold_min_spec (t : list Z) :
  forall h, let m := fold_left Z.min t h in
    (m = h \/ In m t) /\ m <= h /\ Forall (fun a => m <= a) t.
Proof.
  induction t as [| a t IH]; intros h; simpl.
  - repeat split; [left; reflexivity | lia | constructor].
  - destruct (IH (Z.min h a)) as [Hin [Hle Hall]].
    repeat split.
    + destruct Hin as [Heq | Hin]; [| right; right; exact Hin].
      destruct (Z.min_spec h a) as [[_ Hmin] | [_ Hmin]].
      * left. rewrite Heq. exact Hmin.
      * right; left. rewrite Heq. symmetry. exact Hmin.
    + lia.
    + constructor; [lia | exact Hall].
Qed.

Lemma maximum_spec (l : list Z) :
  l <> [] -> In (PyList.maximum l) l /\ forall a, In a l -> a <= PyList.maximum l.
Proof.
  destruct l as [| h t]; [congruence | intros _].
  unfold PyList.maximum.
  destruct (fold_max_spec t h) as [Hin [Hle Hall]].
  split.
  - destruct Hin as [-> | Hin]; [left; reflexivity | right; exact Hin].
  - intros a [<- | Ha]; [exact Hle |].
    rewrite Forall_forall in Hall. apply Hall. exact Ha.
Qed.

Lemma minimum_spec (l : list Z) :
  l <> [] -> In (PyList.minimum l) l /\ forall a, In a l -> PyList.minimum l <= a.
Proof.
  destruct l as [| h t]; [congruence | intros _].
  unfold PyList.minimum.
  destruct (fold_min_spec t h) as [Hin [Hle Hall]].
  split.
  - destruct Hin as [-> | Hin]; [left; reflexivity | right; exact Hin].
  - intros a [<- | Ha]; [exact Hle |].
    rewrite Forall_forall in Hall. apply Hall. exact Ha.
Qed.

(** [xs[-1]] of the sorted samples is their maximum. *)
Lemma sorted_last_is_maximum (l : list Z) :
  l <> [] -> Py.index (PyList.sort l) (-1) = Some (PyList.maximum l).
Proof.
  intros Hne.
  pose proof (sort_perm l) as Hp.
  pose proof (sort_sorted l) as Hs.
  pose proof (sort_length l) as Hlen.
  assert (Hn : (0 < List.length l)%nat) by (destruct l; simpl; [congruence | lia]).
  unfold Py.index. rewrite Hlen.
  replace (0 <=? -1) with false by reflexivity. simpl andb.
  replace ((- Z.of_nat (List.length l) <=? -1) && (-1 <? 0)) with true
    by (symmetry; apply andb_true_iff; split; [apply Z.leb_le; lia | reflexivity]).
  replace (Z.to_nat (Z.of_nat (List.length l) + -1)) with (List.length l - 1)%nat by lia.
  destruct (nth_error (PyList.sort l) (List.length l - 1)) as [b |] eqn:Hb.
  2:{ apply nth_error_None in Hb. lia. }
  f_equal.
  destruct (maximum_spec l Hne) as [Hin Hub].
  apply Z.le_antisymm.
  - apply Hub. eapply Permutation_in; [exact Hp |]. eapply nth_error_In. exact Hb.
  - apply (Permutation_in _ (Permutation_sym Hp)) in Hin.
    apply In_nth_error in Hin. destruct Hin as [i Hi].
    assert (i < List.length (PyList.sort l))%nat by (apply nth_error_Some; congruence).
    eapply (sorted_nth_le _ Hs i (List.length l - 1)%nat); [lia | exact Hi | exact Hb].
Qed.

(** [xs[0]] of the sorted samples is their minimum. *)
Lemma sorted_first_is_minimum (l : list Z) :
  l <> [] -> Py.index (PyList.sort l) 0 = Some (PyList.minimum l).
Proof.
  intros Hne.
  pose proof (sort_perm l) as Hp.
  pose proof (sort_sorted l) as Hs.
  pose proof (sort_length l) as Hlen.
  assert (Hn : (0 < List.length l)%nat) by (destruct l; simpl; [congruence | lia]).
  unfold Py.index. rewrite Hlen.
  replace ((0 <=? 0) && (0 <? Z.of_nat (List.length l))) with true
    by (symmetry; apply andb_true_iff; split; [reflexivity | apply Z.ltb_lt; lia]).
  change (Z.to_nat 0) with 0%nat.
  destruct (nth_error (PyList.sort l) 0) as [b |] eqn:Hb.
  2:{ apply nth_error_None in Hb. lia. }
  f_equal.
  destruct (minimum_spec l Hne) as [Hin Hlb].
  apply Z.le_antisymm.
  - apply (Permutation_in _ (Permutation_sym Hp)) in Hin.
    apply In_nth_error in Hin. destruct Hin as [i Hi].
    eapply (sorted_nth_le _ Hs 0%nat i); [lia | exact Hb | exact Hi].
  - apply Hlb. eapply Permutation_in; [exact Hp |]. eapply nth_error_In. exact Hb.
Qed.

(** [xs[len(xs)//2]] exists as soon as there is a sample. *)
Lemma index_middle (l : list Z) :
  l <> [] ->
  Py.index l (Py.len l / 2) = nth_error l (List.length l / 2)
  /\ exists m, nth_error l (List.length l / 2) = Some m.
Proof.
  intros Hne.
  assert (Hn : (0 < List.length l)%nat) by (destruct l; simpl; [congruence | lia]).
  assert (Hdiv : Py.len l / 2 = Z.of_nat (List.length l / 2)).
  { unfold Py.len. rewrite Nat2Z.inj_div. reflexivity. }
  assert (Hlt : (List.length l / 2 < List.length l)%nat).
  { apply Nat.div_lt; lia. }
  split.
  - unfold Py.index. rewrite Hdiv.
    replace ((0 <=? Z.of_nat (List.length l / 2))
             && (Z.of_nat (List.length l / 2) <? Z.of_nat (List.length l)))
      with true
      by (symmetry; apply andb_true_iff; split;
          [apply Z.leb_le; lia | apply Z.ltb_lt; lia]).
    rewrite Nat2Z.id. reflexivity.
  - destruct (nth_error l (List.length l / 2)) as [m |] eqn:Hm.
    + exists m. reflexivity.
    + apply nth_error_None in Hm. lia.
Qed.

End MedianFacts.

Section SamplingFacts.

Lemma xfer_cmds_app (a b : list Hw.event) :
  Hw.xfer_cmds (a ++ b) = Hw.xfer_cmds a ++ Hw.xfer_cmds b.
Proof.
  induction a as [| e a IH]; simpl; [reflexivity |].
  destruct e as [? ? | ? | [| c tx] rx | ? | ? | ?]; simpl; rewrite IH; reflexivity.
Qed.

Lemma samples_from_length (m : nat -> Z * Z * Z) (n off : nat) :
  forall start, List.length (TouchSpec.samples_from m start n off) = n.
Proof.
  induction n as [| n IH]; intros start; simpl; [reflexivity |].
  rewrite IH. reflexivity.
Qed.

(** One conversion: select the chip, exchange three bytes, deselect. *)
Lemma read12_spec (self : Xpt2046.XPT2046) (cmd : Z) (w : Hw.World) :
  exists self' w',
    Xpt2046._read12 self cmd w
      = (Xpt2046.frame_value (Hw.miso w (Hw.xfers w)), self', w')
    /\ Hw.xfer_cmds (Hw.trace w') = Hw.xfer_cmds (Hw.trace w) ++ [cmd]
    /\ Hw.miso w' = Hw.miso w
    /\ Hw.xfers w' = S (Hw.xfers w)
    /\ Xpt2046.cs self' = Xpt2046.cs self
    /\ Xpt2046.irq self' = Xpt2046.irq self.
Proof.
  unfold Xpt2046._read12, Hw.write_readinto, Hw.emit. simpl.
  destruct (Hw.miso w (Hw.xfers w)) as [[r0 r1] r2] eqn:Hrx.
  eexists. eexists. split; [reflexivity |]. simpl.
  rewrite !xfer_cmds_app. simpl. rewrite !app_nil_r.
  repeat split; reflexivity.
Qed.

(** The sampling loop reads [n] pairs, Y first, and appends what the
    controller delivered. *)
Lemma sample_loop_spec (n : nat) (delay_us : Z) :
  forall self xs ys w,
  exists self' w',
    Xpt2046.sample_loop n delay_us self xs ys w
      = (xs ++ TouchSpec.samples_from (Hw.miso w) (Hw.xfers w) n 1,
         ys ++ TouchSpec.samples_from (Hw.miso w) (Hw.xfers w) n 0,
         self', w')
    /\ Hw.xfer_cmds (Hw.trace w')
       = Hw.xfer_cmds (Hw.trace w)
           ++ concat (repeat [Xpt2046.CMD_Y; Xpt2046.CMD_X] n).
Proof.
  induction n as [| n IH]; intros self xs ys w.
  - exists self, w. simpl. rewrite !app_nil_r. split; reflexivity.
  - simpl.
    destruct (read12_spec self Xpt2046.CMD_Y w)
      as (s1 & w1 & E1 & T1 & M1 & X1 & _ & _).
    rewrite E1.
    destruct (read12_spec s1 Xpt2046.CMD_X w1)
      as (s2 & w2 & E2 & T2 & M2 & X2 & _ & _).
    rewrite E2.
    destruct (IH s2 (xs ++ [Xpt2046.frame_value (Hw.miso w1 (Hw.xfers w1))])
                (ys ++ [Xpt2046.frame_value (Hw.miso w (Hw.xfers w))])
                (Hw.emit (Hw.SleepUs delay_us) w2))
      as (s3 & w3 & E3 & T3).
    exists s3, w3. rewrite E3. split.
    + unfold Hw.emit. simpl. rewrite M2, M1, X2, X1.
      rewrite <- !app_assoc. simpl.
      replace (Hw.xfers w + 0)%nat with (Hw.xfers w) by lia.
      replace (Hw.xfers w + 1)%nat with (S (Hw.xfers w)) by lia.
      replace (Hw.xfers w + 2)%nat with (S (S (Hw.xfers w))) by lia.
      reflexivity.
    + rewrite T3. unfold Hw.emit. simpl.
      rewrite xfer_cmds_app. simpl. rewrite app_nil_r.
      rewrite T2, T1. rewrite <- !app_assoc. reflexivity.
Qed.

End SamplingFacts.

(** C2. Past its touch gate (no interrupt line is configured, or the
    line reads touched: the case in which [get_raw] samples at all), for
    every sample count n >= 1 [get_raw] reads n pairs, Y then X, sorts the
    X samples and the Y samples independently, returns as x and y the
    middle element (index n // 2) of each sorted list, which is a median
    of the samples of that axis, and reports as pressure the X range
    (max - min) plus the Y range. For X samples [10, 50, 12, 48, 11] and
    Y samples [20, 21, 90, 22, 19] the result is x = 12, y = 21,
    pressure = 111. *)
Theorem get_raw_median_filter :
  forall (self : Xpt2046.XPT2046) (w : Hw.World) (samples delay_us : Z),
    1 <= samples ->
    Xpt2046.touched self w = true ->
    let n := Z.to_nat samples in
    let xs := TouchSpec.x_samples w n in
    let ys := TouchSpec.y_samples w n in
    exists x y p self' w',
      Xpt2046.get_raw self samples delay_us w = (Py.Ok (Some (x, y, p)), self', w')
      /\ Hw.xfer_cmds (Hw.trace w')
         = Hw.xfer_cmds (Hw.trace w)
             ++ concat (repeat [Xpt2046.CMD_Y; Xpt2046.CMD_X] n)
      /\ (List.length xs = n /\ List.length ys = n)
      /\ (Permutation (PyList.sort xs) xs /\ StronglySorted Z.le (PyList.sort xs))
      /\ (Permutation (PyList.sort ys) ys /\ StronglySorted Z.le (PyList.sort ys))
      /\ nth_error (PyList.sort xs) (n / 2) = Some x
      /\ nth_error (PyList.sort ys) (n / 2) = Some y
      /\ TouchSpec.is_median x xs
      /\ TouchSpec.is_median y ys
      /\ p = (PyList.maximum xs - PyList.minimum xs)
             + (PyList.maximum ys - PyList.minimum ys)
      /\ (xs = [10; 50; 12; 48; 11] -> ys = [20; 21; 90; 22; 19] ->
          (x, y, p) = (12, 21, 111)).
Proof.
  intros self w samples delay_us Hn Htouch n xs ys.
  assert (Hlx : List.length xs = n) by apply samples_from_length.
  assert (Hly : List.length ys = n) by apply samples_from_length.
  assert (Hpos : (0 < n)%nat) by (subst n; lia).
  assert (Hxne : PyList.sort xs <> []).
  { intro E. pose proof (sort_length xs) as L. rewrite E in L. simpl in L. lia. }
  assert (Hyne : PyList.sort ys <> []).
  { intro E. pose proof (sort_length ys) as L. rewrite E in L. simpl in L. lia. }
  assert (Hxne' : xs <> []) by (intro E; rewrite E in Hlx; simpl in Hlx; lia).
  assert (Hyne' : ys <> []) by (intro E; rewrite E in Hly; simpl in Hly; lia).
  destruct (index_middle _ Hxne) as [Hix [x Hx]].
  destruct (index_middle _ Hyne) as [Hiy [y Hy]].
  rewrite sort_length in Hx, Hy.
  destruct (sample_loop_spec n delay_us self [] [] w) as (self' & w' & Eloop & Htrace).
  exists x, y,
    ((PyList.maximum xs - PyList.minimum xs) + (PyList.maximum ys - PyList.minimum ys)),
    self', w'.
  assert (Hres :
    Xpt2046.get_raw self samples delay_us w
    = (Py.Ok (Some (x, y, (PyList.maximum xs - PyList.minimum xs)
                          + (PyList.maximum ys - PyList.minimum ys))), self', w')).
  { unfold Xpt2046.get_raw.
    replace ((match Xpt2046.irq self with Some _ => true | None => false end)
             && negb (Xpt2046.touched self w)) with false
      by (rewrite Htouch; simpl; rewrite andb_false_r; reflexivity).
    fold n. rewrite Eloop. simpl app.
    fold (TouchSpec.x_samples w n). fold (TouchSpec.y_samples w n).
    fold xs. fold ys.
    rewrite Hix, Hiy. rewrite !sort_length. rewrite Hx, Hy.
    rewrite (sorted_last_is_maximum xs Hxne'), (sorted_first_is_minimum xs Hxne').
    rewrite (sorted_last_is_maximum ys Hyne'), (sorted_first_is_minimum ys Hyne').
    reflexivity. }
  rewrite Hlx in Hx. rewrite Hly in Hy.
  split; [exact Hres |].
  split; [exact Htrace |].
  split; [split; assumption |].
  split; [split; [apply sort_perm | apply sort_sorted] |].
  split; [split; [apply sort_perm | apply sort_sorted] |].
  split; [exact Hx |].
  split; [exact Hy |].
  split; [apply sorted_middle_is_median; rewrite Hlx; exact Hx |].
  split; [apply sorted_middle_is_median; rewrite Hly; exact Hy |].
  split; [reflexivity |].
  intros Ex Ey.
  assert (n = 5%nat) by (rewrite <- Hlx, Ex; reflexivity).
  subst n. rewrite H in Hx, Hy. rewrite Ex in *. rewrite Ey in *.
  simpl in Hx, Hy. injection Hx as <-. injection Hy as <-.
  reflexivity.
Qed.

(** A digitizer wired as in the application (chip-select 15, interrupt
    line 14) and a bus whose controller answers the interleaved test
    readings Y0, X0, Y1, X1, ... while the interrupt line is low. *)
Lemma get_raw_median_filter_witness :
  let self := Xpt2046.mkXPT2046 15 (Some 14) (0, 0, 0) (0, 0, 0) in
  let w := Hw.mkWorld [] (TouchSpec.feed [20; 10; 21; 50; 90; 12; 22; 48; 19; 11])
                      0 (fun _ => 0) in
  fst (fst (Xpt2046.get_raw self 5 200 w)) = Py.Ok (Some (12, 21, 111)).
Proof.
  intros self w.
  destruct (get_raw_median_filter self w 5 200 ltac:(lia) eq_refl)
    as (x & y & p & self' & w' & Hres & _ & _ & _ & _ & _ & _ & _ & _ & _ & Hex).
  rewrite Hres. simpl.
  rewrite (Hex eq_refl eq_refl). reflexivity.
Defined.

(** Before the gate: when an interrupt line is configured and reads
    not-touched, [get_raw] returns no sample and leaves the driver and the
    bus alone, whatever the sample count. *)
Lemma get_raw_gate_closed (self : Xpt2046.XPT2046) (w : Hw.World)
    (samples delay_us : Z) (pin : Z) :
  Xpt2046.irq self = Some pin ->
  Xpt2046.touched self w = false ->
  Xpt2046.get_raw self samples delay_us w = (Py.Ok None, self, w).
Proof.
  intros Hirq Hidle. unfold Xpt2046.get_raw. rewrite Hirq, Hidle. reflexivity.
Qed.


(* ===================================================================== *)
(** ** Properties of mic_level.py *)
(* ===================================================================== *)

Section TickFacts.

Lemma ticks_diff_of (a b : Z) :
  Hw.ticks_diff (Hw.ticks_of a) (Hw.ticks_of b)
  = (a - b + Hw.TICKS_HALF) mod Hw.TICKS_PERIOD - Hw.TICKS_HALF.
Proof.
  unfold Hw.ticks_diff, Hw.ticks_of. f_equal.
  rewrite <- Zplus_mod_idemp_l.
  rewrite Zminus_mod_idemp_l, Zminus_mod_idemp_r.
  rewrite Zplus_mod_idemp_l. reflexivity.
Qed.

(** Within half a tick period the wrapped difference is the elapsed time. *)
Lemma ticks_diff_exact (a b : Z) :
  0 <= a - b < Hw.TICKS_HALF ->
  Hw.ticks_diff (Hw.ticks_of a) (Hw.ticks_of b) = a - b.
Proof.
  intros H. rewrite ticks_diff_of.
  unfold Hw.TICKS_HALF, Hw.TICKS_PERIOD in *.
  rewrite Z.mod_small; lia.
Qed.


End TickFacts.

Section ClassifierFacts.



End ClassifierFacts.


Section ClassifierSteps.

Variables (ema : float) (qs : option Z) (raw : float) (now : Z).

Let quiet := MicSpec.mic_in ema true qs.






End ClassifierSteps.

Section DwellFacts.






End DwellFacts.


(* ===================================================================== *)
(** ** Properties of ili9486.py *)
(* ===================================================================== *)

Section TraceFacts.

Import Ili9486.

Lemma extend_nil (w : Hw.World) : Hw.extend [] w = w.
Proof. destruct w. unfold Hw.extend. simpl. rewrite app_nil_r. reflexivity. Qed.

Lemma extend_extend (a b : list Hw.event) (w : Hw.World) :
  Hw.extend b (Hw.extend a w) = Hw.extend (a ++ b) w.
Proof. unfold Hw.extend. simpl. rewrite app_assoc. reflexivity. Qed.

Lemma written_bytes_app (a b : list Hw.event) :
  Hw.written_bytes (a ++ b) = Hw.written_bytes a ++ Hw.written_bytes b.
Proof.
  induction a as [| e a IH]; simpl; [reflexivity |].
  destruct e; simpl; rewrite IH; try reflexivity.
  rewrite app_assoc. reflexivity.
Qed.

Lemma emits_ret : DisplaySpec.emits (ret tt) [].
Proof. intros w. unfold ret. rewrite extend_nil. reflexivity. Qed.

Lemma emits_bind (c1 c2 : M unit) (e1 e2 : list Hw.event) :
  DisplaySpec.emits c1 e1 -> DisplaySpec.emits c2 e2 ->
  DisplaySpec.emits (c1 ;; c2) (e1 ++ e2).
Proof.
  intros H1 H2 w. unfold bind. rewrite H1, H2, extend_extend. reflexivity.
Qed.

Lemma emits_pin (pin v : Z) : DisplaySpec.emits (pin_value pin v) [Hw.PinSet pin v].
Proof. intros w. reflexivity. Qed.

Lemma emits_spi (d : list Z) : DisplaySpec.emits (spi_write d) [Hw.SpiWrite d].
Proof. intros w. reflexivity. Qed.

Lemma emits_repeat (n : nat) (body : M unit) (e : list Hw.event) :
  DisplaySpec.emits body e ->
  DisplaySpec.emits (repeat_m n body) (List.concat (repeat e n)).
Proof.
  intros Hb. induction n as [| n IH]; simpl.
  - apply emits_ret.
  - apply emits_bind; assumption.
Qed.

Lemma emits_write_cmd (self : ILI9486) (cmd : Z) :
  DisplaySpec.emits (write_cmd self cmd)
    [Hw.PinSet (cs self) 0; Hw.PinSet (dc self) 0;
     Hw.SpiWrite [byte (Z.land cmd 0xFF)]; Hw.PinSet (cs self) 1].
Proof.
  unfold write_cmd.
  repeat (eapply (emits_bind _ _ [_]); [first [apply emits_pin | apply emits_spi] |]).
  apply emits_pin.
Qed.

Lemma emits_write_data (self : ILI9486) (d : list Z) :
  DisplaySpec.emits (write_data self d)
    [Hw.PinSet (cs self) 0; Hw.PinSet (dc self) 1;
     Hw.SpiWrite d; Hw.PinSet (cs self) 1].
Proof.
  unfold write_data.
  repeat (eapply (emits_bind _ _ [_]); [first [apply emits_pin | apply emits_spi] |]).
  apply emits_pin.
Qed.

(** Setting a window always succeeds and puts exactly the addressing
    bytes on the bus. *)
Lemma set_window_emits (self : ILI9486) (x0 y0 x1 y1 : Z) :
  exists evs,
    DisplaySpec.emits (_set_window self x0 y0 x1 y1) evs
    /\ evs <> []
    /\ Hw.written_bytes evs = DisplaySpec.window_bytes self x0 y0 x1 y1.
Proof.
  unfold _set_window. eexists. split; [| split].
  - eapply emits_bind; [apply emits_write_cmd |].
    eapply emits_bind; [apply emits_write_data |].
    eapply emits_bind; [apply emits_write_cmd |].
    eapply emits_bind; [apply emits_write_data |].
    apply emits_write_cmd.
  - discriminate.
  - reflexivity.
Qed.

End TraceFacts.

Section FillFacts.

Import Ili9486.

Lemma concat_repeat_add {A : Type} (p : list A) (a b : nat) :
  List.concat (repeat p (a + b)) = List.concat (repeat p a) ++ List.concat (repeat p b).
Proof. rewrite repeat_app, concat_app. reflexivity. Qed.

Lemma concat_repeat_mul {A : Type} (p : list A) (a b : nat) :
  List.concat (repeat (List.concat (repeat p a)) b) = List.concat (repeat p (a * b)).
Proof.
  induction b as [| b IH]; simpl.
  - rewrite Nat.mul_0_r. reflexivity.
  - rewrite IH. rewrite Nat.mul_succ_r, Nat.add_comm, concat_repeat_add. reflexivity.
Qed.

Lemma firstn_pairs (hi lo : Z) (r : nat) :
  forall n, (r <= n)%nat ->
    firstn (2 * r) (List.concat (repeat [hi; lo] n)) = List.concat (repeat [hi; lo] r).
Proof.
  induction r as [| r IH]; intros n Hn; [reflexivity |].
  destruct n as [| n]; [lia |].
  replace (2 * S r)%nat with (S (S (2 * r))) by lia.
  simpl repeat. simpl List.concat. simpl firstn.
  f_equal. f_equal. apply IH. lia.
Qed.

Lemma written_bytes_repeat_write (buf : list Z) (k : nat) :
  Hw.written_bytes (List.concat (repeat [Hw.SpiWrite buf] k))
  = List.concat (repeat buf k).
Proof.
  induction k as [| k IH]; simpl; [reflexivity |].
  rewrite IH. reflexivity.
Qed.

(** Streaming a non-empty window sends the addressing bytes and then
    exactly w * h pixels of the colour. *)
Lemma fill_rect_stream_emits (self : ILI9486) (x y w h color565 : Z) :
  0 < w -> 0 < h ->
  exists evs,
    DisplaySpec.emits (fill_rect_stream self x y w h color565) evs
    /\ evs <> []
    /\ Hw.written_bytes evs
       = DisplaySpec.window_bytes self x y (x + w - 1) (y + h - 1)
         ++ DisplaySpec.pixel_bytes color565 (Z.to_nat (w * h)).
Proof.
  intros Hw0 Hh0.
  destruct (set_window_emits self x y (x + w - 1) (y + h - 1)) as (ew & Hew & Hne & Hwb).
  unfold fill_rect_stream.
  set (hi := Z.land (Z.shiftr color565 8) 255).
  set (lo := Z.land color565 255).
  remember (Z.to_nat 1024) as chunk eqn:Hchunk.
  set (buf := List.concat (repeat [hi; lo] chunk)).
  assert (Htot : 0 < w * h) by lia.
  pose proof (Z.div_mod (w * h) 1024 ltac:(lia)) as Hdm.
  pose proof (Z.mod_pos_bound (w * h) 1024 ltac:(lia)) as Hmb.
  assert (Hq : 0 <= w * h / 1024) by (apply Z.div_pos; lia).
  set (full := Z.to_nat (w * h / 1024)).
  set (rem := Z.to_nat ((w * h) mod 1024)).
  assert (Hsplit : Z.to_nat (w * h) = (chunk * full + rem)%nat) by (subst chunk full rem; lia).
  assert (Hrem : (rem <= chunk)%nat) by (subst chunk rem; lia).
  exists (ew ++ [Hw.PinSet (cs self) 0] ++ [Hw.PinSet (dc self) 1]
          ++ List.concat (repeat [Hw.SpiWrite buf] full)
          ++ (if (w * h) mod 1024 =? 0 then []
              else [Hw.SpiWrite (firstn (Z.to_nat ((w * h) mod 1024 * 2)) buf)])
          ++ [Hw.PinSet (cs self) 1]).
  split; [| split].
  - eapply emits_bind; [exact Hew |].
    eapply emits_bind; [apply emits_pin |].
    eapply emits_bind; [apply emits_pin |].
    eapply emits_bind; [apply emits_repeat, emits_spi |].
    eapply emits_bind; [| apply emits_pin].
    destruct ((w * h) mod 1024 =? 0); [apply emits_ret | apply emits_spi].
  - destruct ew; [congruence | discriminate].
  - rewrite !written_bytes_app, Hwb. f_equal. simpl.
    rewrite written_bytes_repeat_write.
    unfold DisplaySpec.pixel_bytes. fold hi. fold lo.
    rewrite Hsplit, concat_repeat_add, <- concat_repeat_mul. fold buf.
    f_equal.
    destruct (Z.eqb_spec ((w * h) mod 1024) 0) as [E | E].
    + subst rem. rewrite E. reflexivity.
    + simpl. rewrite !app_nil_r.
      replace (Z.to_nat ((w * h) mod 1024 * 2)) with (2 * rem)%nat by (subst rem; lia).
      subst buf. apply firstn_pairs. exact Hrem.
Qed.

(** [fill_rect] paints the part of the request that lies on the panel,
    and nothing when that part is empty. *)
Lemma fill_rect_clip (self : ILI9486) (x y w h color565 : Z) :
  let cx := DisplaySpec.clip_origin x in
  let cy := DisplaySpec.clip_origin y in
  let cw := DisplaySpec.clip_size x w (width self) in
  let ch := DisplaySpec.clip_size y h (height self) in
  fill_rect self x y w h color565
  = if (cw <=? 0) || (ch <=? 0) then ret tt
    else fill_rect_stream self cx cy cw ch color565.
Proof.
  unfold DisplaySpec.clip_origin, DisplaySpec.clip_size, fill_rect. cbv zeta.
  destruct (Z.leb_spec w 0), (Z.leb_spec h 0); cbn [orb];
    destruct (Z.ltb_spec x 0), (Z.ltb_spec y 0); cbv beta iota;
    rewrite ?Z.gtb_ltb;
    repeat match goal with
    | |- context [?a <? ?b] => destruct (Z.ltb_spec a b)
    | |- context [?a <=? ?b] => destruct (Z.leb_spec a b)
    end; cbn [orb];
    first [reflexivity | f_equal; lia | exfalso; lia].
Qed.

End FillFacts.

Section BlitFacts.

Import Ili9486.

Lemma extend_changes (evs : list Hw.event) (w : Hw.World) :
  evs <> [] -> Hw.extend evs w <> w.
Proof.
  intros Hne Heq. apply (f_equal Hw.trace) in Heq. simpl in Heq.
  apply (f_equal (@List.length _)) in Heq. rewrite length_app in Heq.
  destruct evs; [congruence | simpl in Heq; lia].
Qed.








End BlitFacts.

(** C4. Every [fill_rect] call paints exactly the part of the requested
    rectangle that lies on the panel: a negative origin moves to 0 and the
    size shrinks by as much, an extent past the far edge is cut at the
    edge. When that part is empty the call is a complete no-op (the world,
    bus trace included, is unchanged); otherwise the bus receives the
    window of the clipped rectangle followed by one colour value per
    pixel of it. On a 480-wide panel a request at x = -3 of width 10 is
    drawn in columns 0 to 6 (x = 0, width 7). *)
Theorem fill_rect_clips_to_panel :
  forall (self : Ili9486.ILI9486) (x y w h color565 : Z) (world : Hw.World),
    let cx := DisplaySpec.clip_origin x in
    let cy := DisplaySpec.clip_origin y in
    let cw := DisplaySpec.clip_size x w (Ili9486.width self) in
    let ch := DisplaySpec.clip_size y h (Ili9486.height self) in
    (cw <= 0 \/ ch <= 0 ->
       Ili9486.fill_rect self x y w h color565 world = (Py.Ok tt, world))
    /\ (0 < cw -> 0 < ch ->
        exists evs,
          evs <> []
          /\ Ili9486.fill_rect self x y w h color565 world
             = (Py.Ok tt, Hw.extend evs world)
          /\ Hw.written_bytes evs
             = DisplaySpec.window_bytes self cx cy (cx + cw - 1) (cy + ch - 1)
               ++ DisplaySpec.pixel_bytes color565 (Z.to_nat (cw * ch)))
    /\ (x < 0 -> cx = 0 /\ (x + w <= Ili9486.width self -> cw = w + x))
    /\ (0 <= x -> Ili9486.width self < x + w -> cx = x /\ cw = Ili9486.width self - x)
    /\ (Ili9486.width self = 480 -> x = -3 -> w = 10 -> 0 < ch ->
        exists evs,
          Ili9486.fill_rect self x y w h color565 world
          = (Py.Ok tt, Hw.extend evs world)
          /\ Hw.written_bytes evs
             = DisplaySpec.window_bytes self 0 cy 6 (cy + ch - 1)
               ++ DisplaySpec.pixel_bytes color565 (Z.to_nat (7 * ch))).
Proof.
  intros self x y w h color565 world cx cy cw ch.
  pose proof (fill_rect_clip self x y w h color565) as Hclip.
  cbv zeta in Hclip. fold cx cy cw ch in Hclip.
  assert (Hdraw : 0 < cw -> 0 < ch ->
    exists evs,
      evs <> []
      /\ Ili9486.fill_rect self x y w h color565 world = (Py.Ok tt, Hw.extend evs world)
      /\ Hw.written_bytes evs
         = DisplaySpec.window_bytes self cx cy (cx + cw - 1) (cy + ch - 1)
           ++ DisplaySpec.pixel_bytes color565 (Z.to_nat (cw * ch))).
  { intros Hw0 Hh0.
    destruct (fill_rect_stream_emits self cx cy cw ch color565 Hw0 Hh0)
      as (evs & Hevs & Hne & Hbytes).
    exists evs. split; [exact Hne |]. split; [| exact Hbytes].
    rewrite Hclip.
    destruct (Z.leb_spec cw 0); [lia |]. destruct (Z.leb_spec ch 0); [lia |].
    apply Hevs. }
  split; [| split; [exact Hdraw | split; [| split]]].
  - intros Hempty. rewrite Hclip.
    destruct (Z.leb_spec cw 0); [reflexivity |].
    destruct (Z.leb_spec ch 0); [reflexivity | lia].
  - intros Hneg. subst cx cw. unfold DisplaySpec.clip_origin, DisplaySpec.clip_size. lia.
  - intros Hpos Hover. subst cx cw.
    unfold DisplaySpec.clip_origin, DisplaySpec.clip_size. lia.
  - intros HW Hx Hwid Hch.
    assert (Hcx : cx = 0) by (subst cx x; reflexivity).
    assert (Hcw : cw = 7).
    { subst cw x w. unfold DisplaySpec.clip_size. rewrite HW. reflexivity. }
    destruct (Hdraw ltac:(lia) Hch) as (evs & _ & Hrun & Hbytes).
    exists evs. split; [exact Hrun |].
    rewrite Hbytes, Hcx, Hcw. reflexivity.
Qed.

(** The application's panel: a request at x = -3, y = 0 of size 10 x 1 in
    red reaches the bus as the window of columns 0..6 of row 0 and seven
    red pixels. *)
Lemma fill_rect_clips_to_panel_witness :
  exists evs,
    Ili9486.fill_rect DisplaySpec.lcd (-3) 0 10 1 0xF800 (Hw.mkWorld [] (fun _ => (0, 0, 0)) 0 (fun _ => 1))
    = (Py.Ok tt, Hw.mkWorld evs (fun _ => (0, 0, 0)) 0 (fun _ => 1))
    /\ Hw.written_bytes evs
       = [0x2A; 0; 0; 0; 6; 0x2B; 0; 0; 0; 0; 0x2C;
          0xF8; 0; 0xF8; 0; 0xF8; 0; 0xF8; 0; 0xF8; 0; 0xF8; 0; 0xF8; 0].
Proof.
  destruct (fill_rect_clips_to_panel DisplaySpec.lcd (-3) 0 10 1 0xF800
              (Hw.mkWorld [] (fun _ => (0, 0, 0)) 0 (fun _ => 1)))
    as (_ & _ & _ & _ & Hex).
  destruct (Hex eq_refl eq_refl eq_refl ltac:(reflexivity)) as (evs & Hrun & Hbytes).
  exists evs. split; [exact Hrun | exact Hbytes].
Defined.


(* ===================================================================== *)
(** ** Properties of main.py: touch mapping *)
(* ===================================================================== *)

Section TouchMapping.

Lemma clamp_range (v lo hi : Z) :
  lo <= hi ->
  lo <= Main.clamp v lo hi <= hi
  /\ (v <= lo -> Main.clamp v lo hi = lo)
  /\ (hi <= v -> Main.clamp v lo hi = hi)
  /\ (lo <= v <= hi -> Main.clamp v lo hi = v).
Proof.
  intros Hle. unfold Main.clamp. rewrite Z.gtb_ltb.
  destruct (Z.ltb_spec v lo), (Z.ltb_spec hi v); repeat split; lia.
Qed.

(** One axis: the floor of the linear map, held inside [0, out_max]. *)
Lemma map_linear_axis (raw raw_min raw_max out_max : Z) :
  raw_min < raw_max -> 0 <= out_max ->
  0 <= Main.map_linear raw raw_min raw_max 0 out_max <= out_max
  /\ (raw < raw_min -> Main.map_linear raw raw_min raw_max 0 out_max = 0)
  /\ (raw_max < raw -> Main.map_linear raw raw_min raw_max 0 out_max = out_max)
  /\ (raw_min <= raw <= raw_max ->
      Main.map_linear raw raw_min raw_max 0 out_max
      = (raw - raw_min) * out_max / (raw_max - raw_min)).
Proof.
  intros Hrange Hout. unfold Main.map_linear.
  destruct (Z.eqb_spec raw_max raw_min) as [E | _]; [lia |].
  assert (Hmin : Py.min 0 out_max = 0).
  { unfold Py.min. destruct (Z.ltb_spec out_max 0); lia. }
  assert (Hmax : Py.max 0 out_max = out_max).
  { unfold Py.max. destruct (Z.ltb_spec 0 out_max); lia. }
  rewrite Hmin, Hmax, Z.sub_0_r, Z.add_0_r.
  set (d := raw_max - raw_min). assert (Hd : 0 < d) by (subst d; lia).
  set (v := (raw - raw_min) * out_max / d).
  destruct (clamp_range v 0 out_max Hout) as (Hin & Hlo & Hhi & Hmid).
  split; [exact Hin |]. split; [| split].
  - intros Hbelow. apply Hlo. subst v.
    assert ((raw - raw_min) * out_max <= 0) by nia.
    assert ((raw - raw_min) * out_max / d <= 0 / d)
      by (apply Z.div_le_mono; lia).
    rewrite Z.div_0_l in H0 by lia. exact H0.
  - intros Habove. apply Hhi. subst v.
    apply Z.div_le_lower_bound; [exact Hd | nia].
  - intros Hmiddle. apply Hmid. subst v. split.
    + apply Z.div_pos; [nia | exact Hd].
    + apply Z.div_le_upper_bound; [exact Hd | nia].
Qed.

End TouchMapping.

(** C5. For every raw sample and every calibration table with proper raw
    ranges, [raw_to_screen] swaps the axes when SWAP_XY is set, replaces
    each flipped axis value v by 3800 - v, then maps each axis by the floor
    of the linear map from its calibrated raw range onto
    0 .. dimension - 1, clamped: a transformed value below the calibrated
    minimum gives 0, one above the calibrated maximum gives dimension - 1,
    and the result never leaves [0, dimension - 1]. With the shipped
    table this reads x from 3800 - ry over 332..1616 onto 0..479 and y
    from rx over 284..1576 onto 0..319. *)
Theorem raw_to_screen_swaps_flips_maps_clamps :
  forall (c : TouchCal.Cal) (rx ry : Z),
    TouchCal.RAW_X_LEFT c < TouchCal.RAW_X_RIGHT c ->
    TouchCal.RAW_Y_TOP c < TouchCal.RAW_Y_BOT c ->
    1 <= TouchCal.W c -> 1 <= TouchCal.H c ->
    let sx := if TouchCal.SWAP_XY c then ry else rx in
    let sy := if TouchCal.SWAP_XY c then rx else ry in
    let tx := if TouchCal.FLIP_X c then 3800 - sx else sx in
    let ty := if TouchCal.FLIP_Y c then 3800 - sy else sy in
    let x := fst (Main.raw_to_screen_with c rx ry) in
    let y := snd (Main.raw_to_screen_with c rx ry) in
    (0 <= x <= TouchCal.W c - 1 /\ 0 <= y <= TouchCal.H c - 1)
    /\ (tx < TouchCal.RAW_X_LEFT c -> x = 0)
    /\ (TouchCal.RAW_X_RIGHT c < tx -> x = TouchCal.W c - 1)
    /\ (TouchCal.RAW_X_LEFT c <= tx <= TouchCal.RAW_X_RIGHT c ->
        x = (tx - TouchCal.RAW_X_LEFT c) * (TouchCal.W c - 1)
            / (TouchCal.RAW_X_RIGHT c - TouchCal.RAW_X_LEFT c))
    /\ (ty < TouchCal.RAW_Y_TOP c -> y = 0)
    /\ (TouchCal.RAW_Y_BOT c < ty -> y = TouchCal.H c - 1)
    /\ (TouchCal.RAW_Y_TOP c <= ty <= TouchCal.RAW_Y_BOT c ->
        y = (ty - TouchCal.RAW_Y_TOP c) * (TouchCal.H c - 1)
            / (TouchCal.RAW_Y_BOT c - TouchCal.RAW_Y_TOP c))
    /\ (c = TouchCal.CAL ->
        Main.raw_to_screen rx ry
        = (Main.map_linear (3800 - ry) 332 1616 0 479,
           Main.map_linear rx 284 1576 0 319)).
Proof.
  intros c rx ry HX HY HW HH sx sy tx ty x y.
  assert (Ex : x = Main.map_linear tx (TouchCal.RAW_X_LEFT c)
                     (TouchCal.RAW_X_RIGHT c) 0 (TouchCal.W c - 1)).
  { subst x tx sx. unfold Main.raw_to_screen_with.
    destruct (TouchCal.SWAP_XY c), (TouchCal.FLIP_X c); reflexivity. }
  assert (Ey : y = Main.map_linear ty (TouchCal.RAW_Y_TOP c)
                     (TouchCal.RAW_Y_BOT c) 0 (TouchCal.H c - 1)).
  { subst y ty sy. unfold Main.raw_to_screen_with.
    destruct (TouchCal.SWAP_XY c), (TouchCal.FLIP_Y c); reflexivity. }
  destruct (map_linear_axis tx _ _ (TouchCal.W c - 1) HX ltac:(lia))
    as (Hxin & Hxlo & Hxhi & Hxmid).
  destruct (map_linear_axis ty _ _ (TouchCal.H c - 1) HY ltac:(lia))
    as (Hyin & Hylo & Hyhi & Hymid).
  rewrite Ex, Ey.
  split; [split; assumption |].
  repeat (split; [assumption |]).
  intros ->. reflexivity.
Qed.

(** The shipped table satisfies the range conditions; a raw sample
    (rx, ry) = (900, 3600) has the transformed X value 200, below the
    calibrated minimum 332, and maps to the left edge. *)
Lemma raw_to_screen_swaps_flips_maps_clamps_witness :
  Main.raw_to_screen 900 3600 = (0, 152)
  /\ 0 <= fst (Main.raw_to_screen 900 3600) <= 479
  /\ 0 <= snd (Main.raw_to_screen 900 3600) <= 319.
Proof.
  pose proof (raw_to_screen_swaps_flips_maps_clamps TouchCal.CAL 900 3600
                ltac:(reflexivity) ltac:(reflexivity)
                ltac:(discriminate) ltac:(discriminate)) as Hspec.
  cbv zeta in Hspec.
  destruct Hspec as (Hrange & _ & _ & _ & _ & _ & _ & Hshipped).
  split; [rewrite (Hshipped eq_refl); reflexivity | exact Hrange].
Defined.


(* ===================================================================== *)
(** ** Properties of main.py: the ambient-noise badge *)
(* ===================================================================== *)

(** Symbolic execution of application code on an explicit state. *)
Ltac run_app :=
  cbv beta iota zeta delta
    [Main.bind Main.ret Main.get Main.put Main.raise Main.index_or_raise
     Main.lcd_do Main.print Main.set_badge Main.set_comm Main.set_current_screen
     Main.set_mic Main.set_touch Main.draw_border Main.th
     Main.mic Main.mic_quiet Main.mic_rms Main._last_mic_poll
     Main._last_badge_draw Main._last_badge_state Main.theme_index
     Main.current_screen Main.comm_cards Main.comm_cat_name
     Main.comm_card_index Main.was_down Main.last_tap_ms Main.lcd
     Main.console negb andb fst snd].

Ltac run_app_in H :=
  cbv beta iota zeta delta
    [Main.mic Main.mic_quiet Main.mic_rms Main._last_mic_poll
     Main._last_badge_draw Main._last_badge_state Main.theme_index
     Main.current_screen Main.comm_cards Main.comm_cat_name
     Main.comm_card_index Main.was_down Main.last_tap_ms Main.lcd
     Main.console] in H.

Ltac run_proj :=
  cbv beta iota delta
    [Main.mic Main.mic_quiet Main.mic_rms Main._last_mic_poll
     Main._last_badge_draw Main._last_badge_state Main.theme_index
     Main.current_screen Main.comm_cards Main.comm_cat_name
     Main.comm_card_index Main.was_down Main.last_tap_ms Main.lcd
     Main.console].

Section BadgeFacts.

(** A forced request paints the badge and records time and state. *)
Lemma badge_forced (st : Main.App) (m : MicLevel.MicLevel) (t : Main.Theme)
    (Hmic : Main.mic st = Some m)
    (Htheme : Py.index Main.THEMES (Main.theme_index st) = Some t) (now : Z) :
  exists st',
    Main.draw_mic_badge true now st = (Py.Ok tt, st')
    /\ Main.lcd st' = Main.lcd st ++ AppSpec.badge_calls (Main.mic_quiet st) (Main.box_border t)
    /\ Main._last_badge_draw st' = now
    /\ Main._last_badge_state st' = Some (Main.mic_quiet st)
    /\ Main.mic st' = Main.mic st
    /\ Main.mic_quiet st' = Main.mic_quiet st
    /\ Main.theme_index st' = Main.theme_index st.
Proof.
  revert Hmic Htheme.
  destruct st as [mic q rms lp ld ls ti cs cc cn ci wd lt lcd con].
  run_app. intros -> Htheme.
  unfold Main.draw_mic_badge. run_app. rewrite Htheme.
  destruct q; run_app;
    (eexists; (split; [reflexivity |]); run_app; rewrite <- !app_assoc;
     repeat split; reflexivity).
Qed.

(** An unforced request within the throttle window does nothing at all. *)
Lemma badge_throttled (st : Main.App) (m : MicLevel.MicLevel)
    (Hmic : Main.mic st = Some m) (now : Z) :
  Hw.ticks_diff now (Main._last_badge_draw st) < Main.MIC_DRAW_THROTTLE ->
  Main.draw_mic_badge false now st = (Py.Ok tt, st).
Proof.
  revert Hmic.
  destruct st as [mic q rms lp ld ls ti cs cc cn ci wd lt lcd con].
  run_app. intros -> Hthr.
  unfold Main.draw_mic_badge. run_app.
  destruct (Z.ltb_spec (Hw.ticks_diff now ld) Main.MIC_DRAW_THROTTLE);
    [reflexivity | lia].
Qed.

(** An unforced request outside the window records its time; it paints
    the badge exactly when the classification differs from the one last
    drawn. *)
Lemma badge_unthrottled (st : Main.App) (m : MicLevel.MicLevel) (t : Main.Theme)
    (Hmic : Main.mic st = Some m)
    (Htheme : Py.index Main.THEMES (Main.theme_index st) = Some t) (now : Z) :
  Main.MIC_DRAW_THROTTLE <= Hw.ticks_diff now (Main._last_badge_draw st) ->
  exists st',
    Main.draw_mic_badge false now st = (Py.Ok tt, st')
    /\ Main._last_badge_draw st' = now
    /\ Main.mic st' = Main.mic st
    /\ Main.mic_quiet st' = Main.mic_quiet st
    /\ Main.theme_index st' = Main.theme_index st
    /\ (Main._last_badge_state st = Some (Main.mic_quiet st) ->
        Main.lcd st' = Main.lcd st)
    /\ (Main._last_badge_state st <> Some (Main.mic_quiet st) ->
        Main.lcd st'
        = Main.lcd st ++ AppSpec.badge_calls (Main.mic_quiet st) (Main.box_border t)).
Proof.
  revert Hmic Htheme.
  destruct st as [mic q rms lp ld ls ti cs cc cn ci wd lt lcd con].
  run_app. intros -> Htheme Hthr.
  unfold Main.draw_mic_badge. run_app.
  destruct (Z.ltb_spec (Hw.ticks_diff now ld) Main.MIC_DRAW_THROTTLE); [lia |].
  destruct (Main.same_state q ls) eqn:Hsame.
  - eexists. split; [reflexivity |]. run_app.
    repeat split; try reflexivity.
    intros Hne. exfalso. apply Hne.
    unfold Main.same_state in Hsame.
    destruct ls as [b |]; [| discriminate].
    apply Bool.eqb_prop in Hsame. congruence.
  - assert (Hdiff : ls <> Some q).
    { intros E. rewrite E in Hsame. unfold Main.same_state in Hsame.
      rewrite Bool.eqb_reflx in Hsame. discriminate. }
    rewrite Htheme.
    destruct q; run_app;
      (eexists; (split; [reflexivity |]); run_app; rewrite <- !app_assoc;
       repeat split; try reflexivity; intros E; contradiction).
Qed.

End BadgeFacts.

(** C7 (amended). While the classifier is enabled, a forced redraw
    request always paints the badge, whatever the time since the previous
    draw, so two forced requests in a row both paint it. Of two unforced
    requests issued less than 250 ms apart with nothing in between, at
    most one paints: when the first is not itself throttled (250 ms or
    more after the last draw or check) the second paints nothing, and the
    first paints exactly when the classification differs from the one
    last drawn. *)
Theorem badge_force_and_throttle :
  forall (st : Main.App) (m : MicLevel.MicLevel) (t : Main.Theme),
    Main.mic st = Some m ->
    Py.index Main.THEMES (Main.theme_index st) = Some t ->
    (forall now1 now2, exists st1 st2,
        Main.draw_mic_badge true now1 st = (Py.Ok tt, st1)
        /\ Main.draw_mic_badge true now2 st1 = (Py.Ok tt, st2)
        /\ Main.lcd st1
           = Main.lcd st ++ AppSpec.badge_calls (Main.mic_quiet st) (Main.box_border t)
        /\ Main.lcd st2
           = Main.lcd st1 ++ AppSpec.badge_calls (Main.mic_quiet st) (Main.box_border t))
    /\ (forall T1 T2,
          0 <= T2 - T1 < 250 ->
          exists st1 st2,
            Main.draw_mic_badge false (Hw.ticks_of T1) st = (Py.Ok tt, st1)
            /\ Main.draw_mic_badge false (Hw.ticks_of T2) st1 = (Py.Ok tt, st2)
            /\ Main.mic_quiet st1 = Main.mic_quiet st
            /\ (Main.lcd st1 = Main.lcd st \/ Main.lcd st2 = Main.lcd st1)
            /\ (250 <= Hw.ticks_diff (Hw.ticks_of T1) (Main._last_badge_draw st) ->
                Main.lcd st2 = Main.lcd st1
                /\ (Main._last_badge_state st <> Some (Main.mic_quiet st) ->
                    Main.lcd st1
                    = Main.lcd st
                      ++ AppSpec.badge_calls (Main.mic_quiet st) (Main.box_border t))
                /\ (Main._last_badge_state st = Some (Main.mic_quiet st) ->
                    Main.lcd st1 = Main.lcd st))).
Proof.
  intros st m t Hmic Htheme. split.
  - intros now1 now2.
    destruct (badge_forced st m t Hmic Htheme now1)
      as (st1 & Hrun1 & Hlcd1 & _ & _ & Hmic1 & Hq1 & Hth1).
    rewrite Hmic in Hmic1. rewrite <- Hth1 in Htheme.
    destruct (badge_forced st1 m t Hmic1 Htheme now2)
      as (st2 & Hrun2 & Hlcd2 & _).
    exists st1, st2. rewrite Hq1 in Hlcd2. repeat split; assumption.
  - intros T1 T2 Hgap.
    assert (Hdiff : Hw.ticks_diff (Hw.ticks_of T2) (Hw.ticks_of T1) = T2 - T1).
    { apply ticks_diff_exact. unfold Hw.TICKS_HALF. lia. }
    destruct (Z.lt_ge_cases (Hw.ticks_diff (Hw.ticks_of T1) (Main._last_badge_draw st))
                Main.MIC_DRAW_THROTTLE) as [Hthr | Hpass].
    + (* the first request is throttled: it changes nothing *)
      pose proof (badge_throttled st m Hmic (Hw.ticks_of T1) Hthr) as Hrun1.
      destruct (Z.lt_ge_cases (Hw.ticks_diff (Hw.ticks_of T2) (Main._last_badge_draw st))
                  Main.MIC_DRAW_THROTTLE) as [Hthr2 | Hpass2].
      * exists st, st. rewrite Hrun1.
        rewrite (badge_throttled st m Hmic (Hw.ticks_of T2) Hthr2).
        repeat split; try reflexivity; try (left; reflexivity);
          unfold Main.MIC_DRAW_THROTTLE in *; lia.
      * destruct (badge_unthrottled st m t Hmic Htheme (Hw.ticks_of T2) Hpass2)
          as (st2 & Hrun2 & _).
        exists st, st2. rewrite Hrun1, Hrun2.
        repeat split; try reflexivity; try (left; reflexivity);
          unfold Main.MIC_DRAW_THROTTLE in *; lia.
    + (* the first request passes the throttle and records its time *)
      destruct (badge_unthrottled st m t Hmic Htheme (Hw.ticks_of T1) Hpass)
        as (st1 & Hrun1 & Hlast1 & Hmic1 & Hq1 & Hth1 & Hsame & Hchanged).
      rewrite Hmic in Hmic1.
      assert (Hthr2 : Hw.ticks_diff (Hw.ticks_of T2) (Main._last_badge_draw st1)
                      < Main.MIC_DRAW_THROTTLE).
      { rewrite Hlast1, Hdiff. unfold Main.MIC_DRAW_THROTTLE. lia. }
      pose proof (badge_throttled st1 m Hmic1 (Hw.ticks_of T2) Hthr2) as Hrun2.
      exists st1, st1. rewrite Hrun1, Hrun2.
      split; [reflexivity |]. split; [reflexivity |]. split; [exact Hq1 |].
      split; [right; reflexivity |].
      intros _. split; [reflexivity |]. split; assumption.
Qed.

(** The badge last painted "LOUD" at tick 1000; the room has since turned
    quiet. A forced request at tick 1100 paints although only 100 ms have
    passed; of the unforced requests at 1300 and 1500 (200 ms apart) the
    first paints "QUIET OK" and the second paints nothing. *)
Lemma badge_force_and_throttle_witness :
  let st := AppSpec.badge_state 1000 (Some false) true in
  Main.lcd (snd (Main.draw_mic_badge true 1100 st)) = AppSpec.badge_calls true 0
  /\ Main.lcd (snd (Main.draw_mic_badge false 1300 st)) = AppSpec.badge_calls true 0
  /\ Main.lcd (snd (Main.draw_mic_badge false 1500
                      (snd (Main.draw_mic_badge false 1300 st))))
     = AppSpec.badge_calls true 0.
Proof.
  intros st.
  destruct (badge_force_and_throttle st (MicSpec.mic_in 0 true None)
              (Main.mkTheme "DARK (HC)" 0xFFFF 0x0000 0xFFFF 0xFFFF 0x0000
                            0xE71C 0x0000 0x07E0)
              eq_refl eq_refl) as [Hforce Hpair].
  destruct (Hforce 1100 1100) as (f1 & f2 & Hf1 & _ & Hl1 & _).
  destruct (Hpair 1300 1500 ltac:(lia)) as (u1 & u2 & Hu1 & Hu2 & _ & _ & Hpass).
  destruct (Hpass ltac:(vm_compute; discriminate)) as (Hsecond & Hfirst & _).
  change (Hw.ticks_of 1300) with 1300 in Hu1.
  change (Hw.ticks_of 1500) with 1500 in Hu2.
  rewrite Hf1, Hu1. cbn [snd]. rewrite Hu2. cbn [snd].
  split; [exact Hl1 |].
  split; [| rewrite Hsecond]; apply Hfirst; discriminate.
Defined.

(** C7, as stated, fails: the badge last painted "LOUD" at tick 0 and the
    room has since turned quiet. The unforced request at tick 100 is
    throttled and paints nothing; the unforced request at tick 320, 220 ms
    later and with the classification unchanged, paints "QUIET OK". The
    second request draws, the first does not. *)
Lemma badge_second_unforced_request_draws :
  let st := AppSpec.badge_state 0 (Some false) true in
  let st1 := snd (Main.draw_mic_badge false 100 st) in
  let st2 := snd (Main.draw_mic_badge false 320 st1) in
  Hw.ticks_diff 320 100 = 220
  /\ Main.mic_quiet st1 = Main.mic_quiet st
  /\ Main.lcd st1 = Main.lcd st
  /\ Main.lcd st2 = Main.lcd st1 ++ AppSpec.badge_calls true 0.
Proof. vm_compute. repeat split; reflexivity. Qed.


(* ===================================================================== *)
(** ** The ambient classifier's state machine *)
(* ===================================================================== *)




(* ===================================================================== *)
(** ** Properties of main.py: communication cards *)
(* ===================================================================== *)

Section NavFacts.

Variables (ti : Z) (cards : list Main.card) (name : string) (idx : Z).
Variables (t : Main.Theme) (c : Main.card).
Hypothesis Htheme : Py.index Main.THEMES ti = Some t.
Hypothesis Hcard : Py.index cards idx = Some c.

Let P := AppSpec.at_nav ti cards name idx.

Lemma keeps_ret {A : Type} (a : A) : AppSpec.keeps P (Main.ret a).
Proof. intros st HP. exists a, st. split; [reflexivity | exact HP]. Qed.

Lemma keeps_bind {A B : Type} (c1 : Main.Run A) (k : A -> Main.Run B) :
  AppSpec.keeps P c1 -> (forall a, AppSpec.keeps P (k a)) ->
  AppSpec.keeps P (Main.bind c1 k).
Proof.
  intros H1 H2 st HP.
  destruct (H1 st HP) as (a & st1 & Hrun1 & HP1).
  destruct (H2 a st1 HP1) as (b & st2 & Hrun2 & HP2).
  exists b, st2. unfold Main.bind. rewrite Hrun1. split; assumption.
Qed.

(** After [get] the continuation may rely on the state it was given. *)
Lemma keeps_get {B : Type} (k : Main.App -> Main.Run B) :
  (forall a, P a -> AppSpec.keeps P (k a)) ->
  AppSpec.keeps P (Main.bind Main.get k).
Proof.
  intros Hk st HP. destruct (Hk st HP st HP) as (b & st2 & Hrun & HP2).
  exists b, st2. split; assumption.
Qed.

Lemma keeps_lcd_do (call : Main.lcd_call) : AppSpec.keeps P (Main.lcd_do call).
Proof.
  intros st HP. eexists. eexists. split; [reflexivity |].
  destruct st. exact HP.
Qed.

Lemma keeps_th : AppSpec.keeps P Main.th.
Proof.
  intros st HP. exists t, st. split; [| exact HP].
  destruct HP as (Hti & _). unfold Main.th, Main.bind, Main.get, Main.index_or_raise.
  rewrite Hti, Htheme. reflexivity.
Qed.

(** Continue with the selected theme. *)
Lemma keeps_th_bind {B : Type} (k : Main.Theme -> Main.Run B) :
  AppSpec.keeps P (k t) -> AppSpec.keeps P (Main.bind Main.th k).
Proof.
  intros Hk st HP. destruct (Hk st HP) as (b & st2 & Hrun & HP2).
  exists b, st2. split; [| exact HP2].
  destruct HP as (Hti & _).
  unfold Main.th, Main.bind, Main.get, Main.index_or_raise in *.
  rewrite Hti, Htheme. exact Hrun.
Qed.

Lemma keeps_draw_border (x y w h col : Z) :
  AppSpec.keeps P (Main.draw_border x y w h col).
Proof.
  unfold Main.draw_border.
  repeat (apply keeps_bind; [apply keeps_lcd_do | intros _]).
  apply keeps_lcd_do.
Qed.

Lemma keeps_set_badge (d : Z) (s : option bool) : AppSpec.keeps P (Main.set_badge d s).
Proof.
  intros st HP. eexists. eexists. split; [reflexivity |].
  destruct st. exact HP.
Qed.

Lemma keeps_draw_mic_badge (force : bool) (now : Z) :
  AppSpec.keeps P (Main.draw_mic_badge force now).
Proof.
  unfold Main.draw_mic_badge. apply keeps_get. intros a _.
  destruct (Main.mic a); [| apply keeps_ret].
  destruct (negb force && _); [apply keeps_ret |].
  destruct (negb force && _); [apply keeps_set_badge |].
  apply keeps_th_bind.
  destruct (Main.mic_quiet a);
    (apply keeps_bind; [apply keeps_lcd_do | intros _];
     apply keeps_bind; [apply keeps_draw_border | intros _];
     apply keeps_bind; [apply keeps_lcd_do | intros _];
     apply keeps_set_badge).
Qed.

Lemma keeps_draw_title_bar (title : string) (now : Z) :
  AppSpec.keeps P (Main.draw_title_bar title now).
Proof.
  unfold Main.draw_title_bar. apply keeps_th_bind.
  apply keeps_bind; [apply keeps_lcd_do | intros _].
  apply keeps_bind; [apply keeps_lcd_do | intros _].
  apply keeps_draw_mic_badge.
Qed.

Lemma keeps_draw_button (btn : Main.Btn) (pressed : bool) :
  AppSpec.keeps P (Main.draw_button btn pressed).
Proof.
  unfold Main.draw_button. apply keeps_th_bind.
  destruct pressed;
    (apply keeps_bind; [apply keeps_lcd_do | intros _];
     apply keeps_bind; [apply keeps_draw_border | intros _];
     apply keeps_lcd_do).
Qed.

Lemma keeps_draw_indicator (text : string) :
  AppSpec.keeps P (Main.draw_indicator text).
Proof.
  unfold Main.draw_indicator. apply keeps_th_bind.
  apply keeps_get. intros a _. apply keeps_lcd_do.
Qed.

Lemma keeps_draw_lines (lines : list string) (cx cw lh sc fg_ bg_ : Z) :
  forall y, AppSpec.keeps P (Main.draw_lines lines cx cw y lh sc fg_ bg_).
Proof.
  induction lines as [| line rest IH]; intros y; simpl.
  - apply keeps_ret.
  - apply keeps_bind; [apply keeps_lcd_do | intros _]. apply IH.
Qed.

(** Redrawing the card returns normally and leaves the navigation
    variables alone, provided the card index is inside the list. *)
Lemma keeps_draw_comm_card (now : Z) : AppSpec.keeps P (Main.draw_comm_card now).
Proof.
  unfold Main.draw_comm_card. apply keeps_th_bind.
  apply keeps_bind; [apply keeps_lcd_do | intros _].
  apply keeps_get. intros st0 _.
  apply keeps_bind; [apply keeps_draw_title_bar | intros _].
  apply keeps_bind; [apply keeps_draw_button | intros _].
  apply keeps_bind; [apply keeps_draw_button | intros _].
  apply keeps_get. intros st (_ & Hcards & _ & Hidx).
  rewrite Hcards, Hidx. unfold Main.index_or_raise at 1. rewrite Hcard.
  destruct c as [[[icon phrase] bg_] fg_].
  apply keeps_bind; [apply keeps_ret | intros [[[icon' phrase'] bg'] fg']].
  apply keeps_bind; [apply keeps_lcd_do | intros _].
  apply keeps_bind; [apply keeps_draw_border | intros _].
  apply keeps_bind; [apply keeps_draw_indicator | intros _].
  apply keeps_bind; [apply keeps_lcd_do | intros _].
  destruct ((Main.W - 32 - 20) / (8 * 3) <? 6);
    match goal with
    | |- context [if ?b then _ else _] => destruct b
    end;
    (apply keeps_bind; [apply keeps_draw_lines | intros _];
     apply keeps_bind; [apply keeps_draw_button | intros _];
     apply keeps_bind; [apply keeps_draw_button | intros _];
     apply keeps_draw_button).
Qed.

End NavFacts.

Section NavSteps.

Lemma index_in_bounds {A : Type} (l : list A) (i : Z) :
  0 <= i < Py.len l -> exists a, Py.index l i = Some a.
Proof.
  unfold Py.len, Py.index. intros Hi.
  destruct (Z.leb_spec 0 i); [| lia].
  destruct (Z.ltb_spec i (Z.of_nat (List.length l))); [| lia].
  cbn [andb].
  destruct (nth_error l (Z.to_nat i)) as [a |] eqn:E; [exists a; reflexivity |].
  apply nth_error_None in E. lia.
Qed.

Lemma comm_prev_at_first (st : Main.App) (now : Z) :
  Main.comm_card_index st <= 0 -> Main.comm_prev now st = (Py.Ok tt, st).
Proof.
  intros Hidx. unfold Main.comm_prev, Main.bind, Main.get.
  rewrite Z.gtb_ltb.
  destruct (Z.ltb_spec 0 (Main.comm_card_index st)); [lia | reflexivity].
Qed.

Lemma comm_next_at_last (st : Main.App) (now : Z) :
  Py.len (Main.comm_cards st) - 1 <= Main.comm_card_index st ->
  Main.comm_next now st = (Py.Ok tt, st).
Proof.
  intros Hidx. unfold Main.comm_next, Main.bind, Main.get.
  destruct (Z.ltb_spec (Main.comm_card_index st) (Py.len (Main.comm_cards st) - 1));
    [lia | reflexivity].
Qed.

(** Moving to the card at [i], inside the list, returns normally with
    the index at [i] and everything else of the navigation unchanged. *)
Lemma move_to_card (st : Main.App) (now i : Z) :
  AppSpec.theme_ok st ->
  0 <= i < Py.len (Main.comm_cards st) ->
  exists st',
    Main.bind (Main.set_comm (Main.comm_cards st) (Main.comm_cat_name st) i)
              (fun _ => Main.draw_comm_card now) st = (Py.Ok tt, st')
    /\ AppSpec.at_nav (Main.theme_index st) (Main.comm_cards st)
                      (Main.comm_cat_name st) i st'.
Proof.
  intros [t Ht] Hi.
  destruct (index_in_bounds _ _ Hi) as [c Hc].
  unfold Main.bind at 1.
  destruct st as [mic q rms lp ld ls ti cs cc cn ci wd lt lcd con].
  cbv [Main.set_comm]. run_app. run_app_in Ht. run_app_in Hc. run_app_in Hi.
  destruct (keeps_draw_comm_card ti cc cn i t c Ht Hc now
              (Main.mkApp mic q rms lp ld ls ti cs cc cn i wd lt lcd con))
    as (u & st' & Hrun & HP).
  { repeat split. }
  destruct u. exists st'. split; assumption.
Qed.

Lemma at_nav_theme_ok (ti : Z) (cards : list Main.card) (name : string) (i : Z)
    (st st' : Main.App) :
  AppSpec.theme_ok st -> Main.theme_index st = ti ->
  AppSpec.at_nav ti cards name i st' -> AppSpec.theme_ok st'.
Proof.
  intros [t Ht] Hti (Hti' & _). exists t. rewrite Hti', <- Hti. exact Ht.
Qed.

Lemma comm_prev_moves (st : Main.App) (now : Z) :
  AppSpec.theme_ok st -> AppSpec.card_in_bounds st ->
  exists st',
    Main.comm_prev now st = (Py.Ok tt, st')
    /\ AppSpec.at_nav (Main.theme_index st) (Main.comm_cards st)
                      (Main.comm_cat_name st)
                      (Z.max 0 (Main.comm_card_index st - 1)) st'.
Proof.
  intros Hth Hin. unfold AppSpec.card_in_bounds in Hin.
  destruct (Z.le_gt_cases (Main.comm_card_index st) 0) as [Hfirst | Hmid].
  - exists st. rewrite comm_prev_at_first by exact Hfirst.
    split; [reflexivity |].
    replace (Z.max 0 (Main.comm_card_index st - 1)) with (Main.comm_card_index st) by lia.
    repeat split.
  - replace (Z.max 0 (Main.comm_card_index st - 1)) with (Main.comm_card_index st - 1) by lia.
    destruct (move_to_card st now (Main.comm_card_index st - 1) Hth ltac:(lia))
      as (st' & Hrun & HP).
    exists st'. split; [| exact HP].
    unfold Main.comm_prev, Main.bind at 1, Main.get. rewrite Z.gtb_ltb.
    destruct (Z.ltb_spec 0 (Main.comm_card_index st)); [exact Hrun | lia].
Qed.

Lemma comm_next_moves (st : Main.App) (now : Z) :
  AppSpec.theme_ok st -> AppSpec.card_in_bounds st ->
  exists st',
    Main.comm_next now st = (Py.Ok tt, st')
    /\ AppSpec.at_nav (Main.theme_index st) (Main.comm_cards st)
                      (Main.comm_cat_name st)
                      (Z.min (Py.len (Main.comm_cards st) - 1)
                             (Main.comm_card_index st + 1)) st'.
Proof.
  intros Hth Hin. unfold AppSpec.card_in_bounds in Hin.
  destruct (Z.le_gt_cases (Py.len (Main.comm_cards st) - 1) (Main.comm_card_index st))
    as [Hlast | Hmid].
  - exists st. rewrite comm_next_at_last by exact Hlast.
    split; [reflexivity |].
    replace (Z.min _ _) with (Main.comm_card_index st) by lia.
    repeat split.
  - replace (Z.min _ _) with (Main.comm_card_index st + 1) by lia.
    destruct (move_to_card st now (Main.comm_card_index st + 1) Hth ltac:(lia))
      as (st' & Hrun & HP).
    exists st'. split; [| exact HP].
    unfold Main.comm_next, Main.bind at 1, Main.get.
    destruct (Z.ltb_spec (Main.comm_card_index st) (Py.len (Main.comm_cards st) - 1));
      [exact Hrun | lia].
Qed.

Lemma open_category_found (st : Main.App) (now idx : Z)
    (cat_name : string) (cat_cards : list Main.card) (bg_ fg_ : Z) (c : Main.card) :
  AppSpec.theme_ok st ->
  Py.index Main.COMM_CATEGORIES idx = Some (cat_name, cat_cards, bg_, fg_) ->
  Py.index cat_cards 0 = Some c ->
  exists st',
    Main.open_category idx now st = (Py.Ok tt, st')
    /\ AppSpec.at_nav (Main.theme_index st) cat_cards cat_name 0 st'.
Proof.
  intros [t Ht] Hcat Hc.
  destruct st as [mic q rms lp ld ls ti cs cc cn ci wd lt lcd con].
  run_app_in Ht.
  unfold Main.open_category, Main.show_comm_card.
  unfold Main.bind at 1. unfold Main.index_or_raise at 1. rewrite Hcat.
  cbv beta iota delta [Main.ret].
  unfold Main.bind at 1. cbv beta iota delta [Main.set_comm].
  unfold Main.bind at 1. cbv beta iota delta [Main.set_current_screen].
  run_app.
  destruct (keeps_draw_comm_card ti cat_cards cat_name 0 t c Ht Hc now
              (Main.mkApp mic q rms lp ld ls ti Main.SCREEN_COMM_CARD
                          cat_cards cat_name 0 wd lt lcd con))
    as (u & st' & Hrun & HP).
  { repeat split. }
  destruct u. exists st'. split; assumption.
Qed.

(** Opening one of the five categories selects its name and cards and
    shows its first card. *)
Lemma open_category_resets (st : Main.App) (now idx : Z) :
  AppSpec.theme_ok st -> 0 <= idx < 5 ->
  exists st' cat_name cat_cards bg_ fg_,
    Py.index Main.COMM_CATEGORIES idx = Some (cat_name, cat_cards, bg_, fg_)
    /\ Main.open_category idx now st = (Py.Ok tt, st')
    /\ 0 < Py.len cat_cards
    /\ AppSpec.at_nav (Main.theme_index st) cat_cards cat_name 0 st'.
Proof.
  intros Hth Hidx.
  assert (Hcases : idx = 0 \/ idx = 1 \/ idx = 2 \/ idx = 3 \/ idx = 4) by lia.
  destruct Hcases as [-> | [-> | [-> | [-> | ->]]]].
  - destruct (open_category_found st now 0 _ _ _ _ _ Hth eq_refl eq_refl)
      as (st' & Hrun & HP).
    exists st'. do 4 eexists. split; [reflexivity |].
    split; [exact Hrun |]. split; [reflexivity | exact HP].
  - destruct (open_category_found st now 1 _ _ _ _ _ Hth eq_refl eq_refl)
      as (st' & Hrun & HP).
    exists st'. do 4 eexists. split; [reflexivity |].
    split; [exact Hrun |]. split; [reflexivity | exact HP].
  - destruct (open_category_found st now 2 _ _ _ _ _ Hth eq_refl eq_refl)
      as (st' & Hrun & HP).
    exists st'. do 4 eexists. split; [reflexivity |].
    split; [exact Hrun |]. split; [reflexivity | exact HP].
  - destruct (open_category_found st now 3 _ _ _ _ _ Hth eq_refl eq_refl)
      as (st' & Hrun & HP).
    exists st'. do 4 eexists. split; [reflexivity |].
    split; [exact Hrun |]. split; [reflexivity | exact HP].
  - destruct (open_category_found st now 4 _ _ _ _ _ Hth eq_refl eq_refl)
      as (st' & Hrun & HP).
    exists st'. do 4 eexists. split; [reflexivity |].
    split; [exact Hrun |]. split; [reflexivity | exact HP].
Qed.

End NavSteps.

Section NavRuns.

Lemma nav_step_invariant (a : AppSpec.nav) (now : Z) (st : Main.App) :
  AppSpec.nav_ok (a, now) ->
  AppSpec.theme_ok st -> AppSpec.card_in_bounds st ->
  exists st',
    AppSpec.nav_step a now st = (Py.Ok tt, st')
    /\ AppSpec.theme_ok st' /\ AppSpec.card_in_bounds st'.
Proof.
  intros Hok Hth Hin. destruct a as [| | idx]; cbn [AppSpec.nav_step].
  - destruct (comm_prev_moves st now Hth Hin) as (st' & Hrun & HP).
    exists st'. split; [exact Hrun |].
    split; [eapply at_nav_theme_ok; [exact Hth | reflexivity | exact HP] |].
    destruct HP as (_ & Hc & _ & Hi).
    unfold AppSpec.card_in_bounds in *. rewrite Hc, Hi. lia.
  - destruct (comm_next_moves st now Hth Hin) as (st' & Hrun & HP).
    exists st'. split; [exact Hrun |].
    split; [eapply at_nav_theme_ok; [exact Hth | reflexivity | exact HP] |].
    destruct HP as (_ & Hc & _ & Hi).
    unfold AppSpec.card_in_bounds in *. rewrite Hc, Hi. lia.
  - destruct (open_category_resets st now idx Hth Hok)
      as (st' & nm & cs & bg_ & fg_ & _ & Hrun & Hlen & HP).
    exists st'. split; [exact Hrun |].
    split; [eapply at_nav_theme_ok; [exact Hth | reflexivity | exact HP] |].
    destruct HP as (_ & Hc & _ & Hi).
    unfold AppSpec.card_in_bounds. rewrite Hc, Hi. lia.
Qed.

Lemma nav_run_invariant (steps : list (AppSpec.nav * Z)) :
  forall st,
    Forall AppSpec.nav_ok steps ->
    AppSpec.theme_ok st -> AppSpec.card_in_bounds st ->
    exists st',
      AppSpec.nav_run steps st = (Py.Ok tt, st')
      /\ AppSpec.theme_ok st' /\ AppSpec.card_in_bounds st'.
Proof.
  induction steps as [| [a now] rest IH]; intros st Hall Hth Hin.
  - exists st. split; [reflexivity | split; assumption].
  - inversion Hall as [| ? ? Hok Hrest]; subst.
    destruct (nav_step_invariant a now st Hok Hth Hin) as (st1 & Hrun1 & Hth1 & Hin1).
    destruct (IH st1 Hrest Hth1 Hin1) as (st2 & Hrun2 & Hth2 & Hin2).
    exists st2. cbn [AppSpec.nav_run]. unfold Main.bind. rewrite Hrun1.
    split; [exact Hrun2 | split; assumption].
Qed.

End NavRuns.

(** C8. The communication-card index always lies inside the active
    category's card list: Prev at index 0 and Next at the last index
    change nothing at all; between the ends they move the index by one and
    redraw; opening any of the five categories selects its cards and sets
    the index to 0; and whatever sequence of these actions follows
    start-up, every action returns normally with the index in bounds. *)
Theorem comm_card_index_stays_in_bounds :
  (forall (st : Main.App) (now : Z),
      Main.comm_card_index st = 0 -> Main.comm_prev now st = (Py.Ok tt, st))
  /\ (forall (st : Main.App) (now : Z),
        Main.comm_card_index st = Py.len (Main.comm_cards st) - 1 ->
        Main.comm_next now st = (Py.Ok tt, st))
  /\ (forall (st : Main.App) (now idx : Z),
        AppSpec.theme_ok st -> 0 <= idx < 5 ->
        exists st' cat_name cat_cards bg_ fg_,
          Py.index Main.COMM_CATEGORIES idx = Some (cat_name, cat_cards, bg_, fg_)
          /\ Main.open_category idx now st = (Py.Ok tt, st')
          /\ Main.comm_card_index st' = 0
          /\ Main.comm_cards st' = cat_cards
          /\ Main.comm_cat_name st' = cat_name
          /\ AppSpec.card_in_bounds st')
  /\ (forall (st : Main.App) (now : Z),
        AppSpec.theme_ok st -> AppSpec.card_in_bounds st ->
        exists st1 st2,
          Main.comm_prev now st = (Py.Ok tt, st1)
          /\ Main.comm_next now st = (Py.Ok tt, st2)
          /\ Main.comm_cards st1 = Main.comm_cards st
          /\ Main.comm_cards st2 = Main.comm_cards st
          /\ Main.comm_card_index st1 = Z.max 0 (Main.comm_card_index st - 1)
          /\ Main.comm_card_index st2
             = Z.min (Py.len (Main.comm_cards st) - 1) (Main.comm_card_index st + 1)
          /\ AppSpec.card_in_bounds st1 /\ AppSpec.card_in_bounds st2)
  /\ (forall (mic_ok : bool) (steps : list (AppSpec.nav * Z)),
        Forall AppSpec.nav_ok steps ->
        exists st',
          AppSpec.nav_run steps (Main.initial mic_ok) = (Py.Ok tt, st')
          /\ AppSpec.card_in_bounds st').
Proof.
  split; [| split; [| split; [| split]]].
  - intros st now Hidx. apply comm_prev_at_first. lia.
  - intros st now Hidx. apply comm_next_at_last. lia.
  - intros st now idx Hth Hidx.
    destruct (open_category_resets st now idx Hth Hidx)
      as (st' & nm & cs & bg_ & fg_ & Hcat & Hrun & Hlen & HP).
    exists st', nm, cs, bg_, fg_.
    destruct HP as (_ & Hc & Hn & Hi).
    repeat (split; [assumption |]).
    unfold AppSpec.card_in_bounds. rewrite Hc, Hi. lia.
  - intros st now Hth Hin.
    destruct (comm_prev_moves st now Hth Hin) as (st1 & Hrun1 & (_ & Hc1 & _ & Hi1)).
    destruct (comm_next_moves st now Hth Hin) as (st2 & Hrun2 & (_ & Hc2 & _ & Hi2)).
    exists st1, st2. unfold AppSpec.card_in_bounds in *.
    repeat (split; [assumption |]).
    rewrite Hc1, Hi1, Hc2, Hi2. lia.
  - intros mic_ok steps Hall.
    destruct (nav_run_invariant steps (Main.initial mic_ok) Hall) as (st' & Hrun & _ & Hin).
    + exists (Main.mkTheme "DARK (HC)" 0xFFFF 0x0000 0xFFFF 0xFFFF 0x0000
                           0xE71C 0x0000 0x07E0).
      destruct mic_ok; reflexivity.
    + destruct mic_ok; unfold AppSpec.card_in_bounds; cbn; lia.
    + exists st'. split; assumption.
Qed.

(** From start-up: open SENSORY (five cards), press Next six times, then
    Prev once. Every action returns normally and the index stays inside
    the list. *)
Lemma comm_card_index_stays_in_bounds_witness :
  exists st',
    AppSpec.nav_run
      [(AppSpec.NavOpen 2, 100); (AppSpec.NavNext, 200); (AppSpec.NavNext, 300);
       (AppSpec.NavNext, 400); (AppSpec.NavNext, 500); (AppSpec.NavNext, 600);
       (AppSpec.NavNext, 700); (AppSpec.NavPrev, 800)]
      (Main.initial true) = (Py.Ok tt, st')
    /\ AppSpec.card_in_bounds st'.
Proof.
  destruct comm_card_index_stays_in_bounds as (_ & _ & _ & _ & Hrun).
  apply Hrun.
  repeat constructor; cbn; lia.
Defined.


(* ===================================================================== *)
(** ** The display driver's handling of bad geometry *)
(* ===================================================================== *)

Section TextFacts.

Import Ili9486.













End TextFacts.



(* ===================================================================== *)
(** ** The main loop *)
(* ===================================================================== *)

Section LoopFacts.

(** Polling the classifier returns normally whenever a theme is
    selected. *)
Lemma poll_returns (i : Main.PollInput) (st : Main.App) :
  AppSpec.theme_ok st ->
  exists st', Main.poll_mic_and_update_badge i st = (Py.Ok tt, st').
Proof.
  intros [t Ht].
  destruct st as [mic q rms lp ld ls ti cs cc cn ci wd lt lcd con].
  run_app_in Ht.
  unfold Main.poll_mic_and_update_badge. unfold Main.bind at 1, Main.get. run_proj.
  destruct mic as [m |]; [| eexists; reflexivity].
  destruct (Hw.ticks_diff (Main.poll_now i) lp <? Main.MIC_POLL_MS);
    [eexists; reflexivity |].
  destruct (MicLevel.update m (Main.update_raw i) (Main.update_now i)) as [info m'].
  unfold Main.bind at 1. cbv beta iota delta [Main.set_mic]. run_proj.
  destruct (keeps_draw_mic_badge ti cc cn ci t Ht false (Main.badge_now i)
              (Main.mkApp (Some m') (MicLevel.quiet info) (MicLevel.rms info)
                          (Main.poll_now i) ld ls ti cs cc cn ci wd lt lcd con))
    as (u & st' & Hrun & _).
  { repeat split. }
  destruct u. exists st'. exact Hrun.
Qed.

End LoopFacts.

(** C1 evaluated. In an iteration in which the touch interrupt line
    reads low, [tp.read] finds no attribute [read] on the XPT2046 object:
    the iteration raises AttributeError before any sample is requested
    from the bus, nothing catches it, and the loop ends there. *)
Theorem main_loop_stops_at_first_touch :
  forall (press : Z -> Z -> Main.Run unit) (i : Main.LoopInput)
         (rest : list Main.LoopInput) (st : Main.App)
         (tp : Xpt2046.XPT2046) (w : Hw.World),
    Xpt2046.irq tp = Some Main.TP_IRQ ->
    Main.irq_level i = 0 ->
    AppSpec.theme_ok st ->
    exists st' w',
      Main.main_loop press (i :: rest) st tp w
      = (Py.Raise (Py.AttributeError "XPT2046" "read"), st', tp, w')
      /\ Hw.trace w' = Hw.trace w
      /\ Hw.xfers w' = Hw.xfers w.
Proof.
  intros press i rest st tp w Hirq Hlow Hth.
  destruct (poll_returns (Main.poll_in i) st Hth) as [st1 Hpoll].
  exists st1, (Main.with_irq (Main.irq_level i) w).
  split; [| split; reflexivity].
  cbn [Main.main_loop]. unfold Main.loop_iteration.
  rewrite Hpoll.
  assert (Htouched : Xpt2046.touched tp (Main.with_irq (Main.irq_level i) w) = true).
  { unfold Xpt2046.touched. rewrite Hirq, Hlow. reflexivity. }
  rewrite Htouched. reflexivity.
Qed.

(** The application as started, the digitizer wired to chip-select 15
    and interrupt line 14, a finger on the panel in the very first
    iteration: the loop ends with AttributeError. *)
Lemma main_loop_stops_at_first_touch_witness :
  fst (fst (fst
    (Main.main_loop (fun _ _ => Main.ret tt)
       [Main.mkLoopInput 1000 (Main.mkPollInput 1000 0.1%float 1040 1041) 0]
       (Main.initial true)
       (Xpt2046.mkXPT2046 Main.TP_CS (Some Main.TP_IRQ) (0, 0, 0) (0, 0, 0))
       DisplaySpec.idle_world)))
  = Py.Raise (Py.AttributeError "XPT2046" "read").
Proof.
  destruct (main_loop_stops_at_first_touch (fun _ _ => Main.ret tt)
              (Main.mkLoopInput 1000 (Main.mkPollInput 1000 0.1%float 1040 1041) 0) []
              (Main.initial true)
              (Xpt2046.mkXPT2046 Main.TP_CS (Some Main.TP_IRQ) (0, 0, 0) (0, 0, 0))
              DisplaySpec.idle_world eq_refl eq_refl)
    as (st' & w' & Hrun & _).
  - exists (Main.mkTheme "DARK (HC)" 0xFFFF 0x0000 0xFFFF 0xFFFF 0x0000
                         0xE71C 0x0000 0x07E0).
    reflexivity.
  - rewrite Hrun. reflexivity.
Defined.


(* ===================================================================== *)
(** ** Properties of main.py: word wrap *)
(* ===================================================================== *)

Section SplitFacts.

Lemma split_nonempty (sep : ascii) (s : string) : PyStr.split sep s <> [].
Proof.
  destruct s as [| c s']; simpl; [discriminate |].
  destruct (Ascii.eqb c sep); [discriminate |].
  destruct (PyStr.split sep s'); discriminate.
Qed.

Lemma split_cons_other (sep c : ascii) (s : string) :
  Ascii.eqb c sep = false ->
  PyStr.split sep (String c s)
  = String c (hd EmptyString (PyStr.split sep s)) :: tl (PyStr.split sep s).
Proof.
  intros Hc. simpl. rewrite Hc.
  pose proof (split_nonempty sep s) as Hne.
  destruct (PyStr.split sep s); [congruence | reflexivity].
Qed.

Lemma split_cons_sep (sep c : ascii) (s : string) :
  Ascii.eqb c sep = true ->
  PyStr.split sep (String c s) = EmptyString :: PyStr.split sep s.
Proof. intros Hc. simpl. rewrite Hc. reflexivity. Qed.

(** Splitting at an occurrence of the separator splits the pieces. *)
Lemma split_at_sep (sep : ascii) (u v : string) :
  PyStr.split sep (u ++ String sep v)%string
  = PyStr.split sep u ++ PyStr.split sep v.
Proof.
  induction u as [| c u IH].
  - simpl. rewrite Ascii.eqb_refl. reflexivity.
  - change (String c u ++ String sep v)%string with (String c (u ++ String sep v)).
    destruct (Ascii.eqb c sep) eqn:Hc.
    + simpl. rewrite Hc, IH. reflexivity.
    + rewrite !split_cons_other by exact Hc. rewrite IH.
      pose proof (split_nonempty sep u) as Hne.
      destruct (PyStr.split sep u); [congruence | reflexivity].
Qed.

Lemma split_without_sep (sep : ascii) (t : string) :
  PyStr.contains sep t = false -> PyStr.split sep t = [t].
Proof.
  induction t as [| c t IH]; simpl; [reflexivity |].
  intros Hc. apply orb_false_iff in Hc. destruct Hc as [Hc Ht].
  rewrite Hc, (IH Ht). reflexivity.
Qed.

(** Splitting a concatenation: the last piece of the left part and the
    first piece of the right part merge. *)
Lemma split_app (sep : ascii) (u v : string) :
  PyStr.split sep (u ++ v)%string
  = removelast (PyStr.split sep u)
    ++ (last (PyStr.split sep u) EmptyString
        ++ hd EmptyString (PyStr.split sep v))%string
       :: tl (PyStr.split sep v).
Proof.
  induction u as [| c u IH].
  - simpl. pose proof (split_nonempty sep v) as Hne.
    destruct (PyStr.split sep v); [congruence | reflexivity].
  - change (String c u ++ v)%string with (String c (u ++ v)).
    pose proof (split_nonempty sep u) as Hne.
    destruct (Ascii.eqb c sep) eqn:Hc.
    + rewrite (split_cons_sep sep c (u ++ v)) by exact Hc.
      rewrite (split_cons_sep sep c u) by exact Hc.
      rewrite IH.
      destruct (PyStr.split sep u) as [| p r]; [congruence |].
      reflexivity.
    + rewrite (split_cons_other sep c (u ++ v)) by exact Hc.
      rewrite (split_cons_other sep c u) by exact Hc.
      rewrite IH.
      destruct (PyStr.split sep u) as [| p r]; [congruence |].
      destruct r as [| p' r']; reflexivity.
Qed.

(** A character absent from a string is absent from its pieces. *)
Lemma contains_split (sep c : ascii) (s : string) :
  PyStr.contains c s = false ->
  Forall (fun w => PyStr.contains c w = false) (PyStr.split sep s).
Proof.
  induction s as [| d s IH]; simpl; intros Hc.
  - constructor; [reflexivity | constructor].
  - apply orb_false_iff in Hc. destruct Hc as [Hd Hs]. specialize (IH Hs).
    destruct (Ascii.eqb d sep).
    + constructor; [reflexivity | exact IH].
    + destruct (PyStr.split sep s) as [| p r]; [repeat constructor; simpl; rewrite Hd; reflexivity |].
      inversion IH as [| ? ? Hp Hr]; subst.
      constructor; [simpl; rewrite Hd, Hp; reflexivity | exact Hr].
Qed.

(** No piece holds the separator. *)
Lemma split_pieces_without_sep (sep : ascii) (s : string) :
  Forall (fun p => PyStr.contains sep p = false) (PyStr.split sep s).
Proof.
  induction s as [| c s IH]; cbn [PyStr.split].
  - constructor; [reflexivity | constructor].
  - destruct (Ascii.eqb c sep) eqn:Hc.
    + constructor; [reflexivity | exact IH].
    + destruct (PyStr.split sep s) as [| piece rest].
      * constructor; [| constructor]. cbn [PyStr.contains]. rewrite Hc. reflexivity.
      * inversion IH as [| ? ? Hpiece Hrest]; subst.
        constructor; [| exact Hrest].
        cbn [PyStr.contains]. rewrite Hc, Hpiece. reflexivity.
Qed.

End SplitFacts.

Section WrapFacts.

Variable max_chars : Z.

Lemma flush_prepend (la lines : list string) (cur : string) :
  Main.flush (la ++ lines) cur = la ++ Main.flush lines cur.
Proof.
  unfold Main.flush. destruct (PyStr.truthy cur); [symmetry; apply app_assoc | reflexivity].
Qed.

Lemma place_prepend (la lines : list string) (cur p : string) :
  Main.place max_chars (la ++ lines, cur) p
  = (la ++ fst (Main.place max_chars (lines, cur) p),
     snd (Main.place max_chars (lines, cur) p)).
Proof.
  unfold Main.place. destruct (Main.fits cur p max_chars); simpl.
  - reflexivity.
  - rewrite flush_prepend. reflexivity.
Qed.

Lemma parts_loop_prepend (la : list string) (parts : list string) :
  forall lines cur,
    Main.parts_loop max_chars parts (la ++ lines, cur)
    = (la ++ fst (Main.parts_loop max_chars parts (lines, cur)),
       snd (Main.parts_loop max_chars parts (lines, cur))).
Proof.
  induction parts as [| p rest IH]; intros lines cur.
  - reflexivity.
  - cbn [Main.parts_loop].
    destruct (PyStr.truthy p).
    + rewrite place_prepend.
      destruct (Main.place max_chars (lines, cur) p) as [l1 c1]. cbn [fst snd].
      destruct rest as [| p' rest'].
      * reflexivity.
      * rewrite flush_prepend. apply IH.
    + cbn [fst snd]. destruct rest as [| p' rest'].
      * reflexivity.
      * rewrite flush_prepend. apply IH.
Qed.

Lemma word_step_prepend (la lines : list string) (cur w_ : string) :
  Main.word_step max_chars (la ++ lines, cur) w_
  = (la ++ fst (Main.word_step max_chars (lines, cur) w_),
     snd (Main.word_step max_chars (lines, cur) w_)).
Proof.
  unfold Main.word_step. destruct (PyStr.contains PyStr.newline w_).
  - apply parts_loop_prepend.
  - apply place_prepend.
Qed.

Lemma fold_word_step_prepend (la : list string) (words : list string) :
  forall lines cur,
    fold_left (Main.word_step max_chars) words (la ++ lines, cur)
    = (la ++ fst (fold_left (Main.word_step max_chars) words (lines, cur)),
       snd (fold_left (Main.word_step max_chars) words (lines, cur))).
Proof.
  induction words as [| w_ rest IH]; intros lines cur.
  - reflexivity.
  - cbn [fold_left]. rewrite word_step_prepend.
    destruct (Main.word_step max_chars (lines, cur) w_) as [l1 c1]. apply IH.
Qed.

(** On an empty current line an empty token changes nothing. *)
Lemma place_empty_on_empty (lines : list string) :
  Main.place max_chars (lines, EmptyString) EmptyString = (lines, EmptyString).
Proof.
  unfold Main.place. destruct (Main.fits EmptyString EmptyString max_chars); reflexivity.
Qed.

(** Parts followed by further parts: each is followed by a flush, so the
    current line is empty when the further parts begin. *)
Lemma parts_loop_app (pa pb : list string) :
  pa <> [] -> pb <> [] ->
  forall st, exists la,
    Main.parts_loop max_chars (pa ++ pb) st
    = Main.parts_loop max_chars pb (la, EmptyString).
Proof.
  intros Hpa Hpb. induction pa as [| p rest IH]; [congruence |].
  intros st. destruct rest as [| p' rest'].
  - destruct pb as [| q pb']; [congruence |].
    cbn [app Main.parts_loop]. eexists. reflexivity.
  - change ((p :: p' :: rest') ++ pb) with (p :: (p' :: rest') ++ pb).
    cbn [Main.parts_loop]. cbn [app]. apply IH. discriminate.
Qed.

Lemma contains_app_char (c : ascii) (u v : string) :
  PyStr.contains c (u ++ String c v)%string = true.
Proof.
  induction u as [| d u IH]; simpl.
  - rewrite Ascii.eqb_refl. reflexivity.
  - rewrite IH. apply orb_true_r.
Qed.



(** Whatever precedes a line break, the text after it is laid out from
    an empty current line. *)
Lemma wrap_text_after_break (a b : string) :
  exists la,
    Main.wrap_text (a ++ String PyStr.newline b)%string max_chars
    = la ++ Main.wrap_text b max_chars.
Proof.
  unfold Main.wrap_text, Main.wrap_state.
  rewrite split_app.
  rewrite (split_cons_other PyStr.space PyStr.newline b) by reflexivity.
  cbn [hd tl].
  set (sa := PyStr.split PyStr.space a).
  pose proof (split_nonempty PyStr.space b) as Hsb.
  destruct (PyStr.split PyStr.space b) as [| fb sb'] eqn:Esb; [congruence |].
  cbn [hd tl].
  rewrite fold_left_app. cbn [fold_left].
  set (s0 := fold_left (Main.word_step max_chars) (removelast sa) ([], EmptyString)).
  unfold Main.word_step at 2.
  rewrite contains_app_char, split_at_sep.
  destruct (parts_loop_app (PyStr.split PyStr.newline (last sa EmptyString))
              (PyStr.split PyStr.newline fb)
              (split_nonempty _ _) (split_nonempty _ _) s0) as [la Hla].
  rewrite Hla. exists la.
  assert (Hstep : Main.parts_loop max_chars (PyStr.split PyStr.newline fb) (la, EmptyString)
                  = (la ++ fst (Main.word_step max_chars ([], EmptyString) fb),
                     snd (Main.word_step max_chars ([], EmptyString) fb))).
  { unfold Main.word_step. destruct (PyStr.contains PyStr.newline fb) eqn:Hnl.
    - rewrite <- parts_loop_prepend, app_nil_r. reflexivity.
    - rewrite (split_without_sep _ _ Hnl). cbn [Main.parts_loop].
      destruct fb as [| c fb'].
      + cbn [PyStr.truthy]. rewrite place_empty_on_empty, app_nil_r. reflexivity.
      + cbn [PyStr.truthy]. rewrite <- place_prepend, app_nil_r. reflexivity. }
  rewrite Hstep.
  destruct (Main.word_step max_chars ([], EmptyString) fb) as [l1 c1]. cbn [fst snd].
  rewrite fold_word_step_prepend.
  destruct (fold_left (Main.word_step max_chars) sb' (l1, c1)) as [l2 c2]. cbn [fst snd].
  apply flush_prepend.
Qed.

End WrapFacts.

Section StripFacts.









End StripFacts.

Section PieceFacts.






End PieceFacts.

Section WrapRefinement.

Variable max_chars : Z.


















End WrapRefinement.



(* ===================================================================== *)
(** ** Further properties of ui.py *)
(* ===================================================================== *)

Section UiMapping.

Lemma ui_clamp_range (v lo hi : Z) :
  lo <= hi -> lo <= Ui.clamp v lo hi <= hi.
Proof.
  intros Hle. unfold Ui.clamp. rewrite Z.gtb_ltb.
  destruct (Z.ltb_spec v lo), (Z.ltb_spec hi v); lia.
Qed.

Lemma map_range_proper (v in_a in_b out_a out_b : Z) :
  in_a < in_b ->
  Ui.map_range v in_a in_b out_a out_b
  = out_a + (v - in_a) * (out_b - out_a) / (in_b - in_a).
Proof.
  intros Hlt. unfold Ui.map_range.
  destruct (Z.eqb_spec in_a in_b); [lia | reflexivity].
Qed.

End UiMapping.

(** X1. [map_range] over a proper input range in_a < in_b and an
    increasing output range: the two ends of the input range go exactly to
    the two ends of the output range, the map never decreases, and inputs
    between the ends stay between the output ends. Outside the input
    range it extrapolates: one full range above in_b gives
    out_b + (out_b - out_a). *)
Theorem map_range_interpolates :
  forall v v' in_a in_b out_a out_b : Z,
    in_a < in_b -> out_a <= out_b ->
    Ui.map_range in_a in_a in_b out_a out_b = out_a
    /\ Ui.map_range in_b in_a in_b out_a out_b = out_b
    /\ (v <= v' ->
        Ui.map_range v in_a in_b out_a out_b <= Ui.map_range v' in_a in_b out_a out_b)
    /\ (in_a <= v <= in_b ->
        out_a <= Ui.map_range v in_a in_b out_a out_b <= out_b)
    /\ Ui.map_range (in_b + (in_b - in_a)) in_a in_b out_a out_b
       = out_b + (out_b - out_a).
Proof.
  intros v v' in_a in_b out_a out_b Hin Hout.
  rewrite !map_range_proper by exact Hin.
  set (d := in_b - in_a). assert (Hd : 0 < d) by (subst d; lia).
  set (s := out_b - out_a). assert (Hs : 0 <= s) by (subst s; lia).
  split; [| split; [| split; [| split]]].
  - replace ((in_a - in_a) * s) with 0 by lia. rewrite Z.div_0_l by lia. lia.
  - fold d. rewrite Z.mul_comm, Z.div_mul by lia. subst s. lia.
  - intros Hle. apply Z.add_le_mono_l. apply Z.div_le_mono; [exact Hd | nia].
  - intros [Hlo Hhi]. split.
    + assert (0 <= (v - in_a) * s / d) by (apply Z.div_pos; [nia | exact Hd]). lia.
    + assert ((v - in_a) * s / d <= s).
      { apply Z.div_le_upper_bound; [exact Hd | subst d; nia]. }
      subst s. lia.
  - replace ((in_b + d - in_a) * s) with ((2 * s) * d) by (subst d; lia).
    rewrite Z.div_mul by lia. subst s. lia.
Qed.

(** The X range of the shipped calibration onto a 480-pixel axis. *)
Lemma map_range_interpolates_witness :
  Ui.map_range 332 332 1616 0 479 = 0
  /\ Ui.map_range 1616 332 1616 0 479 = 479
  /\ Ui.map_range 2900 332 1616 0 479 = 958.
Proof.
  destruct (map_range_interpolates 0 0 332 1616 0 479 ltac:(lia) ltac:(lia))
    as (Ha & Hb & _ & _ & Hc).
  split; [exact Ha | split; [exact Hb | exact Hc]].
Defined.

(** X2. [TouchMapper.raw_to_screen] answers a point of the screen for
    every raw sample and every calibration table with a screen of at
    least one pixel each way, degenerate raw ranges included:
    0 <= x <= W - 1 and 0 <= y <= H - 1. *)
Theorem touch_mapper_stays_on_screen :
  forall (c : TouchCal.Cal) (rx ry : Z),
    1 <= TouchCal.W c -> 1 <= TouchCal.H c ->
    0 <= fst (TouchMapper.raw_to_screen c rx ry) <= TouchCal.W c - 1
    /\ 0 <= snd (TouchMapper.raw_to_screen c rx ry) <= TouchCal.H c - 1.
Proof.
  intros c rx ry HW HH. unfold TouchMapper.raw_to_screen.
  destruct (TouchCal.SWAP_XY c); cbv zeta; cbn [fst snd];
    split; apply ui_clamp_range; lia.
Qed.

Lemma touch_mapper_stays_on_screen_witness :
  0 <= fst (TouchMapper.raw_to_screen TouchCal.CAL 4095 0) <= 479
  /\ 0 <= snd (TouchMapper.raw_to_screen TouchCal.CAL 4095 0) <= 319.
Proof.
  apply (touch_mapper_stays_on_screen TouchCal.CAL 4095 0); simpl; lia.
Defined.

Section LatchFacts.

Context {A : Type}.

Lemma set_pressed_contains (b : Ui.Button (option A)) (v : bool) (x y : Z) :
  Ui.contains (Screen.set_pressed b v) x y = Ui.contains b x y.
Proof. reflexivity. Qed.

(** What one pass over the buttons does: it keeps their number, never
    releases a latch, and fires the button [ScreenSpec.fired] names. *)
Lemma press_loop_spec (bs : list (Ui.Button (option A))) (x y : Z) :
  List.length (snd (Screen.press_loop bs x y)) = List.length bs
  /\ (forall i b, nth_error bs i = Some b ->
        exists b', nth_error (snd (Screen.press_loop bs x y)) i = Some b'
                   /\ (Ui._pressed b = true -> Ui._pressed b' = true))
  /\ match ScreenSpec.fired bs x y with
     | Some i =>
         exists b a b',
           nth_error bs i = Some b
           /\ Ui.on_press b = Some a
           /\ fst (Screen.press_loop bs x y) = Some a
           /\ Ui.contains b x y = true
           /\ Ui._pressed b = false
           /\ nth_error (snd (Screen.press_loop bs x y)) i = Some b'
           /\ Ui._pressed b' = true
     | None => fst (Screen.press_loop bs x y) = None
     end.
Proof.
  induction bs as [| b rest IH].
  - simpl. split; [reflexivity |]. split; [| reflexivity].
    intros i b Hi. destruct i; discriminate.
  - destruct IH as (IHlen & IHmono & IHfire).
    cbn [Screen.press_loop ScreenSpec.fired].
    destruct (Screen.press_loop rest x y) as [r rest'] eqn:Hloop.
    cbn [fst snd] in *.
    destruct (Ui.contains b x y && negb (Ui._pressed b)) eqn:Hhit.
    + apply andb_true_iff in Hhit. destruct Hhit as [Hin Hfree].
      apply negb_true_iff in Hfree.
      destruct (Ui.on_press b) as [a |] eqn:Hcb; cbn [fst snd].
      * split; [reflexivity |]. split.
        -- intros i b0 Hi. destruct i as [| i].
           ++ injection Hi as <-. eexists. split; [reflexivity |]. intros _. reflexivity.
           ++ exists b0. split; [exact Hi | tauto].
        -- exists b, a, (Screen.set_pressed b true).
           repeat split; assumption.
      * split; [simpl; rewrite IHlen; reflexivity |]. split.
        -- intros i b0 Hi. destruct i as [| i].
           ++ injection Hi as <-. eexists. split; [reflexivity |]. intros _. reflexivity.
           ++ apply IHmono. exact Hi.
        -- destruct (ScreenSpec.fired rest x y) as [i |]; cbn [option_map].
           ++ exact IHfire.
           ++ exact IHfire.
    + cbn [fst snd]. split; [simpl; rewrite IHlen; reflexivity |]. split.
      * intros i b0 Hi. destruct i as [| i].
        -- injection Hi as <-. exists b. split; [reflexivity | tauto].
        -- apply IHmono. exact Hi.
      * destruct (ScreenSpec.fired rest x y) as [i |]; cbn [option_map]; exact IHfire.
Qed.

Lemma handle_touch_pressed (s : Screen.Screen A) (x y : Z) :
  Screen.handle_touch s x y true
  = (fst (Screen.press_loop (Screen.buttons s) x y),
     Screen.mkScreen (Screen.name s) (snd (Screen.press_loop (Screen.buttons s) x y))).
Proof.
  unfold Screen.handle_touch. cbn [negb].
  destruct (Screen.press_loop (Screen.buttons s) x y). reflexivity.
Qed.

(** While the finger stays down, a latched button stays latched and is
    not fired. *)
Lemma hold_skips_latched (pts : list (Z * Z)) :
  forall (s : Screen.Screen A) (i : nat),
    ScreenSpec.latched s i -> ~ In i (fst (ScreenSpec.hold s pts)).
Proof.
  induction pts as [| [x y] rest IH]; intros s i Hl; [intros [] |].
  cbn [ScreenSpec.hold].
  destruct (ScreenSpec.hold (snd (Screen.handle_touch s x y true)) rest)
    as [l s''] eqn:Hh.
  assert (Hnext : ScreenSpec.latched (snd (Screen.handle_touch s x y true)) i).
  { destruct Hl as (b & Hb & Hp).
    rewrite handle_touch_pressed. cbn [snd].
    destruct (press_loop_spec (Screen.buttons s) x y) as (_ & Hmono & _).
    destruct (Hmono i b Hb) as (b' & Hb' & Hp').
    exists b'. split; [exact Hb' | exact (Hp' Hp)]. }
  pose proof (IH _ i Hnext) as Hrest. rewrite Hh in Hrest. cbn [fst] in *.
  destruct (press_loop_spec (Screen.buttons s) x y) as (_ & _ & Hfire).
  destruct (ScreenSpec.fired (Screen.buttons s) x y) as [j |]; [| exact Hrest].
  intros [Hj | Hin]; [| exact (Hrest Hin)].
  subst j. destruct Hfire as (b & a & b' & Hb & _ & _ & _ & Hfree & _).
  destruct Hl as (b0 & Hb0 & Hp0). rewrite Hb in Hb0. injection Hb0 as <-.
  rewrite Hfree in Hp0. discriminate.
Qed.

Lemma hold_fires_once (pts : list (Z * Z)) :
  forall s : Screen.Screen A, NoDup (fst (ScreenSpec.hold s pts)).
Proof.
  induction pts as [| [x y] rest IH]; intros s; [constructor |].
  cbn [ScreenSpec.hold].
  pose proof (IH (snd (Screen.handle_touch s x y true))) as Hrest.
  pose proof (hold_skips_latched rest (snd (Screen.handle_touch s x y true))) as Hskip.
  destruct (ScreenSpec.hold (snd (Screen.handle_touch s x y true)) rest)
    as [l s''] eqn:Hh.
  cbn [fst] in *.
  destruct (press_loop_spec (Screen.buttons s) x y) as (_ & _ & Hfire).
  destruct (ScreenSpec.fired (Screen.buttons s) x y) as [j |]; [| exact Hrest].
  constructor; [| exact Hrest].
  apply Hskip.
  destruct Hfire as (b & a & b' & _ & _ & _ & _ & _ & Hb' & Hp').
  exists b'. rewrite handle_touch_pressed. cbn [snd]. split; assumption.
Qed.

End LatchFacts.

(** X3. The press latch of [Screen.handle_touch]. A touch with the
    finger down returns the result of the callback of the first button
    that contains the point, is not yet latched and has a callback, and
    latches that button; it returns nothing when there is no such button.
    While the finger stays down, however it moves, no button fires a
    second time. A touch with the finger up returns nothing and releases
    every latch. *)
Theorem handle_touch_fires_once_per_hold :
  forall (A : Type) (s : Screen.Screen A) (x y : Z) (pts : list (Z * Z)),
    match ScreenSpec.fired (Screen.buttons s) x y with
    | Some i =>
        exists b a,
          nth_error (Screen.buttons s) i = Some b
          /\ Ui.contains b x y = true
          /\ Ui._pressed b = false
          /\ Ui.on_press b = Some a
          /\ fst (Screen.handle_touch s x y true) = Some a
          /\ ScreenSpec.latched (snd (Screen.handle_touch s x y true)) i
    | None => fst (Screen.handle_touch s x y true) = None
    end
    /\ NoDup (fst (ScreenSpec.hold s pts))
    /\ fst (Screen.handle_touch s x y false) = None
    /\ (forall i, ~ ScreenSpec.latched (snd (Screen.handle_touch s x y false)) i)
    /\ List.length (Screen.buttons (snd (Screen.handle_touch s x y false)))
       = List.length (Screen.buttons s).
Proof.
  intros A s x y pts.
  split; [| split; [apply hold_fires_once | split; [reflexivity | split]]].
  - rewrite handle_touch_pressed. cbn [fst snd].
    destruct (press_loop_spec (Screen.buttons s) x y) as (_ & _ & Hfire).
    destruct (ScreenSpec.fired (Screen.buttons s) x y) as [i |]; [| exact Hfire].
    destruct Hfire as (b & a & b' & Hb & Hcb & Hr & Hin & Hfree & Hb' & Hp').
    exists b, a. repeat split; try assumption.
    exists b'. split; assumption.
  - intros i (b & Hb & Hp). cbn in Hb.
    rewrite nth_error_map in Hb.
    destruct (nth_error (Screen.buttons s) i); [| discriminate].
    injection Hb as <-. discriminate.
  - cbn. apply length_map.
Qed.


(* ===================================================================== *)
(** ** Further properties of ili9486.py: the bus as the panel sees it *)
(* ===================================================================== *)

Section WireFacts.

Import Ili9486.

Variable self : ILI9486.
Hypothesis Hwired : cs self <> dc self.

Let Hcd : (cs self =? dc self) = false.
Proof. apply Z.eqb_neq. exact Hwired. Qed.

Let Hdc : (dc self =? cs self) = false.
Proof. apply Z.eqb_neq. intros E. apply Hwired. symmetry. exact E. Qed.

Lemma receive_app (a b : list Hw.event) :
  forall sel dcl,
    PanelSpec.receive (cs self) (dc self) sel dcl (a ++ b)
    = PanelSpec.receive (cs self) (dc self) sel dcl a
      ++ PanelSpec.receive (cs self) (dc self)
           (PanelSpec.level_after (cs self) sel a)
           (PanelSpec.level_after (dc self) dcl a) b.
Proof.
  induction a as [| e a IH]; intros sel dcl; [reflexivity |].
  destruct e; cbn [app PanelSpec.receive PanelSpec.level_after];
    rewrite IH; reflexivity.
Qed.

Lemma level_after_app (p lvl : Z) (a b : list Hw.event) :
  PanelSpec.level_after p lvl (a ++ b)
  = PanelSpec.level_after p (PanelSpec.level_after p lvl a) b.
Proof.
  revert lvl. induction a as [| e a IH]; intros lvl; [reflexivity |].
  destruct e; cbn [app PanelSpec.level_after]; rewrite IH; reflexivity.
Qed.

(** A command transaction, whatever the lines were before. *)
Lemma write_cmd_wire (cmd : Z) :
  exists evs,
    DisplaySpec.emits (write_cmd self cmd) evs
    /\ (forall sel dcl,
          PanelSpec.receive (cs self) (dc self) sel dcl evs
          = [PanelSpec.Command [byte (Z.land cmd 0xFF)]])
    /\ (forall sel, PanelSpec.level_after (cs self) sel evs = 1)
    /\ (forall dcl, PanelSpec.level_after (dc self) dcl evs = 0).
Proof.
  eexists. split; [apply emits_write_cmd |].
  split; [| split]; intros;
    cbn [PanelSpec.receive PanelSpec.level_after];
    rewrite ?Z.eqb_refl, ?Hcd, ?Hdc; reflexivity.
Qed.

(** A data transaction. *)
Lemma write_data_wire (d : list Z) :
  exists evs,
    DisplaySpec.emits (write_data self d) evs
    /\ (forall sel dcl,
          PanelSpec.receive (cs self) (dc self) sel dcl evs = [PanelSpec.Data d])
    /\ (forall sel, PanelSpec.level_after (cs self) sel evs = 1)
    /\ (forall dcl, PanelSpec.level_after (dc self) dcl evs = 1).
Proof.
  eexists. split; [apply emits_write_data |].
  split; [| split]; intros;
    cbn [PanelSpec.receive PanelSpec.level_after];
    rewrite ?Z.eqb_refl, ?Hcd, ?Hdc; reflexivity.
Qed.

(** Two steps one after the other, the second not depending on the
    lines it starts from. *)
Lemma wire_seq (c1 c2 : M unit) (e1 e2 : list Hw.event)
    (p1 p2 : list PanelSpec.packet) (l2 d2 : Z) :
  DisplaySpec.emits c1 e1 ->
  (forall sel dcl, PanelSpec.receive (cs self) (dc self) sel dcl e1 = p1) ->
  DisplaySpec.emits c2 e2 ->
  (forall sel dcl, PanelSpec.receive (cs self) (dc self) sel dcl e2 = p2) ->
  (forall sel, PanelSpec.level_after (cs self) sel e2 = l2) ->
  (forall dcl, PanelSpec.level_after (dc self) dcl e2 = d2) ->
  DisplaySpec.emits (c1 ;; c2) (e1 ++ e2)
  /\ (forall sel dcl,
        PanelSpec.receive (cs self) (dc self) sel dcl (e1 ++ e2) = p1 ++ p2)
  /\ (forall sel, PanelSpec.level_after (cs self) sel (e1 ++ e2) = l2)
  /\ (forall dcl, PanelSpec.level_after (dc self) dcl (e1 ++ e2) = d2).
Proof.
  intros He1 Hp1 He2 Hp2 Hl2 Hd2.
  split; [apply emits_bind; assumption |].
  split; [| split]; intros.
  - rewrite receive_app, Hp1, Hp2. reflexivity.
  - rewrite level_after_app. apply Hl2.
  - rewrite level_after_app. apply Hd2.
Qed.

(** Addressing a window: three commands and two data packets, after
    which the panel is deselected and the D/C line is low. *)
Lemma set_window_wire (x0 y0 x1 y1 : Z) :
  exists evs,
    DisplaySpec.emits (_set_window self x0 y0 x1 y1) evs
    /\ (forall sel dcl,
          PanelSpec.receive (cs self) (dc self) sel dcl evs
          = PanelSpec.window_packets self x0 y0 x1 y1)
    /\ (forall sel, PanelSpec.level_after (cs self) sel evs = 1)
    /\ (forall dcl, PanelSpec.level_after (dc self) dcl evs = 0).
Proof.
  unfold _set_window. cbv zeta.
  destruct (write_cmd_wire 0x2A) as (e1 & E1 & P1 & L1 & D1).
  destruct (write_data_wire
              [byte (Z.shiftr (x0 + x_offset self) 8); byte (Z.land (x0 + x_offset self) 255);
               byte (Z.shiftr (x1 + x_offset self) 8); byte (Z.land (x1 + x_offset self) 255)])
    as (e2 & E2 & P2 & L2 & D2).
  destruct (write_cmd_wire 0x2B) as (e3 & E3 & P3 & L3 & D3).
  destruct (write_data_wire
              [byte (Z.shiftr (y0 + y_offset self) 8); byte (Z.land (y0 + y_offset self) 255);
               byte (Z.shiftr (y1 + y_offset self) 8); byte (Z.land (y1 + y_offset self) 255)])
    as (e4 & E4 & P4 & L4 & D4).
  destruct (write_cmd_wire 0x2C) as (e5 & E5 & P5 & L5 & D5).
  destruct (wire_seq _ _ _ _ _ _ _ _ E4 P4 E5 P5 L5 D5) as (E45 & P45 & L45 & D45).
  destruct (wire_seq _ _ _ _ _ _ _ _ E3 P3 E45 P45 L45 D45) as (E35 & P35 & L35 & D35).
  destruct (wire_seq _ _ _ _ _ _ _ _ E2 P2 E35 P35 L35 D35) as (E25 & P25 & L25 & D25).
  destruct (wire_seq _ _ _ _ _ _ _ _ E1 P1 E25 P25 L25 D25) as (E15 & P15 & L15 & D15).
  eexists. split; [exact E15 |]. split; [| split; assumption].
  intros sel dcl. rewrite P15. reflexivity.
Qed.

(** A run of bus writes inside one data transaction. *)
Lemma receive_data_run (ds : list (list Z)) (rest : list Hw.event) :
  PanelSpec.receive (cs self) (dc self) 0 1 (map Hw.SpiWrite ds ++ rest)
  = map PanelSpec.Data ds ++ PanelSpec.receive (cs self) (dc self) 0 1 rest.
Proof.
  induction ds as [| d ds IH]; [reflexivity |].
  cbn [map app PanelSpec.receive]. rewrite IH. reflexivity.
Qed.

Lemma level_after_writes (p lvl : Z) (ds : list (list Z)) (rest : list Hw.event) :
  PanelSpec.level_after p lvl (map Hw.SpiWrite ds ++ rest)
  = PanelSpec.level_after p lvl rest.
Proof.
  induction ds as [| d ds IH]; [reflexivity |].
  cbn [map app PanelSpec.level_after]. exact IH.
Qed.

(** An open data transaction: select, raise D/C, some writes, deselect. *)
Lemma data_burst_wire (ds : list (list Z)) :
  (forall sel dcl,
     PanelSpec.receive (cs self) (dc self) sel dcl
       ([Hw.PinSet (cs self) 0; Hw.PinSet (dc self) 1]
          ++ map Hw.SpiWrite ds ++ [Hw.PinSet (cs self) 1])
     = map PanelSpec.Data ds)
  /\ (forall sel,
        PanelSpec.level_after (cs self) sel
          ([Hw.PinSet (cs self) 0; Hw.PinSet (dc self) 1]
             ++ map Hw.SpiWrite ds ++ [Hw.PinSet (cs self) 1]) = 1).
Proof.
  split; intros.
  - cbn [app PanelSpec.receive]. rewrite ?Z.eqb_refl, ?Hcd, ?Hdc.
    rewrite receive_data_run. cbn [PanelSpec.receive]. apply app_nil_r.
  - cbn [app PanelSpec.level_after]. rewrite ?Z.eqb_refl, ?Hdc.
    rewrite level_after_writes. cbn [PanelSpec.level_after].
    rewrite Z.eqb_refl. reflexivity.
Qed.

End WireFacts.

Section WireOps.

Import Ili9486.

Lemma repeat_write_map (buf : list Z) (k : nat) :
  List.concat (repeat [Hw.SpiWrite buf] k) = map Hw.SpiWrite (repeat buf k).
Proof.
  induction k as [| k IH]; [reflexivity |].
  cbn [repeat List.concat map app]. rewrite IH. reflexivity.
Qed.

(** Streaming a non-empty window, as the panel sees it: the window is
    addressed, then the colour arrives as data, w * h pixels in all. *)
Lemma fill_rect_stream_wire (self : ILI9486) (x y w h color565 : Z) :
  cs self <> dc self ->
  0 < w -> 0 < h ->
  exists evs ds,
    DisplaySpec.emits (fill_rect_stream self x y w h color565) evs
    /\ (forall sel dcl,
          PanelSpec.receive (cs self) (dc self) sel dcl evs
          = PanelSpec.window_packets self x y (x + w - 1) (y + h - 1)
            ++ map PanelSpec.Data ds)
    /\ List.concat ds = DisplaySpec.pixel_bytes color565 (Z.to_nat (w * h))
    /\ (forall sel, PanelSpec.level_after (cs self) sel evs = 1).
Proof.
  intros Hwired Hw0 Hh0.
  destruct (set_window_wire self Hwired x y (x + w - 1) (y + h - 1))
    as (ew & Hew & Hpw & Hlw & _).
  unfold fill_rect_stream.
  set (hi := Z.land (Z.shiftr color565 8) 255).
  set (lo := Z.land color565 255).
  remember (Z.to_nat 1024) as chunk eqn:Hchunk.
  set (buf := List.concat (repeat [hi; lo] chunk)).
  assert (Htot : 0 < w * h) by lia.
  pose proof (Z.div_mod (w * h) 1024 ltac:(lia)) as Hdm.
  pose proof (Z.mod_pos_bound (w * h) 1024 ltac:(lia)) as Hmb.
  assert (Hq : 0 <= w * h / 1024) by (apply Z.div_pos; lia).
  set (full := Z.to_nat (w * h / 1024)).
  set (rem := Z.to_nat ((w * h) mod 1024)).
  assert (Hsplit : Z.to_nat (w * h) = (chunk * full + rem)%nat) by (subst chunk full rem; lia).
  assert (Hrem : (rem <= chunk)%nat) by (subst chunk rem; lia).
  set (tail := if (w * h) mod 1024 =? 0 then []
               else [firstn (Z.to_nat ((w * h) mod 1024 * 2)) buf]).
  exists (ew ++ [Hw.PinSet (cs self) 0; Hw.PinSet (dc self) 1]
             ++ map Hw.SpiWrite (repeat buf full ++ tail)
             ++ [Hw.PinSet (cs self) 1]),
         (repeat buf full ++ tail).
  destruct (data_burst_wire self Hwired (repeat buf full ++ tail)) as (Hburst & Hlvl).
  split; [| split; [| split]].
  - eapply emits_bind; [exact Hew |].
    eapply (emits_bind _ _ [_]); [apply emits_pin |].
    eapply (emits_bind _ _ [_]); [apply emits_pin |].
    rewrite map_app, <- app_assoc.
    eapply emits_bind; [rewrite <- repeat_write_map; apply emits_repeat, emits_spi |].
    eapply emits_bind; [| apply emits_pin].
    subst tail. destruct ((w * h) mod 1024 =? 0); [apply emits_ret | apply emits_spi].
  - intros sel dcl. rewrite (receive_app self), Hpw, Hburst. reflexivity.
  - rewrite concat_app.
    unfold DisplaySpec.pixel_bytes. fold hi. fold lo.
    rewrite Hsplit, concat_repeat_add, <- concat_repeat_mul. fold buf.
    f_equal. subst tail.
    destruct (Z.eqb_spec ((w * h) mod 1024) 0) as [E | E].
    + subst rem. rewrite E. reflexivity.
    + cbn [List.concat]. rewrite app_nil_r.
      replace (Z.to_nat ((w * h) mod 1024 * 2)) with (2 * rem)%nat by (subst rem; lia).
      subst buf. apply firstn_pairs. exact Hrem.
  - intros sel. rewrite level_after_app. apply Hlvl.
Qed.

End WireOps.

(** X4. [fill_rect] on the wire. For a driver whose chip-select and D/C
    pins differ, whatever levels the two lines have before the call, a
    request with a non-empty visible part reaches the panel as the command
    CASET with the column range of the clipped rectangle, the command
    PASET with its row range, the command RAMWR, and then only data
    packets whose bytes, put together, are one colour value per pixel of
    the clipped rectangle; no write happens while the panel is
    deselected, and chip-select is high again when the call returns. *)
Theorem fill_rect_wire_protocol :
  forall (self : Ili9486.ILI9486) (x y w h color565 sel dcl : Z) (world : Hw.World),
    Ili9486.cs self <> Ili9486.dc self ->
    let cx := DisplaySpec.clip_origin x in
    let cy := DisplaySpec.clip_origin y in
    let cw := DisplaySpec.clip_size x w (Ili9486.width self) in
    let ch := DisplaySpec.clip_size y h (Ili9486.height self) in
    0 < cw -> 0 < ch ->
    exists evs ds,
      Ili9486.fill_rect self x y w h color565 world = (Py.Ok tt, Hw.extend evs world)
      /\ PanelSpec.receive (Ili9486.cs self) (Ili9486.dc self) sel dcl evs
         = [ PanelSpec.Command [0x2A];
             PanelSpec.Data (DisplaySpec.be16 (cx + Ili9486.x_offset self)
                             ++ DisplaySpec.be16 (cx + cw - 1 + Ili9486.x_offset self));
             PanelSpec.Command [0x2B];
             PanelSpec.Data (DisplaySpec.be16 (cy + Ili9486.y_offset self)
                             ++ DisplaySpec.be16 (cy + ch - 1 + Ili9486.y_offset self));
             PanelSpec.Command [0x2C] ]
           ++ map PanelSpec.Data ds
      /\ List.concat ds = DisplaySpec.pixel_bytes color565 (Z.to_nat (cw * ch))
      /\ PanelSpec.level_after (Ili9486.cs self) sel evs = 1.
Proof.
  intros self x y w h color565 sel dcl world Hwired cx cy cw ch Hcw Hch.
  destruct (fill_rect_stream_wire self cx cy cw ch color565 Hwired Hcw Hch)
    as (evs & ds & Hevs & Hrecv & Hbytes & Hlvl).
  exists evs, ds.
  split; [| split; [| split]].
  - rewrite fill_rect_clip. cbv zeta. fold cw ch cx cy.
    destruct (Z.leb_spec cw 0); [lia |]. destruct (Z.leb_spec ch 0); [lia |].
    apply Hevs.
  - rewrite Hrecv. reflexivity.
  - exact Hbytes.
  - apply Hlvl.
Qed.

(** The application's panel (chip-select 17, D/C 20), both lines high
    before the call: a 10 x 1 request at x = -3 arrives as the window of
    columns 0..6 of row 0 and seven red pixels of data. *)
Lemma fill_rect_wire_protocol_witness :
  exists evs ds,
    Ili9486.fill_rect DisplaySpec.lcd (-3) 0 10 1 0xF800 DisplaySpec.idle_world
    = (Py.Ok tt, Hw.extend evs DisplaySpec.idle_world)
    /\ PanelSpec.receive 17 20 1 1 evs
       = [ PanelSpec.Command [0x2A]; PanelSpec.Data [0; 0; 0; 6];
           PanelSpec.Command [0x2B]; PanelSpec.Data [0; 0; 0; 0];
           PanelSpec.Command [0x2C] ] ++ map PanelSpec.Data ds
    /\ List.concat ds = [0xF8; 0; 0xF8; 0; 0xF8; 0; 0xF8; 0; 0xF8; 0; 0xF8; 0; 0xF8; 0].
Proof.
  destruct (fill_rect_wire_protocol DisplaySpec.lcd (-3) 0 10 1 0xF800 1 1
              DisplaySpec.idle_world ltac:(discriminate) eq_refl eq_refl)
    as (evs & ds & Hrun & Hrecv & Hbytes & _).
  exists evs, ds. split; [exact Hrun |]. split; [exact Hrecv | exact Hbytes].
Defined.

(** X5. [fill] paints the whole panel: on a panel of positive size, wired
    with distinct chip-select and D/C pins, it addresses the window
    (0, 0) - (width - 1, height - 1) and delivers width * height colour
    values as data. *)
Theorem fill_paints_whole_panel :
  forall (self : Ili9486.ILI9486) (color565 sel dcl : Z) (world : Hw.World),
    Ili9486.cs self <> Ili9486.dc self ->
    0 < Ili9486.width self -> 0 < Ili9486.height self ->
    exists evs ds,
      Ili9486.fill self color565 world = (Py.Ok tt, Hw.extend evs world)
      /\ PanelSpec.receive (Ili9486.cs self) (Ili9486.dc self) sel dcl evs
         = PanelSpec.window_packets self 0 0 (Ili9486.width self - 1)
                                    (Ili9486.height self - 1)
           ++ map PanelSpec.Data ds
      /\ List.concat ds
         = DisplaySpec.pixel_bytes color565
             (Z.to_nat (Ili9486.width self * Ili9486.height self)).
Proof.
  intros self color565 sel dcl world Hwired HW HH.
  destruct (fill_rect_stream_wire self 0 0 (Ili9486.width self) (Ili9486.height self)
              color565 Hwired HW HH)
    as (evs & ds & Hevs & Hrecv & Hbytes & _).
  exists evs, ds. split; [| split; [| exact Hbytes]].
  - unfold Ili9486.fill. rewrite fill_rect_clip. cbv zeta.
    unfold DisplaySpec.clip_size, DisplaySpec.clip_origin.
    rewrite !Z.add_0_l, !Z.min_id. change (Z.max 0 0) with 0. rewrite !Z.sub_0_r.
    destruct (Z.leb_spec (Ili9486.width self) 0); [lia |].
    destruct (Z.leb_spec (Ili9486.height self) 0); [lia |].
    apply Hevs.
  - rewrite Hrecv. rewrite !Z.add_0_l. reflexivity.
Qed.

(** A panel of 4 x 2 pixels cleared to red: eight pixels. *)
Lemma fill_paints_whole_panel_witness :
  exists evs ds,
    Ili9486.fill (Ili9486.mkILI9486 17 20 21 4 2 0 0 0x48) 0xF800 DisplaySpec.idle_world
    = (Py.Ok tt, Hw.extend evs DisplaySpec.idle_world)
    /\ PanelSpec.receive 17 20 1 1 evs
       = [ PanelSpec.Command [0x2A]; PanelSpec.Data [0; 0; 0; 3];
           PanelSpec.Command [0x2B]; PanelSpec.Data [0; 0; 0; 1];
           PanelSpec.Command [0x2C] ] ++ map PanelSpec.Data ds
    /\ List.concat ds
       = [0xF8; 0; 0xF8; 0; 0xF8; 0; 0xF8; 0; 0xF8; 0; 0xF8; 0; 0xF8; 0; 0xF8; 0].
Proof.
  destruct (fill_paints_whole_panel (Ili9486.mkILI9486 17 20 21 4 2 0 0 0x48) 0xF800 1 1
              DisplaySpec.idle_world ltac:(discriminate) eq_refl eq_refl)
    as (evs & ds & Hrun & Hrecv & Hbytes).
  exists evs, ds. split; [exact Hrun |]. split; [exact Hrecv | exact Hbytes].
Defined.

Section PixelFacts.

Import Ili9486.

Lemma byte_low (v : Z) : byte (Z.land v 255) = Z.land v 255.
Proof.
  unfold byte. rewrite <- Z.land_assoc. reflexivity.
Qed.

End PixelFacts.

(** X6. [draw_pixel] on the wire: for a point of the panel, the one-pixel
    window (x, y) - (x, y) is addressed and the colour follows as one data
    packet of two bytes, high byte first; chip-select is high when the
    call returns. *)
Theorem draw_pixel_wire_protocol :
  forall (self : Ili9486.ILI9486) (x y color565 sel dcl : Z) (world : Hw.World),
    Ili9486.cs self <> Ili9486.dc self ->
    0 <= x < Ili9486.width self -> 0 <= y < Ili9486.height self ->
    exists evs,
      Ili9486.draw_pixel self x y color565 world = (Py.Ok tt, Hw.extend evs world)
      /\ PanelSpec.receive (Ili9486.cs self) (Ili9486.dc self) sel dcl evs
         = PanelSpec.window_packets self x y x y
           ++ [PanelSpec.Data [Z.land (Z.shiftr color565 8) 255; Z.land color565 255]]
      /\ PanelSpec.level_after (Ili9486.cs self) sel evs = 1.
Proof.
  intros self x y color565 sel dcl world Hwired Hx Hy.
  destruct (set_window_wire self Hwired x y x y) as (ew & Hew & Hpw & Hlw & Hdw).
  destruct (write_data_wire self Hwired
              [Ili9486.byte (Z.land (Z.shiftr color565 8) 255);
               Ili9486.byte (Z.land color565 255)])
    as (ed & Hed & Hpd & Hld & Hdd).
  destruct (wire_seq self _ _ _ _ _ _ _ _ Hew Hpw Hed Hpd Hld Hdd)
    as (Hrun & Hrecv & Hlvl & _).
  exists (ew ++ ed). split; [| split].
  - unfold Ili9486.draw_pixel.
    destruct (Z.leb_spec 0 x); [| lia]. destruct (Z.ltb_spec x (Ili9486.width self)); [| lia].
    destruct (Z.leb_spec 0 y); [| lia]. destruct (Z.ltb_spec y (Ili9486.height self)); [| lia].
    cbn [andb negb]. apply Hrun.
  - rewrite Hrecv, !byte_low. reflexivity.
  - apply Hlvl.
Qed.

(** The last pixel of the application's panel, in red. *)
Lemma draw_pixel_wire_protocol_witness :
  exists evs,
    Ili9486.draw_pixel DisplaySpec.lcd 479 319 0xF800 DisplaySpec.idle_world
    = (Py.Ok tt, Hw.extend evs DisplaySpec.idle_world)
    /\ PanelSpec.receive 17 20 1 1 evs
       = [ PanelSpec.Command [0x2A]; PanelSpec.Data [1; 223; 1; 223];
           PanelSpec.Command [0x2B]; PanelSpec.Data [1; 63; 1; 63];
           PanelSpec.Command [0x2C]; PanelSpec.Data [0xF8; 0] ].
Proof.
  destruct (draw_pixel_wire_protocol DisplaySpec.lcd 479 319 0xF800 1 1
              DisplaySpec.idle_world ltac:(discriminate))
    as (evs & Hrun & Hrecv & _).
  - cbn. lia.
  - cbn. lia.
  - exists evs. split; [exact Hrun | exact Hrecv].
Defined.

Section ChunkFacts.

Import Ili9486.

Lemma swap_pairs_swapped (n : nat) :
  forall l, List.length l = (2 * n)%nat -> swap_pairs l = Py.Ok (PanelSpec.swapped l).
Proof.
  induction n as [| n IH]; intros l Hl.
  - destruct l; [reflexivity | simpl in Hl; lia].
  - destruct l as [| a [| b rest]]; simpl in Hl; try lia.
    cbn [swap_pairs PanelSpec.swapped]. rewrite (IH rest) by lia. reflexivity.
Qed.

Lemma swap_pairs_odd (n : nat) :
  forall l, List.length l = (2 * n + 1)%nat ->
    swap_pairs l = Py.Raise (Py.IndexError "index out of range").
Proof.
  induction n as [| n IH]; intros l Hl.
  - destruct l as [| a [| b rest]]; simpl in Hl; try lia. reflexivity.
  - destruct l as [| a [| b rest]]; simpl in Hl; try lia.
    cbn [swap_pairs]. rewrite (IH rest) by lia. reflexivity.
Qed.

Lemma swapped_app (n : nat) :
  forall a b, List.length a = (2 * n)%nat ->
    PanelSpec.swapped (a ++ b) = PanelSpec.swapped a ++ PanelSpec.swapped b.
Proof.
  induction n as [| n IH]; intros a b Ha.
  - destruct a; [reflexivity | simpl in Ha; lia].
  - destruct a as [| x [| y rest]]; simpl in Ha; try lia.
    cbn [app PanelSpec.swapped]. rewrite (IH rest) by lia. reflexivity.
Qed.

Lemma swapped_involutive (n : nat) :
  forall l, List.length l = (2 * n)%nat ->
    PanelSpec.swapped (PanelSpec.swapped l) = l.
Proof.
  induction n as [| n IH]; intros l Hl.
  - destruct l; [reflexivity | simpl in Hl; lia].
  - destruct l as [| a [| b rest]]; simpl in Hl; try lia.
    cbn [PanelSpec.swapped]. rewrite (IH rest) by lia. reflexivity.
Qed.

(** The chunks of a buffer of whole pixels: every chunk is written
    with its byte pairs exchanged; the chunking itself is invisible. *)
Lemma blit_chunks_swaps (fuel : nat) :
  forall mv k, List.length mv = (2 * k)%nat -> (List.length mv <= fuel)%nat ->
    exists ds,
      DisplaySpec.emits (blit_chunks fuel mv) (map Hw.SpiWrite ds)
      /\ List.concat ds = PanelSpec.swapped mv.
Proof.
  induction fuel as [| fuel IH]; intros mv k Hk Hfuel.
  - destruct mv; [| simpl in Hfuel; lia].
    exists []. split; [apply emits_ret | reflexivity].
  - cbn [blit_chunks]. destruct mv as [| b mv'] eqn:Hmv.
    + exists []. split; [apply emits_ret | reflexivity].
    + rewrite <- Hmv in *.
      assert (Hlen : (0 < List.length mv)%nat) by (rewrite Hmv; simpl; lia).
      assert (Hfirst : List.length (firstn 2048 mv) = (2 * Nat.min 1024 k)%nat).
      { rewrite length_firstn. lia. }
      rewrite (swap_pairs_swapped _ _ Hfirst).
      destruct (IH (skipn 2048 mv) (k - 1024)%nat) as (ds & Hds & Hcat).
      { rewrite length_skipn. lia. }
      { rewrite length_skipn. lia. }
      exists (PanelSpec.swapped (firstn 2048 mv) :: ds). split.
      * apply (emits_bind _ _ [_]); [apply emits_spi | exact Hds].
      * cbn [List.concat]. rewrite Hcat.
        rewrite <- (swapped_app _ _ _ Hfirst), firstn_skipn. reflexivity.
Qed.

Lemma firstn_add_skipn {A : Type} (a b : nat) (l : list A) :
  firstn (a + b) l = firstn a l ++ firstn b (skipn a l).
Proof.
  revert l. induction a as [| a IH]; intros l; [reflexivity |].
  destruct l as [| x l]; [destruct b; reflexivity |].
  cbn [Nat.add firstn skipn app]. rewrite IH. reflexivity.
Qed.

(** A buffer that ends in half a pixel: the whole chunks before the
    last one are written, then the copy loop runs off the end. *)
Lemma blit_chunks_odd (fuel : nat) :
  forall mv k, List.length mv = (2 * k + 1)%nat -> (List.length mv <= fuel)%nat ->
    exists ds,
      (forall w, blit_chunks fuel mv w
                 = (Py.Raise (Py.IndexError "index out of range"),
                    Hw.extend (map Hw.SpiWrite ds) w))
      /\ List.concat ds
         = PanelSpec.swapped (firstn (2048 * (List.length mv / 2048)) mv).
Proof.
  induction fuel as [| fuel IH]; intros mv k Hk Hfuel; [lia |].
  cbn [blit_chunks]. destruct mv as [| b mv'] eqn:Hmv; [simpl in Hk; lia |].
  rewrite <- Hmv in *.
  destruct (Nat.lt_ge_cases (List.length mv) 2048) as [Hshort | Hlong].
  - rewrite firstn_all2 by lia. rewrite (swap_pairs_odd _ _ Hk).
    exists []. split.
    + intros w. unfold raise. rewrite extend_nil. reflexivity.
    + rewrite Nat.div_small by exact Hshort. reflexivity.
  - assert (Hfirst : List.length (firstn 2048 mv) = (2 * 1024)%nat).
    { rewrite length_firstn. lia. }
    rewrite (swap_pairs_swapped _ _ Hfirst).
    destruct (IH (skipn 2048 mv) (k - 1024)%nat) as (ds & Hds & Hcat).
    { rewrite length_skipn. lia. }
    { rewrite length_skipn. lia. }
    exists (PanelSpec.swapped (firstn 2048 mv) :: ds). split.
    + intros w. unfold bind, spi_write. rewrite Hds.
      unfold Hw.emit, Hw.extend. cbn [Hw.trace Hw.miso Hw.xfers Hw.pin_in map].
      rewrite <- app_assoc. reflexivity.
    + cbn [List.concat]. rewrite Hcat, length_skipn.
      rewrite <- (swapped_app _ _ _ Hfirst), <- firstn_add_skipn.
      f_equal. f_equal.
      replace (List.length mv) with ((List.length mv - 2048) + 1 * 2048)%nat at 2 by lia.
      rewrite Nat.div_add by lia. lia.
Qed.

End ChunkFacts.

(** X7. [blit_buffer] on the wire. For a non-empty target that lies
    entirely on the panel, the window of the target is addressed and the
    buffer follows as data: as it is when the source is declared
    big-endian, and with the two bytes of every pixel exchanged when it is
    little-endian and holds whole pixels, whatever the number of
    2048-byte chunks it is cut into. Exchanging twice gives the buffer
    back. The buffer is sent whole: its length is not compared with the
    size of the target. *)
Theorem blit_buffer_wire_protocol :
  forall (self : Ili9486.ILI9486) (buf : list Z) (x y w h sel dcl : Z) (le : bool)
         (world : Hw.World),
    Ili9486.cs self <> Ili9486.dc self ->
    DisplaySpec.on_panel self x y w h ->
    le = false \/ Nat.Even (List.length buf) ->
    exists evs ds,
      Ili9486.blit_buffer self buf x y w h le world = (Py.Ok tt, Hw.extend evs world)
      /\ PanelSpec.receive (Ili9486.cs self) (Ili9486.dc self) sel dcl evs
         = PanelSpec.window_packets self x y (x + w - 1) (y + h - 1)
           ++ map PanelSpec.Data ds
      /\ List.concat ds = (if le then PanelSpec.swapped buf else buf)
      /\ (Nat.Even (List.length buf) -> PanelSpec.swapped (PanelSpec.swapped buf) = buf)
      /\ PanelSpec.level_after (Ili9486.cs self) sel evs = 1.
Proof.
  intros self buf x y w h sel dcl le world Hwired Hon Hbuf.
  destruct Hon as (Hw0 & Hh0 & Hx & Hy & Hxw & Hyh).
  destruct (set_window_wire self Hwired x y (x + w - 1) (y + h - 1))
    as (ew & Hew & Hpw & Hlw & _).
  assert (Hds : exists ds,
    DisplaySpec.emits
      (if negb le then Ili9486.bind (Ili9486.spi_write buf)
                         (fun _ => Ili9486.pin_value (Ili9486.cs self) 1)
       else Ili9486.bind (Ili9486.blit_chunks (S (List.length buf)) buf)
                         (fun _ => Ili9486.pin_value (Ili9486.cs self) 1))
      (map Hw.SpiWrite ds ++ [Hw.PinSet (Ili9486.cs self) 1])
    /\ List.concat ds = (if le then PanelSpec.swapped buf else buf)).
  { destruct le; cbn [negb].
    - destruct Hbuf as [Hbuf | [k Hk]]; [discriminate |].
      destruct (blit_chunks_swaps (S (List.length buf)) buf k Hk ltac:(lia))
        as (ds & Hds & Hcat).
      exists ds. split; [| exact Hcat].
      apply emits_bind; [exact Hds | apply emits_pin].
    - exists [buf]. split; [| apply app_nil_r].
      apply (emits_bind _ _ [_]); [apply emits_spi | apply emits_pin]. }
  destruct Hds as (ds & Hds & Hcat).
  destruct (data_burst_wire self Hwired ds) as (Hburst & Hlvl).
  exists (ew ++ [Hw.PinSet (Ili9486.cs self) 0; Hw.PinSet (Ili9486.dc self) 1]
             ++ map Hw.SpiWrite ds ++ [Hw.PinSet (Ili9486.cs self) 1]), ds.
  split; [| split; [| split; [exact Hcat | split]]].
  - unfold Ili9486.blit_buffer. rewrite !Z.gtb_ltb.
    destruct (Z.leb_spec w 0); [lia |]. destruct (Z.leb_spec h 0); [lia |].
    destruct (Z.ltb_spec x 0); [lia |]. destruct (Z.ltb_spec y 0); [lia |].
    destruct (Z.ltb_spec (Ili9486.width self) (x + w)); [lia |].
    destruct (Z.ltb_spec (Ili9486.height self) (y + h)); [lia |].
    cbn [orb].
    apply emits_bind; [exact Hew |].
    apply (emits_bind _ _ [_]); [apply emits_pin |].
    apply (emits_bind _ _ [_]); [apply emits_pin |].
    exact Hds.
  - rewrite (receive_app self), Hpw, Hburst. reflexivity.
  - intros [k Hk]. apply (swapped_involutive k). exact Hk.
  - rewrite level_after_app. apply Hlvl.
Qed.

(** Two little-endian pixels, 0x1234 and 0xABCD, blitted to the top left
    corner of the application's panel arrive high byte first. *)
Lemma blit_buffer_wire_protocol_witness :
  exists evs ds,
    Ili9486.blit_buffer DisplaySpec.lcd [0x34; 0x12; 0xCD; 0xAB] 0 0 2 1 true
      DisplaySpec.idle_world
    = (Py.Ok tt, Hw.extend evs DisplaySpec.idle_world)
    /\ PanelSpec.receive 17 20 1 1 evs
       = [ PanelSpec.Command [0x2A]; PanelSpec.Data [0; 0; 0; 1];
           PanelSpec.Command [0x2B]; PanelSpec.Data [0; 0; 0; 0];
           PanelSpec.Command [0x2C] ] ++ map PanelSpec.Data ds
    /\ List.concat ds = [0x12; 0x34; 0xAB; 0xCD].
Proof.
  destruct (blit_buffer_wire_protocol DisplaySpec.lcd [0x34; 0x12; 0xCD; 0xAB]
              0 0 2 1 1 1 true DisplaySpec.idle_world ltac:(discriminate))
    as (evs & ds & Hrun & Hrecv & Hbytes & _).
  - unfold DisplaySpec.on_panel. cbn. lia.
  - right. exists 2%nat. reflexivity.
  - exists evs, ds. split; [exact Hrun |]. split; [exact Hrecv | exact Hbytes].
Defined.

(** X8. A little-endian [blit_buffer] of a buffer that ends in half a
    pixel (odd length) onto a target on the panel raises IndexError, after
    the window has been addressed and the whole 2048-byte chunks before
    the last one have been delivered, and it leaves the panel selected:
    chip-select is still low when the exception leaves the driver. *)
Theorem blit_odd_buffer_raises_with_panel_selected :
  forall (self : Ili9486.ILI9486) (buf : list Z) (x y w h sel dcl : Z)
         (world : Hw.World),
    Ili9486.cs self <> Ili9486.dc self ->
    DisplaySpec.on_panel self x y w h ->
    Nat.Odd (List.length buf) ->
    exists evs ds,
      Ili9486.blit_buffer self buf x y w h true world
      = (Py.Raise (Py.IndexError "index out of range"), Hw.extend evs world)
      /\ PanelSpec.receive (Ili9486.cs self) (Ili9486.dc self) sel dcl evs
         = PanelSpec.window_packets self x y (x + w - 1) (y + h - 1)
           ++ map PanelSpec.Data ds
      /\ List.concat ds
         = PanelSpec.swapped (firstn (2048 * (List.length buf / 2048)) buf)
      /\ PanelSpec.level_after (Ili9486.cs self) sel evs = 0.
Proof.
  intros self buf x y w h sel dcl world Hwired Hon [k Hk].
  destruct Hon as (Hw0 & Hh0 & Hx & Hy & Hxw & Hyh).
  destruct (set_window_wire self Hwired x y (x + w - 1) (y + h - 1))
    as (ew & Hew & Hpw & Hlw & Hdw).
  destruct (blit_chunks_odd (S (List.length buf)) buf k Hk ltac:(lia))
    as (ds & Hds & Hcat).
  exists (ew ++ [Hw.PinSet (Ili9486.cs self) 0; Hw.PinSet (Ili9486.dc self) 1]
             ++ map Hw.SpiWrite ds), ds.
  assert (Hcd : (Ili9486.cs self =? Ili9486.dc self) = false)
    by (apply Z.eqb_neq; exact Hwired).
  assert (Hdc : (Ili9486.dc self =? Ili9486.cs self) = false)
    by (apply Z.eqb_neq; intros E; apply Hwired; symmetry; exact E).
  split; [| split; [| split; [exact Hcat |]]].
  - unfold Ili9486.blit_buffer. rewrite !Z.gtb_ltb.
    destruct (Z.leb_spec w 0); [lia |]. destruct (Z.leb_spec h 0); [lia |].
    destruct (Z.ltb_spec x 0); [lia |]. destruct (Z.ltb_spec y 0); [lia |].
    destruct (Z.ltb_spec (Ili9486.width self) (x + w)); [lia |].
    destruct (Z.ltb_spec (Ili9486.height self) (y + h)); [lia |].
    cbn [orb negb].
    unfold Ili9486.bind at 1. rewrite Hew.
    unfold Ili9486.bind at 1, Ili9486.pin_value at 1.
    unfold Ili9486.bind at 1, Ili9486.pin_value at 1.
    unfold Ili9486.bind. rewrite Hds.
    unfold Hw.emit, Hw.extend. cbn [Hw.trace Hw.miso Hw.xfers Hw.pin_in].
    rewrite <- !app_assoc. reflexivity.
  - rewrite (receive_app self), Hpw by exact Hwired.
    cbn [app PanelSpec.receive]. rewrite ?Z.eqb_refl, ?Hcd, ?Hdc.
    rewrite <- (app_nil_r (map Hw.SpiWrite ds)), (receive_data_run self).
    cbn [PanelSpec.receive]. rewrite app_nil_r. reflexivity.
  - rewrite level_after_app. cbn [app PanelSpec.level_after].
    rewrite ?Z.eqb_refl, ?Hdc.
    rewrite <- (app_nil_r (map Hw.SpiWrite ds)), level_after_writes.
    reflexivity.
Qed.

(** Three bytes for a 1 x 1 target on the application's panel. *)
Lemma blit_odd_buffer_raises_with_panel_selected_witness :
  exists evs,
    Ili9486.blit_buffer DisplaySpec.lcd [1; 2; 3] 0 0 1 1 true DisplaySpec.idle_world
    = (Py.Raise (Py.IndexError "index out of range"),
       Hw.extend evs DisplaySpec.idle_world)
    /\ PanelSpec.level_after 17 1 evs = 0.
Proof.
  destruct (blit_odd_buffer_raises_with_panel_selected DisplaySpec.lcd [1; 2; 3]
              0 0 1 1 1 1 DisplaySpec.idle_world ltac:(discriminate))
    as (evs & ds & Hrun & _ & _ & Hlvl).
  - unfold DisplaySpec.on_panel. cbn. lia.
  - exists 1%nat. reflexivity.
  - exists evs. split; [exact Hrun | exact Hlvl].
Defined.

Section InitFacts.

Import Ili9486.

Lemma emits_sleep (ms : Z) : DisplaySpec.emits (sleep_ms ms) [Hw.SleepMs ms].
Proof. intros w. reflexivity. Qed.

(** The BGR bit is folded into the low byte of MADCTL; the other seven
    bits of that byte are the caller's. *)
Lemma madctl_bits (m : Z) (bgr : bool) :
  let r := Z.land (if bgr then Z.lor m 0x08 else Z.land m (Z.lnot 0x08)) 0xFF in
  Z.testbit r 3 = bgr
  /\ (forall i, 0 <= i < 8 -> i <> 3 -> Z.testbit r i = Z.testbit m i)
  /\ 0 <= r < 256.
Proof.
  cbv zeta. split; [| split].
  - rewrite Z.land_spec. destruct bgr.
    + rewrite Z.lor_spec. change (Z.testbit 8 3) with true.
      rewrite orb_true_r. reflexivity.
    + rewrite Z.land_spec. change (Z.testbit (Z.lnot 8) 3) with false.
      rewrite andb_false_r. reflexivity.
  - intros i Hi Hne. rewrite Z.land_spec.
    change 255 with (Z.ones 8). rewrite Z.ones_spec_low by lia. rewrite andb_true_r.
    assert (H8 : Z.testbit 8 i = false).
    { change 8 with (2 ^ 3). apply Z.pow2_bits_false. lia. }
    destruct bgr.
    + rewrite Z.lor_spec, H8. apply orb_false_r.
    + rewrite Z.land_spec, Z.lnot_spec by lia. rewrite H8. apply andb_true_r.
  - change 255 with (Z.ones 8). rewrite Z.land_ones by lia.
    apply Z.mod_pos_bound. reflexivity.
Qed.

(** The hardware reset pulse puts nothing on the bus. *)
Lemma reset_wire (self : ILI9486) :
  exists evs,
    DisplaySpec.emits (reset self) evs
    /\ (forall sel dcl, PanelSpec.receive (cs self) (dc self) sel dcl evs = []).
Proof.
  unfold reset. eexists. split.
  - repeat (eapply (emits_bind _ _ [_]); [first [apply emits_pin | apply emits_sleep] |]).
    apply emits_sleep.
  - intros sel dcl. reflexivity.
Qed.

(** The initialisation sequence as the panel receives it. *)
Lemma init_display_wire (self : ILI9486) :
  cs self <> dc self ->
  exists evs,
    DisplaySpec.emits (init_display self) evs
    /\ (forall sel dcl,
          PanelSpec.receive (cs self) (dc self) sel dcl evs
          = [ PanelSpec.Command [0x01]; PanelSpec.Command [0x11];
              PanelSpec.Command [0x3A]; PanelSpec.Data [0x55];
              PanelSpec.Command [0x36]; PanelSpec.Data [byte (madctl self)];
              PanelSpec.Command [0x29] ])
    /\ (forall sel, PanelSpec.level_after (cs self) sel evs = 1).
Proof.
  intros Hwired.
  assert (Hcd : (cs self =? dc self) = false) by (apply Z.eqb_neq; exact Hwired).
  assert (Hdc : (dc self =? cs self) = false)
    by (apply Z.eqb_neq; intros E; apply Hwired; symmetry; exact E).
  unfold init_display. eexists. split; [| split].
  - repeat (eapply emits_bind;
            [first [apply emits_sleep | apply emits_write_cmd | apply emits_write_data] |]).
    apply emits_sleep.
  - intros sel dcl.
    cbn [app PanelSpec.receive]. rewrite ?Z.eqb_refl, ?Hcd, ?Hdc. reflexivity.
  - intros sel.
    cbn [app PanelSpec.level_after]. rewrite ?Z.eqb_refl, ?Hdc. reflexivity.
Qed.

End InitFacts.

(** X9. Constructing the driver. [ILI9486.__init__] returns normally, on
    any pins with chip-select different from D/C. The MADCTL value it
    keeps is one byte whose bit 3 (BGR colour order) is set exactly when
    [bgr] is true and whose seven other bits are those of the [madctl]
    argument. After the hardware reset pulse the panel receives exactly
    the commands SWRESET, SLPOUT, COLMOD with the data byte 0x55 (16 bits
    per pixel), MADCTL with that byte as data, and DISPON; it is left
    deselected. *)
Theorem ili9486_init_configures_panel :
  forall (cs dc rst width height madctl x_offset y_offset sel dcl : Z) (bgr : bool)
         (world : Hw.World),
    cs <> dc ->
    exists self evs,
      Ili9486.new cs dc rst width height madctl bgr x_offset y_offset world
      = (Py.Ok self, Hw.extend evs world)
      /\ (Ili9486.width self = width /\ Ili9486.height self = height
          /\ Ili9486.x_offset self = x_offset /\ Ili9486.y_offset self = y_offset)
      /\ Z.testbit (Ili9486.madctl self) 3 = bgr
      /\ (forall i, 0 <= i < 8 -> i <> 3 ->
            Z.testbit (Ili9486.madctl self) i = Z.testbit madctl i)
      /\ 0 <= Ili9486.madctl self < 256
      /\ PanelSpec.receive cs dc sel dcl evs
         = [ PanelSpec.Command [0x01]; PanelSpec.Command [0x11];
             PanelSpec.Command [0x3A]; PanelSpec.Data [0x55];
             PanelSpec.Command [0x36]; PanelSpec.Data [Ili9486.madctl self];
             PanelSpec.Command [0x29] ]
      /\ PanelSpec.level_after cs sel evs = 1.
Proof.
  intros cs dc rst width height madctl x_offset y_offset sel dcl bgr world Hwired.
  destruct (madctl_bits madctl bgr) as (Hbit & Hbits & Hrange).
  cbv zeta in Hbit, Hbits, Hrange.
  set (m := Z.land (if bgr then Z.lor madctl 8 else Z.land madctl (Z.lnot 8)) 255) in *.
  set (self := Ili9486.mkILI9486 cs dc rst width height x_offset y_offset m).
  destruct (reset_wire self) as (er & Her & Hpr).
  destruct (init_display_wire self Hwired) as (ei & Hei & Hpi & Hli).
  exists self, ([Hw.PinSet cs 1; Hw.PinSet dc 0; Hw.PinSet rst 1] ++ er ++ ei).
  split; [| split; [| split; [| split; [| split; [| split]]]]].
  - unfold Ili9486.new. fold m. fold self.
    assert (Hall : DisplaySpec.emits
              (Ili9486.bind (Ili9486.pin_value cs 1) (fun _ =>
               Ili9486.bind (Ili9486.pin_value dc 0) (fun _ =>
               Ili9486.bind (Ili9486.pin_value rst 1) (fun _ =>
               Ili9486.bind (Ili9486.reset self) (fun _ =>
               Ili9486.init_display self)))))
              ([Hw.PinSet cs 1; Hw.PinSet dc 0; Hw.PinSet rst 1] ++ er ++ ei)).
    { apply (emits_bind _ _ [_]); [apply emits_pin |].
      apply (emits_bind _ _ [_]); [apply emits_pin |].
      apply (emits_bind _ _ [_]); [apply emits_pin |].
      apply emits_bind; assumption. }
    specialize (Hall world). revert Hall.
    unfold Ili9486.bind, Ili9486.ret.
    destruct (Ili9486.pin_value cs 1 world) as [[[] | e1] w1]; [| discriminate].
    destruct (Ili9486.pin_value dc 0 w1) as [[[] | e2] w2]; [| discriminate].
    destruct (Ili9486.pin_value rst 1 w2) as [[[] | e3] w3]; [| discriminate].
    destruct (Ili9486.reset self w3) as [[[] | e4] w4]; [| discriminate].
    destruct (Ili9486.init_display self w4) as [[[] | e5] w5]; [| discriminate].
    intros Hall. injection Hall as ->. reflexivity.
  - repeat split.
  - exact Hbit.
  - exact Hbits.
  - exact Hrange.
  - rewrite (receive_app self), (receive_app self) by exact Hwired.
    rewrite Hpr, Hpi. cbn [app PanelSpec.receive].
    unfold Ili9486.byte. cbn [Ili9486.madctl self].
    change 255 with (Z.ones 8). rewrite Z.land_ones by lia.
    rewrite Z.mod_small by exact Hrange. reflexivity.
  - rewrite !level_after_app. apply Hli.
Qed.

(** The driver as the application constructs it: MADCTL 0x48 with BGR
    requested is sent as 0x48 (bit 3 was already set). *)
Lemma ili9486_init_configures_panel_witness :
  exists self evs,
    Ili9486.new 17 20 21 480 320 0x48 true 0 0 DisplaySpec.idle_world
    = (Py.Ok self, Hw.extend evs DisplaySpec.idle_world)
    /\ Z.testbit (Ili9486.madctl self) 3 = true
    /\ PanelSpec.receive 17 20 1 1 evs
       = [ PanelSpec.Command [0x01]; PanelSpec.Command [0x11];
           PanelSpec.Command [0x3A]; PanelSpec.Data [0x55];
           PanelSpec.Command [0x36]; PanelSpec.Data [Ili9486.madctl self];
           PanelSpec.Command [0x29] ].
Proof.
  destruct (ili9486_init_configures_panel 17 20 21 480 320 0x48 0 0 1 1 true
              DisplaySpec.idle_world ltac:(discriminate))
    as (self & evs & Hrun & _ & Hbit & _ & _ & Hrecv & _).
  exists self, evs. split; [exact Hrun |]. split; [exact Hbit | exact Hrecv].
Defined.

(* ===================================================================== *)
(** ** Further properties of xpt2046.py *)
(* ===================================================================== *)

(** X10. [get_raw] asked for no samples. When the sample count is zero
    or negative and the touch gate is open (no interrupt line, or the line
    reads touched), the sampling loop does not run and indexing the empty
    sample list raises IndexError; the bus is not used and the driver
    object is unchanged. *)
Theorem get_raw_without_samples_raises :
  forall (self : Xpt2046.XPT2046) (w : Hw.World) (samples delay_us : Z),
    samples <= 0 ->
    Xpt2046.touched self w = true ->
    Xpt2046.get_raw self samples delay_us w
    = (Py.Raise (Py.IndexError "list index out of range"), self, w).
Proof.
  intros self w samples delay_us Hn Htouch. unfold Xpt2046.get_raw.
  rewrite Htouch. rewrite andb_false_r.
  replace (Z.to_nat samples) with 0%nat by lia.
  reflexivity.
Qed.

(** A digitizer polled without interrupt line, zero samples. *)
Lemma get_raw_without_samples_raises_witness :
  fst (fst (Xpt2046.get_raw (Xpt2046.mkXPT2046 15 None (0, 0, 0) (0, 0, 0)) 0 200
              DisplaySpec.idle_world))
  = Py.Raise (Py.IndexError "list index out of range").
Proof.
  rewrite (get_raw_without_samples_raises
             (Xpt2046.mkXPT2046 15 None (0, 0, 0) (0, 0, 0))
             DisplaySpec.idle_world 0 200 ltac:(lia) eq_refl).
  reflexivity.
Defined.

Section RangeFacts.

(** A frame of two bytes carries a 12-bit value. *)
Lemma frame_value_range (r0 r1 r2 : Z) :
  0 <= r1 < 256 -> 0 <= r2 < 256 ->
  0 <= Xpt2046.frame_value (r0, r1, r2) < 4096.
Proof.
  intros H1 H2. unfold Xpt2046.frame_value.
  rewrite Z.shiftr_div_pow2, Z.shiftl_mul_pow2 by lia.
  change (2 ^ 8) with 256. change (2 ^ 4) with 16.
  pose proof (Z.add_lor_land (r1 * 256) r2) as Hadd.
  assert (Hland : 0 <= Z.land (r1 * 256) r2) by (apply Z.land_nonneg; lia).
  assert (Hlor : 0 <= Z.lor (r1 * 256) r2) by (apply Z.lor_nonneg; lia).
  split.
  - apply Z.div_pos; lia.
  - apply Z.div_lt_upper_bound; lia.
Qed.

Lemma samples_from_range (m : nat -> Z * Z * Z) (n off : nat) :
  SampleSpec.byte_frames m ->
  forall start, Forall (fun v => 0 <= v < 4096) (TouchSpec.samples_from m start n off).
Proof.
  intros Hm. induction n as [| n IH]; intros start; simpl; constructor.
  - specialize (Hm (start + off)%nat).
    destruct (m (start + off)%nat) as [[r0 r1] r2]. simpl in Hm.
    apply frame_value_range; tauto.
  - apply IH.
Qed.

(** What [get_raw] answers when the gate is open and at least one
    sample is taken. *)
Lemma get_raw_open_gate (self : Xpt2046.XPT2046) (w : Hw.World) (samples delay_us : Z) :
  1 <= samples ->
  Xpt2046.touched self w = true ->
  let xs := TouchSpec.x_samples w (Z.to_nat samples) in
  let ys := TouchSpec.y_samples w (Z.to_nat samples) in
  exists x y self' w',
    Xpt2046.get_raw self samples delay_us w
    = (Py.Ok (Some (x, y, (PyList.maximum xs - PyList.minimum xs)
                          + (PyList.maximum ys - PyList.minimum ys))), self', w')
    /\ In x xs /\ In y ys /\ xs <> [] /\ ys <> []
    /\ Hw.xfers w' = (Hw.xfers w + 2 * Z.to_nat samples)%nat.
Proof.
  intros Hn Htouch xs ys.
  set (n := Z.to_nat samples) in *.
  assert (Hlx : List.length xs = n) by apply samples_from_length.
  assert (Hly : List.length ys = n) by apply samples_from_length.
  assert (Hpos : (0 < n)%nat) by (subst n; lia).
  assert (Hxne : PyList.sort xs <> []).
  { intro E. pose proof (sort_length xs) as L. rewrite E in L. simpl in L. lia. }
  assert (Hyne : PyList.sort ys <> []).
  { intro E. pose proof (sort_length ys) as L. rewrite E in L. simpl in L. lia. }
  assert (Hxne' : xs <> []) by (intro E; rewrite E in Hlx; simpl in Hlx; lia).
  assert (Hyne' : ys <> []) by (intro E; rewrite E in Hly; simpl in Hly; lia).
  destruct (index_middle _ Hxne) as [Hix [x Hx]].
  destruct (index_middle _ Hyne) as [Hiy [y Hy]].
  assert (Hxfers : forall k self0 xs0 ys0 w0,
            Hw.xfers (snd (Xpt2046.sample_loop k delay_us self0 xs0 ys0 w0))
            = (Hw.xfers w0 + 2 * k)%nat).
  { induction k as [| k IH]; intros self0 xs0 ys0 w0; [simpl; lia |].
    cbn [Xpt2046.sample_loop].
    destruct (read12_spec self0 Xpt2046.CMD_Y w0) as (s1 & w1 & E1 & _ & _ & X1 & _).
    rewrite E1.
    destruct (read12_spec s1 Xpt2046.CMD_X w1) as (s2 & w2 & E2 & _ & _ & X2 & _).
    rewrite E2. rewrite IH. unfold Hw.emit. cbn [Hw.xfers]. rewrite X2, X1. lia. }
  destruct (sample_loop_spec n delay_us self [] [] w) as (self' & w' & Eloop & _).
  exists x, y, self', w'.
  split.
  - unfold Xpt2046.get_raw.
    rewrite Htouch, andb_false_r.
    fold n. rewrite Eloop. simpl app.
    fold (TouchSpec.x_samples w n). fold (TouchSpec.y_samples w n).
    fold xs. fold ys.
    rewrite Hix, Hiy. rewrite Hx, Hy.
    rewrite (sorted_last_is_maximum xs Hxne'), (sorted_first_is_minimum xs Hxne').
    rewrite (sorted_last_is_maximum ys Hyne'), (sorted_first_is_minimum ys Hyne').
    reflexivity.
  - split; [| split; [| split; [exact Hxne' | split; [exact Hyne' |]]]].
    + apply (Permutation_in _ (sort_perm xs)). eapply nth_error_In. exact Hx.
    + apply (Permutation_in _ (sort_perm ys)). eapply nth_error_In. exact Hy.
    + specialize (Hxfers n self [] [] w). rewrite Eloop in Hxfers. exact Hxfers.
Qed.

(** The spread of a list is never negative, and it is zero exactly when
    all elements agree. *)
Lemma spread_zero (l : list Z) (v : Z) :
  In v l ->
  0 <= PyList.maximum l - PyList.minimum l
  /\ (PyList.maximum l - PyList.minimum l = 0 <-> SampleSpec.all_equal v l).
Proof.
  intros Hv.
  assert (Hne : l <> []) by (intros ->; destruct Hv).
  destruct (maximum_spec l Hne) as [Hmaxin Hmax].
  destruct (minimum_spec l Hne) as [Hminin Hmin].
  pose proof (Hmin _ Hmaxin) as Hle.
  split; [lia |]. split.
  - intros Hz. apply Forall_forall. intros a Ha.
    pose proof (Hmax _ Ha). pose proof (Hmin _ Ha).
    pose proof (Hmax _ Hv). pose proof (Hmin _ Hv). lia.
  - intros Hall. unfold SampleSpec.all_equal in Hall. rewrite Forall_forall in Hall.
    rewrite (Hall _ Hmaxin), (Hall _ Hminin). lia.
Qed.

End RangeFacts.

(** X11. The values [get_raw] answers. With the gate open and at least
    one sample, the pressure is never negative, and it is zero exactly when
    all X samples agree and all Y samples agree (they then equal the
    answered x and y). When the controller answers bytes, x and y are
    12-bit values (0..4095) and the pressure is at most 8190. The call
    uses two bus exchanges per sample. *)
Theorem get_raw_values_are_bounded :
  forall (self : Xpt2046.XPT2046) (w : Hw.World) (samples delay_us : Z),
    1 <= samples ->
    Xpt2046.touched self w = true ->
    exists x y p self' w',
      Xpt2046.get_raw self samples delay_us w = (Py.Ok (Some (x, y, p)), self', w')
      /\ 0 <= p
      /\ (p = 0 <->
          SampleSpec.all_equal x (TouchSpec.x_samples w (Z.to_nat samples))
          /\ SampleSpec.all_equal y (TouchSpec.y_samples w (Z.to_nat samples)))
      /\ (SampleSpec.byte_frames (Hw.miso w) ->
          0 <= x < 4096 /\ 0 <= y < 4096 /\ p <= 8190)
      /\ Hw.xfers w' = (Hw.xfers w + 2 * Z.to_nat samples)%nat.
Proof.
  intros self w samples delay_us Hn Htouch.
  destruct (get_raw_open_gate self w samples delay_us Hn Htouch)
    as (x & y & self' & w' & Hrun & Hx & Hy & Hxne & Hyne & Hxf).
  set (xs := TouchSpec.x_samples w (Z.to_nat samples)) in *.
  set (ys := TouchSpec.y_samples w (Z.to_nat samples)) in *.
  destruct (spread_zero xs x Hx) as [Hsx Hzx].
  destruct (spread_zero ys y Hy) as [Hsy Hzy].
  exists x, y, ((PyList.maximum xs - PyList.minimum xs)
                + (PyList.maximum ys - PyList.minimum ys)), self', w'.
  split; [exact Hrun |]. split; [lia |]. split; [| split; [| exact Hxf]].
  - split.
    + intros Hz. split; [apply Hzx | apply Hzy]; lia.
    + intros [Hax Hay]. apply Hzx in Hax. apply Hzy in Hay. lia.
  - intros Hbytes.
    assert (Hrx : Forall (fun v => 0 <= v < 4096) xs)
      by (apply samples_from_range; exact Hbytes).
    assert (Hry : Forall (fun v => 0 <= v < 4096) ys)
      by (apply samples_from_range; exact Hbytes).
    rewrite Forall_forall in Hrx, Hry.
    destruct (maximum_spec xs Hxne) as [Hmaxx _].
    destruct (minimum_spec xs Hxne) as [Hminx _].
    destruct (maximum_spec ys Hyne) as [Hmaxy _].
    destruct (minimum_spec ys Hyne) as [Hminy _].
    pose proof (Hrx _ Hx). pose proof (Hry _ Hy).
    pose proof (Hrx _ Hmaxx). pose proof (Hrx _ Hminx).
    pose proof (Hry _ Hmaxy). pose proof (Hry _ Hminy).
    lia.
Qed.

(** Three steady samples: X reads 2000 and Y reads 1000 every time, so
    the pressure is zero. *)
Lemma get_raw_values_are_bounded_witness :
  exists x y p,
    fst (fst (Xpt2046.get_raw (Xpt2046.mkXPT2046 15 None (0, 0, 0) (0, 0, 0)) 3 200
                (Hw.mkWorld [] (TouchSpec.feed [1000; 2000; 1000; 2000; 1000; 2000])
                            0 (fun _ => 1))))
    = Py.Ok (Some (x, y, p))
    /\ 0 <= p.
Proof.
  destruct (get_raw_values_are_bounded
              (Xpt2046.mkXPT2046 15 None (0, 0, 0) (0, 0, 0))
              (Hw.mkWorld [] (TouchSpec.feed [1000; 2000; 1000; 2000; 1000; 2000])
                          0 (fun _ => 1))
              3 200 ltac:(lia) eq_refl)
    as (x & y & p & self' & w' & Hrun & Hp & _).
  exists x, y, p. rewrite Hrun. split; [reflexivity | exact Hp].
Defined.

(* ===================================================================== *)
(** ** Further properties of mic_level.py *)
(* ===================================================================== *)

Section EmaFacts.

(** [update] stores the smoothed value and keeps the configuration. *)
Lemma update_state (self : MicLevel.MicLevel) (raw : float) (now : Z) :
  MicLevel._ema_rms (snd (MicLevel.update self raw now)) = MicLevel.smooth self raw
  /\ MicLevel.ema_alpha (snd (MicLevel.update self raw now)) = MicLevel.ema_alpha self
  /\ MicLevel.quiet (fst (MicLevel.update self raw now))
     = MicLevel._quiet (snd (MicLevel.update self raw now))
  /\ MicLevel.rms (fst (MicLevel.update self raw now))
     = MicLevel._ema_rms (snd (MicLevel.update self raw now)).
Proof.
  unfold MicLevel.update.
  match goal with
  | |- context [let '(a, b) := ?c in _] => destruct c as [q' qs']
  end.
  repeat split; reflexivity.
Qed.

End EmaFacts.

(* ===================================================================== *)
(** ** Further properties of main.py: what drawing leaves alone *)
(* ===================================================================== *)

Section FrameFacts.

Variable P : Main.App -> Prop.
Variable t : Main.Theme.
Hypothesis HPlcd : forall call st, P st -> P (snd (Main.lcd_do call st)).
Hypothesis HPbadge : forall d s st, P st -> P (snd (Main.set_badge d s st)).
Hypothesis HPtheme : forall st, P st -> Py.index Main.THEMES (Main.theme_index st) = Some t.

Lemma frame_ret {A : Type} (a : A) : AppSpec.keeps P (Main.ret a).
Proof. intros st HP. exists a, st. split; [reflexivity | exact HP]. Qed.

Lemma frame_bind {A B : Type} (c1 : Main.Run A) (k : A -> Main.Run B) :
  AppSpec.keeps P c1 -> (forall a, AppSpec.keeps P (k a)) ->
  AppSpec.keeps P (Main.bind c1 k).
Proof.
  intros H1 H2 st HP.
  destruct (H1 st HP) as (a & st1 & Hrun1 & HP1).
  destruct (H2 a st1 HP1) as (b & st2 & Hrun2 & HP2).
  exists b, st2. unfold Main.bind. rewrite Hrun1. split; assumption.
Qed.

Lemma frame_get {B : Type} (k : Main.App -> Main.Run B) :
  (forall a, P a -> AppSpec.keeps P (k a)) ->
  AppSpec.keeps P (Main.bind Main.get k).
Proof.
  intros Hk st HP. destruct (Hk st HP st HP) as (b & st2 & Hrun & HP2).
  exists b, st2. split; assumption.
Qed.

Lemma frame_lcd_do (call : Main.lcd_call) : AppSpec.keeps P (Main.lcd_do call).
Proof.
  intros st HP. exists tt, (snd (Main.lcd_do call st)).
  split; [reflexivity | apply HPlcd; exact HP].
Qed.

Lemma frame_set_badge (d : Z) (s : option bool) : AppSpec.keeps P (Main.set_badge d s).
Proof.
  intros st HP. exists tt, (snd (Main.set_badge d s st)).
  split; [reflexivity | apply HPbadge; exact HP].
Qed.

Lemma frame_th_bind {B : Type} (k : Main.Theme -> Main.Run B) :
  AppSpec.keeps P (k t) -> AppSpec.keeps P (Main.bind Main.th k).
Proof.
  intros Hk st HP. destruct (Hk st HP) as (b & st2 & Hrun & HP2).
  exists b, st2. split; [| exact HP2].
  unfold Main.th, Main.bind, Main.get, Main.index_or_raise in *.
  rewrite (HPtheme st HP). exact Hrun.
Qed.

Lemma frame_draw_border (x y w h col : Z) :
  AppSpec.keeps P (Main.draw_border x y w h col).
Proof.
  unfold Main.draw_border.
  repeat (apply frame_bind; [apply frame_lcd_do | intros _]).
  apply frame_lcd_do.
Qed.

Lemma frame_draw_mic_badge (force : bool) (now : Z) :
  AppSpec.keeps P (Main.draw_mic_badge force now).
Proof.
  unfold Main.draw_mic_badge. apply frame_get. intros a _.
  destruct (Main.mic a); [| apply frame_ret].
  destruct (negb force && _); [apply frame_ret |].
  destruct (negb force && _); [apply frame_set_badge |].
  apply frame_th_bind.
  destruct (Main.mic_quiet a);
    (apply frame_bind; [apply frame_lcd_do | intros _];
     apply frame_bind; [apply frame_draw_border | intros _];
     apply frame_bind; [apply frame_lcd_do | intros _];
     apply frame_set_badge).
Qed.

Lemma frame_draw_title_bar (title : string) (now : Z) :
  AppSpec.keeps P (Main.draw_title_bar title now).
Proof.
  unfold Main.draw_title_bar. apply frame_th_bind.
  apply frame_bind; [apply frame_lcd_do | intros _].
  apply frame_bind; [apply frame_lcd_do | intros _].
  apply frame_draw_mic_badge.
Qed.

Lemma frame_draw_button (btn : Main.Btn) (pressed : bool) :
  AppSpec.keeps P (Main.draw_button btn pressed).
Proof.
  unfold Main.draw_button. apply frame_th_bind.
  destruct pressed;
    (apply frame_bind; [apply frame_lcd_do | intros _];
     apply frame_bind; [apply frame_draw_border | intros _];
     apply frame_lcd_do).
Qed.

Lemma frame_draw_indicator (text : string) :
  AppSpec.keeps P (Main.draw_indicator text).
Proof.
  unfold Main.draw_indicator. apply frame_th_bind.
  apply frame_get. intros a _. apply frame_lcd_do.
Qed.

Lemma frame_draw_lines (lines : list string) (cx cw lh sc fg_ bg_ : Z) :
  forall y, AppSpec.keeps P (Main.draw_lines lines cx cw y lh sc fg_ bg_).
Proof.
  induction lines as [| line rest IH]; intros y; simpl.
  - apply frame_ret.
  - apply frame_bind; [apply frame_lcd_do | intros _]. apply IH.
Qed.

(** Redrawing the card, when the card index is inside the list. *)
Lemma frame_draw_comm_card (now : Z) :
  (forall st, P st ->
     exists c, Py.index (Main.comm_cards st) (Main.comm_card_index st) = Some c) ->
  AppSpec.keeps P (Main.draw_comm_card now).
Proof.
  intros Hcard.
  unfold Main.draw_comm_card. apply frame_th_bind.
  apply frame_bind; [apply frame_lcd_do | intros _].
  apply frame_get. intros st0 _.
  apply frame_bind; [apply frame_draw_title_bar | intros _].
  apply frame_bind; [apply frame_draw_button | intros _].
  apply frame_bind; [apply frame_draw_button | intros _].
  apply frame_get. intros st HPst.
  destruct (Hcard st HPst) as [c Hc].
  unfold Main.index_or_raise at 1. rewrite Hc.
  apply frame_bind; [apply frame_ret | intros [[[icon' phrase'] bg'] fg']].
  apply frame_bind; [apply frame_lcd_do | intros _].
  apply frame_bind; [apply frame_draw_border | intros _].
  apply frame_bind; [apply frame_draw_indicator | intros _].
  apply frame_bind; [apply frame_lcd_do | intros _].
  destruct ((Main.W - 32 - 20) / (8 * 3) <? 6);
    match goal with
    | |- context [if ?b then _ else _] => destruct b
    end;
    (apply frame_bind; [apply frame_draw_lines | intros _];
     apply frame_bind; [apply frame_draw_button | intros _];
     apply frame_bind; [apply frame_draw_button | intros _];
     apply frame_draw_button).
Qed.

End FrameFacts.

Section CoreFacts.

Variable st0 : Main.App.
Variable t : Main.Theme.
Hypothesis Htheme : Py.index Main.THEMES (Main.theme_index st0) = Some t.

Lemma drawn_lcd (call : Main.lcd_call) (st : Main.App) :
  FrameSpec.drawn_from st0 st -> FrameSpec.drawn_from st0 (snd (Main.lcd_do call st)).
Proof. intros H. destruct st. exact H. Qed.

Lemma drawn_badge (d : Z) (s : option bool) (st : Main.App) :
  FrameSpec.drawn_from st0 st -> FrameSpec.drawn_from st0 (snd (Main.set_badge d s st)).
Proof. intros H. destruct st. exact H. Qed.

Lemma drawn_theme (st : Main.App) :
  FrameSpec.drawn_from st0 st -> Py.index Main.THEMES (Main.theme_index st) = Some t.
Proof.
  intros H. unfold FrameSpec.drawn_from, FrameSpec.core in H.
  injection H as _ _ _ _ Hti _ _ _ _ _ _ _. rewrite Hti. exact Htheme.
Qed.

Lemma drawn_refl : FrameSpec.drawn_from st0 st0.
Proof. reflexivity. Qed.

(** The badge leaves every module variable alone except its own
    bookkeeping and the display. *)
Lemma badge_keeps_core (force : bool) (now : Z) :
  exists st', Main.draw_mic_badge force now st0 = (Py.Ok tt, st')
              /\ FrameSpec.drawn_from st0 st'.
Proof.
  destruct (frame_draw_mic_badge (FrameSpec.drawn_from st0) t
              drawn_lcd drawn_badge drawn_theme force now st0 drawn_refl)
    as ([] & st' & Hrun & Hcore).
  exists st'. split; assumption.
Qed.

End CoreFacts.

Section PollFacts.

(** One poll: what it does to the state. *)
Lemma poll_step (i : Main.PollInput) (st : Main.App) :
  AppSpec.theme_ok st ->
  exists st',
    Main.poll_mic_and_update_badge i st = (Py.Ok tt, st')
    /\ ((Main.mic st = None
         \/ Hw.ticks_diff (Main.poll_now i) (Main._last_mic_poll st) < Main.MIC_POLL_MS) ->
        st' = st)
    /\ (forall m, Main.mic st = Some m ->
          Main.MIC_POLL_MS <= Hw.ticks_diff (Main.poll_now i) (Main._last_mic_poll st) ->
          let m' := snd (MicLevel.update m (Main.update_raw i) (Main.update_now i)) in
          Main.mic st' = Some m'
          /\ Main.mic_quiet st' = MicLevel._quiet m'
          /\ Main.mic_rms st' = MicLevel._ema_rms m'
          /\ Main._last_mic_poll st' = Main.poll_now i)
    /\ Main.theme_index st' = Main.theme_index st
    /\ Main.current_screen st' = Main.current_screen st
    /\ Main.comm_cards st' = Main.comm_cards st
    /\ Main.comm_card_index st' = Main.comm_card_index st
    /\ Main.was_down st' = Main.was_down st
    /\ Main.last_tap_ms st' = Main.last_tap_ms st
    /\ Main.console st' = Main.console st.
Proof.
  intros [t Ht].
  destruct st as [mic q rms lp ld ls ti cs cc cn ci wd lt lcd con].
  run_app_in Ht.
  unfold Main.poll_mic_and_update_badge. unfold Main.bind at 1, Main.get. run_proj.
  destruct mic as [m |].
  2:{ eexists. split; [reflexivity |]. split; [reflexivity |].
      split; [intros m Hm; discriminate | repeat split]. }
  destruct (Z.ltb_spec (Hw.ticks_diff (Main.poll_now i) lp) Main.MIC_POLL_MS) as [Hthr | Hgo].
  { eexists. split; [reflexivity |]. split; [reflexivity |].
    split; [intros m0 _ Hge; lia | repeat split]. }
  pose proof (update_state m (Main.update_raw i) (Main.update_now i)) as (_ & _ & Hq & Hr).
  destruct (MicLevel.update m (Main.update_raw i) (Main.update_now i))
    as [info m'] eqn:Hupdate.
  cbn [fst snd] in Hq, Hr.
  unfold Main.bind at 1. cbv beta iota delta [Main.set_mic]. run_proj.
  destruct (badge_keeps_core
              (Main.mkApp (Some m') (MicLevel.quiet info) (MicLevel.rms info)
                          (Main.poll_now i) ld ls ti cs cc cn ci wd lt lcd con)
              t Ht false (Main.badge_now i))
    as (st' & Hrun & Hcore).
  exists st'. split; [exact Hrun |].
  unfold FrameSpec.drawn_from, FrameSpec.core in Hcore. run_app_in Hcore.
  injection Hcore as Hmic Hmq Hmr Hlp Hti Hcs Hcc Hcn Hci Hwd Hlt Hcon.
  split; [intros [Hnone | Hthr]; [discriminate | lia] |].
  split.
  - intros m0 Hm0 _. injection Hm0 as <-. cbv zeta. rewrite Hupdate. cbn [snd].
    rewrite Hmic, Hmq, Hmr, Hlp, Hq, Hr. repeat split.
  - repeat split; assumption.
Qed.

End PollFacts.

(** X14. The poll of the ambient classifier. Whenever a theme is
    selected the poll returns normally. It changes nothing when no
    classifier is present or when less than 220 ms have passed since the
    last accepted poll; otherwise it updates the classifier once, records
    the poll time, and copies the classifier's state and smoothed level to
    [mic_quiet] and [mic_rms]. So after any series of polls these two
    variables show what the classifier holds; and a poll less than 220 ms
    after an accepted one leaves the state as it is. *)
Theorem poll_publishes_classifier_state :
  forall (inputs : list Main.PollInput) (st : Main.App),
    AppSpec.theme_ok st ->
    PollSpec.published st ->
    (exists st', PollSpec.polls inputs st = (Py.Ok tt, st')
                 /\ PollSpec.published st'
                 /\ Main.theme_index st' = Main.theme_index st)
    /\ (forall i, (Main.mic st = None
                   \/ Hw.ticks_diff (Main.poll_now i) (Main._last_mic_poll st)
                      < Main.MIC_POLL_MS) ->
                  Main.poll_mic_and_update_badge i st = (Py.Ok tt, st))
    /\ (forall i m t1 t2 i2,
          Main.mic st = Some m ->
          Main.MIC_POLL_MS <= Hw.ticks_diff (Main.poll_now i) (Main._last_mic_poll st) ->
          Main.poll_now i = Hw.ticks_of t1 ->
          Main.poll_now i2 = Hw.ticks_of t2 ->
          0 <= t2 - t1 < Main.MIC_POLL_MS ->
          exists st',
            Main.poll_mic_and_update_badge i st = (Py.Ok tt, st')
            /\ Main.mic st'
               = Some (snd (MicLevel.update m (Main.update_raw i) (Main.update_now i)))
            /\ Main._last_mic_poll st' = Main.poll_now i
            /\ Main.poll_mic_and_update_badge i2 st' = (Py.Ok tt, st')).
Proof.
  intros inputs st Hth Hpub.
  split; [| split].
  - revert st Hth Hpub.
    induction inputs as [| i rest IH]; intros st Hth Hpub.
    + exists st. repeat split; assumption.
    + destruct (poll_step i st Hth)
        as (st1 & Hrun & Hskip & Hupd & Hti & _).
      assert (Hth1 : AppSpec.theme_ok st1).
      { destruct Hth as [t Ht]. exists t. rewrite Hti. exact Ht. }
      assert (Hpub1 : PollSpec.published st1).
      { destruct (Main.mic st) as [m |] eqn:Hm.
        - destruct (Z.lt_ge_cases
                      (Hw.ticks_diff (Main.poll_now i) (Main._last_mic_poll st))
                      Main.MIC_POLL_MS) as [Hthr | Hgo].
          + rewrite (Hskip (or_intror Hthr)). exact Hpub.
          + destruct (Hupd m eq_refl Hgo) as (Hm1 & Hq1 & Hr1 & _).
            unfold PollSpec.published. rewrite Hm1. split; assumption.
        - rewrite (Hskip (or_introl eq_refl)). exact Hpub. }
      destruct (IH st1 Hth1 Hpub1) as (st' & Hrest & Hpub' & Hti').
      exists st'. split; [| split; [exact Hpub' | congruence]].
      cbn [PollSpec.polls]. unfold Main.bind. rewrite Hrun. exact Hrest.
  - intros i Hidle.
    destruct (poll_step i st Hth) as (st1 & Hrun & Hskip & _).
    rewrite Hrun, (Hskip Hidle). reflexivity.
  - intros i m t1 t2 i2 Hm Hgo Ht1 Ht2 Hclose.
    destruct (poll_step i st Hth) as (st1 & Hrun & _ & Hupd & Hti & _).
    destruct (Hupd m Hm Hgo) as (Hm1 & _ & _ & Hlp1).
    exists st1. split; [exact Hrun |]. split; [exact Hm1 |]. split; [exact Hlp1 |].
    assert (Hth1 : AppSpec.theme_ok st1).
    { destruct Hth as [t Ht]. exists t. rewrite Hti. exact Ht. }
    destruct (poll_step i2 st1 Hth1) as (st2 & Hrun2 & Hskip2 & _).
    rewrite Hrun2. rewrite Hskip2; [reflexivity |].
    right. rewrite Hlp1, Ht1, Ht2.
    rewrite ticks_diff_exact; [lia |].
    unfold Main.MIC_POLL_MS, Hw.TICKS_HALF in *. lia.
Qed.

(** The application as started, polled at 1000 ms and again at 1100 ms:
    the first poll is accepted, the second is not. *)
Lemma poll_publishes_classifier_state_witness :
  exists st',
    PollSpec.polls [Main.mkPollInput 1000 0.1%float 1040 1041;
                    Main.mkPollInput 1100 0.2%float 1140 1141] (Main.initial true)
    = (Py.Ok tt, st')
    /\ PollSpec.published st'.
Proof.
  destruct (poll_publishes_classifier_state
              [Main.mkPollInput 1000 0.1%float 1040 1041; Main.mkPollInput 1100 0.2%float 1140 1141]
              (Main.initial true))
    as ((st' & Hrun & Hpub & _) & _).
  - exists (Main.mkTheme "DARK (HC)" 0xFFFF 0x0000 0xFFFF 0xFFFF 0x0000
                         0xE71C 0x0000 0x07E0).
    reflexivity.
  - split; reflexivity.
  - exists st'. split; assumption.
Defined.

(* ===================================================================== *)
(** ** Further properties of main.py: the loop without a touch *)
(* ===================================================================== *)

Section IdleFacts.

(** One iteration with the touch interrupt line high: the classifier is
    polled, the digitizer is left alone, the touch state is released and
    the loop sleeps 12 ms. *)
Lemma idle_iteration (press : Z -> Z -> Main.Run unit) (i : Main.LoopInput)
    (st : Main.App) (tp : Xpt2046.XPT2046) (w : Hw.World) :
  Xpt2046.irq tp = Some Main.TP_IRQ ->
  Main.irq_level i <> 0 ->
  AppSpec.theme_ok st ->
  exists st',
    Main.loop_iteration press i st tp w
    = (Py.Ok tt, st', tp, Hw.emit (Hw.SleepMs 12) (Main.with_irq (Main.irq_level i) w))
    /\ Main.theme_index st' = Main.theme_index st
    /\ Main.current_screen st' = Main.current_screen st
    /\ Main.comm_card_index st' = Main.comm_card_index st
    /\ Main.last_tap_ms st' = Main.last_tap_ms st
    /\ Main.console st' = Main.console st
    /\ Main.was_down st' = false.
Proof.
  intros Hirq Hhigh Hth.
  destruct (poll_step (Main.poll_in i) st Hth)
    as (st1 & Hpoll & _ & _ & Hti & Hcs & _ & Hci & _ & Hlt & Hcon).
  assert (Htouched : Xpt2046.touched tp (Main.with_irq (Main.irq_level i) w) = false).
  { unfold Xpt2046.touched. rewrite Hirq. cbn [Main.with_irq Hw.pin_in].
    rewrite Z.eqb_refl. apply Z.eqb_neq. exact Hhigh. }
  unfold Main.loop_iteration. rewrite Hpoll, Htouched.
  destruct st1 as [mic q rms lp ld ls ti cs cc cn ci wd lt lcd con].
  cbn [Main.theme_index Main.current_screen Main.comm_card_index Main.last_tap_ms
       Main.console] in Hti, Hcs, Hci, Hlt, Hcon.
  eexists. split; [reflexivity |].
  cbn. repeat split; assumption.
Qed.

End IdleFacts.

(** X15. The main loop while nobody touches the panel. With the
    digitizer wired to its interrupt line, a theme selected, and the line
    reading high in every iteration, the loop runs through any number of
    iterations without raising: each one polls the classifier, makes no
    bus exchange with the digitizer and sleeps 12 ms; the screen shown, the
    theme, the card index, the time of the last tap and the console are
    unchanged, and the touch state is released. *)
Theorem main_loop_idles_while_untouched :
  forall (press : Z -> Z -> Main.Run unit) (inputs : list Main.LoopInput)
         (st : Main.App) (tp : Xpt2046.XPT2046) (w : Hw.World),
    Xpt2046.irq tp = Some Main.TP_IRQ ->
    Forall (fun i => Main.irq_level i <> 0) inputs ->
    AppSpec.theme_ok st ->
    exists st' w',
      Main.main_loop press inputs st tp w = (Py.Ok tt, st', tp, w')
      /\ Hw.trace w' = Hw.trace w ++ repeat (Hw.SleepMs 12) (List.length inputs)
      /\ Hw.xfers w' = Hw.xfers w
      /\ Main.theme_index st' = Main.theme_index st
      /\ Main.current_screen st' = Main.current_screen st
      /\ Main.comm_card_index st' = Main.comm_card_index st
      /\ Main.last_tap_ms st' = Main.last_tap_ms st
      /\ Main.console st' = Main.console st
      /\ (inputs <> [] -> Main.was_down st' = false).
Proof.
  intros press inputs st tp w Hirq Hhigh. revert st w.
  induction Hhigh as [| i rest Hi Hrest IH]; intros st w Hth.
  - exists st, w. cbn. rewrite app_nil_r. repeat split. intros H. contradiction.
  - destruct (idle_iteration press i st tp w Hirq Hi Hth)
      as (st1 & Hrun & Hti & Hcs & Hci & Hlt & Hcon & Hwd).
    assert (Hth1 : AppSpec.theme_ok st1).
    { destruct Hth as [t Ht]. exists t. rewrite Hti. exact Ht. }
    destruct (IH st1 (Hw.emit (Hw.SleepMs 12) (Main.with_irq (Main.irq_level i) w)) Hth1)
      as (st' & w' & Hrun' & Htr & Hxf & Hti' & Hcs' & Hci' & Hlt' & Hcon' & Hwd').
    exists st', w'. split; [| split; [| split]].
    + cbn [Main.main_loop]. rewrite Hrun. exact Hrun'.
    + rewrite Htr. cbn [Hw.emit Main.with_irq Hw.trace List.length repeat].
      rewrite <- app_assoc. reflexivity.
    + rewrite Hxf. reflexivity.
    + repeat split; try congruence.
      intros _. destruct rest as [| j rest'].
      * cbn [Main.main_loop] in Hrun'. injection Hrun' as <- _. exact Hwd.
      * apply Hwd'. discriminate.
Qed.

(** The application as started, three iterations without a touch. *)
Lemma main_loop_idles_while_untouched_witness :
  exists st' w',
    Main.main_loop (fun _ _ => Main.ret tt)
      [Main.mkLoopInput 1000 (Main.mkPollInput 1000 0.1%float 1040 1041) 1;
       Main.mkLoopInput 1060 (Main.mkPollInput 1060 0.1%float 1060 1060) 1;
       Main.mkLoopInput 1080 (Main.mkPollInput 1080 0.1%float 1080 1080) 1]
      (Main.initial true)
      (Xpt2046.mkXPT2046 Main.TP_CS (Some Main.TP_IRQ) (0, 0, 0) (0, 0, 0))
      DisplaySpec.idle_world
    = (Py.Ok tt, st',
       Xpt2046.mkXPT2046 Main.TP_CS (Some Main.TP_IRQ) (0, 0, 0) (0, 0, 0), w')
    /\ Hw.trace w' = [Hw.SleepMs 12; Hw.SleepMs 12; Hw.SleepMs 12].
Proof.
  destruct (main_loop_idles_while_untouched (fun _ _ => Main.ret tt)
              [Main.mkLoopInput 1000 (Main.mkPollInput 1000 0.1%float 1040 1041) 1;
               Main.mkLoopInput 1060 (Main.mkPollInput 1060 0.1%float 1060 1060) 1;
               Main.mkLoopInput 1080 (Main.mkPollInput 1080 0.1%float 1080 1080) 1]
              (Main.initial true)
              (Xpt2046.mkXPT2046 Main.TP_CS (Some Main.TP_IRQ) (0, 0, 0) (0, 0, 0))
              DisplaySpec.idle_world eq_refl)
    as (st' & w' & Hrun & Htr & _).
  - repeat constructor; discriminate.
  - exists (Main.mkTheme "DARK (HC)" 0xFFFF 0x0000 0xFFFF 0xFFFF 0x0000
                         0xE71C 0x0000 0x07E0).
    reflexivity.
  - exists st', w'. split; [exact Hrun | exact Htr].
Defined.

(* ===================================================================== *)
(** ** Further properties of main.py: touch mapping *)
(* ===================================================================== *)

Section MappingFacts.

Lemma clamp_monotone (v v' lo hi : Z) :
  lo <= hi -> v <= v' -> Main.clamp v lo hi <= Main.clamp v' lo hi.
Proof.
  intros Hlh Hle. unfold Main.clamp. rewrite !Z.gtb_ltb.
  destruct (Z.ltb_spec v lo), (Z.ltb_spec hi v), (Z.ltb_spec v' lo), (Z.ltb_spec hi v'); lia.
Qed.

Lemma py_min_max (a b : Z) :
  Py.min a b = Z.min a b /\ Py.max a b = Z.max a b.
Proof.
  unfold Py.min, Py.max.
  destruct (Z.ltb_spec b a), (Z.ltb_spec a b); split; lia.
Qed.

Lemma map_linear_within (raw raw_min raw_max out_min out_max : Z) :
  Z.min out_min out_max <= Main.map_linear raw raw_min raw_max out_min out_max
  <= Z.max out_min out_max.
Proof.
  unfold Main.map_linear.
  destruct (raw_max =? raw_min); [lia |].
  destruct (py_min_max out_min out_max) as [-> ->].
  apply clamp_range. lia.
Qed.

Lemma map_linear_monotone (raw raw' raw_min raw_max out_min out_max : Z) :
  raw_min < raw_max -> out_min <= out_max -> raw <= raw' ->
  Main.map_linear raw raw_min raw_max out_min out_max
  <= Main.map_linear raw' raw_min raw_max out_min out_max.
Proof.
  intros Hr Ho Hle. unfold Main.map_linear.
  destruct (Z.eqb_spec raw_max raw_min); [lia |].
  destruct (py_min_max out_min out_max) as [-> ->].
  apply clamp_monotone; [lia |]. apply Z.add_le_mono_r.
  apply Z.div_le_mono; [lia | nia].
Qed.

Lemma raw_to_screen_shipped (rx ry : Z) :
  Main.raw_to_screen rx ry
  = (Main.map_linear (3800 - ry) 332 1616 0 479, Main.map_linear rx 284 1576 0 319).
Proof. reflexivity. Qed.

End MappingFacts.

(** X16. The touch mapping of main.py. [map_linear] answers a value
    between the two output bounds for all arguments, a degenerate or
    reversed raw range included; over a proper raw range and an increasing
    output range it never decreases. With the shipped calibration (axes
    swapped, X flipped) the screen y never decreases when the raw x grows
    and the screen x never increases when the raw y grows. *)
Theorem touch_mapping_is_bounded_and_monotone :
  (forall raw raw_min raw_max out_min out_max : Z,
      Z.min out_min out_max <= Main.map_linear raw raw_min raw_max out_min out_max
      <= Z.max out_min out_max)
  /\ (forall raw raw' raw_min raw_max out_min out_max : Z,
        raw_min < raw_max -> out_min <= out_max -> raw <= raw' ->
        Main.map_linear raw raw_min raw_max out_min out_max
        <= Main.map_linear raw' raw_min raw_max out_min out_max)
  /\ (forall rx ry rx' ry' : Z,
        rx <= rx' -> ry <= ry' ->
        snd (Main.raw_to_screen rx ry) <= snd (Main.raw_to_screen rx' ry')
        /\ fst (Main.raw_to_screen rx' ry') <= fst (Main.raw_to_screen rx ry)).
Proof.
  split; [exact map_linear_within | split; [exact map_linear_monotone |]].
  intros rx ry rx' ry' Hx Hy. rewrite !raw_to_screen_shipped. cbn [fst snd].
  split; apply map_linear_monotone; lia.
Qed.

(** X17. The debug dot of an accepted touch is always visible. For every
    raw sample, the point [raw_to_screen] answers lies on the 480 x 320
    panel, [debug_dot] asks the display for the 5 x 5 square around it,
    and the driver paints the part of that square that lies on the panel:
    between 3 and 5 pixels each way, in red, so at least 9 pixels. *)
Theorem debug_dot_is_always_visible :
  forall (rx ry : Z) (st : Main.App) (world : Hw.World),
    let sx := fst (Main.raw_to_screen rx ry) in
    let sy := snd (Main.raw_to_screen rx ry) in
    let cx := DisplaySpec.clip_origin (sx - 2) in
    let cy := DisplaySpec.clip_origin (sy - 2) in
    let cw := DisplaySpec.clip_size (sx - 2) 5 480 in
    let ch := DisplaySpec.clip_size (sy - 2) 5 320 in
    (0 <= sx <= 479 /\ 0 <= sy <= 319)
    /\ Main.debug_dot sx sy st
       = Main.lcd_do (Main.LcdFillRect (sx - 2) (sy - 2) 5 5 0xF800) st
    /\ (3 <= cw <= 5 /\ 3 <= ch <= 5)
    /\ exists evs,
         Ili9486.fill_rect DisplaySpec.lcd (sx - 2) (sy - 2) 5 5 0xF800 world
         = (Py.Ok tt, Hw.extend evs world)
         /\ Hw.written_bytes evs
            = DisplaySpec.window_bytes DisplaySpec.lcd cx cy (cx + cw - 1) (cy + ch - 1)
              ++ DisplaySpec.pixel_bytes 0xF800 (Z.to_nat (cw * ch)).
Proof.
  intros rx ry st world sx sy cx cy cw ch.
  assert (Hsx : 0 <= sx <= 479).
  { subst sx. rewrite raw_to_screen_shipped. cbn [fst].
    apply (map_linear_axis (3800 - ry) 332 1616 479); lia. }
  assert (Hsy : 0 <= sy <= 319).
  { subst sy. rewrite raw_to_screen_shipped. cbn [snd].
    apply (map_linear_axis rx 284 1576 319); lia. }
  assert (Hcw : 3 <= cw <= 5) by (subst cw; unfold DisplaySpec.clip_size; lia).
  assert (Hch : 3 <= ch <= 5) by (subst ch; unfold DisplaySpec.clip_size; lia).
  split; [split; assumption |]. split; [reflexivity |].
  split; [split; assumption |].
  destruct (fill_rect_stream_emits DisplaySpec.lcd cx cy cw ch 0xF800 ltac:(lia) ltac:(lia))
    as (evs & Hevs & _ & Hbytes).
  exists evs. split; [| exact Hbytes].
  rewrite fill_rect_clip. cbv zeta.
  change (Ili9486.width DisplaySpec.lcd) with 480.
  change (Ili9486.height DisplaySpec.lcd) with 320.
  fold cw ch cx cy.
  destruct (Z.leb_spec cw 0); [lia |]. destruct (Z.leb_spec ch 0); [lia |].
  apply Hevs.
Qed.

(* ===================================================================== *)
(** ** Further properties of main.py: word wrap *)
(* ===================================================================== *)

Section WrapBound.

Variable max_chars : Z.

Lemma string_length_app (a b : string) :
  String.length (a ++ b) = (String.length a + String.length b)%nat.
Proof.
  induction a as [| c a IH]; simpl; [reflexivity | rewrite IH; reflexivity].
Qed.

Lemma lstrip_length (s : string) :
  (String.length (PyStr.lstrip s) <= String.length s)%nat.
Proof.
  induction s as [| c s IH]; simpl; [lia |].
  destruct (PyStr.is_space c); simpl; lia.
Qed.

Lemma rstrip_length (s : string) :
  (String.length (PyStr.rstrip s) <= String.length s)%nat.
Proof.
  induction s as [| c s IH]; simpl; [lia |].
  destruct (PyStr.rstrip s) as [| d r].
  - destruct (PyStr.is_space c); simpl; lia.
  - simpl in *. lia.
Qed.

Lemma strip_length (s : string) :
  (String.length (PyStr.strip s) <= String.length s)%nat.
Proof.
  unfold PyStr.strip.
  pose proof (rstrip_length (PyStr.lstrip s)). pose proof (lstrip_length s). lia.
Qed.

(** Joining a token to the current line never makes a line longer than
    the two and the blank between them; on an empty current line the
    blank is stripped again. *)
Lemma joined_length (cur p : string) :
  PyStr.len (PyStr.strip (cur ++ " " ++ p))
  <= PyStr.len cur + (if PyStr.truthy cur then 1 else 0) + PyStr.len p.
Proof.
  unfold PyStr.len. destruct cur as [| c cur].
  - cbn [PyStr.truthy String.append String.length].
    change (PyStr.strip (String " " p)) with (PyStr.strip p).
    pose proof (strip_length p). lia.
  - cbn [PyStr.truthy].
    pose proof (strip_length (String c cur ++ " " ++ p)) as H.
    rewrite !string_length_app in H. cbn [String.length] in *. lia.
Qed.

Let okc (cur : string) : Prop :=
  PyStr.len cur <= max_chars \/ WrapSpec.single_word cur.

Lemma flush_ok (lines : list string) (cur : string) :
  Forall (WrapSpec.well_formed max_chars) lines -> okc cur ->
  Forall (WrapSpec.well_formed max_chars) (Main.flush lines cur).
Proof.
  intros Hl Hc. unfold Main.flush. destruct cur as [| c cur]; cbn [PyStr.truthy].
  - exact Hl.
  - apply Forall_app. split; [exact Hl |].
    constructor; [| constructor]. split; [discriminate | exact Hc].
Qed.

Lemma place_ok (lines : list string) (cur p : string) :
  Forall (WrapSpec.well_formed max_chars) lines -> okc cur ->
  WrapSpec.single_word p ->
  Forall (WrapSpec.well_formed max_chars) (fst (Main.place max_chars (lines, cur) p))
  /\ okc (snd (Main.place max_chars (lines, cur) p)).
Proof.
  intros Hl Hc Hp. unfold Main.place.
  destruct (Main.fits cur p max_chars) eqn:Hfit; cbn [fst snd].
  - split; [exact Hl |]. left.
    unfold Main.fits in Hfit. apply Z.leb_le in Hfit.
    pose proof (joined_length cur p). lia.
  - split; [apply flush_ok; assumption | right; exact Hp].
Qed.

Lemma parts_loop_ok (parts : list string) :
  Forall WrapSpec.single_word parts ->
  forall lines cur,
    Forall (WrapSpec.well_formed max_chars) lines -> okc cur ->
    Forall (WrapSpec.well_formed max_chars)
           (fst (Main.parts_loop max_chars parts (lines, cur)))
    /\ okc (snd (Main.parts_loop max_chars parts (lines, cur))).
Proof.
  induction 1 as [| p rest Hp Hrest IH]; intros lines cur Hl Hc.
  - split; assumption.
  - cbn [Main.parts_loop].
    assert (Hst1 :
      Forall (WrapSpec.well_formed max_chars)
             (fst (if PyStr.truthy p then Main.place max_chars (lines, cur) p
                   else (lines, cur)))
      /\ okc (snd (if PyStr.truthy p then Main.place max_chars (lines, cur) p
                   else (lines, cur)))).
    { destruct (PyStr.truthy p); [apply place_ok; assumption | split; assumption]. }
    destruct (if PyStr.truthy p then Main.place max_chars (lines, cur) p else (lines, cur))
      as [l1 c1].
    cbn [fst snd] in *. destruct Hst1 as [Hl1 Hc1].
    destruct rest as [| p' rest'].
    + split; assumption.
    + apply IH; [apply flush_ok; assumption | right; reflexivity].
Qed.

Lemma word_step_ok (lines : list string) (cur w_ : string) :
  WrapSpec.single_word w_ ->
  Forall (WrapSpec.well_formed max_chars) lines -> okc cur ->
  Forall (WrapSpec.well_formed max_chars) (fst (Main.word_step max_chars (lines, cur) w_))
  /\ okc (snd (Main.word_step max_chars (lines, cur) w_)).
Proof.
  intros Hw Hl Hc. unfold Main.word_step.
  destruct (PyStr.contains PyStr.newline w_).
  - apply parts_loop_ok; [| assumption | assumption].
    apply contains_split. exact Hw.
  - apply place_ok; assumption.
Qed.

Lemma words_ok (words : list string) :
  Forall WrapSpec.single_word words ->
  forall lines cur,
    Forall (WrapSpec.well_formed max_chars) lines -> okc cur ->
    Forall (WrapSpec.well_formed max_chars)
           (fst (fold_left (Main.word_step max_chars) words (lines, cur)))
    /\ okc (snd (fold_left (Main.word_step max_chars) words (lines, cur))).
Proof.
  induction 1 as [| w_ rest Hw Hrest IH]; intros lines cur Hl Hc.
  - split; assumption.
  - cbn [fold_left].
    destruct (word_step_ok lines cur w_ Hw Hl Hc) as [Hl1 Hc1].
    destruct (Main.word_step max_chars (lines, cur) w_) as [l1 c1].
    apply IH; assumption.
Qed.

Lemma wrap_text_ok (s : string) :
  Forall (WrapSpec.well_formed max_chars) (Main.wrap_text s max_chars).
Proof.
  unfold Main.wrap_text, Main.wrap_state.
  destruct (words_ok (PyStr.split PyStr.space s)
              (split_pieces_without_sep PyStr.space s) [] EmptyString)
    as [Hl Hc].
  - constructor.
  - right. reflexivity.
  - destruct (fold_left (Main.word_step max_chars) (PyStr.split PyStr.space s)
                ([], EmptyString)) as [lines cur].
    apply flush_ok; assumption.
Qed.

End WrapBound.

(** X18. The lines [wrap_text] answers. For every text and every budget,
    no line is empty, and a line is longer than the budget only when it is
    a single word (it holds no space): words are never cut, everything
    else respects the budget. With a budget of 8, the text
    [I FEEL OVERWHELMED] gives the lines [I FEEL] and [OVERWHELMED]. *)
Theorem wrap_text_lines_respect_budget :
  forall (s : string) (max_chars : Z),
    Forall (fun line =>
              line <> EmptyString
              /\ (PyStr.len line <= max_chars
                  \/ PyStr.contains PyStr.space line = false))
           (Main.wrap_text s max_chars)
    /\ Main.wrap_text "I FEEL OVERWHELMED" 8 = ["I FEEL"; "OVERWHELMED"]%string.
Proof.
  intros s max_chars. split; [| reflexivity].
  exact (wrap_text_ok max_chars s).
Qed.

(* ===================================================================== *)
(** ** Properties of main.py: the screens *)
(* ===================================================================== *)

Section TripleFacts.

Import FlowSpec.

Lemma triple_ret {A : Type} (P : Screens.Globals -> Prop) (a : A)
    (Q : A -> Screens.Globals -> Prop) :
  (forall g, P g -> Q a g) -> triple P (Screens.ret a) Q.
Proof. intros H g Hg. exists a, g. split; [reflexivity | apply H; exact Hg]. Qed.

Lemma triple_bind {A B : Type} (P : Screens.Globals -> Prop) (c1 : Screens.Run A)
    (Q1 : A -> Screens.Globals -> Prop) (k : A -> Screens.Run B)
    (Q : B -> Screens.Globals -> Prop) :
  triple P c1 Q1 -> (forall a, triple (Q1 a) (k a) Q) ->
  triple P (Screens.bind c1 k) Q.
Proof.
  intros H1 H2 g Hg.
  destruct (H1 g Hg) as (a & g1 & Hrun1 & HQ1).
  destruct (H2 a g1 HQ1) as (b & g2 & Hrun2 & HQ).
  exists b, g2. unfold Screens.bind. rewrite Hrun1. split; assumption.
Qed.

Lemma triple_get {B : Type} (P : Screens.Globals -> Prop)
    (k : Screens.Globals -> Screens.Run B) (Q : B -> Screens.Globals -> Prop) :
  (forall g0, P g0 -> triple P (k g0) Q) ->
  triple P (Screens.bind Screens.get k) Q.
Proof. intros H g Hg. exact (H g Hg g Hg). Qed.

Lemma triple_post {A : Type} (P : Screens.Globals -> Prop) (c : Screens.Run A)
    (Q Q' : A -> Screens.Globals -> Prop) :
  triple P c Q -> (forall a g, Q a g -> Q' a g) -> triple P c Q'.
Proof.
  intros H HQ g Hg. destruct (H g Hg) as (a & g' & Hrun & Hq).
  exists a, g'. split; [exact Hrun | apply HQ; exact Hq].
Qed.

Lemma triple_pre {A : Type} (P P' : Screens.Globals -> Prop) (c : Screens.Run A)
    (Q : A -> Screens.Globals -> Prop) :
  triple P c Q -> (forall g, P' g -> P g) -> triple P' c Q.
Proof. intros H HP g Hg. apply H, HP, Hg. Qed.

(** A fact established by the previous step. *)
Lemma triple_fact {A : Type} (F : Prop) (P : Screens.Globals -> Prop)
    (c : Screens.Run A) (Q : A -> Screens.Globals -> Prop) :
  (F -> triple P c Q) -> triple (fun g => F /\ P g) c Q.
Proof. intros H g [HF Hg]. exact (H HF g Hg). Qed.

(** The fields of a state with a known view. *)
Lemma has_fields (v : View) (g : Screens.Globals) :
  has v g ->
  Main.theme_index (Screens.app g) = theme_index v
  /\ Main.current_screen (Screens.app g) = current_screen v
  /\ Main.comm_cards (Screens.app g) = comm_cards v
  /\ Main.comm_cat_name (Screens.app g) = comm_cat_name v
  /\ Main.comm_card_index (Screens.app g) = comm_card_index v
  /\ Screens.page_index g = page_index v
  /\ Screens.menu_page g = menu_page v
  /\ Screens.menu_buttons g = menu_buttons v
  /\ Screens.settings_buttons g = settings_buttons v
  /\ Screens.comm_menu_buttons g = comm_menu_buttons v.
Proof. intros <-. repeat split. Qed.

(** Code of the first part that takes the variables it shares from one
    view to another. *)
Lemma has_lift {A : Type} (v : View) (av : Z * Main.screen * list Main.card * string * Z)
    (c : Main.Run A) (Q : A -> Prop) :
  (forall st, app_view st = app_part v ->
     exists a st', c st = (Py.Ok a, st') /\ app_view st' = av /\ Q a) ->
  triple (has v) (Screens.lift c) (fun a g => Q a /\ has (with_app v av) g).
Proof.
  intros Hc g Hg.
  destruct (Hc (Screens.app g)) as (a & st' & Hrun & Hav & Hq).
  { rewrite <- Hg. reflexivity. }
  exists a, (Screens.with_app g st'). unfold Screens.lift. rewrite Hrun.
  split; [reflexivity |]. split; [exact Hq |].
  unfold has, view in *. destruct av as [[[[ti cs] cc] cn] ci].
  unfold app_view in Hav. injection Hav as Hti Hcs Hcc Hcn Hci.
  cbn [Screens.with_app Screens.app Screens.page_index Screens.menu_page
       Screens.menu_buttons Screens.settings_buttons Screens.comm_menu_buttons].
  rewrite Hti, Hcs, Hcc, Hcn, Hci. rewrite <- Hg. reflexivity.
Qed.

Lemma with_app_same (v : View) : with_app v (app_part v) = v.
Proof. destruct v. reflexivity. Qed.

(** Code of the first part that leaves the shared variables alone. *)
Lemma has_keeps {A : Type} (v : View) (c : Main.Run A) :
  AppSpec.keeps (fun st => app_view st = app_part v) c ->
  triple (has v) (Screens.lift c) (fun _ => has v).
Proof.
  intros Hc.
  eapply triple_post.
  - apply (has_lift v (app_part v) c (fun _ => True)).
    intros st Hst. destruct (Hc st Hst) as (a & st' & Hrun & Hst').
    exists a, st'. repeat split; assumption.
  - intros a g [_ Hg]. rewrite with_app_same in Hg. exact Hg.
Qed.

End TripleFacts.

Section DrawFacts.

Import FlowSpec.

Variable v : View.
Variable t : Main.Theme.
Hypothesis Htheme : Py.index Main.THEMES (theme_index v) = Some t.

Let Pv (st : Main.App) : Prop := app_view st = app_part v.

Lemma view_lcd (call : Main.lcd_call) (st : Main.App) :
  Pv st -> Pv (snd (Main.lcd_do call st)).
Proof. intros H. destruct st. exact H. Qed.

Lemma view_badge (d : Z) (s : option bool) (st : Main.App) :
  Pv st -> Pv (snd (Main.set_badge d s st)).
Proof. intros H. destruct st. exact H. Qed.

Lemma view_theme (st : Main.App) :
  Pv st -> Py.index Main.THEMES (Main.theme_index st) = Some t.
Proof.
  intros H. unfold Pv, app_view, app_part in H.
  injection H as Hti _ _ _ _. rewrite Hti. exact Htheme.
Qed.

Lemma has_th :
  triple (has v) Screens.th (fun t' g => t' = t /\ has v g).
Proof.
  intros g Hg. exists t, g. split; [| split; [reflexivity | exact Hg]].
  unfold Screens.th, Screens.lift, Main.th, Main.bind, Main.get, Main.index_or_raise.
  destruct (has_fields v g Hg) as (Hti & _). rewrite Hti, Htheme.
  destruct g. reflexivity.
Qed.

Lemma has_lcd_do (call : Main.lcd_call) :
  triple (has v) (Screens.lcd_do call) (fun _ => has v).
Proof. apply has_keeps. apply (frame_lcd_do Pv view_lcd). Qed.

Lemma has_draw_border (x y w h c : Z) :
  triple (has v) (Screens.draw_border x y w h c) (fun _ => has v).
Proof. apply has_keeps. apply (frame_draw_border Pv view_lcd). Qed.

Lemma has_draw_title_bar (title : string) (now : Z) :
  triple (has v) (Screens.draw_title_bar title now) (fun _ => has v).
Proof.
  apply has_keeps. apply (frame_draw_title_bar Pv t view_lcd view_badge view_theme).
Qed.

Lemma has_draw_indicator (text : string) :
  triple (has v) (Screens.draw_indicator text) (fun _ => has v).
Proof. apply has_keeps. apply (frame_draw_indicator Pv t view_lcd view_theme). Qed.

Lemma has_draw_button (b : Screens.Btn) (pressed : bool) :
  triple (has v) (Screens.draw_button b pressed) (fun _ => has v).
Proof. apply has_keeps. apply (frame_draw_button Pv t view_lcd view_theme). Qed.

Lemma has_draw_buttons (bs : list Screens.Btn) :
  triple (has v) (Screens.draw_buttons bs) (fun _ => has v).
Proof.
  induction bs as [| b rest IH]; cbn [Screens.draw_buttons].
  - apply triple_ret. intros g Hg. exact Hg.
  - eapply triple_bind; [apply has_draw_button | intros ?; exact IH].
Qed.

Lemma has_text_box_lines (lines : list string) (max_lines tx line_h scale : Z) :
  forall shown ty,
    triple (has v)
      (Screens.text_box_lines lines shown max_lines tx ty line_h t scale)
      (fun _ => has v).
Proof.
  induction lines as [| line rest IH]; intros shown ty; cbn [Screens.text_box_lines].
  - apply triple_ret. intros g Hg. exact Hg.
  - destruct (shown >=? max_lines).
    + apply triple_ret. intros g Hg. exact Hg.
    + eapply triple_bind; [apply has_lcd_do | intros ?; apply IH].
Qed.

Lemma has_floordiv (a b : Z) :
  b <> 0 ->
  triple (has v) (Screens.floordiv a b) (fun q g => q = a / b /\ has v g).
Proof.
  intros Hb. unfold Screens.floordiv.
  destruct (Z.eqb_spec b 0); [contradiction |].
  apply triple_ret. intros g Hg. split; [reflexivity | exact Hg].
Qed.

Lemma has_text_box_scales (scales : list Z) (text : string) (x y w h : Z) :
  Forall (fun s => s <> 0) scales ->
  triple (has v) (Screens.text_box_scales scales text x y w h t) (fun _ => has v).
Proof.
  induction 1 as [| scale rest Hs Hrest IH]; cbn [Screens.text_box_scales].
  - apply triple_ret. intros g Hg. exact Hg.
  - eapply triple_bind; [apply has_floordiv; lia |].
    intros max_chars. cbv zeta.
    apply triple_fact. intros _.
    eapply triple_bind; [apply (has_floordiv (h - 16) (8 * scale + 2)); lia |].
    intros max_lines. apply triple_fact. intros _.
    destruct ((Py.len (Main.wrap_text text max_chars) <=? max_lines) || (scale =? 1)).
    + apply has_text_box_lines.
    + exact IH.
Qed.

Lemma has_draw_text_box (text : string) (x y w h prefer_scale : Z) :
  prefer_scale <> 0 ->
  triple (has v) (Screens.draw_text_box text x y w h prefer_scale) (fun _ => has v).
Proof.
  intros Hp. unfold Screens.draw_text_box.
  eapply triple_bind; [apply has_th |]. intros t'.
  apply triple_fact. intros Ht. subst t'.
  eapply triple_bind; [apply has_lcd_do | intros ?].
  eapply triple_bind; [apply has_draw_border | intros ?].
  apply has_text_box_scales. repeat constructor; [exact Hp | discriminate].
Qed.

End DrawFacts.

Section AppSteps.

Import FlowSpec.

(** Redrawing the card leaves the shared variables alone. *)
Lemma app_draw_comm_card (ti : Z) (cs : Main.screen) (cc : list Main.card)
    (cn : string) (ci : Z) (out : list string) (t : Main.Theme) (c : Main.card)
    (now : Z) :
  Py.index Main.THEMES ti = Some t ->
  Py.index cc ci = Some c ->
  AppSpec.keeps (fun st => app_view st = (ti, cs, cc, cn, ci) /\ Main.console st = out)
                (Main.draw_comm_card now).
Proof.
  intros Ht Hc.
  apply (frame_draw_comm_card
           (fun st => app_view st = (ti, cs, cc, cn, ci) /\ Main.console st = out) t).
  - intros call st H. destruct st. exact H.
  - intros d s st H. destruct st. exact H.
  - intros st [H _]. unfold app_view in H. injection H as Hti _ _ _ _.
    rewrite Hti. exact Ht.
  - intros st [H _]. unfold app_view in H. injection H as _ _ Hcc _ Hci.
    exists c. rewrite Hcc, Hci. exact Hc.
Qed.

(** Moving to card [i] of the active list. *)
Lemma app_move_to_card (st : Main.App) (now i : Z) (t : Main.Theme) :
  Py.index Main.THEMES (Main.theme_index st) = Some t ->
  0 <= i < Py.len (Main.comm_cards st) ->
  exists st',
    Main.bind (Main.set_comm (Main.comm_cards st) (Main.comm_cat_name st) i)
              (fun _ => Main.draw_comm_card now) st = (Py.Ok tt, st')
    /\ app_view st' = (Main.theme_index st, Main.current_screen st,
                       Main.comm_cards st, Main.comm_cat_name st, i)
    /\ Main.console st' = Main.console st.
Proof.
  intros Ht Hi.
  destruct (index_in_bounds _ _ Hi) as [c Hc].
  unfold Main.bind at 1.
  destruct st as [mic q rms lp ld ls ti cs cc cn ci wd lt lcd con].
  cbv [Main.set_comm]. run_app. run_app_in Ht. run_app_in Hc. run_app_in Hi.
  destruct (app_draw_comm_card ti cs cc cn i con t c now Ht Hc
              (Main.mkApp mic q rms lp ld ls ti cs cc cn i wd lt lcd con))
    as (u & st' & Hrun & HP & Hout).
  { split; reflexivity. }
  destruct u. exists st'. split; [exact Hrun |]. split; assumption.
Qed.

Lemma app_comm_prev (st : Main.App) (now : Z) (t : Main.Theme) :
  Py.index Main.THEMES (Main.theme_index st) = Some t ->
  0 <= Main.comm_card_index st < Py.len (Main.comm_cards st) ->
  exists st',
    Main.comm_prev now st = (Py.Ok tt, st')
    /\ app_view st' = (Main.theme_index st, Main.current_screen st,
                       Main.comm_cards st, Main.comm_cat_name st,
                       Z.max 0 (Main.comm_card_index st - 1))
    /\ Main.console st' = Main.console st.
Proof.
  intros Ht Hin.
  unfold Main.comm_prev, Main.bind at 1, Main.get. rewrite Z.gtb_ltb.
  destruct (Z.ltb_spec 0 (Main.comm_card_index st)) as [Hmid | Hfirst].
  - replace (Z.max 0 (Main.comm_card_index st - 1)) with (Main.comm_card_index st - 1)
      by lia.
    apply (app_move_to_card st now _ t Ht). lia.
  - exists st. split; [reflexivity |].
    replace (Z.max 0 (Main.comm_card_index st - 1)) with (Main.comm_card_index st) by lia.
    split; reflexivity.
Qed.

Lemma app_comm_next (st : Main.App) (now : Z) (t : Main.Theme) :
  Py.index Main.THEMES (Main.theme_index st) = Some t ->
  0 <= Main.comm_card_index st < Py.len (Main.comm_cards st) ->
  exists st',
    Main.comm_next now st = (Py.Ok tt, st')
    /\ app_view st' = (Main.theme_index st, Main.current_screen st,
                       Main.comm_cards st, Main.comm_cat_name st,
                       Z.min (Py.len (Main.comm_cards st) - 1)
                             (Main.comm_card_index st + 1))
    /\ Main.console st' = Main.console st.
Proof.
  intros Ht Hin.
  unfold Main.comm_next, Main.bind at 1, Main.get.
  destruct (Z.ltb_spec (Main.comm_card_index st) (Py.len (Main.comm_cards st) - 1))
    as [Hmid | Hlast].
  - replace (Z.min (Py.len (Main.comm_cards st) - 1) (Main.comm_card_index st + 1))
      with (Main.comm_card_index st + 1) by lia.
    apply (app_move_to_card st now _ t Ht). lia.
  - exists st. split; [reflexivity |].
    replace (Z.min (Py.len (Main.comm_cards st) - 1) (Main.comm_card_index st + 1))
      with (Main.comm_card_index st) by lia.
    split; reflexivity.
Qed.

(** Opening a category shows its first card. *)
Lemma app_open_category (st : Main.App) (now idx : Z) (t : Main.Theme) :
  Py.index Main.THEMES (Main.theme_index st) = Some t ->
  0 <= idx < Py.len Main.COMM_CATEGORIES ->
  exists st' cat_name cat_cards bg_ fg_,
    Main.open_category idx now st = (Py.Ok tt, st')
    /\ Py.index Main.COMM_CATEGORIES idx = Some (cat_name, cat_cards, bg_, fg_)
    /\ 0 < Py.len cat_cards
    /\ app_view st' = (Main.theme_index st, Main.SCREEN_COMM_CARD, cat_cards, cat_name, 0)
    /\ Main.console st' = Main.console st.
Proof.
  intros Ht Hidx.
  assert (Hcat : exists cat_name cat_cards bg_ fg_ c,
             Py.index Main.COMM_CATEGORIES idx = Some (cat_name, cat_cards, bg_, fg_)
             /\ Py.index cat_cards 0 = Some c /\ 0 < Py.len cat_cards).
  { change (Py.len Main.COMM_CATEGORIES) with 5 in Hidx.
    assert (Hcases : idx = 0 \/ idx = 1 \/ idx = 2 \/ idx = 3 \/ idx = 4) by lia.
    destruct Hcases as [-> | [-> | [-> | [-> | ->]]]];
      do 5 eexists; (split; [reflexivity | split; reflexivity]). }
  destruct Hcat as (cat_name & cat_cards & bg_ & fg_ & c & Hcat & Hc & Hlen).
  destruct st as [mic q rms lp ld ls ti cs cc cn ci wd lt lcd con].
  run_app_in Ht.
  unfold Main.open_category, Main.show_comm_card.
  unfold Main.bind at 1. unfold Main.index_or_raise at 1. rewrite Hcat.
  cbv beta iota delta [Main.ret].
  unfold Main.bind at 1. cbv beta iota delta [Main.set_comm].
  unfold Main.bind at 1. cbv beta iota delta [Main.set_current_screen].
  run_app.
  destruct (app_draw_comm_card ti Main.SCREEN_COMM_CARD cat_cards cat_name 0 con t c now
              Ht Hc
              (Main.mkApp mic q rms lp ld ls ti Main.SCREEN_COMM_CARD
                          cat_cards cat_name 0 wd lt lcd con))
    as (u & st' & Hrun & HP & Hout).
  { split; reflexivity. }
  destruct u. exists st', cat_name, cat_cards, bg_, fg_.
  split; [exact Hrun |]. split; [reflexivity |]. split; [exact Hlen |].
  split; [exact HP | exact Hout].
Qed.

End AppSteps.

Section SetterFacts.

Import FlowSpec.

Variable v : View.

Lemma has_set_page_index (x : Z) :
  triple (has v) (Screens.set_page_index x) (fun _ => has (with_page_index v x)).
Proof. intros g <-. eexists. eexists. split; reflexivity. Qed.

Lemma has_set_menu_page (x : Z) :
  triple (has v) (Screens.set_menu_page x) (fun _ => has (with_menu_page v x)).
Proof. intros g <-. eexists. eexists. split; reflexivity. Qed.

Lemma has_set_menu_buttons (bs : list Screens.Btn) :
  triple (has v) (Screens.set_menu_buttons bs) (fun _ => has (with_menu_buttons v bs)).
Proof. intros g <-. eexists. eexists. split; reflexivity. Qed.

Lemma has_set_settings_buttons (bs : list Screens.Btn) :
  triple (has v) (Screens.set_settings_buttons bs)
         (fun _ => has (with_settings_buttons v bs)).
Proof. intros g <-. eexists. eexists. split; reflexivity. Qed.

Lemma has_set_comm_menu_buttons (bs : list Screens.Btn) :
  triple (has v) (Screens.set_comm_menu_buttons bs)
         (fun _ => has (with_comm_menu_buttons v bs)).
Proof. intros g <-. eexists. eexists. split; reflexivity. Qed.

Lemma has_sleep_ms (ms : Z) :
  triple (has v) (Screens.sleep_ms ms) (fun _ => has v).
Proof. intros g <-. eexists. eexists. split; reflexivity. Qed.

Lemma has_set_theme_index (idx : Z) :
  triple (has v) (Screens.set_theme_index idx) (fun _ => has (with_theme v idx)).
Proof.
  intros g <-. eexists. eexists. split; [reflexivity |].
  destruct g as [st pi mp mb sb cb sl]. reflexivity.
Qed.

Lemma has_set_current_screen (s : Main.screen) :
  triple (has v) (Screens.set_current_screen s) (fun _ => has (with_screen v s)).
Proof.
  intros g <-. eexists. eexists. split; [reflexivity |].
  destruct g as [st pi mp mb sb cb sl]. reflexivity.
Qed.

Lemma has_index {A : Type} (l : list A) (i : Z) (a : A) :
  Py.index l i = Some a ->
  triple (has v) (Screens.index_or_raise l i) (fun a' g => a' = a /\ has v g).
Proof.
  intros Hi. unfold Screens.index_or_raise. rewrite Hi.
  apply triple_ret. intros g Hg. split; [reflexivity | exact Hg].
Qed.

End SetterFacts.

(** One drawing step of a screen, the theme being selected. *)
Ltac draw_step Ht :=
  cbv beta;
  lazymatch goal with
  | |- FlowSpec.triple (FlowSpec.has ?v) (Screens.lcd_do _) _ =>
      apply (has_lcd_do v)
  | |- FlowSpec.triple (FlowSpec.has ?v) (Screens.draw_border _ _ _ _ _) _ =>
      apply (has_draw_border v)
  | |- FlowSpec.triple (FlowSpec.has ?v) (Screens.draw_title_bar _ _) _ =>
      apply (has_draw_title_bar v _ Ht)
  | |- FlowSpec.triple (FlowSpec.has ?v) (Screens.draw_indicator _) _ =>
      apply (has_draw_indicator v _ Ht)
  | |- FlowSpec.triple (FlowSpec.has ?v) (Screens.draw_button _ _) _ =>
      apply (has_draw_button v _ Ht)
  | |- FlowSpec.triple (FlowSpec.has ?v) (Screens.draw_buttons _) _ =>
      apply (has_draw_buttons v _ Ht)
  | |- FlowSpec.triple (FlowSpec.has ?v) (Screens.draw_text_box _ _ _ _ _ _) _ =>
      apply (has_draw_text_box v _ Ht); discriminate
  | |- FlowSpec.triple (FlowSpec.has ?v) (Screens.sleep_ms _) _ =>
      apply (has_sleep_ms v)
  end.

(** A drawing step followed by the rest of the function. *)
Ltac draw_next Ht :=
  cbv beta;
  lazymatch goal with
  | |- FlowSpec.triple _ (Screens.bind _ _) _ =>
      eapply triple_bind; [draw_step Ht | intros ?]
  end.

Ltac draw_steps Ht := repeat (draw_next Ht).

(** Read the theme, which is the selected one. *)
Ltac read_theme Ht :=
  cbv beta;
  lazymatch goal with
  | |- FlowSpec.triple (FlowSpec.has ?v) _ _ =>
      eapply triple_bind;
      [ apply (has_th v _ Ht)
      | let t' := fresh "t'" in
        let E := fresh "E" in
        intros t'; apply triple_fact; intros E; subst t' ]
  end.

Section ScreenSteps.

Import FlowSpec.

Lemma triple_any {A : Type} (C : View -> Prop) (c : Screens.Run A)
    (Q : A -> Screens.Globals -> Prop) :
  (forall v, C v -> triple (has v) c Q) -> triple (fun g => C (view g)) c Q.
Proof. intros H g Hg. exact (H (view g) Hg g eq_refl). Qed.

Lemma has_draw_grounding (v : View) (t : Main.Theme) (now : Z) :
  Py.index Main.THEMES (theme_index v) = Some t ->
  0 <= page_index v < Py.len Screens.GROUNDING_PAGES ->
  triple (has v) (Screens.draw_grounding now) (fun _ => has v).
Proof.
  intros Ht Hpage. unfold Screens.draw_grounding.
  read_theme Ht. draw_steps Ht. cbv zeta.
  apply triple_get. intros g0 Hg0.
  draw_next Ht.
  apply triple_get. intros g1 Hg1.
  destruct (has_fields v g1 Hg1) as (_ & _ & _ & _ & _ & Hpi & _). rewrite Hpi.
  destruct (index_in_bounds Screens.GROUNDING_PAGES (page_index v) Hpage) as [page Hp].
  eapply triple_bind; [apply (has_index v _ _ page Hp) |].
  intros page'. apply triple_fact. intros ->.
  draw_steps Ht. draw_step Ht.
Qed.

Lemma has_show_grounding (v : View) (t : Main.Theme) (now : Z) :
  Py.index Main.THEMES (theme_index v) = Some t ->
  0 <= page_index v < Py.len Screens.GROUNDING_PAGES ->
  triple (has v) (Screens.show_grounding now)
         (fun _ => has (with_screen v Main.SCREEN_GROUND)).
Proof.
  intros Ht Hpage. unfold Screens.show_grounding.
  eapply triple_bind; [apply has_set_current_screen | intros ?].
  apply (has_draw_grounding _ t now); assumption.
Qed.

Lemma has_grounding_prev (v : View) (t : Main.Theme) (now : Z) :
  Py.index Main.THEMES (theme_index v) = Some t ->
  0 <= page_index v < Py.len Screens.GROUNDING_PAGES ->
  triple (has v) (Screens.grounding_prev now)
         (fun _ => has (with_page_index v (Z.max 0 (page_index v - 1)))).
Proof.
  intros Ht Hpage. unfold Screens.grounding_prev.
  apply triple_get. intros g0 Hg0.
  destruct (has_fields v g0 Hg0) as (_ & _ & _ & _ & _ & Hpi & _). rewrite Hpi.
  rewrite Z.gtb_ltb. destruct (Z.ltb_spec 0 (page_index v)) as [Hmid | Hfirst].
  - replace (Z.max 0 (page_index v - 1)) with (page_index v - 1) by lia.
    eapply triple_bind; [apply has_set_page_index | intros ?].
    apply (has_draw_grounding _ t now); [exact Ht |].
    cbn [page_index with_page_index]. lia.
  - apply triple_ret. intros g Hg.
    replace (Z.max 0 (page_index v - 1)) with (page_index v) by lia.
    destruct v. exact Hg.
Qed.

Lemma has_grounding_next (v : View) (t : Main.Theme) (now : Z) :
  Py.index Main.THEMES (theme_index v) = Some t ->
  0 <= page_index v < Py.len Screens.GROUNDING_PAGES ->
  triple (has v) (Screens.grounding_next now)
         (fun _ => has (with_page_index v
                          (Z.min (Py.len Screens.GROUNDING_PAGES - 1) (page_index v + 1)))).
Proof.
  intros Ht Hpage. unfold Screens.grounding_next.
  apply triple_get. intros g0 Hg0.
  destruct (has_fields v g0 Hg0) as (_ & _ & _ & _ & _ & Hpi & _). rewrite Hpi.
  destruct (Z.ltb_spec (page_index v) (Py.len Screens.GROUNDING_PAGES - 1))
    as [Hmid | Hlast].
  - replace (Z.min (Py.len Screens.GROUNDING_PAGES - 1) (page_index v + 1))
      with (page_index v + 1) by lia.
    eapply triple_bind; [apply has_set_page_index | intros ?].
    apply (has_draw_grounding _ t now); [exact Ht |].
    cbn [page_index with_page_index]. lia.
  - apply triple_ret. intros g Hg.
    replace (Z.min (Py.len Screens.GROUNDING_PAGES - 1) (page_index v + 1))
      with (page_index v) by lia.
    destruct v. exact Hg.
Qed.

Lemma has_show_contacts (v : View) (t : Main.Theme) (now : Z) :
  Py.index Main.THEMES (theme_index v) = Some t ->
  triple (has v) (Screens.show_contacts now)
         (fun _ => has (with_screen v Main.SCREEN_CONTACTS)).
Proof.
  intros Ht. unfold Screens.show_contacts.
  read_theme Ht.
  eapply triple_bind; [apply has_set_current_screen | intros ?].
  draw_steps Ht. cbv zeta. draw_steps Ht. draw_step Ht.
Qed.

(** The loop of [show_settings] appends one button per theme row. *)
Lemma has_settings_loop (t : Main.Theme) (rows : list (Z * Main.Theme))
    (grid_x grid_y cols gapx gapy bw bh : Z) :
  forall v,
    Py.index Main.THEMES (theme_index v) = Some t ->
    triple (has v)
      (Screens.settings_loop rows grid_x grid_y cols gapx gapy bw bh)
      (fun _ =>
         has (with_settings_buttons v
                (settings_buttons v
                 ++ map (fun r =>
                           Screens.make_btn
                             (grid_x + (fst r mod cols) * (bw + gapx))
                             (grid_y + (fst r / cols) * (bh + gapy))
                             bw bh (Main.name (snd r)) (Screens.cb_apply_theme (fst r))
                             (Some (Main.title_bg (snd r)))
                             (Some (Main.title_fg (snd r))))
                        rows))).
Proof.
  induction rows as [| [i row] rest IH]; intros v Ht; cbn [Screens.settings_loop map].
  - apply triple_ret. intros g Hg. rewrite app_nil_r. destruct v. exact Hg.
  - cbv zeta. apply triple_get. intros g0 Hg0.
    destruct (has_fields v g0 Hg0) as (_ & _ & _ & _ & _ & _ & _ & _ & Hsb & _).
    rewrite Hsb.
    eapply triple_bind; [apply has_set_settings_buttons | intros ?].
    draw_next Ht.
    eapply triple_post; [apply IH; exact Ht |].
    intros ? g Hg. cbn [fst snd] in *.
    cbn [with_settings_buttons settings_buttons theme_index current_screen comm_cards
         comm_cat_name comm_card_index page_index menu_page menu_buttons
         comm_menu_buttons] in Hg.
    rewrite <- app_assoc in Hg. exact Hg.
Qed.

Lemma has_show_settings (v : View) (t : Main.Theme) (now : Z) :
  Py.index Main.THEMES (theme_index v) = Some t ->
  triple (has v) (Screens.show_settings now)
         (fun _ => has (with_settings_buttons (with_screen v Main.SCREEN_SETTINGS)
                                              settings_layout)).
Proof.
  intros Ht. unfold Screens.show_settings.
  read_theme Ht.
  eapply triple_bind; [apply has_set_current_screen | intros ?].
  draw_steps Ht.
  eapply triple_bind; [apply has_set_settings_buttons | intros ?].
  cbv zeta.
  eapply triple_bind; [apply has_floordiv; discriminate |].
  intros bh. apply triple_fact. intros ->.
  eapply triple_bind; [apply (has_settings_loop t); exact Ht | intros ?].
  eapply triple_post; [draw_step Ht |].
  intros ? g Hg. exact Hg.
Qed.

Lemma has_apply_theme (v : View) (idx now : Z) :
  0 <= idx < Py.len Main.THEMES ->
  triple (has v) (Screens.apply_theme idx now)
         (fun _ => has (with_settings_buttons
                          (with_screen (with_theme v idx) Main.SCREEN_SETTINGS)
                          settings_layout)).
Proof.
  intros Hidx. destruct (index_in_bounds Main.THEMES idx Hidx) as [t Ht].
  unfold Screens.apply_theme.
  eapply triple_bind; [apply has_set_theme_index | intros ?].
  apply (has_show_settings _ t now). exact Ht.
Qed.

(** The loop of [build_comm_menu_buttons] appends one button per
    category. *)
Lemma has_comm_menu_loop (rows : list (Z * (string * list Main.card * Z * Z)))
    (grid_x grid_y cols gapx gapy bw bh : Z) :
  forall v,
    triple (has v)
      (Screens.comm_menu_loop rows grid_x grid_y cols gapx gapy bw bh)
      (fun _ =>
         has (with_comm_menu_buttons v
                (comm_menu_buttons v
                 ++ map (fun r =>
                           Screens.make_btn
                             (grid_x + (fst r mod cols) * (bw + gapx))
                             (grid_y + (fst r / cols) * (bh + gapy))
                             bw bh (fst (fst (fst (snd r))))
                             (Screens.cb_open_category (fst r))
                             (Some (snd (fst (snd r))))
                             (Some (snd (snd r))))
                        rows))).
Proof.
  induction rows as [| [i [[[name cards] bg_] fg_]] rest IH]; intros v;
    cbn [Screens.comm_menu_loop map].
  - apply triple_ret. intros g Hg. rewrite app_nil_r. destruct v. exact Hg.
  - cbv zeta. apply triple_get. intros g0 Hg0.
    destruct (has_fields v g0 Hg0) as (_ & _ & _ & _ & _ & _ & _ & _ & _ & Hcb).
    rewrite Hcb.
    eapply triple_bind; [apply has_set_comm_menu_buttons | intros ?].
    eapply triple_post; [apply IH |].
    intros ? g Hg. cbn [fst snd] in *.
    cbn [with_comm_menu_buttons settings_buttons theme_index current_screen comm_cards
         comm_cat_name comm_card_index page_index menu_page menu_buttons
         comm_menu_buttons] in Hg.
    rewrite <- app_assoc in Hg. exact Hg.
Qed.

Lemma has_build_comm_menu_buttons (v : View) :
  triple (has v) Screens.build_comm_menu_buttons
         (fun _ => has (with_comm_menu_buttons v comm_menu_layout)).
Proof.
  unfold Screens.build_comm_menu_buttons.
  eapply triple_bind; [apply has_set_comm_menu_buttons | intros ?].
  cbv zeta.
  eapply triple_bind; [apply has_floordiv; discriminate |].
  intros bh. apply triple_fact. intros ->.
  eapply triple_post; [apply has_comm_menu_loop |].
  intros ? g Hg. exact Hg.
Qed.

Lemma has_show_comm_menu (v : View) (t : Main.Theme) (now : Z) :
  Py.index Main.THEMES (theme_index v) = Some t ->
  triple (has v) (Screens.show_comm_menu now)
         (fun _ => has (with_comm_menu_buttons (with_screen v Main.SCREEN_COMM_MENU)
                                               comm_menu_layout)).
Proof.
  intros Ht. unfold Screens.show_comm_menu.
  read_theme Ht.
  eapply triple_bind; [apply has_set_current_screen | intros ?].
  draw_steps Ht.
  eapply triple_bind; [apply has_build_comm_menu_buttons | intros ?].
  apply triple_get. intros g0 Hg0.
  draw_next Ht.
  draw_step Ht.
Qed.

End ScreenSteps.

(** One round of the loop of [build_menu_buttons]. *)
Ltac menu_item_step :=
  cbv beta;
  cbn [Screens.menu_items_loop];
  eapply triple_bind; [eapply has_index; reflexivity |];
  let item := fresh "item" in
  let E := fresh "E" in
  intros item; apply triple_fact; intros E; subst item;
  cbv beta iota;
  apply triple_get;
  let g := fresh "g" in
  let Hg := fresh "Hg" in
  intros g Hg;
  lazymatch type of Hg with
  | FlowSpec.has ?v g =>
      let Hmb := fresh "Hmb" in
      destruct (has_fields v g Hg) as (_ & _ & _ & _ & _ & _ & _ & Hmb & _);
      rewrite Hmb; clear Hmb
  end;
  eapply triple_bind; [apply has_set_menu_buttons | intros ?].

Section MenuSteps.

Import FlowSpec.

Lemma has_build_menu_buttons (v : View) :
  0 <= menu_page v < Screens.menu_total_pages ->
  triple (has v) Screens.build_menu_buttons
         (fun _ => has (with_menu_buttons v (menu_layout (menu_page v)))).
Proof.
  intros Hpage. change Screens.menu_total_pages with 2 in Hpage.
  unfold Screens.build_menu_buttons. cbv zeta.
  apply triple_get. intros g0 Hg0.
  destruct (has_fields v g0 Hg0) as (_ & _ & _ & _ & _ & _ & Hmp & _). rewrite Hmp.
  assert (Hcases : menu_page v = 0 \/ menu_page v = 1) by lia.
  destruct Hcases as [E | E]; rewrite E.
  - eapply triple_bind; [apply has_set_menu_buttons | intros ?].
    change (Screens.range (0 * Screens.MENU_ITEMS_PER_PAGE)
              (Py.min (0 * Screens.MENU_ITEMS_PER_PAGE + Screens.MENU_ITEMS_PER_PAGE)
                      (Py.len Screens.MENU_ALL_ITEMS)))
      with [0; 1].
    menu_item_step. menu_item_step.
    cbv beta. cbn [Screens.menu_items_loop].
    apply triple_ret. intros gf Hgf. exact Hgf.
  - eapply triple_bind; [apply has_set_menu_buttons | intros ?].
    change (Screens.range (1 * Screens.MENU_ITEMS_PER_PAGE)
              (Py.min (1 * Screens.MENU_ITEMS_PER_PAGE + Screens.MENU_ITEMS_PER_PAGE)
                      (Py.len Screens.MENU_ALL_ITEMS)))
      with [2; 3].
    menu_item_step. menu_item_step.
    cbv beta. cbn [Screens.menu_items_loop].
    apply triple_ret. intros gf Hgf. exact Hgf.
Qed.

Lemma has_draw_menu (v : View) (t : Main.Theme) (now : Z) :
  Py.index Main.THEMES (theme_index v) = Some t ->
  0 <= menu_page v < Screens.menu_total_pages ->
  triple (has v) (Screens.draw_menu now)
         (fun _ => has (with_menu_buttons v (menu_layout (menu_page v)))).
Proof.
  intros Ht Hpage. unfold Screens.draw_menu.
  read_theme Ht. draw_steps Ht.
  eapply triple_bind; [apply has_build_menu_buttons; exact Hpage | intros ?].
  apply triple_get. intros g0 Hg0.
  draw_next Ht. cbv zeta.
  apply triple_get. intros g1 Hg1.
  draw_next Ht.
  change (Screens.menu_total_pages >? 1) with true. cbv iota.
  draw_next Ht. draw_step Ht.
Qed.

Lemma has_show_menu (v : View) (t : Main.Theme) (now : Z) :
  Py.index Main.THEMES (theme_index v) = Some t ->
  0 <= menu_page v < Screens.menu_total_pages ->
  triple (has v) (Screens.show_menu now)
         (fun _ => has (with_menu_buttons (with_screen v Main.SCREEN_MENU)
                                          (menu_layout (menu_page v)))).
Proof.
  intros Ht Hpage. unfold Screens.show_menu.
  eapply triple_bind; [apply has_set_current_screen | intros ?].
  apply (has_draw_menu (with_screen v Main.SCREEN_MENU) t now); assumption.
Qed.

Lemma has_menu_prev (v : View) (t : Main.Theme) (now : Z) :
  Py.index Main.THEMES (theme_index v) = Some t ->
  0 <= menu_page v < Screens.menu_total_pages ->
  menu_buttons v = menu_layout (menu_page v) ->
  triple (has v) (Screens.menu_prev now)
         (fun _ => has (with_menu_buttons
                          (with_menu_page v (Z.max 0 (menu_page v - 1)))
                          (menu_layout (Z.max 0 (menu_page v - 1))))).
Proof.
  intros Ht Hpage Hmb. unfold Screens.menu_prev.
  apply triple_get. intros g0 Hg0.
  destruct (has_fields v g0 Hg0) as (_ & _ & _ & _ & _ & _ & Hmp & _). rewrite Hmp.
  rewrite Z.gtb_ltb. destruct (Z.ltb_spec 0 (menu_page v)) as [Hmid | Hfirst].
  - replace (Z.max 0 (menu_page v - 1)) with (menu_page v - 1) by lia.
    eapply triple_bind; [apply has_set_menu_page | intros ?].
    apply (has_draw_menu (with_menu_page v (menu_page v - 1)) t now); [exact Ht |].
    cbn [menu_page with_menu_page]. lia.
  - apply triple_ret. intros g Hg.
    replace (Z.max 0 (menu_page v - 1)) with (menu_page v) by lia.
    rewrite <- Hmb. destruct v. exact Hg.
Qed.

Lemma has_menu_next (v : View) (t : Main.Theme) (now : Z) :
  Py.index Main.THEMES (theme_index v) = Some t ->
  0 <= menu_page v < Screens.menu_total_pages ->
  menu_buttons v = menu_layout (menu_page v) ->
  triple (has v) (Screens.menu_next now)
         (fun _ => has (with_menu_buttons
                          (with_menu_page v
                             (Z.min (Screens.menu_total_pages - 1) (menu_page v + 1)))
                          (menu_layout
                             (Z.min (Screens.menu_total_pages - 1) (menu_page v + 1))))).
Proof.
  intros Ht Hpage Hmb. unfold Screens.menu_next.
  apply triple_get. intros g0 Hg0.
  destruct (has_fields v g0 Hg0) as (_ & _ & _ & _ & _ & _ & Hmp & _). rewrite Hmp.
  destruct (Z.ltb_spec (menu_page v) (Screens.menu_total_pages - 1)) as [Hmid | Hlast].
  - replace (Z.min (Screens.menu_total_pages - 1) (menu_page v + 1))
      with (menu_page v + 1) by lia.
    eapply triple_bind; [apply has_set_menu_page | intros ?].
    apply (has_draw_menu (with_menu_page v (menu_page v + 1)) t now); [exact Ht |].
    cbn [menu_page with_menu_page]. lia.
  - apply triple_ret. intros g Hg.
    replace (Z.min (Screens.menu_total_pages - 1) (menu_page v + 1))
      with (menu_page v) by lia.
    rewrite <- Hmb. destruct v. exact Hg.
Qed.

End MenuSteps.

(** The view reached is consistent. *)
Ltac view_done :=
  let g := fresh "g" in
  let Hg := fresh "Hg" in
  intros ? g Hg; unfold FlowSpec.has in Hg; rewrite Hg;
  unfold FlowSpec.consistent;
  change Screens.menu_total_pages with 2;
  cbn [FlowSpec.with_menu_buttons FlowSpec.with_screen FlowSpec.with_app
       FlowSpec.with_theme FlowSpec.with_card FlowSpec.with_page_index
       FlowSpec.with_menu_page FlowSpec.with_settings_buttons
       FlowSpec.with_comm_menu_buttons FlowSpec.theme_index FlowSpec.current_screen
       FlowSpec.comm_cards FlowSpec.comm_cat_name FlowSpec.comm_card_index
       FlowSpec.page_index FlowSpec.menu_page FlowSpec.menu_buttons
       FlowSpec.settings_buttons FlowSpec.comm_menu_buttons];
  repeat split;
  first [ assumption | reflexivity | lia | right; reflexivity ].

Section CallbackFacts.

Import FlowSpec.

Lemma consistent_theme (v : View) :
  consistent v -> exists t, Py.index Main.THEMES (theme_index v) = Some t.
Proof. intros (Hti & _). apply index_in_bounds. exact Hti. Qed.

(** [speak] prints and leaves the shared variables alone. *)
Lemma has_speak (v : View) (text : string) :
  triple (has v) (Screens.lift (Main.speak text)) (fun _ => has v).
Proof.
  apply has_keeps. intros st Hst. eexists. eexists. split; [reflexivity |].
  destruct st. exact Hst.
Qed.

Lemma has_comm_prev (v : View) (now : Z) :
  consistent v ->
  triple (has v) (Screens.lift (Main.comm_prev now))
         (fun _ => has (with_card v (comm_cards v) (comm_cat_name v)
                                  (Z.max 0 (comm_card_index v - 1)))).
Proof.
  intros Hc. destruct (consistent_theme v Hc) as [t Ht].
  destruct Hc as (_ & Hidx & _).
  eapply triple_post.
  - apply (has_lift v (theme_index v, current_screen v, comm_cards v, comm_cat_name v,
                       Z.max 0 (comm_card_index v - 1))
                    (Main.comm_prev now) (fun _ => True)).
    intros st Hst. unfold app_view, app_part in Hst.
    injection Hst as Hti Hcs Hcc Hcn Hci.
    destruct (app_comm_prev st now t) as (st' & Hrun & Hview & _).
    { rewrite Hti. exact Ht. }
    { rewrite Hcc, Hci. exact Hidx. }
    exists tt, st'. split; [exact Hrun |]. split; [| exact I].
    rewrite Hview, Hti, Hcs, Hcc, Hcn, Hci. reflexivity.
  - intros ? g [_ Hg]. exact Hg.
Qed.

Lemma has_comm_next (v : View) (now : Z) :
  consistent v ->
  triple (has v) (Screens.lift (Main.comm_next now))
         (fun _ => has (with_card v (comm_cards v) (comm_cat_name v)
                                  (Z.min (Py.len (comm_cards v) - 1)
                                         (comm_card_index v + 1)))).
Proof.
  intros Hc. destruct (consistent_theme v Hc) as [t Ht].
  destruct Hc as (_ & Hidx & _).
  eapply triple_post.
  - apply (has_lift v (theme_index v, current_screen v, comm_cards v, comm_cat_name v,
                       Z.min (Py.len (comm_cards v) - 1) (comm_card_index v + 1))
                    (Main.comm_next now) (fun _ => True)).
    intros st Hst. unfold app_view, app_part in Hst.
    injection Hst as Hti Hcs Hcc Hcn Hci.
    destruct (app_comm_next st now t) as (st' & Hrun & Hview & _).
    { rewrite Hti. exact Ht. }
    { rewrite Hcc, Hci. exact Hidx. }
    exists tt, st'. split; [exact Hrun |]. split; [| exact I].
    rewrite Hview, Hti, Hcs, Hcc, Hcn, Hci. reflexivity.
  - intros ? g [_ Hg]. exact Hg.
Qed.

Lemma has_open_category (v : View) (idx now : Z) :
  consistent v ->
  0 <= idx < Py.len Main.COMM_CATEGORIES ->
  exists cat_name cat_cards bg_ fg_,
    Py.index Main.COMM_CATEGORIES idx = Some (cat_name, cat_cards, bg_, fg_)
    /\ 0 < Py.len cat_cards
    /\ triple (has v) (Screens.lift (Main.open_category idx now))
              (fun _ => has (with_app v (theme_index v, Main.SCREEN_COMM_CARD,
                                         cat_cards, cat_name, 0))).
Proof.
  intros Hc Hidx. destruct (consistent_theme v Hc) as [t Ht].
  destruct (app_open_category (Main.initial false) 0 idx
              (Main.mkTheme "DARK (HC)" 0xFFFF 0x0000 0xFFFF 0xFFFF 0x0000
                            0xE71C 0x0000 0x07E0) eq_refl Hidx)
    as (_ & cat_name & cat_cards & bg_ & fg_ & _ & Hcat & Hlen & _ & _).
  exists cat_name, cat_cards, bg_, fg_.
  split; [exact Hcat |]. split; [exact Hlen |].
  eapply triple_post.
  - apply (has_lift v (theme_index v, Main.SCREEN_COMM_CARD, cat_cards, cat_name, 0)
                    (Main.open_category idx now) (fun _ => True)).
    intros st Hst. unfold app_view, app_part in Hst.
    injection Hst as Hti Hcs Hcc Hcn Hci.
    destruct (app_open_category st now idx t) as
      (st' & cn' & cc' & bg' & fg' & Hrun & Hcat' & _ & Hview & _).
    { rewrite Hti. exact Ht. }
    { exact Hidx. }
    rewrite Hcat in Hcat'. injection Hcat' as <- <- <- <-.
    exists tt, st'. split; [exact Hrun |]. split; [| exact I].
    rewrite Hview, Hti. reflexivity.
  - intros ? g [_ Hg]. exact Hg.
Qed.

(** Every callback that can be bound to a button takes a consistent
    state to a consistent state. *)
Lemma callback_step (v : View) (cb : Screens.callback) (now : Z) :
  consistent v -> callback_ok cb ->
  triple (has v) (Screens.run_callback cb now) (fun _ g => consistent (view g)).
Proof.
  intros Hc Hok. destruct (consistent_theme v Hc) as [t Ht].
  pose proof Hc as (Hti & Hci & Hpi & Hmp & Hmb & Hsb & Hcb).
  change Screens.menu_total_pages with 2 in Hmp.
  destruct cb; cbn [Screens.run_callback].
  - eapply triple_post; [apply (has_show_menu v t now); assumption |]. view_done.
  - eapply triple_post; [apply (has_show_grounding v t now); assumption |]. view_done.
  - eapply triple_post; [apply (has_show_comm_menu v t now); assumption |]. view_done.
  - eapply triple_post; [apply (has_show_contacts v t now); assumption |]. view_done.
  - eapply triple_post; [apply (has_show_settings v t now); assumption |]. view_done.
  - eapply triple_post; [apply (has_grounding_prev v t now); assumption |]. view_done.
  - eapply triple_post; [apply (has_grounding_next v t now); assumption |]. view_done.
  - eapply triple_post; [apply (has_menu_prev v t now); assumption |]. view_done.
  - eapply triple_post; [apply (has_menu_next v t now); assumption |]. view_done.
  - eapply triple_post; [apply (has_comm_prev v now); assumption |]. view_done.
  - eapply triple_post; [apply (has_comm_next v now); assumption |]. view_done.
  - apply triple_get. intros g0 Hg0.
    destruct (has_fields v g0 Hg0) as (_ & _ & Hcc & _ & Hidx & _).
    rewrite Hcc, Hidx.
    destruct (index_in_bounds _ _ Hci) as [c Hcard].
    eapply triple_bind; [apply (has_index v _ _ c Hcard) |].
    intros c'. apply triple_fact. intros ->.
    destruct c as [[[icon phrase] bg_] fg_].
    eapply triple_post; [apply has_speak |].
    intros ? g Hg. unfold has in Hg. rewrite Hg. exact Hc.
  - cbn [callback_ok] in Hok.
    eapply triple_post; [apply (has_apply_theme v idx now); exact Hok |]. view_done.
  - cbn [callback_ok] in Hok.
    destruct (has_open_category v idx now Hc Hok)
      as (cat_name & cat_cards & bg_ & fg_ & _ & Hlen & Hrun).
    eapply triple_post; [exact Hrun |]. view_done.
Qed.

Lemma layouts_ok :
  Forall (fun b => callback_ok (Ui.on_press (Screens.button b))) (menu_layout 0)
  /\ Forall (fun b => callback_ok (Ui.on_press (Screens.button b))) (menu_layout 1)
  /\ Forall (fun b => callback_ok (Ui.on_press (Screens.button b))) settings_layout
  /\ Forall (fun b => callback_ok (Ui.on_press (Screens.button b))) comm_menu_layout.
Proof.
  repeat split; repeat constructor; cbv; intros H; discriminate H.
Qed.

(** On a consistent state every button of the screen shown carries a
    callback that can run. *)
Lemma screen_buttons_ok (g : Screens.Globals) :
  consistent (view g) ->
  Forall (fun b => callback_ok (Ui.on_press (Screens.button b))) (Screens.screen_buttons g).
Proof.
  intros (_ & _ & _ & Hmp & Hmb & Hsb & Hcb).
  destruct layouts_ok as (Hm0 & Hm1 & Hs & Hcm).
  cbn [view menu_page menu_buttons settings_buttons comm_menu_buttons] in *.
  change Screens.menu_total_pages with 2 in Hmp.
  unfold Screens.screen_buttons.
  destruct (Main.current_screen (Screens.app g)).
  - rewrite Hmb. apply Forall_app. split.
    + assert (Hcases : Screens.menu_page g = 0 \/ Screens.menu_page g = 1) by lia.
      destruct Hcases as [-> | ->]; assumption.
    + repeat constructor.
  - repeat constructor.
  - repeat constructor.
  - apply Forall_app. split; [| repeat constructor].
    destruct Hsb as [-> | ->]; [constructor | exact Hs].
  - apply Forall_app. split; [| repeat constructor].
    destruct Hcb as [-> | ->]; [constructor | exact Hcm].
  - repeat constructor.
Qed.

(** A tap takes a consistent state to a consistent state. *)
Lemma press_step (sx sy now : Z) :
  triple (fun g => consistent (view g)) (Screens.press sx sy now)
         (fun _ g => consistent (view g)).
Proof.
  apply triple_any. intros v Hc. destruct (consistent_theme v Hc) as [t Ht].
  unfold Screens.press. apply triple_get. intros g0 Hg0.
  pose proof (screen_buttons_ok g0) as Hall.
  rewrite Hg0 in Hall. specialize (Hall Hc).
  destruct (find (fun b => Ui.contains (Screens.button b) sx sy)
                 (Screens.screen_buttons g0)) as [b |] eqn:Hfind.
  - apply find_some in Hfind. destruct Hfind as [Hin _].
    rewrite Forall_forall in Hall. specialize (Hall b Hin).
    draw_steps Ht.
    apply callback_step; assumption.
  - apply triple_ret. intros g Hg. unfold has in Hg. rewrite Hg. exact Hc.
Qed.

Lemma taps_step (l : list (Z * Z * Z)) :
  triple (fun g => consistent (view g)) (taps l) (fun _ g => consistent (view g)).
Proof.
  induction l as [| [[sx sy] now] rest IH]; cbn [taps].
  - apply triple_ret. intros g Hg. exact Hg.
  - eapply triple_bind; [apply press_step | intros ?; exact IH].
Qed.

(** Start-up and any series of taps. *)
Lemma session_consistent (mic_ok : bool) (now0 : Z) (l : list (Z * Z * Z)) :
  exists g, session mic_ok now0 l = (Screens.Ok tt, g) /\ consistent (view g).
Proof.
  unfold session.
  assert (Hrun : triple (has (view (Screens.initial mic_ok)))
                   (Screens.bind (Screens.show_menu now0) (fun _ => taps l))
                   (fun _ g => consistent (view g))).
  { eapply triple_bind.
    - apply (has_show_menu _ (Main.mkTheme "DARK (HC)" 0xFFFF 0x0000 0xFFFF 0xFFFF 0x0000
                                           0xE71C 0x0000 0x07E0) now0).
      + destruct mic_ok; reflexivity.
      + change (0 <= 0 < 2). lia.
    - intros ?. eapply triple_pre; [apply taps_step |].
      intros g Hg. cbv beta in *. unfold has in Hg. rewrite Hg.
      destruct mic_ok;
        (repeat split;
         first [ reflexivity | left; reflexivity
               | cbv; first [reflexivity | intros H; discriminate H] ]). }
  destruct (Hrun (Screens.initial mic_ok) eq_refl) as ([] & g & Hg & Hc).
  exists g. split; assumption.
Qed.

End CallbackFacts.

(** X19. The button scan never raises. A tap is a run of the main
    loop's button scan ([for b in screen_buttons(): ...]) at a screen
    point. From start-up ([show_menu()]), whatever the series of taps (any
    screen points, any times, with or without a classifier), every scan
    returns normally and the application stays consistent: the theme
    index, the card index, the grounding page and the menu page stay
    inside their lists, the menu's buttons are those of the current menu
    page, and the theme and category buttons are as their builders make
    them. *)
Theorem taps_never_raise :
  forall (mic_ok : bool) (now0 : Z) (l : list (Z * Z * Z)),
    exists g,
      FlowSpec.session mic_ok now0 l = (Screens.Ok tt, g)
      /\ 0 <= Main.theme_index (Screens.app g) < Py.len Main.THEMES
      /\ 0 <= Main.comm_card_index (Screens.app g)
         < Py.len (Main.comm_cards (Screens.app g))
      /\ 0 <= Screens.page_index g < Py.len Screens.GROUNDING_PAGES
      /\ 0 <= Screens.menu_page g < Screens.menu_total_pages
      /\ FlowSpec.consistent (FlowSpec.view g).
Proof.
  intros mic_ok now0 l.
  destruct (session_consistent mic_ok now0 l) as (g & Hrun & Hc).
  exists g. split; [exact Hrun |].
  pose proof Hc as (Hti & Hci & Hpi & Hmp & _).
  split; [exact Hti |]. split; [exact Hci |]. split; [exact Hpi |].
  split; [exact Hmp | exact Hc].
Qed.

Section LayoutFacts.

Import FlowSpec.

Lemma apart_excludes (a b : Screens.Btn) (px py : Z) :
  apart a b = true ->
  Ui.contains (Screens.button a) px py = true ->
  Ui.contains (Screens.button b) px py = false.
Proof.
  unfold apart, Ui.contains. cbv zeta. intros Hap Hin.
  rewrite !orb_true_iff, !Z.leb_le in Hap.
  rewrite !andb_true_iff, !Z.leb_le, !Z.ltb_lt in Hin.
  apply not_true_is_false. intros Hb.
  rewrite !andb_true_iff, !Z.leb_le, !Z.ltb_lt in Hb. lia.
Qed.

Lemma hits_none (bs : list Screens.Btn) (px py : Z) :
  Forall (fun b => Ui.contains (Screens.button b) px py = false) bs ->
  hits bs px py = 0%nat.
Proof.
  unfold hits. induction 1 as [| b rest Hb Hrest IH]; cbn [filter]; [reflexivity |].
  rewrite Hb. exact IH.
Qed.

(** Rectangles that lie apart: a point is in one of them at most. *)
Lemma all_apart_hits (bs : list Screens.Btn) (px py : Z) :
  all_apart bs = true -> (hits bs px py <= 1)%nat.
Proof.
  induction bs as [| b rest IH]; cbn [all_apart]; intros Hap.
  - unfold hits. simpl. lia.
  - apply andb_true_iff in Hap. destruct Hap as [Hb Hrest].
    unfold hits in *. cbn [filter].
    destruct (Ui.contains (Screens.button b) px py) eqn:Hin.
    + cbn [List.length].
      assert (Hnone : hits rest px py = 0%nat).
      { apply hits_none. apply Forall_forall. intros b' Hb'.
        rewrite forallb_forall in Hb.
        apply (apart_excludes b b' px py (Hb b' Hb') Hin). }
      unfold hits in Hnone. rewrite Hnone. lia.
    + apply IH. exact Hrest.
Qed.

Lemma find_none_of_hits (bs : list Screens.Btn) (px py : Z) :
  hits bs px py = 0%nat ->
  find (fun b => Ui.contains (Screens.button b) px py) bs = None.
Proof.
  unfold hits. induction bs as [| b rest IH]; cbn [filter find]; [reflexivity |].
  destruct (Ui.contains (Screens.button b) px py); cbn [List.length].
  - discriminate.
  - exact IH.
Qed.

(** On a consistent state the buttons of the screen shown lie apart and
    on the panel. *)
Lemma screen_buttons_layout (g : Screens.Globals) :
  consistent (view g) ->
  all_apart (Screens.screen_buttons g) = true
  /\ forallb on_screen (Screens.screen_buttons g) = true.
Proof.
  intros (_ & _ & _ & Hmp & Hmb & Hsb & Hcb).
  cbn [view menu_page menu_buttons settings_buttons comm_menu_buttons] in *.
  change Screens.menu_total_pages with 2 in Hmp.
  unfold Screens.screen_buttons.
  destruct (Main.current_screen (Screens.app g)).
  - rewrite Hmb.
    assert (Hcases : Screens.menu_page g = 0 \/ Screens.menu_page g = 1) by lia.
    destruct Hcases as [-> | ->]; split; vm_compute; reflexivity.
  - split; vm_compute; reflexivity.
  - split; vm_compute; reflexivity.
  - destruct Hsb as [-> | ->]; split; vm_compute; reflexivity.
  - destruct Hcb as [-> | ->]; split; vm_compute; reflexivity.
  - split; vm_compute; reflexivity.
Qed.

End LayoutFacts.

(** X20. The button scan is never ambiguous. After start-up and any
    series of taps (runs of the main loop's button scan at a screen
    point), the buttons of the screen shown are non-empty rectangles on
    the 480 x 320 panel below the title bar, no two of them have a point
    in common, so every point lies in at most one of them; and a scan at a
    point that lies in none changes nothing. In the settings grid the
    k-th button applies theme k, and in the communication menu the k-th
    button opens category k. *)
Theorem taps_are_unambiguous :
  forall (mic_ok : bool) (now0 : Z) (l : list (Z * Z * Z)) (px py now : Z),
    let g := snd (FlowSpec.session mic_ok now0 l) in
    forallb FlowSpec.on_screen (Screens.screen_buttons g) = true
    /\ FlowSpec.all_apart (Screens.screen_buttons g) = true
    /\ (FlowSpec.hits (Screens.screen_buttons g) px py <= 1)%nat
    /\ (FlowSpec.hits (Screens.screen_buttons g) px py = 0%nat ->
        Screens.press px py now g = (Screens.Ok tt, g))
    /\ map (fun b => Ui.on_press (Screens.button b)) FlowSpec.settings_layout
       = map Screens.cb_apply_theme [0; 1; 2; 3; 4]
    /\ map (fun b => Ui.on_press (Screens.button b)) FlowSpec.comm_menu_layout
       = map Screens.cb_open_category [0; 1; 2; 3; 4].
Proof.
  intros mic_ok now0 l px py now g.
  destruct (session_consistent mic_ok now0 l) as (g' & Hrun & Hc).
  assert (Hg : g = g') by (subst g; rewrite Hrun; reflexivity).
  rewrite Hg. clear Hg g.
  destruct (screen_buttons_layout g' Hc) as [Hap Hon].
  split; [exact Hon |]. split; [exact Hap |].
  split; [apply all_apart_hits; exact Hap |].
  split; [| split; reflexivity].
  intros Hnone. unfold Screens.press, Screens.bind, Screens.get.
  rewrite (find_none_of_hits _ _ _ Hnone). reflexivity.
Qed.

(** X21. Paging is clamped. On a consistent state, previous-page on the
    first grounding page and next-page on the last one return with the
    state exactly as it was; otherwise they move the page by one and
    redraw. The same holds for the pages of the menu, whose buttons are
    then those of the new page. *)
Theorem paging_is_clamped :
  forall (g : Screens.Globals) (now : Z),
    FlowSpec.consistent (FlowSpec.view g) ->
    (exists g', Screens.grounding_prev now g = (Screens.Ok tt, g')
                /\ Screens.page_index g' = Z.max 0 (Screens.page_index g - 1)
                /\ (Screens.page_index g = 0 -> g' = g))
    /\ (exists g', Screens.grounding_next now g = (Screens.Ok tt, g')
                   /\ Screens.page_index g'
                      = Z.min (Py.len Screens.GROUNDING_PAGES - 1)
                              (Screens.page_index g + 1)
                   /\ (Screens.page_index g = Py.len Screens.GROUNDING_PAGES - 1 ->
                       g' = g))
    /\ (exists g', Screens.menu_prev now g = (Screens.Ok tt, g')
                   /\ Screens.menu_page g' = Z.max 0 (Screens.menu_page g - 1)
                   /\ Screens.menu_buttons g' = FlowSpec.menu_layout (Screens.menu_page g')
                   /\ (Screens.menu_page g = 0 -> g' = g))
    /\ (exists g', Screens.menu_next now g = (Screens.Ok tt, g')
                   /\ Screens.menu_page g'
                      = Z.min (Screens.menu_total_pages - 1) (Screens.menu_page g + 1)
                   /\ Screens.menu_buttons g' = FlowSpec.menu_layout (Screens.menu_page g')
                   /\ (Screens.menu_page g = Screens.menu_total_pages - 1 -> g' = g)).
Proof.
  intros g now Hc.
  destruct (consistent_theme _ Hc) as [t Ht].
  pose proof Hc as (_ & _ & Hpi & Hmp & Hmb & _).
  split; [| split; [| split]].
  - destruct (has_grounding_prev _ t now Ht Hpi g eq_refl) as ([] & g' & Hrun & Hv).
    exists g'. split; [exact Hrun |].
    destruct (has_fields _ _ Hv) as (_ & _ & _ & _ & _ & Hp' & _).
    split; [exact Hp' |].
    intros Hfirst. unfold Screens.grounding_prev, Screens.bind, Screens.get in Hrun.
    rewrite Hfirst in Hrun. cbn in Hrun. injection Hrun as <-. reflexivity.
  - destruct (has_grounding_next _ t now Ht Hpi g eq_refl) as ([] & g' & Hrun & Hv).
    exists g'. split; [exact Hrun |].
    destruct (has_fields _ _ Hv) as (_ & _ & _ & _ & _ & Hp' & _).
    split; [exact Hp' |].
    intros Hlast. unfold Screens.grounding_next, Screens.bind, Screens.get in Hrun.
    rewrite Hlast, Z.ltb_irrefl in Hrun. injection Hrun as <-. reflexivity.
  - destruct (has_menu_prev _ t now Ht Hmp Hmb g eq_refl) as ([] & g' & Hrun & Hv).
    exists g'. split; [exact Hrun |].
    destruct (has_fields _ _ Hv) as (_ & _ & _ & _ & _ & _ & Hp' & Hb' & _).
    split; [exact Hp' |]. split; [rewrite Hb', Hp'; reflexivity |].
    intros Hfirst. unfold Screens.menu_prev, Screens.bind, Screens.get in Hrun.
    rewrite Hfirst in Hrun. cbn in Hrun. injection Hrun as <-. reflexivity.
  - destruct (has_menu_next _ t now Ht Hmp Hmb g eq_refl) as ([] & g' & Hrun & Hv).
    exists g'. split; [exact Hrun |].
    destruct (has_fields _ _ Hv) as (_ & _ & _ & _ & _ & _ & Hp' & Hb' & _).
    split; [exact Hp' |]. split; [rewrite Hb', Hp'; reflexivity |].
    intros Hlast. unfold Screens.menu_next, Screens.bind, Screens.get in Hrun.
    rewrite Hlast, Z.ltb_irrefl in Hrun. injection Hrun as <-. reflexivity.
Qed.

(** The application just after start-up: the menu shows page 1 of 2 and
    previous-page changes nothing. *)
Lemma paging_is_clamped_witness :
  let g := snd (FlowSpec.session true 0 []) in
  exists g', Screens.menu_prev 5 g = (Screens.Ok tt, g') /\ g' = g.
Proof.
  intros g.
  destruct (session_consistent true 0 []) as (g0 & Hrun & Hc).
  assert (Hg : g = g0) by (subst g; rewrite Hrun; reflexivity).
  destruct (paging_is_clamped g 5) as (_ & _ & (g' & Hprev & _ & _ & Hsame) & _).
  - rewrite Hg. exact Hc.
  - exists g'. split; [exact Hprev |]. apply Hsame. reflexivity.
Defined.

Section PaintFacts.

Import FlowSpec.

Variable v : View.
Variable t : Main.Theme.
Hypothesis Htheme : Py.index Main.THEMES (theme_index v) = Some t.

Lemma shows_th (L : list Main.lcd_call) :
  triple (shows v L) Screens.th (fun t' g => t' = t /\ shows v L g).
Proof.
  intros g [Hv Hl]. exists t, g. split; [| split; [reflexivity | split; assumption]].
  unfold Screens.th, Screens.lift, Main.th, Main.bind, Main.get, Main.index_or_raise.
  destruct (has_fields v g Hv) as (Hti & _). rewrite Hti, Htheme.
  destruct g. reflexivity.
Qed.

Lemma shows_lcd_do (L : list Main.lcd_call) (call : Main.lcd_call) :
  triple (shows v L) (Screens.lcd_do call) (fun _ => shows v (L ++ [call])).
Proof.
  intros g [Hv Hl]. eexists tt, _. split; [reflexivity |].
  split.
  - rewrite <- Hv. destruct g as [st ? ? ? ? ? ?]. destruct st. reflexivity.
  - cbn. rewrite Hl. reflexivity.
Qed.

Lemma shows_draw_border (L : list Main.lcd_call) (x y w h c : Z) :
  triple (shows v L) (Screens.draw_border x y w h c)
         (fun _ => shows v (L ++ [ Main.LcdFillRect x y w 1 c;
                                   Main.LcdFillRect x (y + h - 1) w 1 c;
                                   Main.LcdFillRect x y 1 h c;
                                   Main.LcdFillRect (x + w - 1) y 1 h c ])).
Proof.
  intros g [Hv Hl]. eexists tt, _. split; [reflexivity |].
  split.
  - rewrite <- Hv. destruct g as [st ? ? ? ? ? ?]. destruct st. reflexivity.
  - cbn. rewrite Hl, <- !app_assoc. reflexivity.
Qed.

Lemma shows_floordiv (L : list Main.lcd_call) (a b : Z) :
  b <> 0 ->
  triple (shows v L) (Screens.floordiv a b) (fun q g => q = a / b /\ shows v L g).
Proof.
  intros Hb. unfold Screens.floordiv.
  destruct (Z.eqb_spec b 0); [contradiction |].
  apply triple_ret. intros g Hg. split; [reflexivity | exact Hg].
Qed.

(** The loop of [draw_text_box] draws the lines the box still holds. *)
Lemma shows_text_box_lines (max_lines tx line_h scale : Z) (lines : list string) :
  forall L shown ty,
    triple (shows v L)
      (Screens.text_box_lines lines shown max_lines tx ty line_h t scale)
      (fun _ =>
         shows v (L ++ text_rows (firstn (Z.to_nat (max_lines - shown)) lines)
                         tx ty line_h
                         (if Main.box_bg t =? Main.BLACK then Main.WHITE else Main.BLACK)
                         (Main.box_bg t) scale)).
Proof.
  induction lines as [| line rest IH]; intros L shown ty; cbn [Screens.text_box_lines].
  - apply triple_ret. intros g Hg. rewrite firstn_nil. cbn [text_rows].
    rewrite app_nil_r. exact Hg.
  - destruct (Z.geb_spec shown max_lines) as [Hfull | Hroom].
    + apply triple_ret. intros g Hg.
      replace (Z.to_nat (max_lines - shown)) with 0%nat by lia.
      cbn [firstn text_rows]. rewrite app_nil_r. exact Hg.
    + eapply triple_bind; [apply shows_lcd_do | intros ?].
      eapply triple_post; [apply (IH _ (shown + 1) (ty + line_h)) |].
      intros ? g Hg. cbv beta in *.
      replace (Z.to_nat (max_lines - shown))
        with (S (Z.to_nat (max_lines - (shown + 1)))) by lia.
      cbn [firstn text_rows]. rewrite <- app_assoc in Hg. exact Hg.
Qed.

Lemma shows_draw_text_box (L : list Main.lcd_call) (text : string)
    (x y w h prefer_scale : Z) :
  1 <= prefer_scale ->
  triple (shows v L) (Screens.draw_text_box text x y w h prefer_scale)
    (fun _ =>
       shows v
         (L ++ [ Main.LcdFillRect x y w h (Main.box_bg t);
                 Main.LcdFillRect x y w 1 (Main.box_border t);
                 Main.LcdFillRect x (y + h - 1) w 1 (Main.box_border t);
                 Main.LcdFillRect x y 1 h (Main.box_border t);
                 Main.LcdFillRect (x + w - 1) y 1 h (Main.box_border t) ]
            ++ text_rows (box_shown text w h prefer_scale) (x + 8) (y + 8)
                 (8 * box_scale text w h prefer_scale + 2)
                 (if Main.box_bg t =? Main.BLACK then Main.WHITE else Main.BLACK)
                 (Main.box_bg t) (box_scale text w h prefer_scale))).
Proof.
  intros Hscale. unfold Screens.draw_text_box.
  eapply triple_bind; [apply shows_th | intros t'].
  apply triple_fact. intros ->.
  eapply triple_bind; [apply shows_lcd_do | intros ?].
  eapply triple_bind; [apply shows_draw_border | intros ?].
  cbn [Screens.text_box_scales].
  eapply triple_bind; [apply shows_floordiv; lia | intros max_chars].
  apply triple_fact. intros ->. cbv zeta.
  eapply triple_bind; [apply shows_floordiv; lia | intros max_lines].
  apply triple_fact. intros ->.
  unfold box_shown, box_scale, box_lines, box_capacity.
  destruct (Z.leb_spec (Py.len (Main.wrap_text text ((w - 16) / (8 * prefer_scale))))
                       ((h - 16) / (8 * prefer_scale + 2))) as [Hfits | Hover].
  - cbn [orb].
    eapply triple_post; [apply shows_text_box_lines |].
    intros ? g Hg. cbv beta in *.
    rewrite Z.sub_0_r, <- !app_assoc in Hg. exact Hg.
  - cbn [orb]. destruct (Z.eqb_spec prefer_scale 1) as [-> | Hnot1].
    + eapply triple_post; [apply shows_text_box_lines |].
      intros ? g Hg. cbv beta in *.
      rewrite Z.sub_0_r, <- !app_assoc in Hg. exact Hg.
    + eapply triple_bind; [apply shows_floordiv; lia | intros max_chars].
      apply triple_fact. intros ->. cbv zeta.
      eapply triple_bind; [apply shows_floordiv; lia | intros max_lines].
      apply triple_fact. intros ->.
      change (1 =? 1) with true. rewrite orb_true_r.
      eapply triple_post; [apply shows_text_box_lines |].
      intros ? g Hg. cbv beta in *.
      rewrite Z.sub_0_r, <- !app_assoc in Hg. exact Hg.
Qed.

End PaintFacts.

Section BoxFacts.

Import FlowSpec.

Lemma Forall_prefix {A : Type} (P : A -> Prop) (l : list A) :
  Forall P l -> forall n, Forall P (firstn n l).
Proof.
  induction 1 as [| a rest Ha Hrest IH]; intros [| n]; cbn [firstn];
    constructor; [exact Ha | apply IH].
Qed.

Variables x y w h scale : Z.
Hypothesis Hscale : 1 <= scale.

(** Rows of well-formed lines, the last of which ends above the box's
    lower margin, stay inside the box. *)
Lemma text_rows_inside (fg bg : Z) (lines : list string) :
  forall (ty : Z) (n : nat),
    (List.length lines <= n)%nat ->
    y <= ty ->
    ty + Z.of_nat n * (8 * scale + 2) <= y + h ->
    Forall (WrapSpec.well_formed ((w - 16) / (8 * scale))) lines ->
    Forall (inside_box x y w h)
           (text_rows lines (x + 8) ty (8 * scale + 2) fg bg scale).
Proof.
  induction lines as [| line rest IH]; intros ty n Hlen Hty Hend Hwf;
    cbn [text_rows]; [constructor |].
  cbn [List.length] in Hlen. destruct n as [| n]; [lia |].
  inversion Hwf as [| ? ? [_ Hline] Hrest]; subst.
  constructor.
  - cbn [inside_box]. split; [lia |]. split; [exact Hty |]. split; [nia |].
    destruct Hline as [Hshort | Hword]; [left | right; exact Hword].
    assert (Hq : (w - 16) / (8 * scale) * (8 * scale) <= w - 16).
    { rewrite Z.mul_comm. apply Z.mul_div_le. lia. }
    nia.
  - apply (IH (ty + (8 * scale + 2)) n); [lia | lia | nia | exact Hrest].
Qed.

End BoxFacts.

(** X22. A text box keeps its text inside. With a valid theme, a
    preferred scale of at least 1 and a box of at least one pixel each
    way, [draw_text_box] returns and sends the display the box, its four
    border lines and one text call per line shown, and nothing else: the
    lines are those of [wrap_text] at the preferred scale when they all
    fit, at scale 1 otherwise, cut silently after the last line the box
    holds. Every call stays inside the box, the text 8 pixels inside it,
    save that a line of one over-long word may run over the right edge.
    The grounding pages fit at scale 2 and the contact text at scale 1,
    so none of the texts shipped is cut. *)
Theorem text_box_keeps_text_inside :
  forall (g : Screens.Globals) (t : Main.Theme) (text : string)
         (x y w h prefer_scale : Z),
    Py.index Main.THEMES (Main.theme_index (Screens.app g)) = Some t ->
    1 <= prefer_scale -> 1 <= w -> 1 <= h ->
    let scale := FlowSpec.box_scale text w h prefer_scale in
    let calls :=
      [ Main.LcdFillRect x y w h (Main.box_bg t);
        Main.LcdFillRect x y w 1 (Main.box_border t);
        Main.LcdFillRect x (y + h - 1) w 1 (Main.box_border t);
        Main.LcdFillRect x y 1 h (Main.box_border t);
        Main.LcdFillRect (x + w - 1) y 1 h (Main.box_border t) ]
      ++ FlowSpec.text_rows (FlowSpec.box_shown text w h prefer_scale)
           (x + 8) (y + 8) (8 * scale + 2)
           (if Main.box_bg t =? Main.BLACK then Main.WHITE else Main.BLACK)
           (Main.box_bg t) scale in
    (exists g',
       Screens.draw_text_box text x y w h prefer_scale g = (Screens.Ok tt, g')
       /\ FlowSpec.view g' = FlowSpec.view g
       /\ Main.lcd (Screens.app g') = Main.lcd (Screens.app g) ++ calls)
    /\ Forall (FlowSpec.inside_box x y w h) calls
    /\ (scale = prefer_scale \/ scale = 1)
    /\ (Py.len (FlowSpec.box_lines text w scale) <= FlowSpec.box_capacity h scale ->
        FlowSpec.box_shown text w h prefer_scale = FlowSpec.box_lines text w scale)
    /\ Forall (fun page =>
                 FlowSpec.box_shown page (Main.W - 32) (Main.H - 60 - (Main.NAV_H + 30)) 2
                 = FlowSpec.box_lines page (Main.W - 32) 2)
              Screens.GROUNDING_PAGES
    /\ FlowSpec.box_shown Screens.CONTACT_TEXT (Main.W - 32)
         (Main.H - 60 - (Main.NAV_H + 30)) 2
       = FlowSpec.box_lines Screens.CONTACT_TEXT (Main.W - 32) 1.
Proof.
  intros g t text x y w h prefer_scale Ht Hscale Hw Hh scale calls.
  assert (Hs : scale = prefer_scale \/ scale = 1).
  { subst scale. unfold FlowSpec.box_scale.
    destruct (_ <=? _); [left | right]; reflexivity. }
  assert (Hs1 : 1 <= scale) by lia.
  split; [| split; [| split; [exact Hs | split; [| split]]]].
  - destruct (shows_draw_text_box (FlowSpec.view g) t Ht (Main.lcd (Screens.app g))
                text x y w h prefer_scale Hscale g (conj eq_refl eq_refl))
      as ([] & g' & Hrun & Hv & Hl).
    exists g'. split; [exact Hrun |]. split; [exact Hv |].
    rewrite Hl. subst calls scale. reflexivity.
  - subst calls. apply Forall_app. split.
    + repeat constructor; cbn [FlowSpec.inside_box]; lia.
    + unfold FlowSpec.box_shown. fold scale.
      destruct (Z.le_gt_cases (FlowSpec.box_capacity h scale) 0) as [Hnone | Hsome].
      * replace (Z.to_nat (FlowSpec.box_capacity h scale)) with 0%nat by lia.
        constructor.
      * apply (text_rows_inside x y w h scale Hs1 _ _ _ (y + 8)
                 (Z.to_nat (FlowSpec.box_capacity h scale))).
        -- apply firstn_le_length.
        -- lia.
        -- unfold FlowSpec.box_capacity in *.
           assert (Hq : (h - 16) / (8 * scale + 2) * (8 * scale + 2) <= h - 16).
           { rewrite Z.mul_comm. apply Z.mul_div_le. lia. }
           rewrite Z2Nat.id by lia. lia.
        -- apply Forall_prefix. unfold FlowSpec.box_lines.
           apply wrap_text_ok.
  - intros Hfits. unfold FlowSpec.box_shown. fold scale.
    apply firstn_all2. unfold Py.len in Hfits. lia.
  - repeat constructor; vm_compute; reflexivity.
  - vm_compute. reflexivity.
Qed.

(** The first grounding page in a 448 x 150 box, in the default theme. *)
Lemma text_box_keeps_text_inside_witness :
  exists g',
    Screens.draw_text_box (nth 0 Screens.GROUNDING_PAGES EmptyString) 16 60 448 150 2
      (Screens.initial false) = (Screens.Ok tt, g')
    /\ FlowSpec.view g' = FlowSpec.view (Screens.initial false).
Proof.
  destruct (index_in_bounds Main.THEMES
              (Main.theme_index (Screens.app (Screens.initial false))))
    as [t Ht]; [vm_compute; split; [discriminate | reflexivity] |].
  destruct (text_box_keeps_text_inside (Screens.initial false) t
              (nth 0 Screens.GROUNDING_PAGES EmptyString) 16 60 448 150 2 Ht)
    as ((g' & Hrun & Hv & _) & _); [lia | lia | lia |].
  exists g'. split; assumption.
Defined.

(** X23. [apply_theme] stores the index before it is checked. With an
    index of the theme list it returns, the theme is the chosen one, the
    screen shown is the settings screen and the theme buttons are rebuilt;
    the other variables of the view keep their values. With an index past
    either end of the list it raises [IndexError] with the bad index
    already stored and nothing drawn, and every later screen raises the
    same error at its first look at the theme. *)
Theorem apply_theme_stores_index_unchecked :
  forall (g : Screens.Globals) (idx now : Z),
    (0 <= idx < Py.len Main.THEMES ->
     exists g',
       Screens.apply_theme idx now g = (Screens.Ok tt, g')
       /\ FlowSpec.view g'
          = FlowSpec.with_settings_buttons
              (FlowSpec.with_screen (FlowSpec.with_theme (FlowSpec.view g) idx)
                                    Main.SCREEN_SETTINGS)
              FlowSpec.settings_layout)
    /\ (idx < - Py.len Main.THEMES \/ Py.len Main.THEMES <= idx ->
        exists g',
          Screens.apply_theme idx now g
          = (Screens.Raise (Screens.Builtin (Py.IndexError "list index out of range")), g')
          /\ FlowSpec.view g' = FlowSpec.with_theme (FlowSpec.view g) idx
          /\ Main.lcd (Screens.app g') = Main.lcd (Screens.app g)
          /\ forall now',
               fst (Screens.show_menu now' g')
               = Screens.Raise (Screens.Builtin (Py.IndexError "list index out of range"))).
Proof.
  intros g idx now. split.
  - intros Hidx.
    destruct (has_apply_theme (FlowSpec.view g) idx now Hidx g eq_refl)
      as ([] & g' & Hrun & Hv).
    exists g'. split; [exact Hrun | exact Hv].
  - intros Hbad.
    assert (Hnone : Py.index Main.THEMES idx = None).
    { unfold Py.index. change (Z.of_nat (List.length Main.THEMES)) with (Py.len Main.THEMES).
      destruct (Z.leb_spec 0 idx); destruct (Z.ltb_spec idx (Py.len Main.THEMES));
        destruct (Z.leb_spec (- Py.len Main.THEMES) idx);
        destruct (Z.ltb_spec idx 0); cbn [andb]; try reflexivity; lia. }
    destruct g as [st pi mp mb sb cb sl]. destruct st.
    eexists. split; [| split; [| split]].
    + unfold Screens.apply_theme, Screens.show_settings, Screens.bind,
        Screens.set_theme_index, Screens.th, Screens.lift, Main.th, Main.bind,
        Main.get, Main.index_or_raise.
      cbn [Screens.with_app Screens.app Main.theme_index]. rewrite Hnone. reflexivity.
    + reflexivity.
    + reflexivity.
    + intros now'.
      unfold Screens.show_menu, Screens.draw_menu, Screens.bind,
        Screens.set_current_screen, Main.set_current_screen, Screens.th,
        Screens.lift, Main.th, Main.bind, Main.get, Main.index_or_raise.
      cbn [Screens.with_app Screens.app Main.theme_index]. rewrite Hnone. reflexivity.
Qed.

Section SpeakFacts.

Import FlowSpec.

Lemma lift_ok {A : Type} (c : Main.Run A) (g : Screens.Globals) (a : A) (st' : Main.App) :
  c (Screens.app g) = (Py.Ok a, st') ->
  Screens.lift c g = (Screens.Ok a, Screens.with_app g st').
Proof. intros H. unfold Screens.lift. rewrite H. reflexivity. Qed.

(** The callback of NEXT run [n] times moves [n] cards on and stops at
    the last. *)
Lemma nexts_run (t : Main.Theme) (now : Z) (n : nat) :
  forall g,
    Py.index Main.THEMES (Main.theme_index (Screens.app g)) = Some t ->
    0 <= Main.comm_card_index (Screens.app g) < Py.len (Main.comm_cards (Screens.app g)) ->
    exists g',
      nexts n now g = (Screens.Ok tt, g')
      /\ app_view (Screens.app g')
         = (Main.theme_index (Screens.app g), Main.current_screen (Screens.app g),
            Main.comm_cards (Screens.app g), Main.comm_cat_name (Screens.app g),
            Z.min (Py.len (Main.comm_cards (Screens.app g)) - 1)
                  (Main.comm_card_index (Screens.app g) + Z.of_nat n))
      /\ Main.console (Screens.app g') = Main.console (Screens.app g).
Proof.
  induction n as [| n IH]; intros g Ht Hin.
  - exists g. split; [reflexivity |]. split; [| reflexivity].
    unfold app_view. f_equal. lia.
  - destruct (app_comm_next (Screens.app g) now t Ht Hin) as (st1 & Hrun & Hview & Hout).
    unfold app_view in Hview. injection Hview as Hti Hcs Hcc Hcn Hci.
    destruct (IH (Screens.with_app g st1)) as (g' & Hrun' & Hview' & Hout').
    + cbn [Screens.with_app Screens.app]. rewrite Hti. exact Ht.
    + cbn [Screens.with_app Screens.app]. rewrite Hcc, Hci. lia.
    + exists g'. cbn [nexts Screens.run_callback]. unfold Screens.bind.
      rewrite (lift_ok _ g tt st1 Hrun). split; [exact Hrun' |].
      cbn [Screens.with_app Screens.app] in Hview', Hout'.
      rewrite Hview', Hout', Hti, Hcs, Hcc, Hcn, Hci.
      split; [| exact Hout]. f_equal. lia.
Qed.

End SpeakFacts.

(** X24. SPEAK says the card on display. From any state with a valid
    theme, run the callback of category button [idx] ([open_category]),
    then the callback of NEXT ([comm_next]) [n] times, then the callback of
    SPEAK. All of it returns; the card index is [n], or the last index of
    the category when [n] is beyond it; and the console receives one
    line, [SPEAK: ] followed by the phrase of that card of that
    category. *)
Theorem speak_says_the_card_on_display :
  forall (g : Screens.Globals) (idx now : Z) (n : nat),
    0 <= Main.theme_index (Screens.app g) < Py.len Main.THEMES ->
    0 <= idx < Py.len Main.COMM_CATEGORIES ->
    exists cat_name cards bg_ fg_ icon phrase cbg cfg g',
      Py.index Main.COMM_CATEGORIES idx = Some (cat_name, cards, bg_, fg_)
      /\ Py.index cards (Z.min (Py.len cards - 1) (Z.of_nat n))
         = Some (icon, phrase, cbg, cfg)
      /\ Screens.bind (Screens.run_callback (Screens.cb_open_category idx) now)
           (fun _ => Screens.bind (FlowSpec.nexts n now)
              (fun _ => Screens.run_callback Screens.cb_speak_card now)) g
         = (Screens.Ok tt, g')
      /\ Main.comm_cards (Screens.app g') = cards
      /\ Main.comm_card_index (Screens.app g') = Z.min (Py.len cards - 1) (Z.of_nat n)
      /\ Main.console (Screens.app g')
         = Main.console (Screens.app g) ++ [("SPEAK: " ++ phrase)%string].
Proof.
  intros g idx now n Hti Hidx.
  destruct (index_in_bounds _ _ Hti) as [t Ht].
  destruct (app_open_category (Screens.app g) now idx t Ht Hidx)
    as (st1 & cat_name & cards & bg_ & fg_ & Hopen & Hcat & Hlen & Hview1 & Hout1).
  unfold FlowSpec.app_view in Hview1. injection Hview1 as Hti1 Hcs1 Hcc1 Hcn1 Hci1.
  destruct (nexts_run t now n (Screens.with_app g st1))
    as (g2 & Hnexts & Hview2 & Hout2).
  { cbn [Screens.with_app Screens.app]. rewrite Hti1. exact Ht. }
  { cbn [Screens.with_app Screens.app]. rewrite Hcc1, Hci1. lia. }
  cbn [Screens.with_app Screens.app] in Hview2, Hout2.
  rewrite Hcc1, Hci1, Z.add_0_l in Hview2.
  unfold FlowSpec.app_view in Hview2. injection Hview2 as _ _ Hcc2 _ Hci2.
  destruct (index_in_bounds cards (Z.min (Py.len cards - 1) (Z.of_nat n)))
    as [[[[icon phrase] cbg] cfg] Hcard]; [lia |].
  exists cat_name, cards, bg_, fg_, icon, phrase, cbg, cfg.
  eexists. split; [exact Hcat |]. split; [exact Hcard |].
  split; [| split; [| split]].
  - cbn [Screens.run_callback]. unfold Screens.bind at 1.
    rewrite (lift_ok _ g tt st1 Hopen).
    unfold Screens.bind at 1. rewrite Hnexts.
    unfold Screens.bind, Screens.get, Screens.index_or_raise.
    rewrite Hcc2, Hci2, Hcard. cbn [Screens.ret]. reflexivity.
  - cbn. exact Hcc2.
  - cbn. exact Hci2.
  - cbn. rewrite Hout2, Hout1. reflexivity.
Qed.

(** The default state, the second category, the callback of NEXT run
    twice. *)
Lemma speak_says_the_card_on_display_witness :
  exists g',
    Screens.bind (Screens.run_callback (Screens.cb_open_category 1) 0)
      (fun _ => Screens.bind (FlowSpec.nexts 2 0)
         (fun _ => Screens.run_callback Screens.cb_speak_card 0)) (Screens.initial false)
    = (Screens.Ok tt, g')
    /\ Main.comm_card_index (Screens.app g') = 2.
Proof.
  destruct (speak_says_the_card_on_display (Screens.initial false) 1 0 2)
    as (cat_name & cards & bg_ & fg_ & icon & phrase & cbg & cfg & g'
        & Hcat & _ & Hrun & _ & Hidx & _).
  - vm_compute. split; [discriminate | reflexivity].
  - vm_compute. split; [discriminate | reflexivity].
  - exists g'. split; [exact Hrun |].
    rewrite Hidx. vm_compute in Hcat. injection Hcat as _ <- _ _. reflexivity.
Defined.
